(** * PhysicsFS flat archivers: GRP (BUILD groupfiles) and MVL (Descent II
    movielibs).

    A shallow embedding of [archivers/grp.c] and [archivers/mvl.c]: the
    archive opener, the directory loader, the binary-search lookup and the
    clamped file handle, over a small in-memory model of the platform
    layer.  C integers are [Z] with their wrap-around written out, C
    strings are byte buffers read up to their first NUL, and the platform
    state (files, open descriptors) is threaded explicitly.  A function
    that fails returns the error its BAIL macro sets.  Memory allocation
    is taken to succeed. *)

From Stdlib Require Import ZArith Lia List Bool.
From Stdlib Require Import Strings.Byte Strings.String.
From Stdlib Require Import Sorting.Permutation Sorting.Sorted.
From stdpp Require Import base option list gmap strings.

Open Scope Z_scope.

(** ** Machine integers *)

(** [PHYSFS_uint32]: arithmetic is modulo 2^32. *)
Definition u32 (x : Z) : Z := x mod 2 ^ 32.

(** [(PHYSFS_sint32) x] for an unsigned 32-bit [x]: two's complement. *)
Definition s32 (x : Z) : Z :=
  let y := x mod 2 ^ 32 in if y <? 2 ^ 31 then y else y - 2 ^ 32.

(** The range of a [PHYSFS_uint32] variable. *)
Definition is_u32 (x : Z) : Prop := 0 <= x < 2 ^ 32.

(** The range of a [PHYSFS_uint64] variable. *)
Definition is_u64 (x : Z) : Prop := 0 <= x < 2 ^ 64.

(** [(PHYSFS_uint64) x]: the value a [PHYSFS_uint64] parameter receives
    when the caller passes [x]. *)
Definition u64 (x : Z) : Z := x mod 2 ^ 64.

(** ** Bytes and C strings *)

(** A [char] read as [unsigned char], the way [strcmp] compares. *)
Definition uchar (b : byte) : Z := Z.of_N (Byte.to_N b).

(** The bytes of a string literal, without the terminator. *)
Definition chars (s : string) : list byte := list_byte_of_string s.

(** A C string is a buffer of bytes read up to its first NUL; the end of
    the buffer also ends the string (the embedding of ['\0'] past a
    literal).  [cstr] is the string a buffer holds. *)
Fixpoint cstr (s : list byte) : list byte :=
  match s with
  | [] => []
  | c :: t => if uchar c =? 0 then [] else c :: cstr t
  end.

(** [strlen(s)] *)
Definition strlen (s : list byte) : Z := Z.of_nat (length (cstr s)).

(** [strchr(s, c)] for [c <> '\0']: the offset of the first [c] in the
    string, [None] for the null pointer. *)
Fixpoint strchr (s : list byte) (c : byte) : option nat :=
  match s with
  | [] => None
  | x :: t =>
      if uchar x =? 0 then None
      else if uchar x =? uchar c then Some O
      else option_map S (strchr t c)
  end.

(** The comparison loop shared by [strcmp] and the case-folding
    comparison: the difference of the first pair of characters that
    differ after [fold], 0 when both strings end together. *)
Fixpoint c_compare (fold : Z -> Z) (s1 s2 : list byte) : Z :=
  match s1, s2 with
  | [], [] => 0
  | [], c2 :: _ => 0 - fold (uchar c2)
  | c1 :: _, [] => fold (uchar c1) - 0
  | c1 :: t1, c2 :: t2 =>
      if fold (uchar c1) =? fold (uchar c2)
      then (if uchar c1 =? 0 then 0 else c_compare fold t1 t2)
      else fold (uchar c1) - fold (uchar c2)
  end.

(** [strcmp(s1, s2)] of the C library. *)
Definition strcmp (s1 s2 : list byte) : Z := c_compare (fun c => c) s1 s2.

(** ASCII [tolower]. *)
Definition tolower (c : Z) : Z :=
  if (65 <=? c) && (c <=? 90) then c + 32 else c.

(** Modelled from the spec: [__PHYSFS_platformStricmp] of the platform
    layer, the locale-independent case-folding comparison used for
    case-insensitive lookup. *)
Definition __PHYSFS_platformStricmp (s1 s2 : list byte) : Z :=
  c_compare tolower s1 s2.

(** Modelled from the spec: [PHYSFS_swapULE32] applied to four bytes read
    from the file, i.e. their value as a little-endian unsigned 32-bit
    integer, whatever the host byte order. *)
Definition PHYSFS_swapULE32 (bs : list byte) : Z :=
  match bs with
  | [b0; b1; b2; b3] =>
      uchar b0 + uchar b1 * 2 ^ 8 + uchar b2 * 2 ^ 16 + uchar b3 * 2 ^ 24
  | _ => 0
  end.

(** ** Error codes and results *)

(** The error strings the BAIL macros hand to [__PHYSFS_setError].
    [ERR_PLATFORM] stands for a failure whose error the code leaves to the
    platform layer ([BAIL_IF_MACRO(c, NULL, r)] and the bare
    [goto ..._failed] / [return(0)] after a short read). *)
Inductive PHYSFS_error : Set :=
| ERR_NOT_SUPPORTED
| ERR_ARC_IS_READ_ONLY
| ERR_UNSUPPORTED_ARCHIVE
| ERR_NO_SUCH_FILE
| ERR_INVALID_ARGUMENT
| ERR_PAST_EOF
| ERR_NOT_A_DIR
| ERR_PLATFORM.

Inductive result (A : Type) : Type :=
| Ok (a : A)
| Fail (e : PHYSFS_error).
Arguments Ok {A} a.
Arguments Fail {A} e.

(** ** The platform layer *)

(** A file of the physical file system. *)
Record file := { f_mtime : Z; f_data : list byte }.

(** An open read descriptor: the bytes of the file and the position. *)
Record raw_handle := { rh_data : list byte; rh_pos : Z }.

(** The platform state: the files, the table of open descriptors and the
    next descriptor to hand out. *)
Record world := {
  w_files : gmap string file;
  w_open : gmap nat raw_handle;
  w_next : nat
}.

(** Modelled from the spec: [__PHYSFS_platformOpenRead], [openRead(path)]
    of the platform layer; the null handle is [None]. *)
Definition __PHYSFS_platformOpenRead (w : world) (filename : string)
  : world * option nat :=
  match w_files w !! filename with
  | None => (w, None)
  | Some f =>
      let fd := w_next w in
      ({| w_files := w_files w;
          w_open := <[fd := {| rh_data := f_data f; rh_pos := 0 |}]> (w_open w);
          w_next := S fd |}, Some fd)
  end.

(** Modelled from the spec: [__PHYSFS_platformRead],
    [read(handle, buf, objSize, objCount) -> objectsRead]: whole objects
    only, fewer than asked when the file is short, -1 on a descriptor that
    is not open.  The bytes stored into [buf] are returned. *)
Definition __PHYSFS_platformRead (w : world) (fd : nat) (objSize objCount : Z)
  : world * Z * list byte :=
  match w_open w !! fd with
  | None => (w, -1, [])
  | Some rh =>
      let avail := Z.of_nat (length (rh_data rh)) - rh_pos rh in
      let n := Z.max 0 (Z.min objCount (avail / objSize)) in
      let buf := take (Z.to_nat (n * objSize))
                      (drop (Z.to_nat (rh_pos rh)) (rh_data rh)) in
      ({| w_files := w_files w;
          w_open := <[fd := {| rh_data := rh_data rh;
                               rh_pos := rh_pos rh + n * objSize |}]> (w_open w);
          w_next := w_next w |}, n, buf)
  end.

(** Modelled from the spec: [__PHYSFS_platformSeek],
    [seek(handle, absoluteOffset) -> bool].  The spec does not say when a
    reposition fails; this platform refuses a descriptor that is not open
    and an offset past the end of the file.  The properties of the
    archivers use that a reposition inside the file succeeds; where a
    failing reposition matters, its failure is a hypothesis. *)
Definition __PHYSFS_platformSeek (w : world) (fd : nat) (pos : Z)
  : world * bool :=
  match w_open w !! fd with
  | None => (w, false)
  | Some rh =>
      if (0 <=? pos) && (pos <=? Z.of_nat (length (rh_data rh)))
      then ({| w_files := w_files w;
               w_open := <[fd := {| rh_data := rh_data rh; rh_pos := pos |}]>
                           (w_open w);
               w_next := w_next w |}, true)
      else (w, false)
  end.

(** Modelled from the spec: [__PHYSFS_platformClose],
    [close(handle) -> bool]. *)
Definition __PHYSFS_platformClose (w : world) (fd : nat) : world * bool :=
  match w_open w !! fd with
  | None => (w, false)
  | Some _ =>
      ({| w_files := w_files w;
          w_open := delete fd (w_open w);
          w_next := w_next w |}, true)
  end.

(** Modelled from the spec: [__PHYSFS_platformGetLastModTime],
    [getLastModifiedTime(path) -> timestamp], -1 for a missing file. *)
Definition __PHYSFS_platformGetLastModTime (w : world) (filename : string)
  : Z :=
  match w_files w !! filename with
  | None => -1
  | Some f => f_mtime f
  end.

(** [memcmp(s1, s2, n)]; both buffers hold at least [n] bytes wherever
    the archivers call it. *)
Fixpoint memcmp (s1 s2 : list byte) (n : nat) {struct n} : Z :=
  match n with
  | O => 0
  | S n' =>
      match s1, s2 with
      | c1 :: t1, c2 :: t2 =>
          if uchar c1 =? uchar c2 then memcmp t1 t2 n'
          else uchar c1 - uchar c2
      | _, _ => 0
      end
  end.

(** ** [__PHYSFS_sort] *)

Section Sort.
Context {A : Type}.
Variable cmpfn : list A -> nat -> nat -> Z.
Variable swapfn : list A -> nat -> nat -> list A.

(** One sweep over the indices [i .. i + n]: neighbours that compare
    out of order are swapped. *)
Fixpoint sort_sweep (a : list A) (i : nat) (n : nat) : list A :=
  match n with
  | O => a
  | S n' =>
      let a' := if cmpfn a i (S i) >? 0 then swapfn a i (S i) else a in
      sort_sweep a' (S i) n'
  end.

Fixpoint sort_sweeps (a : list A) (max : nat) (k : nat) : list A :=
  match k with
  | O => a
  | S k' => sort_sweeps (sort_sweep a O (max - 1)) max k'
  end.

(** Modelled from the spec: [__PHYSFS_sort] of the core, the generic
    in-place sort primitive taking a comparator and a swap callback over
    the index range [0 .. max - 1]; equal keys keep their relative
    order.  Here: [max] sweeps of neighbour swaps. *)
Definition __PHYSFS_sort (a : list A) (max : Z) : list A :=
  sort_sweeps a (Z.to_nat max) (Z.to_nat max).
End Sort.

(** Modelled from the spec: [__PHYSFS_addToLinkedStringList] of the core,
    as [enumerateFiles] calls it (length -1, the whole string): a copy of
    the string [str] is appended to the list [retval]. *)
Definition __PHYSFS_addToLinkedStringList (retval : list (list byte))
    (str : list byte) : list (list byte) :=
  retval ++ [cstr str].

(** ** The binary search loop *)

Section FindLoop.
Context {E : Type}.
Variable name_of : E -> list byte.
Variable compare : list byte -> list byte -> Z.

(** The [while (lo <= hi)] loop of [grp_find_entry] and
    [mvl_find_entry], which differ in the entry type and in the
    comparison called.  [lo], [hi] and [middle] are [PHYSFS_sint32].
    The second component lists the indices [middle] at which
    [a[middle]] was read, in order.  The first is [None] where C leaves
    the behaviour undefined (a read outside the array) and when [fuel]
    runs out; [hi + 1 - lo] iterations always suffice. *)
Fixpoint find_entry_loop (fuel : nat) (a : list E) (name : list byte)
    (lo hi : Z) {struct fuel} : option (result E) * list Z :=
  if lo <=? hi then
    match fuel with
    | O => (None, [])
    | S fuel' =>
        let middle := s32 (lo + Z.quot (s32 (hi - lo)) 2) in
        match (if 0 <=? middle then a !! Z.to_nat middle else None) with
        | None => (None, [middle])
        | Some e =>
            let rc := compare name (name_of e) in
            if rc =? 0 then (Some (Ok e), [middle])
            else
              let '(r, t) :=
                if rc >? 0
                then find_entry_loop fuel' a name (s32 (middle + 1)) hi
                else find_entry_loop fuel' a name lo (s32 (middle - 1)) in
              (r, middle :: t)
        end
    end
  else (Some (Fail ERR_NO_SUCH_FILE), []).
End FindLoop.

(** ** GRP: data *)

(** [GRPentry]; [grp_name] is the 13-byte buffer [char name[13]]. *)
Record GRPentry := {
  grp_name : list byte;
  grp_startPos : Z;
  grp_size : Z
}.

Record GRPinfo := {
  grp_filename : string;
  grp_last_mod_time : Z;
  grp_entryCount : Z;
  grp_entries : list GRPentry
}.

Record GRPfileinfo := {
  grp_handle : nat;
  grp_entry : GRPentry;
  grp_curPos : Z
}.

(** ** GRP: opening and loading *)

(** [grp_open]: on success the open descriptor and the entry count, the
    two out-parameters [*fh] and [*count]; on failure [*fh] is NULL. *)
Definition grp_open (w : world) (filename : string) (forWriting : bool)
  : world * result (nat * Z) :=
  if forWriting then (w, Fail ERR_ARC_IS_READ_ONLY) else
  match __PHYSFS_platformOpenRead w filename with
  | (w1, None) => (w1, Fail ERR_PLATFORM)
  | (w1, Some fh) =>
      let '(w2, rc, buf) := __PHYSFS_platformRead w1 fh 12 1 in
      if negb (rc =? 1)
      then (fst (__PHYSFS_platformClose w2 fh), Fail ERR_PLATFORM)
      else if negb (memcmp buf (chars "KenSilverman") 12 =? 0)
      then (fst (__PHYSFS_platformClose w2 fh), Fail ERR_UNSUPPORTED_ARCHIVE)
      else
        let '(w3, rc, count) := __PHYSFS_platformRead w2 fh 4 1 in
        if negb (rc =? 1)
        then (fst (__PHYSFS_platformClose w3 fh), Fail ERR_PLATFORM)
        else (w3, Ok (fh, PHYSFS_swapULE32 count))
  end.

(** [GRP_isArchive]: the probe; a descriptor [grp_open] left open is
    closed. *)
Definition GRP_isArchive (w : world) (filename : string) (forWriting : bool)
  : world * result unit :=
  match grp_open w filename forWriting with
  | (w1, Ok (fh, _)) => (fst (__PHYSFS_platformClose w1 fh), Ok tt)
  | (w1, Fail e) => (w1, Fail e)
  end.

Definition grp_entry_cmp (a : list GRPentry) (one two : nat) : Z :=
  match a !! one, a !! two with
  | Some e1, Some e2 => strcmp (grp_name e1) (grp_name e2)
  | _, _ => 0
  end.

Definition grp_entry_swap (a : list GRPentry) (one two : nat)
  : list GRPentry :=
  match a !! one, a !! two with
  | Some first, Some second => <[two := first]> (<[one := second]> a)
  | _, _ => a
  end.

(** The [for] loop of [grp_load_entries]: [fileCount] directory records
    are read in file order, [location] is the running offset. *)
Fixpoint grp_load_entries_loop (w : world) (fh : nat) (fileCount : nat)
    (location : Z) : world * option (list GRPentry) :=
  match fileCount with
  | O => (w, Some [])
  | S n =>
      let '(w1, rc, buf) := __PHYSFS_platformRead w fh 12 1 in
      if negb (rc =? 1)
      then (fst (__PHYSFS_platformClose w1 fh), None)
      else
        let name := buf ++ [x00] in
        let name := match strchr name " " with
                    | Some ptr => <[ptr := x00]> name
                    | None => name
                    end in
        let '(w2, rc, sz) := __PHYSFS_platformRead w1 fh 4 1 in
        if negb (rc =? 1)
        then (fst (__PHYSFS_platformClose w2 fh), None)
        else
          let size := PHYSFS_swapULE32 sz in
          let entry := {| grp_name := name; grp_startPos := location;
                          grp_size := size |} in
          match grp_load_entries_loop w2 fh n (u32 (location + size)) with
          | (w3, Some rest) => (w3, Some (entry :: rest))
          | (w3, None) => (w3, None)
          end
  end.

(** [grp_load_entries] up to its last statement: the array
    [info->entries] as the loop leaves it, before the sort, i.e. the
    directory table in on-disk order.  [malloc] is taken to succeed. *)
Definition grp_read_table (w : world) (name : string) (forWriting : bool)
  : world * result (Z * list GRPentry) :=
  match grp_open w name forWriting with
  | (w1, Fail e) => (w1, Fail e)
  | (w1, Ok (fh, fileCount)) =>
      let location := u32 (16 + u32 (16 * fileCount)) in
      match grp_load_entries_loop w1 fh (Z.to_nat fileCount) location with
      | (w2, None) => (w2, Fail ERR_PLATFORM)
      | (w2, Some entries) =>
          (fst (__PHYSFS_platformClose w2 fh), Ok (fileCount, entries))
      end
  end.

(** [grp_load_entries]: the table is read, then sorted; the result is
    [info->entryCount] and [info->entries]. *)
Definition grp_load_entries (w : world) (name : string) (forWriting : bool)
  : world * result (Z * list GRPentry) :=
  match grp_read_table w name forWriting with
  | (w1, Fail e) => (w1, Fail e)
  | (w1, Ok (entryCount, entries)) =>
      (w1, Ok (entryCount,
               __PHYSFS_sort grp_entry_cmp grp_entry_swap entries entryCount))
  end.

(** [GRP_openArchive]: the container, or the failure of the load.  The
    modification time is asked for first, as in the source. *)
Definition GRP_openArchive (w : world) (name : string) (forWriting : bool)
  : world * result GRPinfo :=
  let modtime := __PHYSFS_platformGetLastModTime w name in
  match grp_load_entries w name forWriting with
  | (w1, Fail e) => (w1, Fail e)
  | (w1, Ok (entryCount, entries)) =>
      (w1, Ok {| grp_filename := name; grp_last_mod_time := modtime;
                 grp_entryCount := entryCount; grp_entries := entries |})
  end.

(** ** GRP: lookup *)

(** [grp_find_entry], with the indices of the entries it read. *)
Definition grp_find_entry_traced (info : GRPinfo) (name : list byte)
  : option (result GRPentry) * list Z :=
  let ptr := strchr name "." in
  let a := grp_entries info in
  let lo := 0 in
  let hi := s32 (u32 (grp_entryCount info - 1)) in
  if match ptr with
     | Some p => strlen (drop p name) >? 4
     | None => false
     end
  then (Some (Fail ERR_NO_SUCH_FILE), [])
  else if strlen name >? 12 then (Some (Fail ERR_NO_SUCH_FILE), [])
  else if bool_decide (strchr name "/" <> None)
  then (Some (Fail ERR_NO_SUCH_FILE), [])
  else find_entry_loop grp_name strcmp (Z.to_nat (hi + 1 - lo)) a name lo hi.

Definition grp_find_entry (info : GRPinfo) (name : list byte)
  : option (result GRPentry) :=
  fst (grp_find_entry_traced info name).

Definition GRP_exists (info : GRPinfo) (name : list byte) : option bool :=
  match grp_find_entry info name with
  | None => None
  | Some (Ok _) => Some true
  | Some (Fail _) => Some false
  end.

(** [GRP_openRead]: the world, [*fileExists] and the new handle. *)
Definition GRP_openRead (w : world) (info : GRPinfo) (fnm : list byte)
  : option (world * bool * result GRPfileinfo) :=
  match grp_find_entry info fnm with
  | None => None
  | Some (Fail e) => Some (w, false, Fail e)
  | Some (Ok entry) =>
      match __PHYSFS_platformOpenRead w (grp_filename info) with
      | (w1, None) => Some (w1, true, Fail ERR_PLATFORM)
      | (w1, Some h) =>
          match __PHYSFS_platformSeek w1 h (grp_startPos entry) with
          | (w2, false) => Some (w2, true, Fail ERR_PLATFORM)
          | (w2, true) =>
              Some (w2, true,
                    Ok {| grp_handle := h; grp_entry := entry;
                          grp_curPos := 0 |})
          end
      end
  end.

(** The [for] loop of [GRP_enumerateFiles], at index [i] with [n] entries
    to go; [None] where it would read past the array. *)
Fixpoint grp_enumerate_loop (a : list GRPentry) (i : nat) (n : nat)
    (retval : list (list byte)) : option (list (list byte)) :=
  match n with
  | O => Some retval
  | S n' =>
      match a !! i with
      | None => None
      | Some entry =>
          grp_enumerate_loop a (S i) n'
            (__PHYSFS_addToLinkedStringList retval (grp_name entry))
      end
  end.

(** [GRP_enumerateFiles]; the null list is the empty list. *)
Definition GRP_enumerateFiles (info : GRPinfo) (dirname : list byte)
    (omitSymLinks : bool) : option (result (list (list byte))) :=
  let max := grp_entryCount info in
  if negb (uchar (hd x00 dirname) =? 0) then Some (Fail ERR_NOT_A_DIR)
  else
    match grp_enumerate_loop (grp_entries info) O (Z.to_nat max) [] with
    | None => None
    | Some retval => Some (Ok retval)
    end.

(** [GRP_isDirectory]: the return value and [*fileExists]. *)
Definition GRP_isDirectory (info : GRPinfo) (name : list byte)
  : option (bool * bool) :=
  match GRP_exists info name with
  | None => None
  | Some fileExists => Some (false, fileExists)
  end.

(** [GRP_isSymLink]: the return value and [*fileExists]. *)
Definition GRP_isSymLink (info : GRPinfo) (name : list byte)
  : option (bool * bool) :=
  match GRP_exists info name with
  | None => None
  | Some fileExists => Some (false, fileExists)
  end.

(** [GRP_getLastModTime]: the return value and [*fileExists]. *)
Definition GRP_getLastModTime (info : GRPinfo) (name : list byte)
  : option (Z * bool) :=
  match grp_find_entry info name with
  | None => None
  | Some (Ok _) => Some (grp_last_mod_time info, true)
  | Some (Fail _) => Some (-1, false)
  end.

(** ** GRP: the file handle *)

(** [GRP_read]: the world, the handle, the return value [rc] and the
    bytes stored into [buffer].  [objSize = 0] divides by zero in C. *)
Definition GRP_read (w : world) (finfo : GRPfileinfo) (objSize objCount : Z)
  : world * GRPfileinfo * Z * list byte :=
  let entry := grp_entry finfo in
  let bytesLeft := u32 (grp_size entry - grp_curPos finfo) in
  let objsLeft := bytesLeft / objSize in
  let objCount := if objsLeft <? objCount then objsLeft else objCount in
  let '(w1, rc, buffer) :=
    __PHYSFS_platformRead w (grp_handle finfo) objSize objCount in
  let curPos :=
    if rc >? 0 then u32 (grp_curPos finfo + u32 (rc * objSize))
    else grp_curPos finfo in
  (w1, {| grp_handle := grp_handle finfo; grp_entry := entry;
          grp_curPos := curPos |}, rc, buffer).

Definition GRP_write (w : world) (finfo : GRPfileinfo) (buffer : list byte)
    (objSize objCount : Z) : world * GRPfileinfo * result Z :=
  (w, finfo, Fail ERR_NOT_SUPPORTED).

Definition GRP_eof (finfo : GRPfileinfo) : bool :=
  grp_curPos finfo >=? grp_size (grp_entry finfo).

Definition GRP_tell (finfo : GRPfileinfo) : Z := grp_curPos finfo.

(** [GRP_seek]; [offset] is a [PHYSFS_uint64]: whatever the caller
    passes arrives converted to that type, a negative value as a value
    of at least 2^63. *)
Definition GRP_seek (w : world) (finfo : GRPfileinfo) (offset : Z)
  : world * GRPfileinfo * result unit :=
  let entry := grp_entry finfo in
  let offset := u64 offset in
  if offset <? 0 then (w, finfo, Fail ERR_INVALID_ARGUMENT)
  else if offset >=? grp_size entry then (w, finfo, Fail ERR_PAST_EOF)
  else
    match __PHYSFS_platformSeek w (grp_handle finfo)
            (grp_startPos entry + offset) with
    | (w1, true) =>
        (w1, {| grp_handle := grp_handle finfo; grp_entry := entry;
                grp_curPos := u32 offset |}, Ok tt)
    | (w1, false) => (w1, finfo, Fail ERR_PLATFORM)
    end.

Definition GRP_fileLength (finfo : GRPfileinfo) : Z :=
  grp_size (grp_entry finfo).

(** [GRP_fileClose]: a close the platform refuses is a failure, and the
    handle stays. *)
Definition GRP_fileClose (w : world) (finfo : GRPfileinfo)
  : world * result unit :=
  match __PHYSFS_platformClose w (grp_handle finfo) with
  | (w1, false) => (w1, Fail ERR_PLATFORM)
  | (w1, true) => (w1, Ok tt)
  end.

(** ** GRP: the write path *)

Definition GRP_openWrite (w : world) (info : GRPinfo) (name : list byte)
  : world * result GRPfileinfo :=
  (w, Fail ERR_NOT_SUPPORTED).

Definition GRP_openAppend (w : world) (info : GRPinfo) (name : list byte)
  : world * result GRPfileinfo :=
  (w, Fail ERR_NOT_SUPPORTED).

Definition GRP_remove (w : world) (info : GRPinfo) (name : list byte)
  : world * result unit :=
  (w, Fail ERR_NOT_SUPPORTED).

Definition GRP_mkdir (w : world) (info : GRPinfo) (name : list byte)
  : world * result unit :=
  (w, Fail ERR_NOT_SUPPORTED).

(** ** MVL: data *)

(** [MVLentry]; [mvl_name] is the 13-byte buffer [char name[13]], filled
    from the file as it is.  A name field without a NUL makes the C code
    read past the buffer; here the string then ends with the buffer. *)
Record MVLentry := {
  mvl_name : list byte;
  mvl_startPos : Z;
  mvl_size : Z
}.

Record MVLinfo := {
  mvl_filename : string;
  mvl_last_mod_time : Z;
  mvl_entryCount : Z;
  mvl_entries : list MVLentry
}.

Record MVLfileinfo := {
  mvl_handle : nat;
  mvl_entry : MVLentry;
  mvl_curPos : Z
}.

(** ** MVL: opening and loading *)

(** [mvl_open]: on success the open descriptor and the entry count, the
    two out-parameters [*fh] and [*count]; on failure [*fh] is NULL. *)
Definition mvl_open (w : world) (filename : string) (forWriting : bool)
  : world * result (nat * Z) :=
  if forWriting then (w, Fail ERR_ARC_IS_READ_ONLY) else
  match __PHYSFS_platformOpenRead w filename with
  | (w1, None) => (w1, Fail ERR_PLATFORM)
  | (w1, Some fh) =>
      let '(w2, rc, buf) := __PHYSFS_platformRead w1 fh 4 1 in
      if negb (rc =? 1)
      then (fst (__PHYSFS_platformClose w2 fh), Fail ERR_PLATFORM)
      else if negb (memcmp buf (chars "DMVL") 4 =? 0)
      then (fst (__PHYSFS_platformClose w2 fh), Fail ERR_UNSUPPORTED_ARCHIVE)
      else
        let '(w3, rc, count) := __PHYSFS_platformRead w2 fh 4 1 in
        if negb (rc =? 1)
        then (fst (__PHYSFS_platformClose w3 fh), Fail ERR_PLATFORM)
        else (w3, Ok (fh, PHYSFS_swapULE32 count))
  end.

(** [MVL_isArchive]: the probe; a descriptor [mvl_open] left open is
    closed. *)
Definition MVL_isArchive (w : world) (filename : string) (forWriting : bool)
  : world * result unit :=
  match mvl_open w filename forWriting with
  | (w1, Ok (fh, _)) => (fst (__PHYSFS_platformClose w1 fh), Ok tt)
  | (w1, Fail e) => (w1, Fail e)
  end.

Definition mvl_entry_cmp (a : list MVLentry) (one two : nat) : Z :=
  if bool_decide (one <> two) then
    match a !! one, a !! two with
    | Some e1, Some e2 => strcmp (mvl_name e1) (mvl_name e2)
    | _, _ => 0
    end
  else 0.

Definition mvl_entry_swap (a : list MVLentry) (one two : nat)
  : list MVLentry :=
  if bool_decide (one <> two) then
    match a !! one, a !! two with
    | Some first, Some second => <[two := first]> (<[one := second]> a)
    | _, _ => a
    end
  else a.

(** The [for] loop of [mvl_load_entries]: [fileCount] directory records
    are read in file order, [location] is the running offset. *)
Fixpoint mvl_load_entries_loop (w : world) (fh : nat) (fileCount : nat)
    (location : Z) : world * option (list MVLentry) :=
  match fileCount with
  | O => (w, Some [])
  | S n =>
      let '(w1, rc, name) := __PHYSFS_platformRead w fh 13 1 in
      if negb (rc =? 1)
      then (fst (__PHYSFS_platformClose w1 fh), None)
      else
        let '(w2, rc, sz) := __PHYSFS_platformRead w1 fh 4 1 in
        if negb (rc =? 1)
        then (fst (__PHYSFS_platformClose w2 fh), None)
        else
          let size := PHYSFS_swapULE32 sz in
          let entry := {| mvl_name := name; mvl_startPos := location;
                          mvl_size := size |} in
          match mvl_load_entries_loop w2 fh n (u32 (location + size)) with
          | (w3, Some rest) => (w3, Some (entry :: rest))
          | (w3, None) => (w3, None)
          end
  end.

(** [mvl_load_entries] up to its last statement: the array
    [info->entries] as the loop leaves it, before the sort, i.e. the
    directory table in on-disk order.  [malloc] is taken to succeed. *)
Definition mvl_read_table (w : world) (name : string) (forWriting : bool)
  : world * result (Z * list MVLentry) :=
  match mvl_open w name forWriting with
  | (w1, Fail e) => (w1, Fail e)
  | (w1, Ok (fh, fileCount)) =>
      let location := u32 (8 + u32 (17 * fileCount)) in
      match mvl_load_entries_loop w1 fh (Z.to_nat fileCount) location with
      | (w2, None) => (w2, Fail ERR_PLATFORM)
      | (w2, Some entries) =>
          (fst (__PHYSFS_platformClose w2 fh), Ok (fileCount, entries))
      end
  end.

(** [mvl_load_entries]: the table is read, then sorted; the result is
    [info->entryCount] and [info->entries]. *)
Definition mvl_load_entries (w : world) (name : string) (forWriting : bool)
  : world * result (Z * list MVLentry) :=
  match mvl_read_table w name forWriting with
  | (w1, Fail e) => (w1, Fail e)
  | (w1, Ok (entryCount, entries)) =>
      (w1, Ok (entryCount,
               __PHYSFS_sort mvl_entry_cmp mvl_entry_swap entries entryCount))
  end.

(** [MVL_openArchive]: the container, or the failure of the load.  The
    modification time is asked for first, as in the source. *)
Definition MVL_openArchive (w : world) (name : string) (forWriting : bool)
  : world * result MVLinfo :=
  let modtime := __PHYSFS_platformGetLastModTime w name in
  match mvl_load_entries w name forWriting with
  | (w1, Fail e) => (w1, Fail e)
  | (w1, Ok (entryCount, entries)) =>
      (w1, Ok {| mvl_filename := name; mvl_last_mod_time := modtime;
                 mvl_entryCount := entryCount; mvl_entries := entries |})
  end.

(** ** MVL: lookup *)

(** [mvl_find_entry], with the indices of the entries it read. *)
Definition mvl_find_entry_traced (info : MVLinfo) (name : list byte)
  : option (result MVLentry) * list Z :=
  let ptr := strchr name "." in
  let a := mvl_entries info in
  let lo := 0 in
  let hi := s32 (u32 (mvl_entryCount info - 1)) in
  if match ptr with
     | Some p => strlen (drop p name) >? 4
     | None => false
     end
  then (Some (Fail ERR_NO_SUCH_FILE), [])
  else if strlen name >? 12 then (Some (Fail ERR_NO_SUCH_FILE), [])
  else if bool_decide (strchr name "/" <> None)
  then (Some (Fail ERR_NO_SUCH_FILE), [])
  else find_entry_loop mvl_name __PHYSFS_platformStricmp (Z.to_nat (hi + 1 - lo)) a name lo hi.

Definition mvl_find_entry (info : MVLinfo) (name : list byte)
  : option (result MVLentry) :=
  fst (mvl_find_entry_traced info name).

Definition MVL_exists (info : MVLinfo) (name : list byte) : option bool :=
  match mvl_find_entry info name with
  | None => None
  | Some (Ok _) => Some true
  | Some (Fail _) => Some false
  end.

(** [MVL_openRead]: the world, [*fileExists] and the new handle. *)
Definition MVL_openRead (w : world) (info : MVLinfo) (fnm : list byte)
  : option (world * bool * result MVLfileinfo) :=
  match mvl_find_entry info fnm with
  | None => None
  | Some (Fail e) => Some (w, false, Fail e)
  | Some (Ok entry) =>
      match __PHYSFS_platformOpenRead w (mvl_filename info) with
      | (w1, None) => Some (w1, true, Fail ERR_PLATFORM)
      | (w1, Some h) =>
          match __PHYSFS_platformSeek w1 h (mvl_startPos entry) with
          | (w2, false) => Some (w2, true, Fail ERR_PLATFORM)
          | (w2, true) =>
              Some (w2, true,
                    Ok {| mvl_handle := h; mvl_entry := entry;
                          mvl_curPos := 0 |})
          end
      end
  end.

(** The buffer holds a NUL: read as a C string it ends inside the
    buffer. *)
Definition terminated (buf : list byte) : bool :=
  existsb (fun b => uchar b =? 0) buf.

(** The [for] loop of [MVL_enumerateFiles], at index [i] with [n] entries
    to go; [None] where it would read past the array, and where
    [entry->name], which [mvl_load_entries] stores unterminated, holds no
    NUL: the string copy then reads past [name[13]]. *)
Fixpoint mvl_enumerate_loop (a : list MVLentry) (i : nat) (n : nat)
    (retval : list (list byte)) : option (list (list byte)) :=
  match n with
  | O => Some retval
  | S n' =>
      match a !! i with
      | None => None
      | Some entry =>
          if terminated (mvl_name entry)
          then mvl_enumerate_loop a (S i) n'
                 (__PHYSFS_addToLinkedStringList retval (mvl_name entry))
          else None
      end
  end.

(** [MVL_enumerateFiles]; the null list is the empty list. *)
Definition MVL_enumerateFiles (info : MVLinfo) (dirname : list byte)
    (omitSymLinks : bool) : option (result (list (list byte))) :=
  let max := mvl_entryCount info in
  if negb (uchar (hd x00 dirname) =? 0) then Some (Fail ERR_NOT_A_DIR)
  else
    match mvl_enumerate_loop (mvl_entries info) O (Z.to_nat max) [] with
    | None => None
    | Some retval => Some (Ok retval)
    end.

(** [MVL_isDirectory]: the return value and [*fileExists]. *)
Definition MVL_isDirectory (info : MVLinfo) (name : list byte)
  : option (bool * bool) :=
  match MVL_exists info name with
  | None => None
  | Some fileExists => Some (false, fileExists)
  end.

(** [MVL_isSymLink]: the return value and [*fileExists]. *)
Definition MVL_isSymLink (info : MVLinfo) (name : list byte)
  : option (bool * bool) :=
  match MVL_exists info name with
  | None => None
  | Some fileExists => Some (false, fileExists)
  end.

(** [MVL_getLastModTime]: the return value and [*fileExists]. *)
Definition MVL_getLastModTime (info : MVLinfo) (name : list byte)
  : option (Z * bool) :=
  match mvl_find_entry info name with
  | None => None
  | Some (Ok _) => Some (mvl_last_mod_time info, true)
  | Some (Fail _) => Some (-1, false)
  end.

(** ** MVL: the file handle *)

(** [MVL_read]: the world, the handle, the return value [rc] and the
    bytes stored into [buffer].  [objSize = 0] divides by zero in C. *)
Definition MVL_read (w : world) (finfo : MVLfileinfo) (objSize objCount : Z)
  : world * MVLfileinfo * Z * list byte :=
  let entry := mvl_entry finfo in
  let bytesLeft := u32 (mvl_size entry - mvl_curPos finfo) in
  let objsLeft := bytesLeft / objSize in
  let objCount := if objsLeft <? objCount then objsLeft else objCount in
  let '(w1, rc, buffer) :=
    __PHYSFS_platformRead w (mvl_handle finfo) objSize objCount in
  let curPos :=
    if rc >? 0 then u32 (mvl_curPos finfo + u32 (rc * objSize))
    else mvl_curPos finfo in
  (w1, {| mvl_handle := mvl_handle finfo; mvl_entry := entry;
          mvl_curPos := curPos |}, rc, buffer).

Definition MVL_write (w : world) (finfo : MVLfileinfo) (buffer : list byte)
    (objSize objCount : Z) : world * MVLfileinfo * result Z :=
  (w, finfo, Fail ERR_NOT_SUPPORTED).

Definition MVL_eof (finfo : MVLfileinfo) : bool :=
  mvl_curPos finfo >=? mvl_size (mvl_entry finfo).

Definition MVL_tell (finfo : MVLfileinfo) : Z := mvl_curPos finfo.

(** [MVL_seek]; [offset] is a [PHYSFS_uint64]: whatever the caller
    passes arrives converted to that type, a negative value as a value
    of at least 2^63. *)
Definition MVL_seek (w : world) (finfo : MVLfileinfo) (offset : Z)
  : world * MVLfileinfo * result unit :=
  let entry := mvl_entry finfo in
  let offset := u64 offset in
  if offset <? 0 then (w, finfo, Fail ERR_INVALID_ARGUMENT)
  else if offset >=? mvl_size entry then (w, finfo, Fail ERR_PAST_EOF)
  else
    match __PHYSFS_platformSeek w (mvl_handle finfo)
            (mvl_startPos entry + offset) with
    | (w1, true) =>
        (w1, {| mvl_handle := mvl_handle finfo; mvl_entry := entry;
                mvl_curPos := u32 offset |}, Ok tt)
    | (w1, false) => (w1, finfo, Fail ERR_PLATFORM)
    end.

Definition MVL_fileLength (finfo : MVLfileinfo) : Z :=
  mvl_size (mvl_entry finfo).

(** [MVL_fileClose]: a close the platform refuses is a failure, and the
    handle stays. *)
Definition MVL_fileClose (w : world) (finfo : MVLfileinfo)
  : world * result unit :=
  match __PHYSFS_platformClose w (mvl_handle finfo) with
  | (w1, false) => (w1, Fail ERR_PLATFORM)
  | (w1, true) => (w1, Ok tt)
  end.

(** ** MVL: the write path *)

Definition MVL_openWrite (w : world) (info : MVLinfo) (name : list byte)
  : world * result MVLfileinfo :=
  (w, Fail ERR_NOT_SUPPORTED).

Definition MVL_openAppend (w : world) (info : MVLinfo) (name : list byte)
  : world * result MVLfileinfo :=
  (w, Fail ERR_NOT_SUPPORTED).

Definition MVL_remove (w : world) (info : MVLinfo) (name : list byte)
  : world * result unit :=
  (w, Fail ERR_NOT_SUPPORTED).

Definition MVL_mkdir (w : world) (info : MVLinfo) (name : list byte)
  : world * result unit :=
  (w, Fail ERR_NOT_SUPPORTED).

(** ** Example archives *)

Definition byte_of_Z (z : Z) : byte :=
  match Byte.of_N (Z.to_N (z mod 256)) with Some b => b | None => x00 end.

(** The four bytes of [n] as a little-endian unsigned 32-bit integer. *)
Definition le32 (n : Z) : list byte :=
  [byte_of_Z n; byte_of_Z (n / 2 ^ 8); byte_of_Z (n / 2 ^ 16);
   byte_of_Z (n / 2 ^ 24)].

(** A world holding one file and no open descriptor. *)
Definition one_file (path : string) (data : list byte) : world :=
  {| w_files := {[ path := {| f_mtime := 1000; f_data := data |} ]};
     w_open := ∅; w_next := O |}.

(** The GRP archive of the specification's scenario. *)
Definition scenario_grp : list byte :=
  chars "KenSilverman" ++ le32 2
  ++ chars "FILE1       " ++ le32 5
  ++ chars "FILE2       " ++ le32 3
  ++ chars "hello" ++ chars "abc".


(** An MVL archive with the two entries [B] (2 bytes) and [a] (1 byte). *)
Definition mixed_case_mvl : list byte :=
  chars "DMVL" ++ le32 2
  ++ chars "B" ++ replicate 12 x00 ++ le32 2
  ++ chars "a" ++ replicate 12 x00 ++ le32 1
  ++ chars "xyz".

(** ** Vocabulary of the statements *)

(** What one sweep of [__PHYSFS_sort] does to the list [x :: r], read off
    the list instead of the indices: the larger of two neighbours is
    carried to the right. *)
Fixpoint carry {A : Type} (cmp : A -> A -> Z) (x : A) (r : list A) : list A :=
  match r with
  | [] => [x]
  | y :: t => if cmp x y >? 0 then y :: carry cmp x t else x :: carry cmp y t
  end.

Definition pass {A : Type} (cmp : A -> A -> Z) (l : list A) : list A :=
  match l with
  | [] => []
  | x :: r => carry cmp x r
  end.

(** [part cmp j l]: all but at most [j] leading elements of [l] are in
    their final, sorted place. *)
Definition part {A : Type} (cmp : A -> A -> Z) (j : nat) (l : list A) : Prop :=
  exists u s,
    l = u ++ s /\ (length u <= j)%nat /\
    StronglySorted (fun x y => cmp x y <= 0) s /\
    Forall (fun a => Forall (fun b => cmp a b <= 0) s) u.

(** [sorted_by cmp l]: every earlier element compares [<= 0] against every
    later one. *)
Definition sorted_by {A : Type} (cmp : A -> A -> Z) (l : list A) : Prop :=
  forall (i j : nat) (x y : A),
    (i < j)%nat -> l !! i = Some x -> l !! j = Some y -> cmp x y <= 0.

(** The comparisons the two formats are specified with, on entries. *)
Definition grp_cmp (x y : GRPentry) : Z := strcmp (grp_name x) (grp_name y).
Definition mvl_cmp (x y : MVLentry) : Z := strcmp (mvl_name x) (mvl_name y).
Definition mvl_icmp (x y : MVLentry) : Z :=
  __PHYSFS_platformStricmp (mvl_name x) (mvl_name y).

(** [chain startPos size location l]: every entry of [l], in order, starts
    where the running 32-bit cursor stands, the cursor starting at
    [location] and advancing by the size of each entry. *)
Fixpoint chain {E : Type} (startPos size : E -> Z) (location : Z)
    (l : list E) : Prop :=
  match l with
  | [] => True
  | e :: r =>
      startPos e = location /\ chain startPos size (u32 (location + size e)) r
  end.

(** The bytes the entries of [l] take together. *)
Definition total_size {E : Type} (size : E -> Z) (l : list E) : Z :=
  fold_right (fun e acc => size e + acc) 0 l.

(** The handle [finfo] with its cursor at [c]. *)
Definition grp_at (finfo : GRPfileinfo) (c : Z) : GRPfileinfo :=
  {| grp_handle := grp_handle finfo; grp_entry := grp_entry finfo;
     grp_curPos := c |}.

Definition mvl_at (finfo : MVLfileinfo) (c : Z) : MVLfileinfo :=
  {| mvl_handle := mvl_handle finfo; mvl_entry := mvl_entry finfo;
     mvl_curPos := c |}.

(** The invariant of the C types and of the cursor of a handle. *)
Definition grp_handle_ok (finfo : GRPfileinfo) : Prop :=
  is_u32 (grp_size (grp_entry finfo)) /\
  is_u32 (grp_startPos (grp_entry finfo)) /\
  0 <= grp_curPos finfo <= grp_size (grp_entry finfo).

Definition mvl_handle_ok (finfo : MVLfileinfo) : Prop :=
  is_u32 (mvl_size (mvl_entry finfo)) /\
  is_u32 (mvl_startPos (mvl_entry finfo)) /\
  0 <= mvl_curPos finfo <= mvl_size (mvl_entry finfo).

(** The descriptor of the handle is open at the byte the cursor stands
    for, on a file that holds the whole entry. *)
Definition grp_handle_backed (w : world) (finfo : GRPfileinfo) : Prop :=
  exists rh,
    w_open w !! grp_handle finfo = Some rh /\
    rh_pos rh = grp_startPos (grp_entry finfo) + grp_curPos finfo /\
    grp_startPos (grp_entry finfo) + grp_size (grp_entry finfo)
    <= Z.of_nat (length (rh_data rh)).

Definition mvl_handle_backed (w : world) (finfo : MVLfileinfo) : Prop :=
  exists rh,
    w_open w !! mvl_handle finfo = Some rh /\
    rh_pos rh = mvl_startPos (mvl_entry finfo) + mvl_curPos finfo /\
    mvl_startPos (mvl_entry finfo) + mvl_size (mvl_entry finfo)
    <= Z.of_nat (length (rh_data rh)).

(** The three format-level impossibilities lookups rule out, in the
    words of the specification: a name of more than 12 characters, a name
    with a path separator, a ['.'] followed by more than 3 characters. *)
Definition too_long (name : list byte) : Prop := strlen name > 12.

Definition has_separator (name : list byte) : Prop :=
  exists i : nat, cstr name !! i = Some "/"%byte.

Definition long_extension (name : list byte) : Prop :=
  exists i : nat,
    cstr name !! i = Some "."%byte /\ strlen name - (Z.of_nat i + 1) > 3.

(** The three tests of [grp_find_entry] and [mvl_find_entry], as the code
    writes them, taken together. *)
Definition ruled_out (name : list byte) : bool :=
  match strchr name "." with
  | Some p => strlen (drop p name) >? 4
  | None => false
  end
  || (strlen name >? 12)
  || bool_decide (strchr name "/" <> None).

(** The world after [__PHYSFS_platformOpenRead] handed out the next
    descriptor on [data] and the position was moved to [pos]. *)
Definition opened_at (w : world) (data : list byte) (pos : Z) : world :=
  {| w_files := w_files w;
     w_open := <[w_next w := {| rh_data := data; rh_pos := pos |}]> (w_open w);
     w_next := S (w_next w) |}.

(** The world after that descriptor was closed again. *)
Definition opened_closed (w : world) : world :=
  {| w_files := w_files w;
     w_open := delete (w_next w) (w_open w);
     w_next := S (w_next w) |}.

(** ** Fixtures *)

(** The container and an open handle of the scenario archive. *)
Definition scenario_world : world := one_file "s.grp" scenario_grp.

Definition scenario_file1 : GRPentry :=
  {| grp_name := chars "FILE1" ++ [x00] ++ chars "      " ++ [x00];
     grp_startPos := 48; grp_size := 5 |}.

Definition scenario_file2 : GRPentry :=
  {| grp_name := chars "FILE2" ++ [x00] ++ chars "      " ++ [x00];
     grp_startPos := 53; grp_size := 3 |}.

Definition scenario_info : GRPinfo :=
  {| grp_filename := "s.grp"; grp_last_mod_time := 1000;
     grp_entryCount := 2;
     grp_entries := [scenario_file1; scenario_file2] |}.

Definition scenario_loaded : world :=
  {| w_files := w_files scenario_world; w_open := ∅; w_next := 1 |}.

Definition scenario_opened : world :=
  {| w_files := w_files scenario_world;
     w_open := {[ 1%nat := {| rh_data := scenario_grp; rh_pos := 48 |} ]};
     w_next := 2 |}.

Definition scenario_handle : GRPfileinfo :=
  {| grp_handle := 1; grp_entry := scenario_file1; grp_curPos := 0 |}.

(** The same scenario as an MVL archive, lower-case names. *)
Definition scenario_mvl : list byte :=
  chars "DMVL" ++ le32 2
  ++ chars "file1" ++ replicate 8 x00 ++ le32 5
  ++ chars "file2" ++ replicate 8 x00 ++ le32 3
  ++ chars "hello" ++ chars "abc".

Definition mvl_world : world := one_file "s.mvl" scenario_mvl.

Definition mvl_file1 : MVLentry :=
  {| mvl_name := chars "file1" ++ replicate 8 x00;
     mvl_startPos := 42; mvl_size := 5 |}.

Definition mvl_file2 : MVLentry :=
  {| mvl_name := chars "file2" ++ replicate 8 x00;
     mvl_startPos := 47; mvl_size := 3 |}.

Definition mvl_info : MVLinfo :=
  {| mvl_filename := "s.mvl"; mvl_last_mod_time := 1000;
     mvl_entryCount := 2; mvl_entries := [mvl_file1; mvl_file2] |}.

Definition mvl_loaded : world :=
  {| w_files := w_files mvl_world; w_open := ∅; w_next := 1 |}.

Definition mvl_opened : world :=
  {| w_files := w_files mvl_world;
     w_open := {[ 1%nat := {| rh_data := scenario_mvl; rh_pos := 42 |} ]};
     w_next := 2 |}.

Definition mvl_handle1 : MVLfileinfo :=
  {| mvl_handle := 1; mvl_entry := mvl_file1; mvl_curPos := 0 |}.

(** A GRP archive whose directory lists an empty entry and sizes that
    add up past 2^32; the data area is left out, the loader reads the
    directory only. *)
Definition wrap_grp : list byte :=
  chars "KenSilverman" ++ le32 3
  ++ chars "A           " ++ le32 0
  ++ chars "B           " ++ le32 4294967280
  ++ chars "C           " ++ le32 1.

Definition wrap_table : list GRPentry :=
  [ {| grp_name := chars "A" ++ [x00] ++ chars "          " ++ [x00];
       grp_startPos := 64; grp_size := 0 |};
    {| grp_name := chars "B" ++ [x00] ++ chars "          " ++ [x00];
       grp_startPos := 64; grp_size := 4294967280 |};
    {| grp_name := chars "C" ++ [x00] ++ chars "          " ++ [x00];
       grp_startPos := 48; grp_size := 1 |} ].

(** A GRP archive with one entry, [A.TEXT], of one byte. *)
Definition dotted_grp : list byte :=
  chars "KenSilverman" ++ le32 1
  ++ chars "A.TEXT      " ++ le32 1
  ++ chars "x".

Definition dotted_entry : GRPentry :=
  {| grp_name := chars "A.TEXT" ++ [x00] ++ chars "     " ++ [x00];
     grp_startPos := 32; grp_size := 1 |}.

Definition dotted_info : GRPinfo :=
  {| grp_filename := "d.grp"; grp_last_mod_time := 1000;
     grp_entryCount := 1; grp_entries := [dotted_entry] |}.

(** The entries of [mixed_case_mvl]. *)
Definition mixed_B : MVLentry :=
  {| mvl_name := chars "B" ++ replicate 12 x00;
     mvl_startPos := 42; mvl_size := 2 |}.

Definition mixed_a : MVLentry :=
  {| mvl_name := chars "a" ++ replicate 12 x00;
     mvl_startPos := 44; mvl_size := 1 |}.

Definition mixed_info : MVLinfo :=
  {| mvl_filename := "m.mvl"; mvl_last_mod_time := 1000;
     mvl_entryCount := 2; mvl_entries := [mixed_B; mixed_a] |}.

(** An empty archive of each format. *)
Definition empty_grp : list byte := chars "KenSilverman" ++ le32 0.
Definition empty_mvl : list byte := chars "DMVL" ++ le32 0.

(** The layout of the directory table in the words of the
    specification, in exact integers: the first entry starts at [first],
    every next entry starts where the previous one ends, and the offsets
    increase strictly. *)
Definition layout_as_stated {E : Type} (startPos size : E -> Z) (first : Z)
    (tbl : list E) : Prop :=
  (forall e, tbl !! O = Some e -> startPos e = first) /\
  (forall k e e', tbl !! k = Some e -> tbl !! S k = Some e' ->
                  startPos e' = startPos e + size e /\
                  startPos e < startPos e').

Definition empty_grp_info : GRPinfo :=
  {| grp_filename := "e.grp"; grp_last_mod_time := 1000;
     grp_entryCount := 0; grp_entries := [] |}.

Definition empty_mvl_info : MVLinfo :=
  {| mvl_filename := "e.mvl"; mvl_last_mod_time := 1000;
     mvl_entryCount := 0; mvl_entries := [] |}.

(** Files that are no archives. *)
Definition junk_world : world := one_file "j.bin" (chars "NotAGroupFile!!!").
Definition short_world : world := one_file "k.bin" (chars "Ken").

(** The scenario handles after four bytes were read. *)
Definition scenario_opened4 : world :=
  {| w_files := w_files scenario_world;
     w_open := {[ 1%nat := {| rh_data := scenario_grp; rh_pos := 52 |} ]};
     w_next := 2 |}.

Definition mvl_opened4 : world :=
  {| w_files := w_files mvl_world;
     w_open := {[ 1%nat := {| rh_data := scenario_mvl; rh_pos := 46 |} ]};
     w_next := 2 |}.

(** ** Vocabulary of the further properties *)

(** What [grp_load_entries] makes of the 12 name bytes of a record: a
    terminator is appended and the first space becomes a terminator. *)
Definition grp_normalize (buf : list byte) : list byte :=
  let name := buf ++ [x00] in
  match strchr name " " with
  | Some ptr => <[ptr := x00]> name
  | None => name
  end.

(** The [n] directory records that start at byte [pos] of [data], read
    off the bytes, the running offset starting at [location]. *)
Fixpoint grp_directory (data : list byte) (pos : Z) (n : nat) (location : Z)
  : list GRPentry :=
  match n with
  | O => []
  | S n' =>
      let size := PHYSFS_swapULE32 (take 4 (drop (Z.to_nat (pos + 12)) data)) in
      {| grp_name := grp_normalize (take 12 (drop (Z.to_nat pos) data));
         grp_startPos := location; grp_size := size |}
      :: grp_directory data (pos + 16) n' (u32 (location + size))
  end.

Fixpoint mvl_directory (data : list byte) (pos : Z) (n : nat) (location : Z)
  : list MVLentry :=
  match n with
  | O => []
  | S n' =>
      let size := PHYSFS_swapULE32 (take 4 (drop (Z.to_nat (pos + 13)) data)) in
      {| mvl_name := take 13 (drop (Z.to_nat pos) data);
         mvl_startPos := location; mvl_size := size |}
      :: mvl_directory data (pos + 17) n' (u32 (location + size))
  end.

(** The entry count in the header of a file. *)
Definition grp_count (data : list byte) : Z :=
  PHYSFS_swapULE32 (take 4 (drop 12 data)).

Definition mvl_count (data : list byte) : Z :=
  PHYSFS_swapULE32 (take 4 (drop 4 data)).

(** A file starts with the signature and holds its whole directory
    table. *)
Definition grp_well_formed (data : list byte) : Prop :=
  take 12 data = chars "KenSilverman" /\
  16 + 16 * grp_count data <= Z.of_nat (length data).

Definition mvl_well_formed (data : list byte) : Prop :=
  take 4 data = chars "DMVL" /\
  8 + 17 * mvl_count data <= Z.of_nat (length data).

(** [same_but fd w w']: from [w] to [w'] nothing changed but, at most,
    the descriptor [fd]. *)
Definition same_but (fd : nat) (w w' : world) : Prop :=
  w_files w' = w_files w /\ w_next w' = w_next w /\
  forall fd', fd' <> fd -> w_open w' !! fd' = w_open w !! fd'.

(** The descriptor of the handle is open on the bytes [data], which hold
    the whole entry, at the byte the cursor stands for. *)
Definition grp_handle_on (w : world) (finfo : GRPfileinfo)
    (data : list byte) : Prop :=
  w_open w !! grp_handle finfo
  = Some {| rh_data := data;
            rh_pos := grp_startPos (grp_entry finfo) + grp_curPos finfo |} /\
  grp_startPos (grp_entry finfo) + grp_size (grp_entry finfo)
  <= Z.of_nat (length data).

Definition mvl_handle_on (w : world) (finfo : MVLfileinfo)
    (data : list byte) : Prop :=
  w_open w !! mvl_handle finfo
  = Some {| rh_data := data;
            rh_pos := mvl_startPos (mvl_entry finfo) + mvl_curPos finfo |} /\
  mvl_startPos (mvl_entry finfo) + mvl_size (mvl_entry finfo)
  <= Z.of_nat (length data).

(** The bytes of [data] from offset [pos], [n] of them. *)
Definition slice (data : list byte) (pos n : Z) : list byte :=
  take (Z.to_nat n) (drop (Z.to_nat pos) data).

(** One call on an open handle, and what a call leaves behind: the
    platform state and the handle. *)
Inductive handle_op : Type :=
  | op_read (objSize objCount : Z)
  | op_seek (offset : Z).

(** The arguments a caller may pass: [objSize] divides, [objCount] is
    unsigned. *)
Definition op_sane (op : handle_op) : Prop :=
  match op with
  | op_read objSize objCount => 0 < objSize /\ 0 <= objCount
  | op_seek _ => True
  end.

Definition grp_apply (st : world * GRPfileinfo) (op : handle_op)
  : world * GRPfileinfo :=
  match op with
  | op_read objSize objCount =>
      let '(w', finfo', _, _) := GRP_read (fst st) (snd st) objSize objCount in
      (w', finfo')
  | op_seek offset =>
      let '(w', finfo', _) := GRP_seek (fst st) (snd st) offset in
      (w', finfo')
  end.

Definition mvl_apply (st : world * MVLfileinfo) (op : handle_op)
  : world * MVLfileinfo :=
  match op with
  | op_read objSize objCount =>
      let '(w', finfo', _, _) := MVL_read (fst st) (snd st) objSize objCount in
      (w', finfo')
  | op_seek offset =>
      let '(w', finfo', _) := MVL_seek (fst st) (snd st) offset in
      (w', finfo')
  end.

(** A name with its upper-case ASCII letters turned to lower case. *)
Definition lower_byte (b : byte) : byte := byte_of_Z (tolower (uchar b)).

Definition lower (s : list byte) : list byte := map lower_byte s.

(** ** Archives as a packer writes them *)

(** A directory record: the name padded to its field, then the size. *)
Definition grp_record (name : list byte) (size : Z) : list byte :=
  name ++ replicate (12 - length name) " "%byte ++ le32 size.

Definition mvl_record (name : list byte) (size : Z) : list byte :=
  name ++ replicate (13 - length name) x00 ++ le32 size.

(** The archive that holds [files], each a name and its content:
    signature, count, one record per file, then the contents in the
    same order. *)
Definition grp_archive (files : list (list byte * list byte)) : list byte :=
  chars "KenSilverman" ++ le32 (Z.of_nat (length files))
  ++ concat (map (fun nf => grp_record (fst nf) (Z.of_nat (length (snd nf))))
                 files)
  ++ concat (map snd files).

Definition mvl_archive (files : list (list byte * list byte)) : list byte :=
  chars "DMVL" ++ le32 (Z.of_nat (length files))
  ++ concat (map (fun nf => mvl_record (fst nf) (Z.of_nat (length (snd nf))))
                 files)
  ++ concat (map snd files).

(** Name, offset and size of each of [files], the first content starting
    at [location]. *)
Fixpoint layout (files : list (list byte * list byte)) (location : Z)
  : list (list byte * Z * Z) :=
  match files with
  | [] => []
  | nf :: r =>
      (fst nf, location, Z.of_nat (length (snd nf)))
      :: layout r (location + Z.of_nat (length (snd nf)))
  end.

(** The names a name field can hold: at most 12 characters, none of
    them NUL, and in a GRP archive none of them a space. *)
Definition grp_name_ok (name : list byte) : Prop :=
  (length name <= 12)%nat /\
  Forall (fun b => uchar b <> 0 /\ uchar b <> uchar " ") name.

Definition mvl_name_ok (name : list byte) : Prop :=
  (length name <= 12)%nat /\ Forall (fun b => uchar b <> 0) name.

(** What the properties say of an entry: the string of its name, its
    offset and its size. *)
Definition grp_triple (e : GRPentry) : list byte * Z * Z :=
  (cstr (grp_name e), grp_startPos e, grp_size e).

Definition mvl_triple (e : MVLentry) : list byte * Z * Z :=
  (cstr (mvl_name e), mvl_startPos e, mvl_size e).

(** ASCII [toupper], the other way to fold the case. *)
Definition toupper (c : Z) : Z :=
  if (97 <=? c) && (c <=? 122) then c - 32 else c.

(** A character whose place in the order does not depend on how the
    case is folded: a lower-case letter, or a character below ['A']. *)
Definition plain_char (b : byte) : Prop :=
  0 < uchar b < 65 \/ 97 <= uchar b <= 122.

Definition plain_name (name : list byte) : Prop := Forall plain_char name.

(** [mvl_find_entry] with [fold] for the case folding of its
    comparison. *)
Definition mvl_find_entry_with (fold : Z -> Z) (info : MVLinfo)
    (name : list byte) : option (result MVLentry) :=
  if ruled_out name then Some (Fail ERR_NO_SUCH_FILE)
  else
    let hi := s32 (u32 (mvl_entryCount info - 1)) in
    fst (find_entry_loop mvl_name (c_compare fold) (Z.to_nat (hi + 1 - 0))
           (mvl_entries info) name 0 hi).

(** ** Fixtures of the further properties *)

Definition scenario_file : file :=
  {| f_mtime := 1000; f_data := scenario_grp |}.

Definition scenario_mvl_file : file :=
  {| f_mtime := 1000; f_data := scenario_mvl |}.

(** The files of the scenario archives. *)
Definition packed_files : list (list byte * list byte) :=
  [(chars "FILE1", chars "hello"); (chars "FILE2", chars "abc")].

Definition packed_mvl_files : list (list byte * list byte) :=
  [(chars "file1", chars "hello"); (chars "file2", chars "abc")].

(** The scenario archive cut off inside its directory table. *)
Definition truncated_file : file :=
  {| f_mtime := 1000; f_data := take 20 scenario_grp |}.

Definition truncated_world : world :=
  one_file "s.grp" (take 20 scenario_grp).

(** A run of calls on a handle, some of them refused. *)
Definition scenario_ops : list handle_op :=
  [op_read 1 4; op_seek 1; op_seek 9; op_read 2 1].

(** The scenario archive with three of the five bytes of [FILE1] and
    nothing after them: the directory table is whole. *)
Definition short_data_grp : list byte := take 51 scenario_grp.

Definition short_data_world : world := one_file "s.grp" short_data_grp.

Definition short_data_opened : world :=
  opened_at (opened_closed short_data_world) short_data_grp 48.

Definition short_data_read : world :=
  opened_at (opened_closed short_data_world) short_data_grp 51.

(** * Properties *)

(** ** Machine integers *)

Lemma u32_id x : 0 <= x < 2 ^ 32 -> u32 x = x.
Proof. intros H. unfold u32. apply Z.mod_small. exact H. Qed.

Lemma u32_range x : 0 <= u32 x < 2 ^ 32.
Proof. unfold u32. apply Z.mod_pos_bound. lia. Qed.

Lemma s32_id x : - 2 ^ 31 <= x < 2 ^ 31 -> s32 x = x.
Proof.
  intros H. unfold s32. cbv zeta.
  destruct (Z_lt_le_dec x 0) as [Hneg | Hpos].
  - assert (Hm : x mod 2 ^ 32 = x + 2 ^ 32).
    { symmetry. apply (Z.mod_unique_pos _ _ (-1)); lia. }
    rewrite Hm. destruct (Z.ltb_spec (x + 2 ^ 32) (2 ^ 31)); lia.
  - rewrite Z.mod_small by lia.
    destruct (Z.ltb_spec x (2 ^ 31)); lia.
Qed.

Lemma s32_pred_u32 n : 0 <= n < 2 ^ 31 -> s32 (u32 (n - 1)) = n - 1.
Proof.
  intros H. destruct (Z.eq_dec n 0) as [-> | Hn].
  - reflexivity.
  - rewrite u32_id by lia. apply s32_id. lia.
Qed.

(** ** C strings *)

Lemma uchar_nonneg b : 0 <= uchar b.
Proof. unfold uchar. lia. Qed.

Lemma uchar_inj a b : uchar a = uchar b -> a = b.
Proof.
  unfold uchar. intros H. apply N2Z.inj in H.
  pose proof (Byte.of_to_N a) as Ha. pose proof (Byte.of_to_N b) as Hb.
  rewrite H in Ha. congruence.
Qed.

Lemma tolower_nonneg c : 0 <= c -> 0 <= tolower c.
Proof.
  unfold tolower. intros H.
  destruct (65 <=? c) eqn:E1, (c <=? 90) eqn:E2; simpl; lia.
Qed.

Lemma tolower_zero c : 0 <= c -> (tolower c = 0 <-> c = 0).
Proof.
  unfold tolower. intros H.
  destruct (Z.leb_spec 65 c), (Z.leb_spec c 90); simpl; lia.
Qed.

Section Compare.
Variable fold : Z -> Z.
Hypothesis fold_nonneg : forall c, 0 <= c -> 0 <= fold c.
Hypothesis fold_zero : forall c, 0 <= c -> (fold c = 0 <-> c = 0).

Local Ltac facts c :=
  pose proof (uchar_nonneg c);
  pose proof (fold_nonneg (uchar c) (uchar_nonneg c));
  pose proof (fold_zero (uchar c) (uchar_nonneg c)).

Lemma c_compare_refl s : c_compare fold s s = 0.
Proof.
  induction s as [| c t IH]; simpl; [reflexivity |].
  rewrite Z.eqb_refl. destruct (uchar c =? 0); [reflexivity | exact IH].
Qed.

Lemma c_compare_antisym s1 s2 :
  c_compare fold s2 s1 = - c_compare fold s1 s2.
Proof.
  revert s2. induction s1 as [| c1 t1 IH]; intros [| c2 t2]; simpl;
    try lia.
  facts c1. facts c2.
  destruct (Z.eqb_spec (fold (uchar c1)) (fold (uchar c2))) as [E | E];
    destruct (Z.eqb_spec (fold (uchar c2)) (fold (uchar c1))) as [E' | E'];
    try lia.
  destruct (Z.eqb_spec (uchar c1) 0), (Z.eqb_spec (uchar c2) 0);
    try lia.
  apply IH.
Qed.

Lemma c_compare_trans s1 s2 s3 :
  c_compare fold s1 s2 <= 0 -> c_compare fold s2 s3 <= 0 ->
  c_compare fold s1 s3 <= 0.
Proof.
  revert s2 s3.
  induction s1 as [| c1 t1 IH]; intros [| c2 t2] [| c3 t3]; simpl;
    try (facts c1); try (facts c2); try (facts c3); try lia.
  - destruct (Z.eqb_spec (fold (uchar c1)) (fold (uchar c3)));
      destruct (Z.eqb_spec (uchar c1) 0); lia.
  - destruct (Z.eqb_spec (fold (uchar c1)) (fold (uchar c2)));
      destruct (Z.eqb_spec (uchar c1) 0); try lia.
  - destruct (Z.eqb_spec (fold (uchar c1)) (fold (uchar c2)));
      destruct (Z.eqb_spec (fold (uchar c2)) (fold (uchar c3)));
      destruct (Z.eqb_spec (fold (uchar c1)) (fold (uchar c3)));
      destruct (Z.eqb_spec (uchar c1) 0);
      destruct (Z.eqb_spec (uchar c2) 0); try lia.
    apply IH.
Qed.

(** Equal strings compare alike against any third string. *)
Lemma c_compare_zero_l s1 s2 s3 :
  c_compare fold s1 s2 = 0 ->
  c_compare fold s1 s3 <= 0 -> c_compare fold s2 s3 <= 0.
Proof.
  intros H0 H. apply (c_compare_trans s2 s1 s3); [| exact H].
  rewrite c_compare_antisym. lia.
Qed.
End Compare.

Lemma strcmp_refl s : strcmp s s = 0.
Proof. apply c_compare_refl. Qed.

Lemma strcmp_antisym s1 s2 : strcmp s2 s1 = - strcmp s1 s2.
Proof. apply c_compare_antisym; intros; lia. Qed.

Lemma strcmp_trans s1 s2 s3 :
  strcmp s1 s2 <= 0 -> strcmp s2 s3 <= 0 -> strcmp s1 s3 <= 0.
Proof. apply c_compare_trans; intros; lia. Qed.

Lemma stricmp_antisym s1 s2 :
  __PHYSFS_platformStricmp s2 s1 = - __PHYSFS_platformStricmp s1 s2.
Proof. apply c_compare_antisym; [apply tolower_nonneg | apply tolower_zero]. Qed.

Lemma stricmp_trans s1 s2 s3 :
  __PHYSFS_platformStricmp s1 s2 <= 0 -> __PHYSFS_platformStricmp s2 s3 <= 0 ->
  __PHYSFS_platformStricmp s1 s3 <= 0.
Proof. apply c_compare_trans; [apply tolower_nonneg | apply tolower_zero]. Qed.

(** [strcmp] returns 0 exactly on buffers holding the same string. *)
Lemma strcmp_eq s1 s2 : strcmp s1 s2 = 0 <-> cstr s1 = cstr s2.
Proof.
  unfold strcmp. revert s2.
  induction s1 as [| c1 t1 IH]; intros [| c2 t2]; simpl.
  - tauto.
  - pose proof (uchar_nonneg c2).
    destruct (Z.eqb_spec (uchar c2) 0); split; intros; (lia || congruence).
  - pose proof (uchar_nonneg c1).
    destruct (Z.eqb_spec (uchar c1) 0); split; intros; (lia || congruence).
  - destruct (Z.eqb_spec (uchar c1) (uchar c2)) as [E | E].
    + rewrite <- E. destruct (Z.eqb_spec (uchar c1) 0); [tauto |].
      rewrite IH. apply uchar_inj in E. subst c2.
      split; intros; congruence.
    + destruct (Z.eqb_spec (uchar c1) 0), (Z.eqb_spec (uchar c2) 0);
        split; intros; try lia; try congruence.
Qed.

(** ** [__PHYSFS_sort] sorts *)

Section SortCorrect.
Context {A : Type}.
Variable cmpfn : list A -> nat -> nat -> Z.
Variable swapfn : list A -> nat -> nat -> list A.
Variable cmp : A -> A -> Z.

Hypothesis cmpfn_adj : forall p x y s,
  cmpfn (p ++ x :: y :: s) (length p) (S (length p)) = cmp x y.
Hypothesis swapfn_adj : forall p x y s,
  swapfn (p ++ x :: y :: s) (length p) (S (length p)) = p ++ y :: x :: s.

Lemma sweep_carry r : forall p x,
  sort_sweep cmpfn swapfn (p ++ x :: r) (length p) (length r)
  = p ++ carry cmp x r.
Proof.
  induction r as [| y t IH]; intros p x; simpl; [reflexivity |].
  rewrite cmpfn_adj. destruct (cmp x y >? 0).
  - rewrite swapfn_adj.
    replace (p ++ y :: x :: t) with ((p ++ [y]) ++ x :: t)
      by (rewrite <- app_assoc; reflexivity).
    replace (S (length p)) with (length (p ++ [y]))
      by (rewrite length_app; simpl; lia).
    rewrite IH, <- app_assoc. reflexivity.
  - replace (p ++ x :: y :: t) with ((p ++ [x]) ++ y :: t)
      by (rewrite <- app_assoc; reflexivity).
    replace (S (length p)) with (length (p ++ [x]))
      by (rewrite length_app; simpl; lia).
    rewrite IH, <- app_assoc. reflexivity.
Qed.

Lemma sweep_pass a :
  sort_sweep cmpfn swapfn a O (length a - 1) = pass cmp a.
Proof.
  destruct a as [| x r]; simpl; [reflexivity |].
  rewrite Nat.sub_0_r. apply (sweep_carry r [] x).
Qed.

Lemma carry_perm r : forall x, Permutation (carry cmp x r) (x :: r).
Proof.
  induction r as [| y t IH]; intros x; simpl; [reflexivity |].
  destruct (cmp x y >? 0).
  - rewrite IH. apply perm_swap.
  - rewrite IH. reflexivity.
Qed.

Lemma pass_perm l : Permutation (pass cmp l) l.
Proof. destruct l; simpl; [reflexivity | apply carry_perm]. Qed.

Lemma iter_pass_perm k l : Permutation (Nat.iter k (pass cmp) l) l.
Proof.
  induction k as [| k IH]; simpl; [reflexivity |].
  rewrite pass_perm. exact IH.
Qed.

Lemma sweeps_iter k : forall a,
  sort_sweeps cmpfn swapfn a (length a) k = Nat.iter k (pass cmp) a.
Proof.
  induction k as [| k IH]; intros a; [reflexivity |].
  cbn [sort_sweeps]. rewrite sweep_pass.
  replace (length a) with (length (pass cmp a))
    by (apply Permutation_length, pass_perm).
  rewrite IH. symmetry. apply Nat.iter_succ_r.
Qed.

Lemma PHYSFS_sort_iter a :
  __PHYSFS_sort cmpfn swapfn a (Z.of_nat (length a))
  = Nat.iter (length a) (pass cmp) a.
Proof.
  unfold __PHYSFS_sort. rewrite Nat2Z.id. apply sweeps_iter.
Qed.

(** The sort keeps the entries: it only swaps. *)
Lemma PHYSFS_sort_perm a :
  Permutation (__PHYSFS_sort cmpfn swapfn a (Z.of_nat (length a))) a.
Proof. rewrite PHYSFS_sort_iter. apply iter_pass_perm. Qed.

Hypothesis cmp_total : forall x y, cmp x y > 0 -> cmp y x <= 0.
Hypothesis cmp_trans : forall x y z,
  cmp x y <= 0 -> cmp y z <= 0 -> cmp x z <= 0.

Let le (x y : A) : Prop := cmp x y <= 0.

Lemma le_refl x : le x x.
Proof.
  unfold le. destruct (Z_le_gt_dec (cmp x x) 0) as [H | H]; [exact H |].
  apply cmp_total. exact H.
Qed.

(** A sweep from [x] through [r] ends on a maximum [m] of [x :: r]; what
    lies behind [r] is swept from [m]. *)
Lemma carry_split r : forall x,
  exists u m,
    carry cmp x r = u ++ [m] /\ Forall (fun a => le a m) u /\ le x m /\
    forall s, carry cmp x (r ++ s) = u ++ carry cmp m s.
Proof.
  induction r as [| y t IH]; intros x.
  - exists [], x. repeat split; [constructor | apply le_refl].
  - simpl. destruct (Z.gtb_spec (cmp x y) 0) as [Hgt | Hle].
    + destruct (IH x) as (u & m & Hc & Hu & Hx & Happ).
      exists (y :: u), m. rewrite Hc. repeat split.
      * constructor; [| exact Hu].
        apply (cmp_trans y x m); [apply cmp_total; lia | exact Hx].
      * exact Hx.
      * intros s. rewrite Happ. reflexivity.
    + destruct (IH y) as (u & m & Hc & Hu & Hy & Happ).
      exists (x :: u), m. rewrite Hc.
      assert (Hxm : le x m) by (apply (cmp_trans x y m); [lia | exact Hy]).
      repeat split.
      * constructor; [exact Hxm | exact Hu].
      * exact Hxm.
      * intros s. rewrite Happ. reflexivity.
Qed.

Lemma carry_sorted s : forall x,
  StronglySorted le (x :: s) -> carry cmp x s = x :: s.
Proof.
  induction s as [| y t IH]; intros x Hs; [reflexivity |].
  simpl. apply StronglySorted_inv in Hs as [Hs Hx].
  apply Forall_inv in Hx. unfold le in Hx.
  destruct (Z.gtb_spec (cmp x y) 0); [lia |].
  rewrite (IH y Hs). reflexivity.
Qed.

Lemma pass_part j l : part cmp (S j) l -> part cmp j (pass cmp l).
Proof.
  intros (u & s & -> & Hlen & Hs & Hu).
  destruct u as [| x r].
  - exists [], s. simpl. repeat split; [| lia | exact Hs | constructor].
    destruct s as [| y t]; [reflexivity |]. simpl. apply carry_sorted, Hs.
  - simpl. destruct (carry_split r x) as (u' & m & Hc & Hu' & Hx & Happ).
    rewrite Happ.
    pose proof (carry_perm r x) as Hp. rewrite Hc in Hp.
    assert (Hin : forall a, In a (u' ++ [m]) -> Forall (le a) s).
    { intros a Ha. rewrite Forall_forall in Hu.
      apply Hu. apply list_elem_of_In.
      apply (Permutation_in _ Hp). exact Ha. }
    assert (Hm : Forall (le m) s).
    { apply Hin, in_or_app. right. left. reflexivity. }
    rewrite carry_sorted by (constructor; assumption).
    exists u', (m :: s). repeat split.
    + apply Permutation_length in Hp. rewrite length_app in Hp.
      simpl in Hp, Hlen. lia.
    + constructor; assumption.
    + rewrite Forall_forall. intros a Ha. constructor.
      * rewrite Forall_forall in Hu'. apply Hu'. exact Ha.
      * apply Hin, in_or_app. left. apply list_elem_of_In. exact Ha.
Qed.

Lemma iter_pass_part k : forall j l,
  part cmp (k + j) l -> part cmp j (Nat.iter k (pass cmp) l).
Proof.
  induction k as [| k IH]; intros j l H; [exact H |].
  simpl. apply pass_part. apply IH.
  replace (k + S j)%nat with (S k + j)%nat by lia. exact H.
Qed.

Lemma PHYSFS_sort_StronglySorted a :
  StronglySorted le (__PHYSFS_sort cmpfn swapfn a (Z.of_nat (length a))).
Proof.
  rewrite PHYSFS_sort_iter.
  destruct (iter_pass_part (length a) O a) as (u & s & Heq & Hlen & Hs & _).
  - exists a, []. rewrite app_nil_r. repeat split; [lia | constructor |].
    rewrite Forall_forall. intros; constructor.
  - destruct u; [| simpl in Hlen; lia]. rewrite Heq. exact Hs.
Qed.

Lemma StronglySorted_sorted_by l : StronglySorted le l -> sorted_by cmp l.
Proof.
  intros Hs. induction Hs as [| x l Hs IH Hx]; intros i j a b Hij Hi Hj.
  - destruct i; discriminate.
  - destruct j as [| j]; [lia |]. simpl in Hj.
    destruct i as [| i]; simpl in Hi.
    + injection Hi as <-. rewrite Forall_forall in Hx.
      apply Hx. apply list_elem_of_lookup. eauto.
    + apply (IH i j); [lia | assumption | assumption].
Qed.

(** The sort leaves the array sorted under the comparison it is given. *)
Lemma PHYSFS_sort_sorted a :
  sorted_by cmp (__PHYSFS_sort cmpfn swapfn a (Z.of_nat (length a))).
Proof. apply StronglySorted_sorted_by, PHYSFS_sort_StronglySorted. Qed.
End SortCorrect.

(** ** The callbacks on neighbouring indices *)

Lemma lookup_adj_l {A} (p : list A) x y s :
  (p ++ x :: y :: s) !! length p = Some x.
Proof. apply list_lookup_middle. reflexivity. Qed.

Lemma lookup_adj_r {A} (p : list A) x y s :
  (p ++ x :: y :: s) !! S (length p) = Some y.
Proof.
  replace (p ++ x :: y :: s) with ((p ++ [x]) ++ y :: s)
    by (rewrite <- app_assoc; reflexivity).
  apply list_lookup_middle. rewrite length_app. simpl. lia.
Qed.

Lemma swap_adj {A} (p : list A) x y s :
  <[S (length p) := x]> (<[length p := y]> (p ++ x :: y :: s))
  = p ++ y :: x :: s.
Proof.
  rewrite !insert_app_r_alt by lia.
  rewrite Nat.sub_diag.
  replace (S (length p) - length p)%nat with 1%nat by lia.
  reflexivity.
Qed.

Lemma grp_entry_cmp_adj p x y s :
  grp_entry_cmp (p ++ x :: y :: s) (length p) (S (length p)) = grp_cmp x y.
Proof.
  unfold grp_entry_cmp. rewrite lookup_adj_l, lookup_adj_r. reflexivity.
Qed.

Lemma grp_entry_swap_adj p x y s :
  grp_entry_swap (p ++ x :: y :: s) (length p) (S (length p))
  = p ++ y :: x :: s.
Proof.
  unfold grp_entry_swap. rewrite lookup_adj_l, lookup_adj_r.
  apply swap_adj.
Qed.

Lemma mvl_entry_cmp_adj p x y s :
  mvl_entry_cmp (p ++ x :: y :: s) (length p) (S (length p)) = mvl_cmp x y.
Proof.
  unfold mvl_entry_cmp. rewrite bool_decide_eq_true_2 by lia.
  rewrite lookup_adj_l, lookup_adj_r. reflexivity.
Qed.

Lemma mvl_entry_swap_adj p x y s :
  mvl_entry_swap (p ++ x :: y :: s) (length p) (S (length p))
  = p ++ y :: x :: s.
Proof.
  unfold mvl_entry_swap. rewrite bool_decide_eq_true_2 by lia.
  rewrite lookup_adj_l, lookup_adj_r. apply swap_adj.
Qed.

Lemma grp_cmp_total x y : grp_cmp x y > 0 -> grp_cmp y x <= 0.
Proof. unfold grp_cmp. rewrite (strcmp_antisym (grp_name x)). lia. Qed.

Lemma grp_cmp_trans x y z :
  grp_cmp x y <= 0 -> grp_cmp y z <= 0 -> grp_cmp x z <= 0.
Proof. apply strcmp_trans. Qed.

Lemma mvl_cmp_total x y : mvl_cmp x y > 0 -> mvl_cmp y x <= 0.
Proof. unfold mvl_cmp. rewrite (strcmp_antisym (mvl_name x)). lia. Qed.

Lemma mvl_cmp_trans x y z :
  mvl_cmp x y <= 0 -> mvl_cmp y z <= 0 -> mvl_cmp x z <= 0.
Proof. apply strcmp_trans. Qed.

(** The GRP sort call leaves the entries sorted under [strcmp]. *)
Lemma grp_sort_sorted a :
  sorted_by grp_cmp
    (__PHYSFS_sort grp_entry_cmp grp_entry_swap a (Z.of_nat (length a))).
Proof.
  apply (PHYSFS_sort_sorted grp_entry_cmp grp_entry_swap grp_cmp).
  - apply grp_entry_cmp_adj.
  - apply grp_entry_swap_adj.
  - apply grp_cmp_total.
  - apply grp_cmp_trans.
Qed.

Lemma grp_sort_perm a :
  Permutation
    (__PHYSFS_sort grp_entry_cmp grp_entry_swap a (Z.of_nat (length a))) a.
Proof.
  apply (PHYSFS_sort_perm grp_entry_cmp grp_entry_swap grp_cmp).
  - apply grp_entry_cmp_adj.
  - apply grp_entry_swap_adj.
Qed.

(** The MVL sort call leaves the entries sorted under [strcmp] as well:
    [mvl_entry_cmp] is case-sensitive. *)
Lemma mvl_sort_sorted a :
  sorted_by mvl_cmp
    (__PHYSFS_sort mvl_entry_cmp mvl_entry_swap a (Z.of_nat (length a))).
Proof.
  apply (PHYSFS_sort_sorted mvl_entry_cmp mvl_entry_swap mvl_cmp).
  - apply mvl_entry_cmp_adj.
  - apply mvl_entry_swap_adj.
  - apply mvl_cmp_total.
  - apply mvl_cmp_trans.
Qed.

Lemma mvl_sort_perm a :
  Permutation
    (__PHYSFS_sort mvl_entry_cmp mvl_entry_swap a (Z.of_nat (length a))) a.
Proof.
  apply (PHYSFS_sort_perm mvl_entry_cmp mvl_entry_swap mvl_cmp).
  - apply mvl_entry_cmp_adj.
  - apply mvl_entry_swap_adj.
Qed.

(** ** The binary search *)

Section FindCorrect.
Context {E : Type}.
Variable name_of : E -> list byte.
Variable compare : list byte -> list byte -> Z.

Hypothesis compare_antisym : forall s1 s2, compare s2 s1 = - compare s1 s2.
Hypothesis compare_trans : forall s1 s2 s3,
  compare s1 s2 <= 0 -> compare s2 s3 <= 0 -> compare s1 s3 <= 0.

Let ecmp (x y : E) : Z := compare (name_of x) (name_of y).

Variable a : list E.
Variable name : list byte.
Hypothesis a_small : Z.of_nat (length a) < 2 ^ 31.

(** Whatever the order of the array, an entry the loop returns is an
    entry of the array that compares equal to [name]. *)
Lemma find_entry_loop_sound fuel : forall lo hi e t,
  find_entry_loop name_of compare fuel a name lo hi = (Some (Ok e), t) ->
  e ∈ a /\ compare name (name_of e) = 0.
Proof.
  induction fuel as [| fuel IH]; intros lo hi e t; simpl.
  - destruct (lo <=? hi); intros H; discriminate.
  - destruct (lo <=? hi); [| intros H; discriminate].
    set (middle := s32 (lo + s32 (hi - lo) `quot` 2)).
    destruct (0 <=? middle); [| intros H; discriminate].
    destruct (a !! Z.to_nat middle) as [em |] eqn:Hm;
      [| intros H; discriminate].
    destruct (Z.eqb_spec (compare name (name_of em)) 0) as [Heq | Hne].
    + intros H. injection H as <- _. split; [| exact Heq].
      apply list_elem_of_lookup. eauto.
    + destruct (compare name (name_of em) >? 0).
      * destruct (find_entry_loop name_of compare fuel a name
                    (s32 (middle + 1)) hi) as [r t'] eqn:Hrec.
        intros H. injection H as -> _. apply (IH _ _ _ _ Hrec).
      * destruct (find_entry_loop name_of compare fuel a name
                    lo (s32 (middle - 1))) as [r t'] eqn:Hrec.
        intros H. injection H as -> _. apply (IH _ _ _ _ Hrec).
Qed.

(** The loop ends and reads inside its window, whatever the order of
    the array: [hi + 1 - lo] iterations are enough.  What it returns is
    an entry that compares equal to [name], or [ERR_NO_SUCH_FILE]. *)
Lemma find_entry_loop_total fuel : forall lo hi,
  0 <= lo -> hi < Z.of_nat (length a) -> hi + 1 - lo <= Z.of_nat fuel ->
  exists r t,
    find_entry_loop name_of compare fuel a name lo hi = (Some r, t) /\
    Forall (fun i => lo <= i <= hi) t /\
    match r with
    | Ok e => e ∈ a /\ compare name (name_of e) = 0
    | Fail err => err = ERR_NO_SUCH_FILE
    end.
Proof.
  induction fuel as [| fuel IH]; intros lo hi Hlo Hhi Hfuel;
    cbn [find_entry_loop].
  - destruct (Z.leb_spec lo hi); [lia |].
    exists (Fail ERR_NO_SUCH_FILE), [].
    split; [reflexivity |]. split; [constructor | reflexivity].
  - destruct (Z.leb_spec lo hi) as [Hle | Hgt].
    2:{ exists (Fail ERR_NO_SUCH_FILE), [].
        split; [reflexivity |]. split; [constructor | reflexivity]. }
    assert (Hhalf : 0 <= (hi - lo) / 2 <= hi - lo)
      by (split; [apply Z.div_pos; lia | apply Z.div_le_upper_bound; lia]).
    assert (Hmid : s32 (lo + s32 (hi - lo) `quot` 2) = lo + (hi - lo) / 2).
    { rewrite (s32_id (hi - lo)) by lia.
      rewrite Z.quot_div_nonneg by lia. apply s32_id. lia. }
    rewrite Hmid. set (m := lo + (hi - lo) / 2).
    assert (Hm : lo <= m <= hi) by (unfold m; lia).
    destruct (Z.leb_spec 0 m); [| lia].
    destruct (a !! Z.to_nat m) as [em |] eqn:Hem.
    2:{ apply lookup_ge_None in Hem. lia. }
    destruct (Z.eqb_spec (compare name (name_of em)) 0) as [Heq | Hne].
    + exists (Ok em), [m]. split; [reflexivity |].
      split; [constructor; [lia | constructor] |].
      split; [apply list_elem_of_lookup; eauto | exact Heq].
    + destruct (compare name (name_of em) >? 0).
      * rewrite (s32_id (m + 1)) by lia.
        destruct (IH (m + 1) hi) as (r & t & Hrun & Ht & Hr);
          [lia | lia | lia |].
        rewrite Hrun. exists r, (m :: t). split; [reflexivity |].
        split; [| exact Hr]. constructor; [lia |].
        eapply Forall_impl; [exact Ht |]. simpl. intros; lia.
      * rewrite (s32_id (m - 1)) by lia.
        destruct (IH lo (m - 1)) as (r & t & Hrun & Ht & Hr);
          [lia | lia | lia |].
        rewrite Hrun. exists r, (m :: t). split; [reflexivity |].
        split; [| exact Hr]. constructor; [lia |].
        eapply Forall_impl; [exact Ht |]. simpl. intros; lia.
Qed.

Hypothesis a_sorted : sorted_by ecmp a.

(** On a sorted array the loop is a decision procedure: it ends, reads
    inside its window only, returns an entry equal to [name] when the
    window holds one and [ERR_NO_SUCH_FILE] otherwise. *)
Lemma find_entry_loop_spec fuel : forall lo hi,
  0 <= lo -> hi < Z.of_nat (length a) -> hi + 1 - lo <= Z.of_nat fuel ->
  (forall i e, a !! i = Some e -> compare name (name_of e) = 0 ->
               lo <= Z.of_nat i <= hi) ->
  exists r t,
    find_entry_loop name_of compare fuel a name lo hi = (Some r, t) /\
    Forall (fun i => lo <= i <= hi) t /\
    match r with
    | Ok e => e ∈ a /\ compare name (name_of e) = 0
    | Fail err =>
        err = ERR_NO_SUCH_FILE /\
        forall e, e ∈ a -> compare name (name_of e) <> 0
    end.
Proof.
  induction fuel as [| fuel IH]; intros lo hi Hlo Hhi Hfuel Hwin;
    cbn [find_entry_loop].
  - destruct (Z.leb_spec lo hi); [lia |].
    exists (Fail ERR_NO_SUCH_FILE), []. repeat split; [constructor |].
    intros e He Heq. apply list_elem_of_lookup in He as [i Hi].
    specialize (Hwin i e Hi Heq). lia.
  - destruct (Z.leb_spec lo hi) as [Hle | Hgt].
    2:{ exists (Fail ERR_NO_SUCH_FILE), []. repeat split; [constructor |].
        intros e He Heq. apply list_elem_of_lookup in He as [i Hi].
        specialize (Hwin i e Hi Heq). lia. }
    assert (Hmid : s32 (lo + s32 (hi - lo) `quot` 2) = lo + (hi - lo) / 2).
    { rewrite (s32_id (hi - lo)) by lia.
      rewrite Z.quot_div_nonneg by lia.
      apply s32_id.
      assert (0 <= (hi - lo) / 2 <= hi - lo)
        by (split; [apply Z.div_pos; lia | apply Z.div_le_upper_bound; lia]).
      lia. }
    rewrite Hmid. set (m := lo + (hi - lo) / 2).
    assert (Hm : lo <= m <= hi).
    { assert (0 <= (hi - lo) / 2 <= hi - lo)
        by (split; [apply Z.div_pos; lia | apply Z.div_le_upper_bound; lia]).
      unfold m. lia. }
    destruct (Z.leb_spec 0 m); [| lia].
    destruct (a !! Z.to_nat m) as [em |] eqn:Hem.
    2:{ apply lookup_ge_None in Hem. lia. }
    destruct (Z.eqb_spec (compare name (name_of em)) 0) as [Heq | Hne].
    + exists (Ok em), [m]. repeat split.
      * constructor; [lia | constructor].
      * apply list_elem_of_lookup. eauto.
      * exact Heq.
    + destruct (Z.gtb_spec (compare name (name_of em)) 0) as [Hpos | Hneg].
      * rewrite (s32_id (m + 1)) by lia.
        destruct (IH (m + 1) hi) as (r & t & Hrun & Ht & Hr);
          [lia | lia | lia | |].
        { intros i e Hi Heq. specialize (Hwin i e Hi Heq).
          destruct (Z_lt_le_dec m (Z.of_nat i)); [lia |]. exfalso.
          assert (Hord : compare (name_of e) (name_of em) <= 0).
          { destruct (Z.eq_dec (Z.of_nat i) m) as [Him | Him].
            - replace (Z.to_nat m) with i in Hem by lia.
              rewrite Hem in Hi. injection Hi as ->. contradiction.
            - apply (a_sorted i (Z.to_nat m)); [lia | exact Hi | exact Hem]. }
          assert (Hdn : compare name (name_of em) <= 0)
            by (apply (compare_trans _ (name_of e)); [lia | exact Hord]).
          lia. }
        rewrite Hrun. exists r, (m :: t). repeat split.
        -- constructor; [lia |].
           eapply Forall_impl; [exact Ht |]. simpl. intros; lia.
        -- exact Hr.
      * rewrite (s32_id (m - 1)) by lia.
        destruct (IH lo (m - 1)) as (r & t & Hrun & Ht & Hr);
          [lia | lia | lia | |].
        { intros i e Hi Heq. specialize (Hwin i e Hi Heq).
          destruct (Z_lt_le_dec (Z.of_nat i) m); [lia |]. exfalso.
          assert (Hord : compare (name_of em) (name_of e) <= 0).
          { destruct (Z.eq_dec (Z.of_nat i) m) as [Him | Him].
            - replace (Z.to_nat m) with i in Hem by lia.
              rewrite Hem in Hi. injection Hi as ->. contradiction.
            - apply (a_sorted (Z.to_nat m) i); [lia | exact Hem | exact Hi]. }
          assert (Hup : compare (name_of em) name <= 0).
          { apply (compare_trans _ (name_of e)); [exact Hord |].
            rewrite compare_antisym. lia. }
          rewrite compare_antisym in Hup. lia. }
        rewrite Hrun. exists r, (m :: t). repeat split.
        -- constructor; [lia |].
           eapply Forall_impl; [exact Ht |]. simpl. intros; lia.
        -- exact Hr.
Qed.

(** The search as the two lookup functions start it: over the whole
    array, with [hi = (PHYSFS_sint32) (entryCount - 1)]. *)
Lemma find_entry_whole :
  let hi := s32 (u32 (Z.of_nat (length a) - 1)) in
  exists r t,
    find_entry_loop name_of compare (Z.to_nat (hi + 1 - 0)) a name 0 hi
    = (Some r, t) /\
    Forall (fun i => 0 <= i < Z.of_nat (length a)) t /\
    match r with
    | Ok e => e ∈ a /\ compare name (name_of e) = 0
    | Fail err =>
        err = ERR_NO_SUCH_FILE /\
        forall e, e ∈ a -> compare name (name_of e) <> 0
    end.
Proof.
  intros hi. unfold hi. rewrite s32_pred_u32 by lia.
  destruct (find_entry_loop_spec
              (Z.to_nat (Z.of_nat (length a) - 1 + 1 - 0)) 0
              (Z.of_nat (length a) - 1)) as (r & t & Hrun & Ht & Hr);
    [lia | lia | lia | |].
  - intros i e Hi _. apply lookup_lt_Some in Hi. lia.
  - exists r, t. repeat split; [exact Hrun | | exact Hr].
    eapply Forall_impl; [exact Ht |]. simpl. intros; lia.
Qed.
End FindCorrect.

(** ** The running offset *)

Section Layout.
Context {E : Type}.
Variables startPos size : E -> Z.

Lemma chain_head location l e :
  chain startPos size location l -> l !! O = Some e ->
  startPos e = location.
Proof.
  destruct l as [| e0 r]; simpl; [discriminate |].
  intros [H _] [= <-]. exact H.
Qed.

Lemma chain_next l : forall location k e e',
  chain startPos size location l ->
  l !! k = Some e -> l !! S k = Some e' ->
  startPos e' = u32 (startPos e + size e).
Proof.
  induction l as [| e0 r IH]; intros location k e e' Hc Hk HSk;
    [discriminate |].
  destruct Hc as [H0 Hr]. destruct k as [| k]; simpl in Hk, HSk.
  - injection Hk as <-. rewrite H0. apply (chain_head _ r); assumption.
  - apply (IH _ k e e' Hr); assumption.
Qed.

(** Without wrap-around the offsets add up as integers and never
    decrease; they increase across an entry that is not empty. *)
Lemma chain_exact l : forall location k e e',
  chain startPos size location l ->
  Forall (fun x => 0 <= size x) l ->
  0 <= location -> location + total_size size l < 2 ^ 32 ->
  l !! k = Some e -> l !! S k = Some e' ->
  startPos e' = startPos e + size e /\ startPos e <= startPos e' /\
  (0 < size e -> startPos e < startPos e').
Proof.
  induction l as [| e0 r IH]; intros location k e e' Hc Hsz Hlo Hhi Hk HSk;
    [discriminate |].
  destruct Hc as [H0 Hr]. apply Forall_cons in Hsz as [Hsz0 Hsz].
  assert (Htot : 0 <= total_size size r).
  { clear -Hsz. induction Hsz; simpl; lia. }
  simpl in Hhi. rewrite u32_id in Hr by lia.
  destruct k as [| k]; simpl in Hk, HSk.
  - injection Hk as <-. rewrite (chain_head _ r e' Hr HSk). lia.
  - apply (IH (location + size e0) k e e' Hr Hsz); [lia | lia | | ];
      assumption.
Qed.
Lemma chain_bounds l : forall location k e,
  chain startPos size location l ->
  Forall (fun x => 0 <= size x) l ->
  0 <= location -> location + total_size size l < 2 ^ 32 ->
  l !! k = Some e ->
  location <= startPos e /\
  startPos e + size e <= location + total_size size l.
Proof.
  induction l as [| e0 r IH]; intros location k e Hc Hsz Hlo Hhi Hk;
    [discriminate |].
  destruct Hc as [H0 Hr]. apply Forall_cons in Hsz as [Hsz0 Hsz].
  assert (Htot : 0 <= total_size size r).
  { clear -Hsz. induction Hsz; simpl; lia. }
  simpl in Hhi |- *. rewrite u32_id in Hr by lia.
  destruct k as [| k]; simpl in Hk.
  - injection Hk as <-. lia.
  - destruct (IH (location + size e0) k e Hr Hsz) as [Hlow Hup];
      [lia | lia | exact Hk | lia].
Qed.

(** Without wrap-around the entries do not overlap. *)
Lemma chain_disjoint l : forall location i j e e',
  chain startPos size location l ->
  Forall (fun x => 0 <= size x) l ->
  0 <= location -> location + total_size size l < 2 ^ 32 ->
  (i < j)%nat -> l !! i = Some e -> l !! j = Some e' ->
  startPos e + size e <= startPos e'.
Proof.
  induction l as [| e0 r IH]; intros location i j e e' Hc Hsz Hlo Hhi Hij Hi Hj;
    [discriminate |].
  pose proof Hc as [H0 Hr]. pose proof Hsz as Hsz'.
  apply Forall_cons in Hsz' as [Hsz0 Hszr].
  assert (Htot : 0 <= total_size size r).
  { clear -Hszr. induction Hszr; simpl; lia. }
  simpl in Hhi. rewrite u32_id in Hr by lia.
  destruct j as [| j]; [lia |]. simpl in Hj.
  destruct i as [| i]; simpl in Hi.
  - injection Hi as <-.
    destruct (chain_bounds r (location + size e0) j e' Hr Hszr) as [Hlow _];
      [lia | lia | exact Hj | lia].
  - apply (IH (location + size e0) i j e e' Hr Hszr);
      [lia | lia | lia | exact Hi | exact Hj].
Qed.
Lemma chain_starts_u32 l : forall location,
  chain startPos size location l -> is_u32 location ->
  Forall (fun e => is_u32 (startPos e)) l.
Proof.
  induction l as [| e0 r IH]; intros location Hc Hloc; [constructor |].
  destruct Hc as [H0 Hr]. constructor.
  - rewrite H0. exact Hloc.
  - apply (IH _ Hr). apply u32_range.
Qed.
End Layout.

(** ** Reading the directory table *)

Lemma uchar_range b : 0 <= uchar b < 256.
Proof.
  unfold uchar. pose proof (Byte.to_N_bounded b) as H. lia.
Qed.

Lemma PHYSFS_swapULE32_range bs : is_u32 (PHYSFS_swapULE32 bs).
Proof.
  unfold is_u32, PHYSFS_swapULE32.
  destruct bs as [| b0 [| b1 [| b2 [| b3 [| ? ?]]]]]; try lia.
  pose proof (uchar_range b0). pose proof (uchar_range b1).
  pose proof (uchar_range b2). pose proof (uchar_range b3). lia.
Qed.

Lemma grp_load_entries_loop_spec n : forall w fh location w' l,
  grp_load_entries_loop w fh n location = (w', Some l) ->
  length l = n /\ chain grp_startPos grp_size location l /\
  Forall (fun e => is_u32 (grp_size e)) l.
Proof.
  induction n as [| n IH]; intros w fh location w' l; simpl.
  - intros [= _ <-]. repeat split. constructor.
  - destruct (__PHYSFS_platformRead w fh 12 1) as [[w1 rc1] buf].
    destruct (rc1 =? 1); cbn [negb]; [| discriminate].
    destruct (__PHYSFS_platformRead w1 fh 4 1) as [[w2 rc2] sz].
    destruct (rc2 =? 1); cbn [negb]; [| discriminate].
    destruct (grp_load_entries_loop w2 fh n
                (u32 (location + PHYSFS_swapULE32 sz)))
      as [w3 [rest |]] eqn:Hrec; [| discriminate].
    intros [= _ <-]. destruct (IH _ _ _ _ _ Hrec) as (Hlen & Hc & Hsz).
    simpl. repeat split; [congruence | exact Hc |].
    constructor; [apply PHYSFS_swapULE32_range | exact Hsz].
Qed.

Lemma mvl_load_entries_loop_spec n : forall w fh location w' l,
  mvl_load_entries_loop w fh n location = (w', Some l) ->
  length l = n /\ chain mvl_startPos mvl_size location l /\
  Forall (fun e => is_u32 (mvl_size e)) l.
Proof.
  induction n as [| n IH]; intros w fh location w' l; simpl.
  - intros [= _ <-]. repeat split. constructor.
  - destruct (__PHYSFS_platformRead w fh 13 1) as [[w1 rc1] buf].
    destruct (rc1 =? 1); cbn [negb]; [| discriminate].
    destruct (__PHYSFS_platformRead w1 fh 4 1) as [[w2 rc2] sz].
    destruct (rc2 =? 1); cbn [negb]; [| discriminate].
    destruct (mvl_load_entries_loop w2 fh n
                (u32 (location + PHYSFS_swapULE32 sz)))
      as [w3 [rest |]] eqn:Hrec; [| discriminate].
    intros [= _ <-]. destruct (IH _ _ _ _ _ Hrec) as (Hlen & Hc & Hsz).
    simpl. repeat split; [congruence | exact Hc |].
    constructor; [apply PHYSFS_swapULE32_range | exact Hsz].
Qed.

(** The entry count [grp_open] hands out is an unsigned 32-bit value. *)
Lemma grp_open_count w filename forWriting w' fh count :
  grp_open w filename forWriting = (w', Ok (fh, count)) -> is_u32 count.
Proof.
  unfold grp_open. destruct forWriting; [discriminate |].
  destruct (__PHYSFS_platformOpenRead w filename) as [w1 [fd |]];
    [| discriminate].
  destruct (__PHYSFS_platformRead w1 fd 12 1) as [[w2 rc1] buf].
  destruct (rc1 =? 1); cbn [negb]; [| discriminate].
  destruct (memcmp buf (chars "KenSilverman") 12 =? 0); cbn [negb];
    [| discriminate].
  destruct (__PHYSFS_platformRead w2 fd 4 1) as [[w3 rc2] cnt].
  destruct (rc2 =? 1); cbn [negb]; [| discriminate].
  intros [= _ _ <-]. apply PHYSFS_swapULE32_range.
Qed.

Lemma mvl_open_count w filename forWriting w' fh count :
  mvl_open w filename forWriting = (w', Ok (fh, count)) -> is_u32 count.
Proof.
  unfold mvl_open. destruct forWriting; [discriminate |].
  destruct (__PHYSFS_platformOpenRead w filename) as [w1 [fd |]];
    [| discriminate].
  destruct (__PHYSFS_platformRead w1 fd 4 1) as [[w2 rc1] buf].
  destruct (rc1 =? 1); cbn [negb]; [| discriminate].
  destruct (memcmp buf (chars "DMVL") 4 =? 0); cbn [negb]; [| discriminate].
  destruct (__PHYSFS_platformRead w2 fd 4 1) as [[w3 rc2] cnt].
  destruct (rc2 =? 1); cbn [negb]; [| discriminate].
  intros [= _ _ <-]. apply PHYSFS_swapULE32_range.
Qed.

(** What a successful table read establishes. *)
Lemma grp_read_table_spec w name forWriting w' count tbl :
  grp_read_table w name forWriting = (w', Ok (count, tbl)) ->
  is_u32 count /\ Z.of_nat (length tbl) = count /\
  chain grp_startPos grp_size (u32 (16 + 16 * count)) tbl /\
  Forall (fun e => is_u32 (grp_size e)) tbl.
Proof.
  unfold grp_read_table.
  destruct (grp_open w name forWriting) as [w1 [[fh fileCount] | e]] eqn:Ho;
    [| discriminate].
  apply grp_open_count in Ho.
  destruct (grp_load_entries_loop w1 fh (Z.to_nat fileCount)
              (u32 (16 + u32 (16 * fileCount)))) as [w2 [l |]] eqn:Hl;
    [| discriminate].
  intros [= _ <- <-].
  apply grp_load_entries_loop_spec in Hl as (Hlen & Hc & Hsz).
  unfold is_u32 in Ho. repeat split; try lia; [| exact Hsz].
  replace (u32 (16 + 16 * fileCount)) with (u32 (16 + u32 (16 * fileCount)));
    [exact Hc |].
  unfold u32. rewrite Zplus_mod_idemp_r. reflexivity.
Qed.

Lemma mvl_read_table_spec w name forWriting w' count tbl :
  mvl_read_table w name forWriting = (w', Ok (count, tbl)) ->
  is_u32 count /\ Z.of_nat (length tbl) = count /\
  chain mvl_startPos mvl_size (u32 (8 + 17 * count)) tbl /\
  Forall (fun e => is_u32 (mvl_size e)) tbl.
Proof.
  unfold mvl_read_table.
  destruct (mvl_open w name forWriting) as [w1 [[fh fileCount] | e]] eqn:Ho;
    [| discriminate].
  apply mvl_open_count in Ho.
  destruct (mvl_load_entries_loop w1 fh (Z.to_nat fileCount)
              (u32 (8 + u32 (17 * fileCount)))) as [w2 [l |]] eqn:Hl;
    [| discriminate].
  intros [= _ <- <-].
  apply mvl_load_entries_loop_spec in Hl as (Hlen & Hc & Hsz).
  unfold is_u32 in Ho. repeat split; try lia; [| exact Hsz].
  replace (u32 (8 + 17 * fileCount)) with (u32 (8 + u32 (17 * fileCount)));
    [exact Hc |].
  unfold u32. rewrite Zplus_mod_idemp_r. reflexivity.
Qed.

(** A container [GRP_openArchive] returns holds the table [grp_read_table]
    read, sorted by [__PHYSFS_sort] under [grp_entry_cmp]. *)
Lemma GRP_openArchive_inv w name forWriting w' info :
  GRP_openArchive w name forWriting = (w', Ok info) ->
  exists tbl,
    grp_read_table w name forWriting = (w', Ok (grp_entryCount info, tbl)) /\
    grp_entries info
    = __PHYSFS_sort grp_entry_cmp grp_entry_swap tbl (Z.of_nat (length tbl)) /\
    grp_entryCount info = Z.of_nat (length (grp_entries info)) /\
    grp_filename info = name.
Proof.
  unfold GRP_openArchive, grp_load_entries.
  destruct (grp_read_table w name forWriting) as [w1 [[count tbl] | e]] eqn:Ht;
    [| discriminate].
  intros [= <- <-]. simpl.
  pose proof (grp_read_table_spec _ _ _ _ _ _ Ht) as (_ & Hlen & _).
  exists tbl. rewrite Hlen. repeat split.
  rewrite <- Hlen at 1. f_equal. symmetry.
  rewrite <- Hlen at 1. apply Permutation_length, grp_sort_perm.
Qed.

Lemma MVL_openArchive_inv w name forWriting w' info :
  MVL_openArchive w name forWriting = (w', Ok info) ->
  exists tbl,
    mvl_read_table w name forWriting = (w', Ok (mvl_entryCount info, tbl)) /\
    mvl_entries info
    = __PHYSFS_sort mvl_entry_cmp mvl_entry_swap tbl (Z.of_nat (length tbl)) /\
    mvl_entryCount info = Z.of_nat (length (mvl_entries info)) /\
    mvl_filename info = name.
Proof.
  unfold MVL_openArchive, mvl_load_entries.
  destruct (mvl_read_table w name forWriting) as [w1 [[count tbl] | e]] eqn:Ht;
    [| discriminate].
  intros [= <- <-]. simpl.
  pose proof (mvl_read_table_spec _ _ _ _ _ _ Ht) as (_ & Hlen & _).
  exists tbl. rewrite Hlen. repeat split.
  rewrite <- Hlen at 1. f_equal. symmetry.
  rewrite <- Hlen at 1. apply Permutation_length, mvl_sort_perm.
Qed.

(** ** The fixtures are what the code computes *)

Lemma scenario_openArchive :
  GRP_openArchive scenario_world "s.grp" false = (scenario_loaded, Ok scenario_info).
Proof. vm_compute. reflexivity. Qed.

Lemma scenario_openRead :
  GRP_openRead scenario_loaded scenario_info (chars "FILE1")
  = Some (scenario_opened, true, Ok scenario_handle).
Proof. vm_compute. reflexivity. Qed.

Lemma mvl_openArchive :
  MVL_openArchive mvl_world "s.mvl" false = (mvl_loaded, Ok mvl_info).
Proof. vm_compute. reflexivity. Qed.

Lemma mvl_openRead :
  MVL_openRead mvl_loaded mvl_info (chars "FILE1")
  = Some (mvl_opened, true, Ok mvl_handle1).
Proof. vm_compute. reflexivity. Qed.

(** ** The write path *)

Lemma grp_write_mode w name :
  grp_open w name true = (w, Fail ERR_ARC_IS_READ_ONLY) /\
  GRP_isArchive w name true = (w, Fail ERR_ARC_IS_READ_ONLY) /\
  GRP_openArchive w name true = (w, Fail ERR_ARC_IS_READ_ONLY).
Proof. repeat split. Qed.

Lemma mvl_write_mode w name :
  mvl_open w name true = (w, Fail ERR_ARC_IS_READ_ONLY) /\
  MVL_isArchive w name true = (w, Fail ERR_ARC_IS_READ_ONLY) /\
  MVL_openArchive w name true = (w, Fail ERR_ARC_IS_READ_ONLY).
Proof. repeat split. Qed.

(** C6. Every write-family operation is rejected unconditionally, for both
    formats: [openWrite], [openAppend], [remove] and [mkdir] fail with
    [ERR_NOT_SUPPORTED], [write] on a handle fails with
    [ERR_NOT_SUPPORTED], and opening or probing an archive for writing
    fails with [ERR_ARC_IS_READ_ONLY] before the file is opened.  The
    platform state and the handle come back as they went in. *)
Theorem write_family_rejected :
  forall (w : world) (path : string) (name buffer : list byte)
         (objSize objCount : Z),
    (forall (info : GRPinfo) (finfo : GRPfileinfo),
        GRP_openWrite w info name = (w, Fail ERR_NOT_SUPPORTED) /\
        GRP_openAppend w info name = (w, Fail ERR_NOT_SUPPORTED) /\
        GRP_remove w info name = (w, Fail ERR_NOT_SUPPORTED) /\
        GRP_mkdir w info name = (w, Fail ERR_NOT_SUPPORTED) /\
        GRP_write w finfo buffer objSize objCount
        = (w, finfo, Fail ERR_NOT_SUPPORTED)) /\
    (forall (info : MVLinfo) (finfo : MVLfileinfo),
        MVL_openWrite w info name = (w, Fail ERR_NOT_SUPPORTED) /\
        MVL_openAppend w info name = (w, Fail ERR_NOT_SUPPORTED) /\
        MVL_remove w info name = (w, Fail ERR_NOT_SUPPORTED) /\
        MVL_mkdir w info name = (w, Fail ERR_NOT_SUPPORTED) /\
        MVL_write w finfo buffer objSize objCount
        = (w, finfo, Fail ERR_NOT_SUPPORTED)) /\
    grp_open w path true = (w, Fail ERR_ARC_IS_READ_ONLY) /\
    GRP_isArchive w path true = (w, Fail ERR_ARC_IS_READ_ONLY) /\
    GRP_openArchive w path true = (w, Fail ERR_ARC_IS_READ_ONLY) /\
    mvl_open w path true = (w, Fail ERR_ARC_IS_READ_ONLY) /\
    MVL_isArchive w path true = (w, Fail ERR_ARC_IS_READ_ONLY) /\
    MVL_openArchive w path true = (w, Fail ERR_ARC_IS_READ_ONLY).
Proof.
  intros w path name buffer objSize objCount.
  destruct (grp_write_mode w path) as (G1 & G2 & G3).
  destruct (mvl_write_mode w path) as (M1 & M2 & M3).
  repeat split; assumption.
Qed.

(** ** Seeking *)

Lemma u64_range x : is_u64 (u64 x).
Proof. unfold is_u64, u64. apply Z.mod_pos_bound. lia. Qed.

Lemma u64_id x : is_u64 x -> u64 x = x.
Proof. unfold is_u64, u64. intros H. apply Z.mod_small. exact H. Qed.

Lemma u64_u64 x : u64 (u64 x) = u64 x.
Proof. apply u64_id, u64_range. Qed.

(** A negative value arrives as itself plus 2^64. *)
Lemma u64_negative x : - 2 ^ 64 <= x < 0 -> u64 x = x + 2 ^ 64.
Proof.
  intros H. unfold u64. rewrite <- (Z_mod_plus_full x 1 (2 ^ 64)).
  rewrite Z.mul_1_l. apply Z.mod_small. lia.
Qed.

Lemma GRP_seek_wrapped w finfo offset :
  GRP_seek w finfo (u64 offset) = GRP_seek w finfo offset.
Proof. unfold GRP_seek. rewrite u64_u64. reflexivity. Qed.

Lemma GRP_seek_past_eof w finfo offset :
  grp_size (grp_entry finfo) <= u64 offset ->
  GRP_seek w finfo offset = (w, finfo, Fail ERR_PAST_EOF).
Proof.
  intros H. unfold GRP_seek. cbv zeta. pose proof (u64_range offset) as [H0 _].
  destruct (Z.ltb_spec (u64 offset) 0); [lia |].
  destruct (Z.geb_spec (u64 offset) (grp_size (grp_entry finfo)));
    [reflexivity | lia].
Qed.

(** What a caller passes as a negative [PHYSFS_sint64] is past the end of
    every entry. *)
Lemma GRP_seek_negative w finfo offset :
  is_u32 (grp_size (grp_entry finfo)) -> - 2 ^ 63 <= offset < 0 ->
  GRP_seek w finfo offset = (w, finfo, Fail ERR_PAST_EOF).
Proof.
  intros Hsz H. apply GRP_seek_past_eof. unfold is_u32 in Hsz.
  rewrite u64_negative by lia. lia.
Qed.

Lemma GRP_seek_inside w finfo offset :
  is_u32 (grp_size (grp_entry finfo)) ->
  0 <= offset < grp_size (grp_entry finfo) ->
  match __PHYSFS_platformSeek w (grp_handle finfo)
          (grp_startPos (grp_entry finfo) + offset) with
  | (w1, true) => GRP_seek w finfo offset = (w1, grp_at finfo offset, Ok tt)
  | (w1, false) => GRP_seek w finfo offset = (w1, finfo, Fail ERR_PLATFORM)
  end.
Proof.
  intros Hsz H. unfold GRP_seek, is_u32 in *. cbv zeta.
  rewrite u64_id by (unfold is_u64; lia).
  destruct (Z.ltb_spec offset 0); [lia |].
  destruct (Z.geb_spec offset (grp_size (grp_entry finfo))); [lia |].
  destruct (__PHYSFS_platformSeek w (grp_handle finfo)
              (grp_startPos (grp_entry finfo) + offset)) as [w1 [|]];
    [| reflexivity].
  rewrite u32_id by lia. reflexivity.
Qed.

(** The offset being a [PHYSFS_uint64], nothing a caller passes makes
    [GRP_seek] report [ERR_INVALID_ARGUMENT]. *)
Lemma GRP_seek_valid w finfo offset w' finfo' :
  GRP_seek w finfo offset <> (w', finfo', Fail ERR_INVALID_ARGUMENT).
Proof.
  unfold GRP_seek. cbv zeta. pose proof (u64_range offset) as [H0 _].
  destruct (Z.ltb_spec (u64 offset) 0); [lia |].
  destruct (u64 offset >=? grp_size (grp_entry finfo)); [discriminate |].
  destruct (__PHYSFS_platformSeek _ _ _) as [w1 [|]]; discriminate.
Qed.

Lemma MVL_seek_wrapped w finfo offset :
  MVL_seek w finfo (u64 offset) = MVL_seek w finfo offset.
Proof. unfold MVL_seek. rewrite u64_u64. reflexivity. Qed.

Lemma MVL_seek_past_eof w finfo offset :
  mvl_size (mvl_entry finfo) <= u64 offset ->
  MVL_seek w finfo offset = (w, finfo, Fail ERR_PAST_EOF).
Proof.
  intros H. unfold MVL_seek. cbv zeta. pose proof (u64_range offset) as [H0 _].
  destruct (Z.ltb_spec (u64 offset) 0); [lia |].
  destruct (Z.geb_spec (u64 offset) (mvl_size (mvl_entry finfo)));
    [reflexivity | lia].
Qed.

(** What a caller passes as a negative [PHYSFS_sint64] is past the end of
    every entry. *)
Lemma MVL_seek_negative w finfo offset :
  is_u32 (mvl_size (mvl_entry finfo)) -> - 2 ^ 63 <= offset < 0 ->
  MVL_seek w finfo offset = (w, finfo, Fail ERR_PAST_EOF).
Proof.
  intros Hsz H. apply MVL_seek_past_eof. unfold is_u32 in Hsz.
  rewrite u64_negative by lia. lia.
Qed.

Lemma MVL_seek_inside w finfo offset :
  is_u32 (mvl_size (mvl_entry finfo)) ->
  0 <= offset < mvl_size (mvl_entry finfo) ->
  match __PHYSFS_platformSeek w (mvl_handle finfo)
          (mvl_startPos (mvl_entry finfo) + offset) with
  | (w1, true) => MVL_seek w finfo offset = (w1, mvl_at finfo offset, Ok tt)
  | (w1, false) => MVL_seek w finfo offset = (w1, finfo, Fail ERR_PLATFORM)
  end.
Proof.
  intros Hsz H. unfold MVL_seek, is_u32 in *. cbv zeta.
  rewrite u64_id by (unfold is_u64; lia).
  destruct (Z.ltb_spec offset 0); [lia |].
  destruct (Z.geb_spec offset (mvl_size (mvl_entry finfo))); [lia |].
  destruct (__PHYSFS_platformSeek w (mvl_handle finfo)
              (mvl_startPos (mvl_entry finfo) + offset)) as [w1 [|]];
    [| reflexivity].
  rewrite u32_id by lia. reflexivity.
Qed.

(** The offset being a [PHYSFS_uint64], nothing a caller passes makes
    [MVL_seek] report [ERR_INVALID_ARGUMENT]. *)
Lemma MVL_seek_valid w finfo offset w' finfo' :
  MVL_seek w finfo offset <> (w', finfo', Fail ERR_INVALID_ARGUMENT).
Proof.
  unfold MVL_seek. cbv zeta. pose proof (u64_range offset) as [H0 _].
  destruct (Z.ltb_spec (u64 offset) 0); [lia |].
  destruct (u64 offset >=? mvl_size (mvl_entry finfo)); [discriminate |].
  destruct (__PHYSFS_platformSeek _ _ _) as [w1 [|]]; discriminate.
Qed.

(** C5 as stated fails at the offset -1 on the handle of the scenario:
    the offset of [seek] is unsigned, -1 arrives as 2^64 - 1, and the call
    fails with [ERR_PAST_EOF], not with [ERR_INVALID_ARGUMENT]. *)
Lemma seek_negative_counterexample :
  -1 < 0 /\
  GRP_seek scenario_opened scenario_handle (-1)
  = (scenario_opened, scenario_handle, Fail ERR_PAST_EOF) /\
  GRP_seek scenario_opened scenario_handle (-1)
  <> (scenario_opened, scenario_handle, Fail ERR_INVALID_ARGUMENT) /\
  MVL_seek mvl_opened mvl_handle1 (-1)
  = (mvl_opened, mvl_handle1, Fail ERR_PAST_EOF) /\
  MVL_seek mvl_opened mvl_handle1 (-1)
  <> (mvl_opened, mvl_handle1, Fail ERR_INVALID_ARGUMENT).
Proof.
  split; [lia |].
  assert (Hg : GRP_seek scenario_opened scenario_handle (-1)
               = (scenario_opened, scenario_handle, Fail ERR_PAST_EOF))
    by (vm_compute; reflexivity).
  assert (Hm : MVL_seek mvl_opened mvl_handle1 (-1)
               = (mvl_opened, mvl_handle1, Fail ERR_PAST_EOF))
    by (vm_compute; reflexivity).
  split; [exact Hg |]. split; [rewrite Hg; discriminate |].
  split; [exact Hm |]. rewrite Hm. discriminate.
Qed.

(** C5, amended.  The offset of [seek] is a [PHYSFS_uint64].  For every
    handle of either format and every offset: the call never fails with
    [ERR_INVALID_ARGUMENT]; a negative value a caller passes arrives as a
    value of at least 2^63 and fails with [ERR_PAST_EOF], as does every
    offset at or past the entry's size (so [seek(size)] is rejected and
    every seek on an empty entry fails); otherwise the descriptor is
    repositioned to [startPos + offset], and the cursor becomes [offset]
    when that succeeds and is left unchanged, with a failure returned,
    when it does not. *)
Theorem seek_checks_offset :
  forall (w : world) (offset : Z),
    (forall finfo : GRPfileinfo,
        is_u32 (grp_size (grp_entry finfo)) ->
        (forall w' finfo',
            GRP_seek w finfo offset
            <> (w', finfo', Fail ERR_INVALID_ARGUMENT)) /\
        (- 2 ^ 63 <= offset < 0 ->
         GRP_seek w finfo offset = (w, finfo, Fail ERR_PAST_EOF)) /\
        (is_u64 offset -> grp_size (grp_entry finfo) <= offset ->
         GRP_seek w finfo offset = (w, finfo, Fail ERR_PAST_EOF)) /\
        (grp_size (grp_entry finfo) = 0 ->
         GRP_seek w finfo offset = (w, finfo, Fail ERR_PAST_EOF)) /\
        (0 <= offset < grp_size (grp_entry finfo) ->
         match __PHYSFS_platformSeek w (grp_handle finfo)
                 (grp_startPos (grp_entry finfo) + offset) with
         | (w1, true) =>
             GRP_seek w finfo offset = (w1, grp_at finfo offset, Ok tt)
         | (w1, false) =>
             GRP_seek w finfo offset = (w1, finfo, Fail ERR_PLATFORM)
         end)) /\
    (forall finfo : MVLfileinfo,
        is_u32 (mvl_size (mvl_entry finfo)) ->
        (forall w' finfo',
            MVL_seek w finfo offset
            <> (w', finfo', Fail ERR_INVALID_ARGUMENT)) /\
        (- 2 ^ 63 <= offset < 0 ->
         MVL_seek w finfo offset = (w, finfo, Fail ERR_PAST_EOF)) /\
        (is_u64 offset -> mvl_size (mvl_entry finfo) <= offset ->
         MVL_seek w finfo offset = (w, finfo, Fail ERR_PAST_EOF)) /\
        (mvl_size (mvl_entry finfo) = 0 ->
         MVL_seek w finfo offset = (w, finfo, Fail ERR_PAST_EOF)) /\
        (0 <= offset < mvl_size (mvl_entry finfo) ->
         match __PHYSFS_platformSeek w (mvl_handle finfo)
                 (mvl_startPos (mvl_entry finfo) + offset) with
         | (w1, true) =>
             MVL_seek w finfo offset = (w1, mvl_at finfo offset, Ok tt)
         | (w1, false) =>
             MVL_seek w finfo offset = (w1, finfo, Fail ERR_PLATFORM)
         end)).
Proof.
  intros w offset. pose proof (u64_range offset) as [Hu _].
  split; intros finfo Hsz.
  - split; [intros w' finfo'; apply GRP_seek_valid |].
    split; [apply GRP_seek_negative; exact Hsz |].
    split.
    { intros Ho Hge. apply GRP_seek_past_eof. rewrite u64_id by exact Ho.
      exact Hge. }
    split.
    { intros H0. apply GRP_seek_past_eof. lia. }
    apply GRP_seek_inside. exact Hsz.
  - split; [intros w' finfo'; apply MVL_seek_valid |].
    split; [apply MVL_seek_negative; exact Hsz |].
    split.
    { intros Ho Hge. apply MVL_seek_past_eof. rewrite u64_id by exact Ho.
      exact Hge. }
    split.
    { intros H0. apply MVL_seek_past_eof. lia. }
    apply MVL_seek_inside. exact Hsz.
Qed.

(** ** The names lookups rule out *)

Lemma strchr_Some s c : forall p,
  strchr s c = Some p ->
  cstr s !! p = Some c /\ forall i, cstr s !! i = Some c -> (p <= i)%nat.
Proof.
  induction s as [| x t IH]; intros p; simpl; [discriminate |].
  destruct (Z.eqb_spec (uchar x) 0); [discriminate |].
  destruct (Z.eqb_spec (uchar x) (uchar c)) as [E | E].
  - intros [= <-]. apply uchar_inj in E. subst x. split; [reflexivity |].
    intros; lia.
  - destruct (strchr t c) as [p' |] eqn:Hs; simpl; [| discriminate].
    intros [= <-]. destruct (IH p' eq_refl) as [Hp Hfirst]. split.
    + exact Hp.
    + intros [| i] Hi; simpl in Hi.
      * injection Hi as ->. contradiction.
      * specialize (Hfirst i Hi). lia.
Qed.

Lemma strchr_None s c :
  strchr s c = None -> forall i, cstr s !! i <> Some c.
Proof.
  induction s as [| x t IH]; simpl; intros H i; [destruct i; discriminate |].
  destruct (Z.eqb_spec (uchar x) 0); [destruct i; discriminate |].
  destruct (Z.eqb_spec (uchar x) (uchar c)) as [E | E]; [discriminate |].
  destruct (strchr t c) eqn:Hs; [discriminate |].
  destruct i as [| i]; simpl.
  - intros [= ->]. contradiction.
  - apply IH. reflexivity.
Qed.

Lemma cstr_drop s : forall p,
  (p <= length (cstr s))%nat -> cstr (drop p s) = drop p (cstr s).
Proof.
  induction s as [| x t IH]; intros p Hp; [destruct p; reflexivity |].
  destruct p as [| p]; [reflexivity |]. simpl in *.
  destruct (uchar x =? 0); simpl in *; [lia |].
  apply IH. lia.
Qed.

Lemma strlen_drop s p :
  (p <= length (cstr s))%nat -> strlen (drop p s) = strlen s - Z.of_nat p.
Proof.
  intros Hp. unfold strlen. rewrite cstr_drop by exact Hp.
  rewrite length_drop. lia.
Qed.

Lemma ruled_out_spec name :
  ruled_out name = true <->
  too_long name \/ has_separator name \/ long_extension name.
Proof.
  unfold ruled_out, too_long, has_separator, long_extension.
  rewrite !orb_true_iff. split.
  - intros [[Hext | Hlen] | Hsep].
    + destruct (strchr name ".") as [p |] eqn:Hp; [| discriminate].
      destruct (strchr_Some _ _ _ Hp) as [Hdot _].
      right. right. exists p. split; [exact Hdot |].
      rewrite strlen_drop in Hext
        by (apply lookup_lt_Some in Hdot; lia).
      apply Z.gtb_lt in Hext. lia.
    + left. apply Z.gtb_lt in Hlen. lia.
    + apply bool_decide_eq_true in Hsep.
      destruct (strchr name "/") as [p |] eqn:Hp; [| contradiction].
      right. left. exists p. apply (strchr_Some _ _ _ Hp).
  - intros [Hlen | [[i Hi] | (i & Hi & Hext)]].
    + left. right. apply Z.gtb_lt. lia.
    + right. apply bool_decide_eq_true.
      destruct (strchr name "/") eqn:Hp; [discriminate |].
      exfalso. exact (strchr_None _ _ Hp i Hi).
    + left. left. destruct (strchr name ".") as [p |] eqn:Hp.
      * destruct (strchr_Some _ _ _ Hp) as [Hdot Hfirst].
        specialize (Hfirst i Hi).
        rewrite strlen_drop by (apply lookup_lt_Some in Hdot; lia).
        apply Z.gtb_lt. lia.
      * exfalso. exact (strchr_None _ _ Hp i Hi).
Qed.

Lemma grp_find_entry_traced_unfold info name :
  grp_find_entry_traced info name
  = if ruled_out name then (Some (Fail ERR_NO_SUCH_FILE), [])
    else
      let hi := s32 (u32 (grp_entryCount info - 1)) in
      find_entry_loop grp_name strcmp (Z.to_nat (hi + 1 - 0))
        (grp_entries info) name 0 hi.
Proof.
  unfold grp_find_entry_traced, ruled_out.
  destruct (match strchr name "." with
            | Some p => strlen (drop p name) >? 4
            | None => false
            end); [reflexivity |].
  destruct (strlen name >? 12); [reflexivity |].
  destruct (bool_decide (strchr name "/" <> None)); reflexivity.
Qed.

Lemma mvl_find_entry_traced_unfold info name :
  mvl_find_entry_traced info name
  = if ruled_out name then (Some (Fail ERR_NO_SUCH_FILE), [])
    else
      let hi := s32 (u32 (mvl_entryCount info - 1)) in
      find_entry_loop mvl_name __PHYSFS_platformStricmp
        (Z.to_nat (hi + 1 - 0)) (mvl_entries info) name 0 hi.
Proof.
  unfold mvl_find_entry_traced, ruled_out.
  destruct (match strchr name "." with
            | Some p => strlen (drop p name) >? 4
            | None => false
            end); [reflexivity |].
  destruct (strlen name >? 12); [reflexivity |].
  destruct (bool_decide (strchr name "/" <> None)); reflexivity.
Qed.

(** A lookup that fails fails the three operations built on it. *)
Lemma grp_miss info name t :
  grp_find_entry_traced info name = (Some (Fail ERR_NO_SUCH_FILE), t) ->
  grp_find_entry info name = Some (Fail ERR_NO_SUCH_FILE) /\
  GRP_exists info name = Some false /\
  forall w, GRP_openRead w info name = Some (w, false, Fail ERR_NO_SUCH_FILE).
Proof.
  intros H. unfold GRP_exists, GRP_openRead, grp_find_entry.
  rewrite H. repeat split.
Qed.

Lemma mvl_miss info name t :
  mvl_find_entry_traced info name = (Some (Fail ERR_NO_SUCH_FILE), t) ->
  mvl_find_entry info name = Some (Fail ERR_NO_SUCH_FILE) /\
  MVL_exists info name = Some false /\
  forall w, MVL_openRead w info name = Some (w, false, Fail ERR_NO_SUCH_FILE).
Proof.
  intros H. unfold MVL_exists, MVL_openRead, mvl_find_entry.
  rewrite H. repeat split.
Qed.

(** C8. For every container of either format and every requested name:
    when the name exceeds 12 characters, or contains a ['/'], or has a
    ['.'] followed by more than 3 characters, lookup, [exists] and
    [openRead] fail with [ERR_NO_SUCH_FILE] and no entry of the array is
    read; a name passing the three checks goes to the binary search. *)
Theorem impossible_names_rejected :
  forall name : list byte,
    (forall info : GRPinfo,
        (too_long name \/ has_separator name \/ long_extension name ->
         grp_find_entry_traced info name = (Some (Fail ERR_NO_SUCH_FILE), []) /\
         GRP_exists info name = Some false /\
         forall w,
           GRP_openRead w info name = Some (w, false, Fail ERR_NO_SUCH_FILE)) /\
        (~ too_long name -> ~ has_separator name -> ~ long_extension name ->
         let hi := s32 (u32 (grp_entryCount info - 1)) in
         grp_find_entry_traced info name
         = find_entry_loop grp_name strcmp (Z.to_nat (hi + 1 - 0))
             (grp_entries info) name 0 hi)) /\
    (forall info : MVLinfo,
        (too_long name \/ has_separator name \/ long_extension name ->
         mvl_find_entry_traced info name = (Some (Fail ERR_NO_SUCH_FILE), []) /\
         MVL_exists info name = Some false /\
         forall w,
           MVL_openRead w info name = Some (w, false, Fail ERR_NO_SUCH_FILE)) /\
        (~ too_long name -> ~ has_separator name -> ~ long_extension name ->
         let hi := s32 (u32 (mvl_entryCount info - 1)) in
         mvl_find_entry_traced info name
         = find_entry_loop mvl_name __PHYSFS_platformStricmp
             (Z.to_nat (hi + 1 - 0)) (mvl_entries info) name 0 hi)).
Proof.
  intros name. split; intros info; split.
  - intros H. apply ruled_out_spec in H.
    assert (Ht : grp_find_entry_traced info name
                 = (Some (Fail ERR_NO_SUCH_FILE), []))
      by (rewrite grp_find_entry_traced_unfold, H; reflexivity).
    split; [exact Ht | apply (grp_miss _ _ _ Ht)].
  - intros H1 H2 H3. rewrite grp_find_entry_traced_unfold.
    destruct (ruled_out name) eqn:Hr; [| reflexivity].
    apply ruled_out_spec in Hr. tauto.
  - intros H. apply ruled_out_spec in H.
    assert (Ht : mvl_find_entry_traced info name
                 = (Some (Fail ERR_NO_SUCH_FILE), []))
      by (rewrite mvl_find_entry_traced_unfold, H; reflexivity).
    split; [exact Ht | apply (mvl_miss _ _ _ Ht)].
  - intros H1 H2 H3. rewrite mvl_find_entry_traced_unfold.
    destruct (ruled_out name) eqn:Hr; [| reflexivity].
    apply ruled_out_spec in Hr. tauto.
Qed.

(** ** The empty container *)

Lemma empty_search {E} (name_of : E -> list byte) compare a name :
  let hi := s32 (u32 (0 - 1)) in
  hi = -1 /\
  find_entry_loop name_of compare (Z.to_nat (hi + 1 - 0)) a name 0 hi
  = (Some (Fail ERR_NO_SUCH_FILE), []).
Proof. split; reflexivity. Qed.

(** C10. In a container with entry count 0, of either format, the search
    starts from [lo = 0] and [hi = -1], the unsigned [entryCount - 1]
    cast to [PHYSFS_sint32]; its loop body never runs, no entry is read,
    and lookup, [exists] and [openRead] fail with [ERR_NO_SUCH_FILE] on
    every name. *)
Theorem empty_container_lookup :
  forall name : list byte,
    (forall info : GRPinfo,
        grp_entryCount info = 0 ->
        s32 (u32 (grp_entryCount info - 1)) = -1 /\
        grp_find_entry_traced info name = (Some (Fail ERR_NO_SUCH_FILE), []) /\
        grp_find_entry info name = Some (Fail ERR_NO_SUCH_FILE) /\
        GRP_exists info name = Some false /\
        forall w,
          GRP_openRead w info name = Some (w, false, Fail ERR_NO_SUCH_FILE)) /\
    (forall info : MVLinfo,
        mvl_entryCount info = 0 ->
        s32 (u32 (mvl_entryCount info - 1)) = -1 /\
        mvl_find_entry_traced info name = (Some (Fail ERR_NO_SUCH_FILE), []) /\
        mvl_find_entry info name = Some (Fail ERR_NO_SUCH_FILE) /\
        MVL_exists info name = Some false /\
        forall w,
          MVL_openRead w info name = Some (w, false, Fail ERR_NO_SUCH_FILE)).
Proof.
  intros name. split; intros info H0.
  - assert (Ht : grp_find_entry_traced info name
                 = (Some (Fail ERR_NO_SUCH_FILE), [])).
    { rewrite grp_find_entry_traced_unfold, H0.
      destruct (ruled_out name); [reflexivity |].
      apply (empty_search grp_name strcmp). }
    rewrite H0. split; [reflexivity |].
    split; [exact Ht | apply (grp_miss _ _ _ Ht)].
  - assert (Ht : mvl_find_entry_traced info name
                 = (Some (Fail ERR_NO_SUCH_FILE), [])).
    { rewrite mvl_find_entry_traced_unfold, H0.
      destruct (ruled_out name); [reflexivity |].
      apply (empty_search mvl_name __PHYSFS_platformStricmp). }
    rewrite H0. split; [reflexivity |].
    split; [exact Ht | apply (mvl_miss _ _ _ Ht)].
Qed.

(** ** Reading through a handle *)

Lemma platformRead_bound w fd objSize objCount w' rc buf :
  __PHYSFS_platformRead w fd objSize objCount = (w', rc, buf) ->
  0 <= objCount -> -1 <= rc <= objCount.
Proof.
  unfold __PHYSFS_platformRead. destruct (w_open w !! fd) as [rh |].
  - intros [= _ <- _] H. lia.
  - intros [= _ <- _] H. lia.
Qed.

(** A read the file can serve in full. *)
Lemma platformRead_full w fd objSize objCount rh :
  w_open w !! fd = Some rh ->
  0 < objSize -> 0 <= objCount -> 0 <= rh_pos rh ->
  rh_pos rh + objCount * objSize <= Z.of_nat (length (rh_data rh)) ->
  __PHYSFS_platformRead w fd objSize objCount
  = ({| w_files := w_files w;
        w_open := <[fd := {| rh_data := rh_data rh;
                             rh_pos := rh_pos rh + objCount * objSize |}]>
                    (w_open w);
        w_next := w_next w |},
     objCount,
     take (Z.to_nat (objCount * objSize))
          (drop (Z.to_nat (rh_pos rh)) (rh_data rh))).
Proof.
  intros Hfd Hs Hc Hp Hlen. unfold __PHYSFS_platformRead. rewrite Hfd.
  assert (Hq : objCount
               <= (Z.of_nat (length (rh_data rh)) - rh_pos rh) / objSize)
    by (apply Z.div_le_lower_bound; lia).
  rewrite Z.min_l by exact Hq. rewrite Z.max_r by exact Hc. reflexivity.
Qed.

Lemma clamp_min left objCount :
  (if left <? objCount then left else objCount) = Z.min objCount left.
Proof. destruct (Z.ltb_spec left objCount); lia. Qed.

Lemma GRP_read_clamp w finfo objSize objCount :
  grp_handle_ok finfo -> 0 < objSize -> 0 <= objCount ->
  let left := grp_size (grp_entry finfo) - grp_curPos finfo in
  let n := Z.min objCount (left / objSize) in
  exists w' rc buf,
    __PHYSFS_platformRead w (grp_handle finfo) objSize n = (w', rc, buf) /\
    -1 <= rc <= n /\ 0 <= n /\ n * objSize <= left /\
    GRP_read w finfo objSize objCount
    = (w', grp_at finfo (grp_curPos finfo + Z.max 0 rc * objSize), rc, buf).
Proof.
  intros (Hsz & _ & Hcur) Hs Hc left n. unfold is_u32 in Hsz.
  assert (Hq : 0 <= left / objSize) by (apply Z.div_pos; unfold left; lia).
  assert (Hm : objSize * (left / objSize) <= left)
    by (apply Z.mul_div_le; lia).
  assert (Hn : 0 <= n) by (unfold n; lia).
  assert (Hnl : n * objSize <= left) by (unfold n; nia).
  unfold GRP_read. rewrite (u32_id (_ - _)) by (fold left; unfold left; lia).
  fold left. rewrite clamp_min. fold n.
  destruct (__PHYSFS_platformRead w (grp_handle finfo) objSize n)
    as [[w' rc] buf] eqn:Hr.
  pose proof (platformRead_bound _ _ _ _ _ _ _ Hr Hn) as Hrc.
  exists w', rc, buf. repeat split; try lia.
  unfold grp_at. destruct (Z.gtb_spec rc 0).
  - rewrite Z.max_r by lia.
    assert (0 <= rc * objSize <= n * objSize) by nia.
    rewrite (u32_id (rc * objSize)) by (unfold left in *; lia).
    rewrite u32_id by (unfold left in *; lia). reflexivity.
  - rewrite Z.max_l by lia. rewrite Z.mul_0_l, Z.add_0_r. reflexivity.
Qed.

Lemma MVL_read_clamp w finfo objSize objCount :
  mvl_handle_ok finfo -> 0 < objSize -> 0 <= objCount ->
  let left := mvl_size (mvl_entry finfo) - mvl_curPos finfo in
  let n := Z.min objCount (left / objSize) in
  exists w' rc buf,
    __PHYSFS_platformRead w (mvl_handle finfo) objSize n = (w', rc, buf) /\
    -1 <= rc <= n /\ 0 <= n /\ n * objSize <= left /\
    MVL_read w finfo objSize objCount
    = (w', mvl_at finfo (mvl_curPos finfo + Z.max 0 rc * objSize), rc, buf).
Proof.
  intros (Hsz & _ & Hcur) Hs Hc left n. unfold is_u32 in Hsz.
  assert (Hq : 0 <= left / objSize) by (apply Z.div_pos; unfold left; lia).
  assert (Hm : objSize * (left / objSize) <= left)
    by (apply Z.mul_div_le; lia).
  assert (Hn : 0 <= n) by (unfold n; lia).
  assert (Hnl : n * objSize <= left) by (unfold n; nia).
  unfold MVL_read. rewrite (u32_id (_ - _)) by (fold left; unfold left; lia).
  fold left. rewrite clamp_min. fold n.
  destruct (__PHYSFS_platformRead w (mvl_handle finfo) objSize n)
    as [[w' rc] buf] eqn:Hr.
  pose proof (platformRead_bound _ _ _ _ _ _ _ Hr Hn) as Hrc.
  exists w', rc, buf. repeat split; try lia.
  unfold mvl_at. destruct (Z.gtb_spec rc 0).
  - rewrite Z.max_r by lia.
    assert (0 <= rc * objSize <= n * objSize) by nia.
    rewrite (u32_id (rc * objSize)) by (unfold left in *; lia).
    rewrite u32_id by (unfold left in *; lia). reflexivity.
  - rewrite Z.max_l by lia. rewrite Z.mul_0_l, Z.add_0_r. reflexivity.
Qed.

(** Reading bytes through a handle whose file holds the entry. *)
Lemma GRP_read_bytes w finfo objCount :
  grp_handle_ok finfo -> grp_handle_backed w finfo -> 0 <= objCount ->
  let n := Z.min objCount (grp_size (grp_entry finfo) - grp_curPos finfo) in
  exists w' rh,
    w_open w !! grp_handle finfo = Some rh /\
    GRP_read w finfo 1 objCount
    = (w', grp_at finfo (grp_curPos finfo + n), n,
       take (Z.to_nat n)
            (drop (Z.to_nat (grp_startPos (grp_entry finfo)
                             + grp_curPos finfo)) (rh_data rh))) /\
    grp_handle_ok (grp_at finfo (grp_curPos finfo + n)) /\
    grp_handle_backed w' (grp_at finfo (grp_curPos finfo + n)).
Proof.
  intros Hok (rh & Hfd & Hpos & Hlen) Hc n.
  destruct (GRP_read_clamp w finfo 1 objCount Hok) as
    (w' & rc & buf & Hr & Hrc & _ & Hnl & Hread); [lia | exact Hc |].
  rewrite Z.div_1_r in *. fold n in Hr, Hrc, Hnl.
  destruct Hok as (Hsz & Hst & Hcur). unfold is_u32 in *.
  rewrite (platformRead_full _ _ _ _ rh Hfd) in Hr by lia.
  injection Hr as <- <- <-.
  eexists _, rh. split; [exact Hfd |].
  rewrite Hread. rewrite Z.max_r by lia. rewrite !Z.mul_1_r, Hpos.
  split; [reflexivity |]. split.
  - unfold grp_handle_ok, grp_at, is_u32. simpl. clear Hread. subst n. lia.
  - exists {| rh_data := rh_data rh; rh_pos := rh_pos rh + n |}.
    simpl. rewrite lookup_insert_eq. clear Hread. subst n.
    repeat split; try lia. rewrite Hpos. reflexivity.
Qed.

Lemma MVL_read_bytes w finfo objCount :
  mvl_handle_ok finfo -> mvl_handle_backed w finfo -> 0 <= objCount ->
  let n := Z.min objCount (mvl_size (mvl_entry finfo) - mvl_curPos finfo) in
  exists w' rh,
    w_open w !! mvl_handle finfo = Some rh /\
    MVL_read w finfo 1 objCount
    = (w', mvl_at finfo (mvl_curPos finfo + n), n,
       take (Z.to_nat n)
            (drop (Z.to_nat (mvl_startPos (mvl_entry finfo)
                             + mvl_curPos finfo)) (rh_data rh))) /\
    mvl_handle_ok (mvl_at finfo (mvl_curPos finfo + n)) /\
    mvl_handle_backed w' (mvl_at finfo (mvl_curPos finfo + n)).
Proof.
  intros Hok (rh & Hfd & Hpos & Hlen) Hc n.
  destruct (MVL_read_clamp w finfo 1 objCount Hok) as
    (w' & rc & buf & Hr & Hrc & _ & Hnl & Hread); [lia | exact Hc |].
  rewrite Z.div_1_r in *. fold n in Hr, Hrc, Hnl.
  destruct Hok as (Hsz & Hst & Hcur). unfold is_u32 in *.
  rewrite (platformRead_full _ _ _ _ rh Hfd) in Hr by lia.
  injection Hr as <- <- <-.
  eexists _, rh. split; [exact Hfd |].
  rewrite Hread. rewrite Z.max_r by lia. rewrite !Z.mul_1_r, Hpos.
  split; [reflexivity |]. split.
  - unfold mvl_handle_ok, mvl_at, is_u32. simpl. clear Hread. subst n. lia.
  - exists {| rh_data := rh_data rh; rh_pos := rh_pos rh + n |}.
    simpl. rewrite lookup_insert_eq. clear Hread. subst n.
    repeat split; try lia. rewrite Hpos. reflexivity.
Qed.

Lemma take_drop_length {A} (l : list A) (pos n : Z) :
  0 <= pos -> 0 <= n -> pos + n <= Z.of_nat (length l) ->
  Z.of_nat (length (take (Z.to_nat n) (drop (Z.to_nat pos) l))) = n.
Proof.
  intros Hp Hn Hl. rewrite length_take, length_drop. lia.
Qed.

(** C4 as stated fails on [short_data_grp], which loads, its directory
    table being whole: the handle [openRead] gives for [FILE1], an entry
    of 5 bytes of which the file holds 3, returns 3 for a read of 8
    bytes from cursor 0, neither [min(8, 5 - 0)] nor the size of the
    entry, and the cursor advances by those 3. *)
Lemma read_clamp_counterexample :
  GRP_openArchive short_data_world "s.grp" false
  = (opened_closed short_data_world, Ok scenario_info) /\
  GRP_openRead (opened_closed short_data_world) scenario_info (chars "FILE1")
  = Some (short_data_opened, true, Ok scenario_handle) /\
  grp_size (grp_entry scenario_handle) = 5 /\
  grp_curPos scenario_handle = 0 /\
  GRP_read short_data_opened scenario_handle 1 8
  = (short_data_read, grp_at scenario_handle 3, 3, chars "hel") /\
  3 <> Z.min 8 (grp_size (grp_entry scenario_handle)
                - grp_curPos scenario_handle) /\
  3 <> grp_size (grp_entry scenario_handle).
Proof.
  split; [vm_compute; reflexivity |].
  split; [vm_compute; reflexivity |].
  split; [reflexivity |]. split; [reflexivity |].
  split; [vm_compute; reflexivity |].
  split; vm_compute; discriminate.
Qed.

(** C4, amended.  For every open handle of either format, a read of
    single-byte objects is clamped to the entry and the clamp is no
    error: the platform is asked for [min(requested, size - cursor)]
    bytes, the call returns what the platform transferred, at most that,
    and the cursor advances by exactly that; when the file behind the
    handle holds the whole entry this is the clamped amount itself, so
    that asking for [size + K] bytes from cursor 0 returns exactly [size]
    bytes. *)
Theorem read_clamps_to_entry :
  forall (w : world) (objCount : Z),
    0 <= objCount ->
    (forall finfo : GRPfileinfo,
        grp_handle_ok finfo ->
        let left := grp_size (grp_entry finfo) - grp_curPos finfo in
        (exists w' rc buf,
            __PHYSFS_platformRead w (grp_handle finfo) 1 (Z.min objCount left)
            = (w', rc, buf) /\
            rc <= Z.min objCount left /\
            GRP_read w finfo 1 objCount
            = (w', grp_at finfo (grp_curPos finfo + Z.max 0 rc), rc, buf)) /\
        (grp_handle_backed w finfo ->
         exists w' buf,
           GRP_read w finfo 1 objCount
           = (w', grp_at finfo (grp_curPos finfo + Z.min objCount left),
              Z.min objCount left, buf) /\
           Z.of_nat (length buf) = Z.min objCount left) /\
        (grp_handle_backed w finfo -> grp_curPos finfo = 0 ->
         grp_size (grp_entry finfo) <= objCount ->
         exists w' buf,
           GRP_read w finfo 1 objCount
           = (w', grp_at finfo (grp_size (grp_entry finfo)),
              grp_size (grp_entry finfo), buf))) /\
    (forall finfo : MVLfileinfo,
        mvl_handle_ok finfo ->
        let left := mvl_size (mvl_entry finfo) - mvl_curPos finfo in
        (exists w' rc buf,
            __PHYSFS_platformRead w (mvl_handle finfo) 1 (Z.min objCount left)
            = (w', rc, buf) /\
            rc <= Z.min objCount left /\
            MVL_read w finfo 1 objCount
            = (w', mvl_at finfo (mvl_curPos finfo + Z.max 0 rc), rc, buf)) /\
        (mvl_handle_backed w finfo ->
         exists w' buf,
           MVL_read w finfo 1 objCount
           = (w', mvl_at finfo (mvl_curPos finfo + Z.min objCount left),
              Z.min objCount left, buf) /\
           Z.of_nat (length buf) = Z.min objCount left) /\
        (mvl_handle_backed w finfo -> mvl_curPos finfo = 0 ->
         mvl_size (mvl_entry finfo) <= objCount ->
         exists w' buf,
           MVL_read w finfo 1 objCount
           = (w', mvl_at finfo (mvl_size (mvl_entry finfo)),
              mvl_size (mvl_entry finfo), buf))).
Proof.
  intros w objCount Hc. split; intros finfo Hok left.
  - assert (Hbytes : grp_handle_backed w finfo ->
             exists w' buf,
               GRP_read w finfo 1 objCount
               = (w', grp_at finfo (grp_curPos finfo + Z.min objCount left),
                  Z.min objCount left, buf) /\
               Z.of_nat (length buf) = Z.min objCount left).
    { intros Hbk.
      destruct (GRP_read_bytes w finfo objCount Hok Hbk Hc)
        as (w' & rh & Hfd & Hread & _ & _).
      destruct Hbk as (rh' & Hfd' & Hpos & Hlen).
      rewrite Hfd in Hfd'. injection Hfd' as <-.
      destruct Hok as (Hsz & Hst & Hcur). unfold is_u32 in *.
      eexists _, _. split; [exact Hread |].
      apply take_drop_length; subst left; lia. }
    repeat split.
    + destruct (GRP_read_clamp w finfo 1 objCount Hok) as
        (w' & rc & buf & Hr & Hrc & _ & _ & Hread); [lia | exact Hc |].
      rewrite Z.div_1_r in *. rewrite Z.mul_1_r in Hread.
      exists w', rc, buf. repeat split; [exact Hr | lia | exact Hread].
    + exact Hbytes.
    + intros Hbk H0 Hall. destruct (Hbytes Hbk) as (w' & buf & Hread & _).
      exists w', buf. rewrite Hread. subst left. rewrite H0.
      rewrite Z.sub_0_r, Z.min_r by lia. reflexivity.
  - assert (Hbytes : mvl_handle_backed w finfo ->
             exists w' buf,
               MVL_read w finfo 1 objCount
               = (w', mvl_at finfo (mvl_curPos finfo + Z.min objCount left),
                  Z.min objCount left, buf) /\
               Z.of_nat (length buf) = Z.min objCount left).
    { intros Hbk.
      destruct (MVL_read_bytes w finfo objCount Hok Hbk Hc)
        as (w' & rh & Hfd & Hread & _ & _).
      destruct Hbk as (rh' & Hfd' & Hpos & Hlen).
      rewrite Hfd in Hfd'. injection Hfd' as <-.
      destruct Hok as (Hsz & Hst & Hcur). unfold is_u32 in *.
      eexists _, _. split; [exact Hread |].
      apply take_drop_length; subst left; lia. }
    repeat split.
    + destruct (MVL_read_clamp w finfo 1 objCount Hok) as
        (w' & rc & buf & Hr & Hrc & _ & _ & Hread); [lia | exact Hc |].
      rewrite Z.div_1_r in *. rewrite Z.mul_1_r in Hread.
      exists w', rc, buf. repeat split; [exact Hr | lia | exact Hread].
    + exact Hbytes.
    + intros Hbk H0 Hall. destruct (Hbytes Hbk) as (w' & buf & Hread & _).
      exists w', buf. rewrite Hread. subst left. rewrite H0.
      rewrite Z.sub_0_r, Z.min_r by lia. reflexivity.
Qed.

(** C9. The clamp of a read counts whole objects: for every handle of
    either format and every [objSize > 0], the platform is asked for
    [min(objCount, (size - cursor) / objSize)] objects, at most that many
    are returned, the cursor advances by whole objects and stays inside
    the entry; when [objSize] exceeds the bytes left, 0 objects are asked
    for and the cursor does not move. *)
Theorem read_whole_objects :
  forall (w : world) (objSize objCount : Z),
    0 < objSize -> 0 <= objCount ->
    (forall finfo : GRPfileinfo,
        grp_handle_ok finfo ->
        let left := grp_size (grp_entry finfo) - grp_curPos finfo in
        let n := Z.min objCount (left / objSize) in
        exists w' rc buf,
          __PHYSFS_platformRead w (grp_handle finfo) objSize n = (w', rc, buf) /\
          GRP_read w finfo objSize objCount
          = (w', grp_at finfo (grp_curPos finfo + Z.max 0 rc * objSize),
             rc, buf) /\
          rc <= left / objSize /\
          grp_curPos finfo + Z.max 0 rc * objSize
          <= grp_size (grp_entry finfo) /\
          (left < objSize ->
           n = 0 /\ rc <= 0 /\
           grp_curPos finfo + Z.max 0 rc * objSize = grp_curPos finfo)) /\
    (forall finfo : MVLfileinfo,
        mvl_handle_ok finfo ->
        let left := mvl_size (mvl_entry finfo) - mvl_curPos finfo in
        let n := Z.min objCount (left / objSize) in
        exists w' rc buf,
          __PHYSFS_platformRead w (mvl_handle finfo) objSize n = (w', rc, buf) /\
          MVL_read w finfo objSize objCount
          = (w', mvl_at finfo (mvl_curPos finfo + Z.max 0 rc * objSize),
             rc, buf) /\
          rc <= left / objSize /\
          mvl_curPos finfo + Z.max 0 rc * objSize
          <= mvl_size (mvl_entry finfo) /\
          (left < objSize ->
           n = 0 /\ rc <= 0 /\
           mvl_curPos finfo + Z.max 0 rc * objSize = mvl_curPos finfo)).
Proof.
  intros w objSize objCount Hs Hc. split; intros finfo Hok left n.
  - destruct (GRP_read_clamp w finfo objSize objCount Hok Hs Hc)
      as (w' & rc & buf & Hr & Hrc & Hn & Hnl & Hread).
    destruct Hok as (Hsz & Hst & Hcur).
    exists w', rc, buf. split; [exact Hr |]. split; [exact Hread |].
    clear Hr Hread.
    assert (Hsmall : left < objSize -> n = 0).
    { intros Hlt. unfold n. rewrite Z.div_small by (unfold left; lia). lia. }
    assert (Hle : n <= left / objSize) by (unfold n; lia).
    fold left in Hrc, Hnl, Hn. fold n in Hrc, Hnl, Hn.
    clearbody n.
    assert (Hmax : Z.max 0 rc * objSize <= n * objSize)
      by (apply Z.mul_le_mono_nonneg_r; lia).
    unfold left in *. repeat split; lia.
  - destruct (MVL_read_clamp w finfo objSize objCount Hok Hs Hc)
      as (w' & rc & buf & Hr & Hrc & Hn & Hnl & Hread).
    destruct Hok as (Hsz & Hst & Hcur).
    exists w', rc, buf. split; [exact Hr |]. split; [exact Hread |].
    clear Hr Hread.
    assert (Hsmall : left < objSize -> n = 0).
    { intros Hlt. unfold n. rewrite Z.div_small by (unfold left; lia). lia. }
    assert (Hle : n <= left / objSize) by (unfold n; lia).
    fold left in Hrc, Hnl, Hn. fold n in Hrc, Hnl, Hn.
    clearbody n.
    assert (Hmax : Z.max 0 rc * objSize <= n * objSize)
      by (apply Z.mul_le_mono_nonneg_r; lia).
    unfold left in *. repeat split; lia.
Qed.

(** ** Opening an archive *)

Lemma memcmp_eq n : forall s1 s2,
  (n <= length s1)%nat -> (n <= length s2)%nat ->
  (memcmp s1 s2 n = 0 <-> take n s1 = take n s2).
Proof.
  induction n as [| n IH]; intros s1 s2 H1 H2; simpl;
    [split; intros; reflexivity |].
  destruct s1 as [| c1 t1]; [simpl in H1; lia |].
  destruct s2 as [| c2 t2]; [simpl in H2; lia |].
  simpl in *. destruct (Z.eqb_spec (uchar c1) (uchar c2)) as [E | E].
  - apply uchar_inj in E. subst c2. rewrite IH by lia.
    split; intros H; [f_equal; exact H | injection H; auto].
  - split; [lia |]. intros [= -> _]. contradiction.
Qed.

Lemma platformOpenRead_file w path f :
  w_files w !! path = Some f ->
  __PHYSFS_platformOpenRead w path = (opened_at w (f_data f) 0, Some (w_next w)).
Proof. intros H. unfold __PHYSFS_platformOpenRead. rewrite H. reflexivity. Qed.

(** Reading one object of [size] bytes through the fresh descriptor. *)
Lemma platformRead_one w data pos size :
  0 < size -> 0 <= pos <= Z.of_nat (length data) ->
  __PHYSFS_platformRead (opened_at w data pos) (w_next w) size 1
  = if pos + size <=? Z.of_nat (length data)
    then (opened_at w data (pos + size), 1,
          take (Z.to_nat size) (drop (Z.to_nat pos) data))
    else (opened_at w data pos, 0, []).
Proof.
  intros Hs Hp. unfold __PHYSFS_platformRead, opened_at. simpl.
  rewrite lookup_insert_eq. simpl. rewrite insert_insert_eq.
  destruct (Z.leb_spec (pos + size) (Z.of_nat (length data))) as [Hfit | Hshort].
  - assert (1 <= (Z.of_nat (length data) - pos) / size)
      by (apply Z.div_le_lower_bound; lia).
    rewrite Z.min_l, Z.max_r by lia. rewrite Z.mul_1_l. reflexivity.
  - rewrite Z.div_small by lia.
    rewrite Z.min_r, Z.max_l by lia. rewrite Z.mul_0_l, Z.add_0_r.
    reflexivity.
Qed.

Lemma platformClose_opened w data pos :
  __PHYSFS_platformClose (opened_at w data pos) (w_next w)
  = (opened_closed w, true).
Proof.
  unfold __PHYSFS_platformClose, opened_at, opened_closed. simpl.
  rewrite lookup_insert_eq, delete_insert_eq. reflexivity.
Qed.

(** [grp_open] by cases on the file. *)
Lemma grp_open_cases w path f :
  w_files w !! path = Some f ->
  grp_open w path false
  = if Z.of_nat (length (f_data f)) <? 12
    then (opened_closed w, Fail ERR_PLATFORM)
    else if negb (memcmp (take 12 (f_data f)) (chars "KenSilverman") 12 =? 0)
    then (opened_closed w, Fail ERR_UNSUPPORTED_ARCHIVE)
    else if Z.of_nat (length (f_data f)) <? 16
    then (opened_closed w, Fail ERR_PLATFORM)
    else (opened_at w (f_data f) 16,
          Ok (w_next w, PHYSFS_swapULE32 (take 4 (drop 12 (f_data f))))).
Proof.
  intros Hf. unfold grp_open. rewrite (platformOpenRead_file _ _ _ Hf).
  rewrite platformRead_one by lia. rewrite !Z.add_0_l.
  destruct (Z.ltb_spec (Z.of_nat (length (f_data f))) 12) as [Hshort | Hlen].
  - destruct (Z.leb_spec 12 (Z.of_nat (length (f_data f)))); [lia |].
    cbn [negb Z.eqb Pos.eqb]. rewrite platformClose_opened. reflexivity.
  - destruct (Z.leb_spec 12 (Z.of_nat (length (f_data f)))); [| lia].
    cbn [negb Z.eqb Pos.eqb].
    change (Z.to_nat 12) with 12%nat. change (Z.to_nat 0) with 0%nat.
    rewrite drop_0.
    destruct (negb (memcmp (take 12 (f_data f)) (chars "KenSilverman") 12 =? 0)).
    + rewrite platformClose_opened. reflexivity.
    + rewrite platformRead_one by lia. change (12 + 4) with 16.
      destruct (Z.ltb_spec (Z.of_nat (length (f_data f))) 16).
      * destruct (Z.leb_spec 16 (Z.of_nat (length (f_data f)))); [lia |].
        cbn [negb Z.eqb Pos.eqb]. rewrite platformClose_opened. reflexivity.
      * destruct (Z.leb_spec 16 (Z.of_nat (length (f_data f)))); [| lia].
        reflexivity.
Qed.

Lemma mvl_open_cases w path f :
  w_files w !! path = Some f ->
  mvl_open w path false
  = if Z.of_nat (length (f_data f)) <? 4
    then (opened_closed w, Fail ERR_PLATFORM)
    else if negb (memcmp (take 4 (f_data f)) (chars "DMVL") 4 =? 0)
    then (opened_closed w, Fail ERR_UNSUPPORTED_ARCHIVE)
    else if Z.of_nat (length (f_data f)) <? 8
    then (opened_closed w, Fail ERR_PLATFORM)
    else (opened_at w (f_data f) 8,
          Ok (w_next w, PHYSFS_swapULE32 (take 4 (drop 4 (f_data f))))).
Proof.
  intros Hf. unfold mvl_open. rewrite (platformOpenRead_file _ _ _ Hf).
  rewrite platformRead_one by lia. rewrite !Z.add_0_l.
  destruct (Z.ltb_spec (Z.of_nat (length (f_data f))) 4) as [Hshort | Hlen].
  - destruct (Z.leb_spec 4 (Z.of_nat (length (f_data f)))); [lia |].
    cbn [negb Z.eqb Pos.eqb]. rewrite platformClose_opened. reflexivity.
  - destruct (Z.leb_spec 4 (Z.of_nat (length (f_data f)))); [| lia].
    cbn [negb Z.eqb Pos.eqb].
    change (Z.to_nat 4) with 4%nat. change (Z.to_nat 0) with 0%nat.
    rewrite drop_0.
    destruct (negb (memcmp (take 4 (f_data f)) (chars "DMVL") 4 =? 0)).
    + rewrite platformClose_opened. reflexivity.
    + rewrite platformRead_one by lia. change (4 + 4) with 8.
      destruct (Z.ltb_spec (Z.of_nat (length (f_data f))) 8).
      * destruct (Z.leb_spec 8 (Z.of_nat (length (f_data f)))); [lia |].
        cbn [negb Z.eqb Pos.eqb]. rewrite platformClose_opened. reflexivity.
      * destruct (Z.leb_spec 8 (Z.of_nat (length (f_data f)))); [| lia].
        reflexivity.
Qed.

(** A failure of [grp_open] is the failure of the probe and of the load. *)
Lemma grp_open_fail w path w' e :
  grp_open w path false = (w', Fail e) ->
  GRP_isArchive w path false = (w', Fail e) /\
  GRP_openArchive w path false = (w', Fail e).
Proof.
  intros H. unfold GRP_isArchive, GRP_openArchive, grp_load_entries,
    grp_read_table. rewrite H. split; reflexivity.
Qed.

Lemma mvl_open_fail w path w' e :
  mvl_open w path false = (w', Fail e) ->
  MVL_isArchive w path false = (w', Fail e) /\
  MVL_openArchive w path false = (w', Fail e).
Proof.
  intros H. unfold MVL_isArchive, MVL_openArchive, mvl_load_entries,
    mvl_read_table. rewrite H. split; reflexivity.
Qed.

Lemma signature_test (data sig : list byte) (n : nat) :
  length sig = n -> (n <= length data)%nat ->
  (take n data = sig -> (memcmp (take n data) sig n =? 0) = true) /\
  (take n data <> sig -> (memcmp (take n data) sig n =? 0) = false).
Proof.
  intros Hsig Hlen.
  assert (Heq : memcmp (take n data) sig n = 0 <-> take n data = sig).
  { rewrite memcmp_eq by (rewrite ?length_take; lia).
    rewrite take_take, Nat.min_id.
    rewrite (take_ge sig) by lia. tauto. }
  destruct (Z.eqb_spec (memcmp (take n data) sig n) 0) as [H | H];
    split; intros; tauto.
Qed.

Lemma signature_ok (data sig : list byte) (n : nat) :
  length sig = n -> (n <= length data)%nat -> take n data = sig ->
  (memcmp (take n data) sig n =? 0) = true.
Proof. intros H1 H2. apply (signature_test data sig n H1 H2). Qed.

Lemma signature_bad (data sig : list byte) (n : nat) :
  length sig = n -> (n <= length data)%nat -> take n data <> sig ->
  (memcmp (take n data) sig n =? 0) = false.
Proof. intros H1 H2. apply (signature_test data sig n H1 H2). Qed.

Lemma opened_closed_closed w : w_open (opened_closed w) !! w_next w = None.
Proof. unfold opened_closed. simpl. apply lookup_delete_eq. Qed.

Lemma GRP_isArchive_ok w path w' fh count :
  grp_open w path false = (w', Ok (fh, count)) ->
  GRP_isArchive w path false = ((__PHYSFS_platformClose w' fh).1, Ok tt).
Proof. intros H. unfold GRP_isArchive. rewrite H. reflexivity. Qed.

Lemma MVL_isArchive_ok w path w' fh count :
  mvl_open w path false = (w', Ok (fh, count)) ->
  MVL_isArchive w path false = ((__PHYSFS_platformClose w' fh).1, Ok tt).
Proof. intros H. unfold MVL_isArchive. rewrite H. reflexivity. Qed.

(** C7. For every file, opened for reading by either format: when its
    leading bytes are not the signature (12 bytes [KenSilverman], 4 bytes
    [DMVL]) the probe and the open fail with [ERR_UNSUPPORTED_ARCHIVE];
    when the file is too short for the signature or for the 4-byte entry
    count they fail as well; in each case the descriptor was closed
    before returning.  On success [grp_open] / [mvl_open] leave the
    descriptor positioned just after the entry count, which is read as a
    little-endian integer. *)
Theorem opener_checks_signature :
  forall (w : world) (path : string) (f : file),
    w_files w !! path = Some f ->
    let data := f_data f in
    let len := Z.of_nat (length data) in
    w_open (opened_closed w) !! w_next w = None /\
    ((12 <= len -> take 12 data <> chars "KenSilverman" ->
      grp_open w path false = (opened_closed w, Fail ERR_UNSUPPORTED_ARCHIVE) /\
      GRP_isArchive w path false
      = (opened_closed w, Fail ERR_UNSUPPORTED_ARCHIVE) /\
      GRP_openArchive w path false
      = (opened_closed w, Fail ERR_UNSUPPORTED_ARCHIVE)) /\
     (len < 12 \/ (take 12 data = chars "KenSilverman" /\ len < 16) ->
      exists e,
        grp_open w path false = (opened_closed w, Fail e) /\
        GRP_isArchive w path false = (opened_closed w, Fail e) /\
        GRP_openArchive w path false = (opened_closed w, Fail e)) /\
     (take 12 data = chars "KenSilverman" -> 16 <= len ->
      grp_open w path false
      = (opened_at w data 16,
         Ok (w_next w, PHYSFS_swapULE32 (take 4 (drop 12 data)))) /\
      GRP_isArchive w path false = (opened_closed w, Ok tt))) /\
    ((4 <= len -> take 4 data <> chars "DMVL" ->
      mvl_open w path false = (opened_closed w, Fail ERR_UNSUPPORTED_ARCHIVE) /\
      MVL_isArchive w path false
      = (opened_closed w, Fail ERR_UNSUPPORTED_ARCHIVE) /\
      MVL_openArchive w path false
      = (opened_closed w, Fail ERR_UNSUPPORTED_ARCHIVE)) /\
     (len < 4 \/ (take 4 data = chars "DMVL" /\ len < 8) ->
      exists e,
        mvl_open w path false = (opened_closed w, Fail e) /\
        MVL_isArchive w path false = (opened_closed w, Fail e) /\
        MVL_openArchive w path false = (opened_closed w, Fail e)) /\
     (take 4 data = chars "DMVL" -> 8 <= len ->
      mvl_open w path false
      = (opened_at w data 8,
         Ok (w_next w, PHYSFS_swapULE32 (take 4 (drop 4 data)))) /\
      MVL_isArchive w path false = (opened_closed w, Ok tt))).
Proof.
  intros w path f Hf data len.
  split; [apply opened_closed_closed |].
  pose proof (grp_open_cases w path f Hf) as Hg.
  pose proof (mvl_open_cases w path f Hf) as Hm.
  fold data in Hg, Hm. fold len in Hg, Hm.
  split; (split; [| split]).
  - intros Hlen Hsig.
    assert (Ho : grp_open w path false
                 = (opened_closed w, Fail ERR_UNSUPPORTED_ARCHIVE)).
    { rewrite Hg. destruct (Z.ltb_spec len 12); [lia |].
      rewrite signature_bad
        by (try reflexivity; try exact Hsig; unfold len in *; lia).
      reflexivity. }
    split; [exact Ho | apply grp_open_fail, Ho].
  - intros Hcase. exists ERR_PLATFORM.
    assert (Ho : grp_open w path false = (opened_closed w, Fail ERR_PLATFORM)).
    { rewrite Hg. destruct (Z.ltb_spec len 12) as [| Hlen]; [reflexivity |].
      destruct Hcase as [| [Hsig Hshort]]; [lia |].
      rewrite signature_ok
        by (try reflexivity; try exact Hsig; unfold len in *; lia).
      cbn [negb].
      destruct (Z.ltb_spec len 16); [reflexivity | lia]. }
    split; [exact Ho | apply grp_open_fail, Ho].
  - intros Hsig Hlen.
    assert (Ho : grp_open w path false
                 = (opened_at w data 16,
                    Ok (w_next w, PHYSFS_swapULE32 (take 4 (drop 12 data))))).
    { rewrite Hg. destruct (Z.ltb_spec len 12); [lia |].
      rewrite signature_ok
        by (try reflexivity; try assumption; unfold len in *; lia).
      cbn [negb].
      destruct (Z.ltb_spec len 16); [lia | reflexivity]. }
    split; [exact Ho |].
    rewrite (GRP_isArchive_ok _ _ _ _ _ Ho), platformClose_opened.
    reflexivity.
  - intros Hlen Hsig.
    assert (Ho : mvl_open w path false
                 = (opened_closed w, Fail ERR_UNSUPPORTED_ARCHIVE)).
    { rewrite Hm. destruct (Z.ltb_spec len 4); [lia |].
      rewrite signature_bad
        by (try reflexivity; try exact Hsig; unfold len in *; lia).
      reflexivity. }
    split; [exact Ho | apply mvl_open_fail, Ho].
  - intros Hcase. exists ERR_PLATFORM.
    assert (Ho : mvl_open w path false = (opened_closed w, Fail ERR_PLATFORM)).
    { rewrite Hm. destruct (Z.ltb_spec len 4) as [| Hlen]; [reflexivity |].
      destruct Hcase as [| [Hsig Hshort]]; [lia |].
      rewrite signature_ok
        by (try reflexivity; try exact Hsig; unfold len in *; lia).
      cbn [negb].
      destruct (Z.ltb_spec len 8); [reflexivity | lia]. }
    split; [exact Ho | apply mvl_open_fail, Ho].
  - intros Hsig Hlen.
    assert (Ho : mvl_open w path false
                 = (opened_at w data 8,
                    Ok (w_next w, PHYSFS_swapULE32 (take 4 (drop 4 data))))).
    { rewrite Hm. destruct (Z.ltb_spec len 4); [lia |].
      rewrite signature_ok
        by (try reflexivity; try assumption; unfold len in *; lia).
      cbn [negb].
      destruct (Z.ltb_spec len 8); [lia | reflexivity]. }
    split; [exact Ho |].
    rewrite (MVL_isArchive_ok _ _ _ _ _ Ho), platformClose_opened.
    reflexivity.
Qed.

(** ** The loaded container *)

Lemma GRP_loaded_sorted w path forWriting w' info :
  GRP_openArchive w path forWriting = (w', Ok info) ->
  sorted_by grp_cmp (grp_entries info).
Proof.
  intros H. apply GRP_openArchive_inv in H as (tbl & _ & -> & _).
  apply grp_sort_sorted.
Qed.

(** What [mvl_load_entries] establishes is the order of [strcmp]. *)
Lemma MVL_loaded_sorted w path forWriting w' info :
  MVL_openArchive w path forWriting = (w', Ok info) ->
  sorted_by mvl_cmp (mvl_entries info).
Proof.
  intros H. apply MVL_openArchive_inv in H as (tbl & _ & -> & _).
  apply mvl_sort_sorted.
Qed.

Lemma mixed_case_loaded :
  MVL_openArchive (one_file "m.mvl" mixed_case_mvl) "m.mvl" false
  = (opened_closed (one_file "m.mvl" mixed_case_mvl), Ok mixed_info).
Proof. vm_compute. reflexivity. Qed.

(** C2, at the archive [mixed_case_mvl] with the entries [B] and [a]:
    the load succeeds and leaves the entries in the order [B], [a], the
    order of the case-sensitive [strcmp] that [mvl_entry_cmp] calls.
    Under the case-insensitive comparison [mvl_find_entry] searches with,
    [B] compares greater than [a]: the sequence is not sorted under the
    format's comparison mode, and the lookup of [a] misses. *)
Theorem mvl_sorted_by_wrong_comparison :
  MVL_openArchive (one_file "m.mvl" mixed_case_mvl) "m.mvl" false
  = (opened_closed (one_file "m.mvl" mixed_case_mvl), Ok mixed_info) /\
  mvl_entries mixed_info = [mixed_B; mixed_a] /\
  mvl_cmp mixed_B mixed_a < 0 /\
  mvl_icmp mixed_B mixed_a > 0 /\
  ~ sorted_by mvl_icmp (mvl_entries mixed_info) /\
  mvl_find_entry mixed_info (chars "a") = Some (Fail ERR_NO_SUCH_FILE).
Proof.
  split; [exact mixed_case_loaded |].
  split; [reflexivity |].
  split; [reflexivity |].
  split; [reflexivity |].
  split; [| reflexivity].
  intros Hs.
  specialize (Hs 0%nat 1%nat mixed_B mixed_a).
  assert (H : mvl_icmp mixed_B mixed_a <= 0)
    by (apply Hs; [lia | reflexivity | reflexivity]).
  vm_compute in H. apply H. reflexivity.
Qed.

(** ** The offsets of the directory table *)

Lemma wrap_table_read :
  grp_read_table (one_file "w.grp" wrap_grp) "w.grp" false
  = (opened_closed (one_file "w.grp" wrap_grp), Ok (3, wrap_table)).
Proof. vm_compute. reflexivity. Qed.

(** C3 as stated fails on [wrap_grp], which loads: its first entry is
    empty, so the second starts at the same offset, and the sizes add up
    past 2^32, so the third offset has wrapped around. *)
Lemma table_offsets_counterexample :
  exists w' info,
    GRP_openArchive (one_file "w.grp" wrap_grp) "w.grp" false = (w', Ok info) /\
    grp_read_table (one_file "w.grp" wrap_grp) "w.grp" false
    = (w', Ok (grp_entryCount info, wrap_table)) /\
    ~ layout_as_stated grp_startPos grp_size
        (16 + 16 * grp_entryCount info) wrap_table /\
    (exists e0 e1,
        wrap_table !! 0%nat = Some e0 /\ wrap_table !! 1%nat = Some e1 /\
        grp_startPos e0 = grp_startPos e1) /\
    (exists e1 e2,
        wrap_table !! 1%nat = Some e1 /\ wrap_table !! 2%nat = Some e2 /\
        grp_startPos e2 <> grp_startPos e1 + grp_size e1 /\
        grp_startPos e2 < grp_startPos e1).
Proof.
  destruct (GRP_openArchive (one_file "w.grp" wrap_grp) "w.grp" false)
    as [w' [info | e]] eqn:Ho; [| vm_compute in Ho; discriminate].
  exists w', info. split; [reflexivity |].
  assert (Hi : w' = opened_closed (one_file "w.grp" wrap_grp)
               /\ grp_entryCount info = 3).
  { vm_compute in Ho. injection Ho as <- <-. split; reflexivity. }
  destruct Hi as [-> Hc]. rewrite Hc. split; [exact wrap_table_read |].
  split; [| split].
  - intros [_ Hnext].
    destruct (Hnext 0%nat _ _ eq_refl eq_refl) as [_ Hlt].
    vm_compute in Hlt. discriminate.
  - eexists _, _. repeat split.
  - eexists _, _. split; [reflexivity |]. split; [reflexivity |].
    split; [vm_compute; discriminate | reflexivity].
Qed.

(** C3, amended.  For every archive either format loads, the table read
    in on-disk order (the entries of the container are a permutation of
    it) satisfies, in unsigned 32-bit arithmetic: the first entry starts
    at the header size plus the size of the table (16 + 16 x count for
    GRP, 8 + 17 x count for MVL), and every next entry starts where the
    previous one ends.  When header, table and data stay below 2^32 these
    equations hold in exact integers and the offsets never decrease; they
    increase strictly across every entry that is not empty. *)
Theorem table_offsets_accumulate :
  (forall w path w' info,
      GRP_openArchive w path false = (w', Ok info) ->
      exists tbl,
        grp_read_table w path false = (w', Ok (grp_entryCount info, tbl)) /\
        Permutation (grp_entries info) tbl /\
        Z.of_nat (length tbl) = grp_entryCount info /\
        (forall e, tbl !! O = Some e ->
                   grp_startPos e = u32 (16 + 16 * grp_entryCount info)) /\
        (forall k e e', tbl !! k = Some e -> tbl !! S k = Some e' ->
                        grp_startPos e' = u32 (grp_startPos e + grp_size e)) /\
        (16 + 16 * grp_entryCount info + total_size grp_size tbl < 2 ^ 32 ->
         (forall e, tbl !! O = Some e ->
                    grp_startPos e = 16 + 16 * grp_entryCount info) /\
         (forall k e e', tbl !! k = Some e -> tbl !! S k = Some e' ->
                         grp_startPos e' = grp_startPos e + grp_size e /\
                         grp_startPos e <= grp_startPos e' /\
                         (0 < grp_size e -> grp_startPos e < grp_startPos e')) /\
         (forall i j e e', (i < j)%nat ->
                           tbl !! i = Some e -> tbl !! j = Some e' ->
                           grp_startPos e + grp_size e <= grp_startPos e'))) /\
  (forall w path w' info,
      MVL_openArchive w path false = (w', Ok info) ->
      exists tbl,
        mvl_read_table w path false = (w', Ok (mvl_entryCount info, tbl)) /\
        Permutation (mvl_entries info) tbl /\
        Z.of_nat (length tbl) = mvl_entryCount info /\
        (forall e, tbl !! O = Some e ->
                   mvl_startPos e = u32 (8 + 17 * mvl_entryCount info)) /\
        (forall k e e', tbl !! k = Some e -> tbl !! S k = Some e' ->
                        mvl_startPos e' = u32 (mvl_startPos e + mvl_size e)) /\
        (8 + 17 * mvl_entryCount info + total_size mvl_size tbl < 2 ^ 32 ->
         (forall e, tbl !! O = Some e ->
                    mvl_startPos e = 8 + 17 * mvl_entryCount info) /\
         (forall k e e', tbl !! k = Some e -> tbl !! S k = Some e' ->
                         mvl_startPos e' = mvl_startPos e + mvl_size e /\
                         mvl_startPos e <= mvl_startPos e' /\
                         (0 < mvl_size e -> mvl_startPos e < mvl_startPos e')) /\
         (forall i j e e', (i < j)%nat ->
                           tbl !! i = Some e -> tbl !! j = Some e' ->
                           mvl_startPos e + mvl_size e <= mvl_startPos e'))).
Proof.
  split; intros w path w' info Ho.
  - destruct (GRP_openArchive_inv _ _ _ _ _ Ho) as (tbl & Ht & Hs & _ & _).
    destruct (grp_read_table_spec _ _ _ _ _ _ Ht) as (Hc & Hlen & Hch & Hsz).
    exists tbl. split; [exact Ht |].
    split; [rewrite Hs; apply grp_sort_perm |].
    split; [exact Hlen |].
    split; [intros e He; apply (chain_head _ _ _ _ _ Hch He) |].
    split; [intros k e e' Hk HSk; apply (chain_next _ _ _ _ _ _ _ Hch Hk HSk) |].
    intros Hfit. unfold is_u32 in Hc.
    assert (Hpos : Forall (fun x => 0 <= grp_size x) tbl).
    { eapply Forall_impl; [exact Hsz |]. unfold is_u32. simpl. intros; lia. }
    assert (Htot : 0 <= total_size grp_size tbl).
    { clear -Hpos. induction Hpos; simpl; lia. }
    rewrite u32_id in Hch by lia.
    split; [intros e He; apply (chain_head _ _ _ _ _ Hch He) |].
    split.
    + intros k e e' Hk HSk.
      apply (chain_exact grp_startPos grp_size tbl _ k e e' Hch Hpos);
        [lia | lia | exact Hk | exact HSk].
    + intros i j e e' Hij Hi Hj.
      apply (chain_disjoint grp_startPos grp_size tbl _ i j e e' Hch Hpos);
        [lia | lia | exact Hij | exact Hi | exact Hj].
  - destruct (MVL_openArchive_inv _ _ _ _ _ Ho) as (tbl & Ht & Hs & _ & _).
    destruct (mvl_read_table_spec _ _ _ _ _ _ Ht) as (Hc & Hlen & Hch & Hsz).
    exists tbl. split; [exact Ht |].
    split; [rewrite Hs; apply mvl_sort_perm |].
    split; [exact Hlen |].
    split; [intros e He; apply (chain_head _ _ _ _ _ Hch He) |].
    split; [intros k e e' Hk HSk; apply (chain_next _ _ _ _ _ _ _ Hch Hk HSk) |].
    intros Hfit. unfold is_u32 in Hc.
    assert (Hpos : Forall (fun x => 0 <= mvl_size x) tbl).
    { eapply Forall_impl; [exact Hsz |]. unfold is_u32. simpl. intros; lia. }
    assert (Htot : 0 <= total_size mvl_size tbl).
    { clear -Hpos. induction Hpos; simpl; lia. }
    rewrite u32_id in Hch by lia.
    split; [intros e He; apply (chain_head _ _ _ _ _ Hch He) |].
    split.
    + intros k e e' Hk HSk.
      apply (chain_exact mvl_startPos mvl_size tbl _ k e e' Hch Hpos);
        [lia | lia | exact Hk | exact HSk].
    + intros i j e e' Hij Hi Hj.
      apply (chain_disjoint mvl_startPos mvl_size tbl _ i j e e' Hch Hpos);
        [lia | lia | exact Hij | exact Hi | exact Hj].
Qed.

(** ** Lookup in a loaded container *)

Lemma grp_find_entry_sorted info name :
  grp_entryCount info = Z.of_nat (length (grp_entries info)) ->
  grp_entryCount info < 2 ^ 31 ->
  sorted_by grp_cmp (grp_entries info) ->
  ruled_out name = false ->
  exists r t,
    grp_find_entry_traced info name = (Some r, t) /\
    Forall (fun i => 0 <= i < grp_entryCount info) t /\
    match r with
    | Ok e => e ∈ grp_entries info /\ strcmp name (grp_name e) = 0
    | Fail err =>
        err = ERR_NO_SUCH_FILE /\
        forall e, e ∈ grp_entries info -> strcmp name (grp_name e) <> 0
    end.
Proof.
  intros Hc Hsmall Hs Hr.
  rewrite grp_find_entry_traced_unfold, Hr, Hc. rewrite Hc in Hsmall.
  apply (find_entry_whole grp_name strcmp strcmp_antisym strcmp_trans
           (grp_entries info) name Hsmall Hs).
Qed.

Lemma mvl_find_entry_sorted info name :
  mvl_entryCount info = Z.of_nat (length (mvl_entries info)) ->
  mvl_entryCount info < 2 ^ 31 ->
  sorted_by mvl_icmp (mvl_entries info) ->
  ruled_out name = false ->
  exists r t,
    mvl_find_entry_traced info name = (Some r, t) /\
    Forall (fun i => 0 <= i < mvl_entryCount info) t /\
    match r with
    | Ok e =>
        e ∈ mvl_entries info /\ __PHYSFS_platformStricmp name (mvl_name e) = 0
    | Fail err =>
        err = ERR_NO_SUCH_FILE /\
        forall e, e ∈ mvl_entries info ->
                  __PHYSFS_platformStricmp name (mvl_name e) <> 0
    end.
Proof.
  intros Hc Hsmall Hs Hr.
  rewrite mvl_find_entry_traced_unfold, Hr, Hc. rewrite Hc in Hsmall.
  apply (find_entry_whole mvl_name __PHYSFS_platformStricmp
           stricmp_antisym stricmp_trans (mvl_entries info) name Hsmall Hs).
Qed.

(** A name no entry has is not found, sorted array or not. *)
Lemma grp_find_entry_absent info name :
  grp_entryCount info = Z.of_nat (length (grp_entries info)) ->
  grp_entryCount info < 2 ^ 31 ->
  (forall e, e ∈ grp_entries info -> strcmp name (grp_name e) <> 0) ->
  exists t,
    grp_find_entry_traced info name = (Some (Fail ERR_NO_SUCH_FILE), t).
Proof.
  intros Hc Hsmall Habsent. rewrite grp_find_entry_traced_unfold.
  destruct (ruled_out name); [exists []; reflexivity |]. cbv zeta.
  rewrite Hc in Hsmall |- *. rewrite s32_pred_u32 by lia.
  destruct (find_entry_loop_total grp_name strcmp (grp_entries info) name
              Hsmall (Z.to_nat (Z.of_nat (length (grp_entries info)) - 1 + 1 - 0))
              0 (Z.of_nat (length (grp_entries info)) - 1))
    as (r & t & Hrun & _ & Hr); [lia | lia | lia |].
  rewrite Hrun. destruct r as [e | err].
  - destruct Hr as [He Heq]. exfalso. exact (Habsent e He Heq).
  - rewrite Hr. exists t. reflexivity.
Qed.

Lemma mvl_find_entry_absent info name :
  mvl_entryCount info = Z.of_nat (length (mvl_entries info)) ->
  mvl_entryCount info < 2 ^ 31 ->
  (forall e, e ∈ mvl_entries info ->
             __PHYSFS_platformStricmp name (mvl_name e) <> 0) ->
  exists t,
    mvl_find_entry_traced info name = (Some (Fail ERR_NO_SUCH_FILE), t).
Proof.
  intros Hc Hsmall Habsent. rewrite mvl_find_entry_traced_unfold.
  destruct (ruled_out name); [exists []; reflexivity |]. cbv zeta.
  rewrite Hc in Hsmall |- *. rewrite s32_pred_u32 by lia.
  destruct (find_entry_loop_total mvl_name __PHYSFS_platformStricmp
              (mvl_entries info) name
              Hsmall (Z.to_nat (Z.of_nat (length (mvl_entries info)) - 1 + 1 - 0))
              0 (Z.of_nat (length (mvl_entries info)) - 1))
    as (r & t & Hrun & _ & Hr); [lia | lia | lia |].
  rewrite Hrun. destruct r as [e | err].
  - destruct Hr as [He Heq]. exfalso. exact (Habsent e He Heq).
  - rewrite Hr. exists t. reflexivity.
Qed.

(** A lookup that hits makes [exists] true and [openRead] open that
    entry, when the platform opens and positions the file. *)
Lemma grp_hit info name e t :
  grp_find_entry_traced info name = (Some (Ok e), t) ->
  grp_find_entry info name = Some (Ok e) /\
  GRP_exists info name = Some true /\
  forall w, exists w1 r,
    GRP_openRead w info name = Some (w1, true, r) /\
    forall f, r = Ok f -> grp_entry f = e /\ grp_curPos f = 0.
Proof.
  intros H. unfold GRP_exists, GRP_openRead, grp_find_entry. rewrite H.
  simpl. repeat split. intros w.
  destruct (__PHYSFS_platformOpenRead w (grp_filename info)) as [w1 [h |]].
  - destruct (__PHYSFS_platformSeek w1 h (grp_startPos e)) as [w2 [|]].
    + eexists _, _. split; [reflexivity |]. intros f [= <-]. split; reflexivity.
    + eexists _, _. split; [reflexivity |]. intros f Hf. discriminate.
  - eexists _, _. split; [reflexivity |]. intros f Hf. discriminate.
Qed.

Lemma mvl_hit info name e t :
  mvl_find_entry_traced info name = (Some (Ok e), t) ->
  mvl_find_entry info name = Some (Ok e) /\
  MVL_exists info name = Some true /\
  forall w, exists w1 r,
    MVL_openRead w info name = Some (w1, true, r) /\
    forall f, r = Ok f -> mvl_entry f = e /\ mvl_curPos f = 0.
Proof.
  intros H. unfold MVL_exists, MVL_openRead, mvl_find_entry. rewrite H.
  simpl. repeat split. intros w.
  destruct (__PHYSFS_platformOpenRead w (mvl_filename info)) as [w1 [h |]].
  - destruct (__PHYSFS_platformSeek w1 h (mvl_startPos e)) as [w2 [|]].
    + eexists _, _. split; [reflexivity |]. intros f [= <-]. split; reflexivity.
    + eexists _, _. split; [reflexivity |]. intros f Hf. discriminate.
  - eexists _, _. split; [reflexivity |]. intros f Hf. discriminate.
Qed.

Lemma not_ruled_out name :
  ~ too_long name -> ~ has_separator name -> ~ long_extension name ->
  ruled_out name = false.
Proof.
  intros H1 H2 H3. destruct (ruled_out name) eqn:Hr; [| reflexivity].
  apply ruled_out_spec in Hr. tauto.
Qed.

Lemma dotted_loaded :
  GRP_openArchive (one_file "d.grp" dotted_grp) "d.grp" false
  = (opened_closed (one_file "d.grp" dotted_grp), Ok dotted_info).
Proof. vm_compute. reflexivity. Qed.

Lemma dotted_table :
  grp_read_table (one_file "d.grp" dotted_grp) "d.grp" false
  = (opened_closed (one_file "d.grp" dotted_grp), Ok (1, [dotted_entry])).
Proof. vm_compute. reflexivity. Qed.

(** C1 as stated fails on [dotted_grp], which loads: the name [A.TEXT] is
    in the on-disk table, and lookup, [exists] and [openRead] report
    [ERR_NO_SUCH_FILE] for it, four characters following its ['.']. *)
Lemma lookup_total_counterexample :
  GRP_openArchive (one_file "d.grp" dotted_grp) "d.grp" false
  = (opened_closed (one_file "d.grp" dotted_grp), Ok dotted_info) /\
  grp_read_table (one_file "d.grp" dotted_grp) "d.grp" false
  = (opened_closed (one_file "d.grp" dotted_grp), Ok (1, [dotted_entry])) /\
  cstr (grp_name dotted_entry) = chars "A.TEXT" /\
  strcmp (chars "A.TEXT") (grp_name dotted_entry) = 0 /\
  grp_find_entry dotted_info (chars "A.TEXT") = Some (Fail ERR_NO_SUCH_FILE) /\
  GRP_exists dotted_info (chars "A.TEXT") = Some false /\
  GRP_openRead (opened_closed (one_file "d.grp" dotted_grp)) dotted_info
    (chars "A.TEXT")
  = Some (opened_closed (one_file "d.grp" dotted_grp), false,
          Fail ERR_NO_SUCH_FILE).
Proof.
  split; [exact dotted_loaded |].
  split; [exact dotted_table |].
  repeat split.
Qed.

(** C1, amended.  In a container either format loaded, with fewer than
    2^31 entries, each format under its own comparison ([strcmp] for GRP,
    the case-insensitive comparison for MVL):
    - a name that compares equal to the name of a record of the on-disk
      table and passes the three checks of the lookup (at most 12
      characters, no ['/'], no ['.'] followed by more than 3 characters)
      is found by lookup, [exists] and [openRead], for GRP always and for
      MVL when the entries are in order under the case-insensitive
      comparison; the entry found is a record of the table with that
      name, and is the record itself when no other record has the name;
    - a name that no record of the table has fails with
      [ERR_NO_SUCH_FILE]. *)
Theorem lookup_finds_table_entries :
  (forall w path w' info,
      GRP_openArchive w path false = (w', Ok info) ->
      grp_entryCount info < 2 ^ 31 ->
      exists tbl,
        grp_read_table w path false = (w', Ok (grp_entryCount info, tbl)) /\
        (forall name e,
            e ∈ tbl -> strcmp name (grp_name e) = 0 ->
            ~ too_long name -> ~ has_separator name -> ~ long_extension name ->
            exists e',
              grp_find_entry info name = Some (Ok e') /\
              GRP_exists info name = Some true /\
              (forall w0, exists w1 r,
                  GRP_openRead w0 info name = Some (w1, true, r) /\
                  forall f, r = Ok f -> grp_entry f = e' /\ grp_curPos f = 0) /\
              e' ∈ tbl /\ strcmp name (grp_name e') = 0 /\
              ((forall x, x ∈ tbl -> strcmp name (grp_name x) = 0 -> x = e) ->
               e' = e)) /\
        (forall name,
            (forall e, e ∈ tbl -> strcmp name (grp_name e) <> 0) ->
            grp_find_entry info name = Some (Fail ERR_NO_SUCH_FILE) /\
            GRP_exists info name = Some false /\
            forall w0,
              GRP_openRead w0 info name
              = Some (w0, false, Fail ERR_NO_SUCH_FILE))) /\
  (forall w path w' info,
      MVL_openArchive w path false = (w', Ok info) ->
      mvl_entryCount info < 2 ^ 31 ->
      exists tbl,
        mvl_read_table w path false = (w', Ok (mvl_entryCount info, tbl)) /\
        (forall name e,
            sorted_by mvl_icmp (mvl_entries info) ->
            e ∈ tbl -> __PHYSFS_platformStricmp name (mvl_name e) = 0 ->
            ~ too_long name -> ~ has_separator name -> ~ long_extension name ->
            exists e',
              mvl_find_entry info name = Some (Ok e') /\
              MVL_exists info name = Some true /\
              (forall w0, exists w1 r,
                  MVL_openRead w0 info name = Some (w1, true, r) /\
                  forall f, r = Ok f -> mvl_entry f = e' /\ mvl_curPos f = 0) /\
              e' ∈ tbl /\ __PHYSFS_platformStricmp name (mvl_name e') = 0 /\
              ((forall x, x ∈ tbl ->
                          __PHYSFS_platformStricmp name (mvl_name x) = 0 ->
                          x = e) ->
               e' = e)) /\
        (forall name,
            (forall e, e ∈ tbl ->
                       __PHYSFS_platformStricmp name (mvl_name e) <> 0) ->
            mvl_find_entry info name = Some (Fail ERR_NO_SUCH_FILE) /\
            MVL_exists info name = Some false /\
            forall w0,
              MVL_openRead w0 info name
              = Some (w0, false, Fail ERR_NO_SUCH_FILE))).
Proof.
  split.
  - intros w path w' info Ho Hsmall.
    pose proof (GRP_loaded_sorted _ _ _ _ _ Ho) as Hsorted.
    destruct (GRP_openArchive_inv _ _ _ _ _ Ho) as (tbl & Ht & Hs & Hc & _).
    assert (Hperm : Permutation (grp_entries info) tbl)
      by (rewrite Hs; apply grp_sort_perm).
    exists tbl. split; [exact Ht |]. split.
    + intros name e He Hname H1 H2 H3.
      destruct (grp_find_entry_sorted info name Hc Hsmall Hsorted
                  (not_ruled_out name H1 H2 H3)) as (r & t & Hrun & _ & Hr).
      destruct r as [e' | err].
      * destruct Hr as [He' Heq].
        destruct (grp_hit _ _ _ _ Hrun) as (Hf & Hex & Hop).
        exists e'. split; [exact Hf |]. split; [exact Hex |].
        split; [exact Hop |].
        assert (He't : e' ∈ tbl) by (rewrite <- Hperm; exact He').
        split; [exact He't |]. split; [exact Heq |].
        intros Huniq. apply Huniq; assumption.
      * destruct Hr as [_ Hnone]. exfalso.
        apply (Hnone e); [rewrite Hperm; exact He | exact Hname].
    + intros name Habsent.
      destruct (grp_find_entry_absent info name Hc Hsmall) as [t Hmiss].
      * intros e He. apply Habsent. rewrite <- Hperm. exact He.
      * apply (grp_miss _ _ _ Hmiss).
  - intros w path w' info Ho Hsmall.
    destruct (MVL_openArchive_inv _ _ _ _ _ Ho) as (tbl & Ht & Hs & Hc & _).
    assert (Hperm : Permutation (mvl_entries info) tbl)
      by (rewrite Hs; apply mvl_sort_perm).
    exists tbl. split; [exact Ht |]. split.
    + intros name e Hsorted He Hname H1 H2 H3.
      destruct (mvl_find_entry_sorted info name Hc Hsmall Hsorted
                  (not_ruled_out name H1 H2 H3)) as (r & t & Hrun & _ & Hr).
      destruct r as [e' | err].
      * destruct Hr as [He' Heq].
        destruct (mvl_hit _ _ _ _ Hrun) as (Hf & Hex & Hop).
        exists e'. split; [exact Hf |]. split; [exact Hex |].
        split; [exact Hop |].
        assert (He't : e' ∈ tbl) by (rewrite <- Hperm; exact He').
        split; [exact He't |]. split; [exact Heq |].
        intros Huniq. apply Huniq; assumption.
      * destruct Hr as [_ Hnone]. exfalso.
        apply (Hnone e); [rewrite Hperm; exact He | exact Hname].
    + intros name Habsent.
      destruct (mvl_find_entry_absent info name Hc Hsmall) as [t Hmiss].
      * intros e He. apply Habsent. rewrite <- Hperm. exact He.
      * apply (mvl_miss _ _ _ Hmiss).
Qed.

(** ** Handles stay inside their entry *)

Lemma GRP_loaded_entries_u32 w path forWriting w' info :
  GRP_openArchive w path forWriting = (w', Ok info) ->
  Forall (fun e => is_u32 (grp_size e) /\ is_u32 (grp_startPos e))
         (grp_entries info).
Proof.
  intros Ho.
  destruct (GRP_openArchive_inv _ _ _ _ _ Ho) as (tbl & Ht & Hs & _ & _).
  destruct (grp_read_table_spec _ _ _ _ _ _ Ht) as (_ & _ & Hch & Hsz).
  apply chain_starts_u32 in Hch; [| apply u32_range].
  rewrite Hs, grp_sort_perm.
  rewrite Forall_forall in Hsz, Hch |- *. intros e He.
  split; [apply Hsz | apply Hch]; exact He.
Qed.

Lemma grp_find_entry_in info name e :
  grp_find_entry info name = Some (Ok e) -> e ∈ grp_entries info.
Proof.
  unfold grp_find_entry. rewrite grp_find_entry_traced_unfold.
  destruct (ruled_out name); [discriminate |]. cbv zeta.
  destruct (find_entry_loop _ _ _ _ _ _ _) as [r t] eqn:Hrun. simpl.
  intros ->. apply (find_entry_loop_sound _ _ _ _ _ _ _ _ _ Hrun).
Qed.

(** The handle [GRP_openRead] makes on a loaded container: its cursor is
    0, its sizes are in range, its descriptor reads the file of the
    container and stands at the start of the entry. *)
Lemma GRP_openRead_handle w path forWriting w' info w0 name w1 ex f :
  GRP_openArchive w path forWriting = (w', Ok info) ->
  GRP_openRead w0 info name = Some (w1, ex, Ok f) ->
  grp_handle_ok f /\ grp_entry f ∈ grp_entries info /\
  exists rh file,
    w_files w0 !! path = Some file /\ rh_data rh = f_data file /\
    w_open w1 !! grp_handle f = Some rh /\
    rh_pos rh = grp_startPos (grp_entry f) + grp_curPos f.
Proof.
  intros Ho. pose proof (GRP_loaded_entries_u32 _ _ _ _ _ Ho) as Hu.
  destruct (GRP_openArchive_inv _ _ _ _ _ Ho) as (_ & _ & _ & _ & Hname).
  unfold GRP_openRead.
  destruct (grp_find_entry info name) as [[e | err] |] eqn:Hf;
    [| discriminate | discriminate].
  apply grp_find_entry_in in Hf. rewrite Hname.
  unfold __PHYSFS_platformOpenRead.
  destruct (w_files w0 !! path) as [file |] eqn:Hfile; [| discriminate].
  unfold __PHYSFS_platformSeek. simpl. rewrite lookup_insert_eq. simpl.
  destruct ((0 <=? grp_startPos e)
            && (grp_startPos e <=? Z.of_nat (length (f_data file))));
    [| discriminate].
  intros [= <- _ <-]. simpl.
  rewrite Forall_forall in Hu. destruct (Hu e Hf) as [Hsz Hst].
  split.
  - unfold grp_handle_ok, is_u32 in *. simpl. lia.
  - split; [exact Hf |].
    exists {| rh_data := f_data file; rh_pos := grp_startPos e |}, file.
    rewrite lookup_insert_eq. simpl. repeat split. lia.
Qed.

Lemma GRP_seek_handle_ok w finfo offset w' finfo' r :
  grp_handle_ok finfo -> GRP_seek w finfo offset = (w', finfo', r) ->
  grp_handle_ok finfo'.
Proof.
  intros Hok. unfold GRP_seek. cbv zeta.
  pose proof (u64_range offset) as [Hu _].
  destruct (Z.ltb_spec (u64 offset) 0); [intros [= _ <- _]; exact Hok |].
  destruct (Z.geb_spec (u64 offset) (grp_size (grp_entry finfo)));
    [intros [= _ <- _]; exact Hok |].
  destruct (__PHYSFS_platformSeek _ _ _) as [w1 [|]];
    [| intros [= _ <- _]; exact Hok].
  intros [= _ <- _]. destruct Hok as (Hsz & Hst & Hcur).
  unfold grp_handle_ok, is_u32 in *. simpl.
  rewrite u32_id by lia. lia.
Qed.

(** On a handle whose file holds the entry every seek inside the entry
    succeeds. *)
Lemma GRP_seek_backed w finfo offset :
  grp_handle_ok finfo -> grp_handle_backed w finfo ->
  0 <= offset < grp_size (grp_entry finfo) ->
  exists w',
    GRP_seek w finfo offset = (w', grp_at finfo offset, Ok tt) /\
    grp_handle_backed w' (grp_at finfo offset).
Proof.
  intros (Hsz & Hst & Hcur) (rh & Hfd & Hpos & Hlen) Hoff.
  unfold is_u32 in *.
  pose proof (GRP_seek_inside w finfo offset Hsz Hoff) as Hs.
  unfold __PHYSFS_platformSeek in Hs. rewrite Hfd in Hs.
  destruct (Z.leb_spec 0 (grp_startPos (grp_entry finfo) + offset)); [| lia].
  destruct (Z.leb_spec (grp_startPos (grp_entry finfo) + offset)
              (Z.of_nat (length (rh_data rh)))); [| lia].
  simpl in Hs. eexists. split; [exact Hs |].
  exists {| rh_data := rh_data rh;
            rh_pos := grp_startPos (grp_entry finfo) + offset |}.
  simpl. rewrite lookup_insert_eq. repeat split. exact Hlen.
Qed.

Lemma GRP_read_handle_ok w finfo objSize objCount w' finfo' rc buf :
  grp_handle_ok finfo -> 0 < objSize -> 0 <= objCount ->
  GRP_read w finfo objSize objCount = (w', finfo', rc, buf) ->
  grp_handle_ok finfo'.
Proof.
  intros Hok Hs Hc Hread.
  destruct (GRP_read_clamp w finfo objSize objCount Hok Hs Hc)
    as (w1 & rc1 & buf1 & _ & Hrc & Hn & Hnl & Heq).
  rewrite Heq in Hread. injection Hread as _ <- _ _.
  destruct Hok as (Hsz & Hst & Hcur).
  assert (Hmax : Z.max 0 rc1 * objSize
                 <= Z.min objCount
                      ((grp_size (grp_entry finfo) - grp_curPos finfo)
                       / objSize) * objSize)
    by (apply Z.mul_le_mono_nonneg_r; lia).
  assert (0 <= Z.max 0 rc1 * objSize) by (apply Z.mul_nonneg_nonneg; lia).
  unfold grp_handle_ok, is_u32 in *. simpl. lia.
Qed.

(** Lookups on a loaded container with fewer than 2^31 entries always
    return, sorted or not. *)
Lemma grp_find_entry_returns w path forWriting w' info name :
  GRP_openArchive w path forWriting = (w', Ok info) ->
  grp_entryCount info < 2 ^ 31 ->
  exists r, grp_find_entry info name = Some r.
Proof.
  intros Ho Hsmall.
  destruct (GRP_openArchive_inv _ _ _ _ _ Ho) as (_ & _ & _ & Hc & _).
  unfold grp_find_entry. rewrite grp_find_entry_traced_unfold.
  destruct (ruled_out name); [eexists; reflexivity |]. cbv zeta.
  rewrite Hc in Hsmall |- *. rewrite s32_pred_u32 by lia.
  destruct (find_entry_loop_total grp_name strcmp (grp_entries info) name
              Hsmall (Z.to_nat (Z.of_nat (length (grp_entries info)) - 1 + 1 - 0))
              0 (Z.of_nat (length (grp_entries info)) - 1))
    as (r & t & Hrun & _ & _); [lia | lia | lia |].
  rewrite Hrun. exists r. reflexivity.
Qed.


Lemma MVL_loaded_entries_u32 w path forWriting w' info :
  MVL_openArchive w path forWriting = (w', Ok info) ->
  Forall (fun e => is_u32 (mvl_size e) /\ is_u32 (mvl_startPos e))
         (mvl_entries info).
Proof.
  intros Ho.
  destruct (MVL_openArchive_inv _ _ _ _ _ Ho) as (tbl & Ht & Hs & _ & _).
  destruct (mvl_read_table_spec _ _ _ _ _ _ Ht) as (_ & _ & Hch & Hsz).
  apply chain_starts_u32 in Hch; [| apply u32_range].
  rewrite Hs, mvl_sort_perm.
  rewrite Forall_forall in Hsz, Hch |- *. intros e He.
  split; [apply Hsz | apply Hch]; exact He.
Qed.

Lemma mvl_find_entry_in info name e :
  mvl_find_entry info name = Some (Ok e) -> e ∈ mvl_entries info.
Proof.
  unfold mvl_find_entry. rewrite mvl_find_entry_traced_unfold.
  destruct (ruled_out name); [discriminate |]. cbv zeta.
  destruct (find_entry_loop _ _ _ _ _ _ _) as [r t] eqn:Hrun. simpl.
  intros ->. apply (find_entry_loop_sound _ _ _ _ _ _ _ _ _ Hrun).
Qed.

(** The handle [MVL_openRead] makes on a loaded container: its cursor is
    0, its sizes are in range, its descriptor reads the file of the
    container and stands at the start of the entry. *)
Lemma MVL_openRead_handle w path forWriting w' info w0 name w1 ex f :
  MVL_openArchive w path forWriting = (w', Ok info) ->
  MVL_openRead w0 info name = Some (w1, ex, Ok f) ->
  mvl_handle_ok f /\ mvl_entry f ∈ mvl_entries info /\
  exists rh file,
    w_files w0 !! path = Some file /\ rh_data rh = f_data file /\
    w_open w1 !! mvl_handle f = Some rh /\
    rh_pos rh = mvl_startPos (mvl_entry f) + mvl_curPos f.
Proof.
  intros Ho. pose proof (MVL_loaded_entries_u32 _ _ _ _ _ Ho) as Hu.
  destruct (MVL_openArchive_inv _ _ _ _ _ Ho) as (_ & _ & _ & _ & Hname).
  unfold MVL_openRead.
  destruct (mvl_find_entry info name) as [[e | err] |] eqn:Hf;
    [| discriminate | discriminate].
  apply mvl_find_entry_in in Hf. rewrite Hname.
  unfold __PHYSFS_platformOpenRead.
  destruct (w_files w0 !! path) as [file |] eqn:Hfile; [| discriminate].
  unfold __PHYSFS_platformSeek. simpl. rewrite lookup_insert_eq. simpl.
  destruct ((0 <=? mvl_startPos e)
            && (mvl_startPos e <=? Z.of_nat (length (f_data file))));
    [| discriminate].
  intros [= <- _ <-]. simpl.
  rewrite Forall_forall in Hu. destruct (Hu e Hf) as [Hsz Hst].
  split.
  - unfold mvl_handle_ok, is_u32 in *. simpl. lia.
  - split; [exact Hf |].
    exists {| rh_data := f_data file; rh_pos := mvl_startPos e |}, file.
    rewrite lookup_insert_eq. simpl. repeat split. lia.
Qed.

Lemma MVL_seek_handle_ok w finfo offset w' finfo' r :
  mvl_handle_ok finfo -> MVL_seek w finfo offset = (w', finfo', r) ->
  mvl_handle_ok finfo'.
Proof.
  intros Hok. unfold MVL_seek. cbv zeta.
  pose proof (u64_range offset) as [Hu _].
  destruct (Z.ltb_spec (u64 offset) 0); [intros [= _ <- _]; exact Hok |].
  destruct (Z.geb_spec (u64 offset) (mvl_size (mvl_entry finfo)));
    [intros [= _ <- _]; exact Hok |].
  destruct (__PHYSFS_platformSeek _ _ _) as [w1 [|]];
    [| intros [= _ <- _]; exact Hok].
  intros [= _ <- _]. destruct Hok as (Hsz & Hst & Hcur).
  unfold mvl_handle_ok, is_u32 in *. simpl.
  rewrite u32_id by lia. lia.
Qed.

(** On a handle whose file holds the entry every seek inside the entry
    succeeds. *)
Lemma MVL_seek_backed w finfo offset :
  mvl_handle_ok finfo -> mvl_handle_backed w finfo ->
  0 <= offset < mvl_size (mvl_entry finfo) ->
  exists w',
    MVL_seek w finfo offset = (w', mvl_at finfo offset, Ok tt) /\
    mvl_handle_backed w' (mvl_at finfo offset).
Proof.
  intros (Hsz & Hst & Hcur) (rh & Hfd & Hpos & Hlen) Hoff.
  unfold is_u32 in *.
  pose proof (MVL_seek_inside w finfo offset Hsz Hoff) as Hs.
  unfold __PHYSFS_platformSeek in Hs. rewrite Hfd in Hs.
  destruct (Z.leb_spec 0 (mvl_startPos (mvl_entry finfo) + offset)); [| lia].
  destruct (Z.leb_spec (mvl_startPos (mvl_entry finfo) + offset)
              (Z.of_nat (length (rh_data rh)))); [| lia].
  simpl in Hs. eexists. split; [exact Hs |].
  exists {| rh_data := rh_data rh;
            rh_pos := mvl_startPos (mvl_entry finfo) + offset |}.
  simpl. rewrite lookup_insert_eq. repeat split. exact Hlen.
Qed.

Lemma MVL_read_handle_ok w finfo objSize objCount w' finfo' rc buf :
  mvl_handle_ok finfo -> 0 < objSize -> 0 <= objCount ->
  MVL_read w finfo objSize objCount = (w', finfo', rc, buf) ->
  mvl_handle_ok finfo'.
Proof.
  intros Hok Hs Hc Hread.
  destruct (MVL_read_clamp w finfo objSize objCount Hok Hs Hc)
    as (w1 & rc1 & buf1 & _ & Hrc & Hn & Hnl & Heq).
  rewrite Heq in Hread. injection Hread as _ <- _ _.
  destruct Hok as (Hsz & Hst & Hcur).
  assert (Hmax : Z.max 0 rc1 * objSize
                 <= Z.min objCount
                      ((mvl_size (mvl_entry finfo) - mvl_curPos finfo)
                       / objSize) * objSize)
    by (apply Z.mul_le_mono_nonneg_r; lia).
  assert (0 <= Z.max 0 rc1 * objSize) by (apply Z.mul_nonneg_nonneg; lia).
  unfold mvl_handle_ok, is_u32 in *. simpl. lia.
Qed.

(** Lookups on a loaded container with fewer than 2^31 entries always
    return, sorted or not. *)
Lemma mvl_find_entry_returns w path forWriting w' info name :
  MVL_openArchive w path forWriting = (w', Ok info) ->
  mvl_entryCount info < 2 ^ 31 ->
  exists r, mvl_find_entry info name = Some r.
Proof.
  intros Ho Hsmall.
  destruct (MVL_openArchive_inv _ _ _ _ _ Ho) as (_ & _ & _ & Hc & _).
  unfold mvl_find_entry. rewrite mvl_find_entry_traced_unfold.
  destruct (ruled_out name); [eexists; reflexivity |]. cbv zeta.
  rewrite Hc in Hsmall |- *. rewrite s32_pred_u32 by lia.
  destruct (find_entry_loop_total mvl_name __PHYSFS_platformStricmp (mvl_entries info) name
              Hsmall (Z.to_nat (Z.of_nat (length (mvl_entries info)) - 1 + 1 - 0))
              0 (Z.of_nat (length (mvl_entries info)) - 1))
    as (r & t & Hrun & _ & _); [lia | lia | lia |].
  rewrite Hrun. exists r. reflexivity.
Qed.

(** ** The theorems at work on the fixtures *)

Lemma sorted_by_two {A} (cmp : A -> A -> Z) (x y : A) :
  cmp x y <= 0 -> sorted_by cmp [x; y].
Proof.
  intros H i j a b Hij Hi Hj.
  destruct i as [| [| i]]; destruct j as [| [| j]]; simpl in *;
    try lia; try discriminate.
  injection Hi as <-. injection Hj as <-. exact H.
Qed.

Lemma empty_container_lookup_witness :
  GRP_openArchive (one_file "e.grp" empty_grp) "e.grp" false
  = (opened_closed (one_file "e.grp" empty_grp), Ok empty_grp_info) /\
  grp_entryCount empty_grp_info = 0 /\
  grp_find_entry_traced empty_grp_info (chars "FILE1")
  = (Some (Fail ERR_NO_SUCH_FILE), []) /\
  GRP_exists empty_grp_info (chars "FILE1") = Some false /\
  MVL_openArchive (one_file "e.mvl" empty_mvl) "e.mvl" false
  = (opened_closed (one_file "e.mvl" empty_mvl), Ok empty_mvl_info) /\
  mvl_entryCount empty_mvl_info = 0 /\
  mvl_find_entry_traced empty_mvl_info (chars "FILE1")
  = (Some (Fail ERR_NO_SUCH_FILE), []) /\
  MVL_exists empty_mvl_info (chars "FILE1") = Some false.
Proof.
  destruct (empty_container_lookup (chars "FILE1")) as [G M].
  destruct (G empty_grp_info eq_refl) as (_ & Gt & _ & Ge & _).
  destruct (M empty_mvl_info eq_refl) as (_ & Mt & _ & Me & _).
  split; [vm_compute; reflexivity |].
  split; [reflexivity |].
  split; [exact Gt |].
  split; [exact Ge |].
  split; [vm_compute; reflexivity |].
  split; [reflexivity |].
  split; [exact Mt | exact Me].
Defined.

Lemma impossible_names_rejected_witness :
  too_long (chars "thirteenchars") /\
  grp_find_entry_traced scenario_info (chars "thirteenchars")
  = (Some (Fail ERR_NO_SUCH_FILE), []) /\
  has_separator (chars "a/b") /\
  mvl_find_entry_traced mvl_info (chars "a/b")
  = (Some (Fail ERR_NO_SUCH_FILE), []) /\
  long_extension (chars "a.text") /\
  GRP_exists scenario_info (chars "a.text") = Some false /\
  (~ too_long (chars "FILE2") /\ ~ has_separator (chars "FILE2") /\
   ~ long_extension (chars "FILE2")) /\
  grp_find_entry_traced scenario_info (chars "FILE2")
  = find_entry_loop grp_name strcmp 2 (grp_entries scenario_info)
      (chars "FILE2") 0 1.
Proof.
  assert (H1 : too_long (chars "thirteenchars"))
    by (unfold too_long; vm_compute; reflexivity).
  assert (H2 : has_separator (chars "a/b"))
    by (exists 1%nat; reflexivity).
  assert (H3 : long_extension (chars "a.text"))
    by (exists 1%nat; split; [reflexivity | vm_compute; reflexivity]).
  assert (H4 : ~ too_long (chars "FILE2") /\ ~ has_separator (chars "FILE2") /\
               ~ long_extension (chars "FILE2")).
  { assert (Hr : ruled_out (chars "FILE2") = false) by reflexivity.
    repeat split; intros H;
      (assert (Ht : ruled_out (chars "FILE2") = true)
         by (apply ruled_out_spec; tauto));
      rewrite Hr in Ht; discriminate. }
  destruct (impossible_names_rejected (chars "thirteenchars")) as [G1 _].
  destruct (impossible_names_rejected (chars "a/b")) as [_ M2].
  destruct (impossible_names_rejected (chars "a.text")) as [G3 _].
  destruct (impossible_names_rejected (chars "FILE2")) as [G4 _].
  split; [exact H1 |].
  split; [apply (proj1 (G1 scenario_info)); tauto |].
  split; [exact H2 |].
  split; [apply (proj1 (M2 mvl_info)); tauto |].
  split; [exact H3 |].
  split; [apply (proj1 (G3 scenario_info)); tauto |].
  split; [exact H4 |].
  destruct H4 as (A & B & C).
  exact (proj2 (G4 scenario_info) A B C).
Defined.

Lemma seek_checks_offset_witness :
  is_u32 (grp_size (grp_entry scenario_handle)) /\
  GRP_seek scenario_opened scenario_handle (-1)
  = (scenario_opened, scenario_handle, Fail ERR_PAST_EOF) /\
  GRP_seek scenario_opened scenario_handle 5
  = (scenario_opened, scenario_handle, Fail ERR_PAST_EOF) /\
  GRP_seek scenario_opened scenario_handle 3
  = ({| w_files := w_files scenario_world;
        w_open := {[ 1%nat := {| rh_data := scenario_grp; rh_pos := 51 |} ]};
        w_next := 2 |}, grp_at scenario_handle 3, Ok tt) /\
  GRP_seek scenario_loaded scenario_handle 3
  = (scenario_loaded, scenario_handle, Fail ERR_PLATFORM) /\
  is_u32 (mvl_size (mvl_entry mvl_handle1)) /\
  MVL_seek mvl_opened mvl_handle1 (-1)
  = (mvl_opened, mvl_handle1, Fail ERR_PAST_EOF) /\
  MVL_seek mvl_opened mvl_handle1 5
  = (mvl_opened, mvl_handle1, Fail ERR_PAST_EOF) /\
  MVL_seek mvl_opened mvl_handle1 4
  = ({| w_files := w_files mvl_world;
        w_open := {[ 1%nat := {| rh_data := scenario_mvl; rh_pos := 46 |} ]};
        w_next := 2 |}, mvl_at mvl_handle1 4, Ok tt).
Proof.
  assert (Hg : is_u32 (grp_size (grp_entry scenario_handle)))
    by (vm_compute; split; congruence).
  assert (Hm : is_u32 (mvl_size (mvl_entry mvl_handle1)))
    by (vm_compute; split; congruence).
  assert (Hneg : - 2 ^ 63 <= -1 < 0) by lia.
  assert (H5 : is_u64 5) by (unfold is_u64; lia).
  split; [exact Hg |].
  split.
  { destruct (proj1 (seek_checks_offset scenario_opened (-1)) scenario_handle Hg)
      as (_ & Hnegative & _).
    exact (Hnegative Hneg). }
  split.
  { destruct (proj1 (seek_checks_offset scenario_opened 5) scenario_handle Hg)
      as (_ & _ & Hpast & _).
    apply (Hpast H5). vm_compute. congruence. }
  split.
  { destruct (proj1 (seek_checks_offset scenario_opened 3) scenario_handle Hg)
      as (_ & _ & _ & _ & Hin).
    assert (Hr : 0 <= 3 < grp_size (grp_entry scenario_handle))
      by (vm_compute; split; congruence).
    exact (Hin Hr). }
  split.
  { destruct (proj1 (seek_checks_offset scenario_loaded 3) scenario_handle Hg)
      as (_ & _ & _ & _ & Hin).
    assert (Hr : 0 <= 3 < grp_size (grp_entry scenario_handle))
      by (vm_compute; split; congruence).
    exact (Hin Hr). }
  split; [exact Hm |].
  split.
  { destruct (proj2 (seek_checks_offset mvl_opened (-1)) mvl_handle1 Hm)
      as (_ & Hnegative & _).
    exact (Hnegative Hneg). }
  split.
  { destruct (proj2 (seek_checks_offset mvl_opened 5) mvl_handle1 Hm)
      as (_ & _ & Hpast & _).
    apply (Hpast H5). vm_compute. congruence. }
  { destruct (proj2 (seek_checks_offset mvl_opened 4) mvl_handle1 Hm)
      as (_ & _ & _ & _ & Hin).
    assert (Hr : 0 <= 4 < mvl_size (mvl_entry mvl_handle1))
      by (vm_compute; split; congruence).
    exact (Hin Hr). }
Defined.

Lemma scenario_handle_ok : grp_handle_ok scenario_handle.
Proof. vm_compute. repeat split; congruence. Qed.

Lemma scenario_handle_backed : grp_handle_backed scenario_opened scenario_handle.
Proof.
  exists {| rh_data := scenario_grp; rh_pos := 48 |}.
  split; [reflexivity |]. split; [reflexivity |]. vm_compute. congruence.
Qed.

Lemma mvl_handle1_ok : mvl_handle_ok mvl_handle1.
Proof. vm_compute. repeat split; congruence. Qed.

Lemma mvl_handle1_backed : mvl_handle_backed mvl_opened mvl_handle1.
Proof.
  exists {| rh_data := scenario_mvl; rh_pos := 42 |}.
  split; [reflexivity |]. split; [reflexivity |]. vm_compute. congruence.
Qed.

Lemma read_clamps_to_entry_witness :
  0 <= 8 /\
  grp_handle_ok scenario_handle /\
  grp_handle_backed scenario_opened scenario_handle /\
  (exists w',
      GRP_read scenario_opened scenario_handle 1 8
      = (w', grp_at scenario_handle 5, 5, chars "hello")) /\
  mvl_handle_ok mvl_handle1 /\
  mvl_handle_backed mvl_opened mvl_handle1 /\
  (exists w',
      MVL_read mvl_opened mvl_handle1 1 8
      = (w', mvl_at mvl_handle1 5, 5, chars "hello")).
Proof.
  assert (H8 : 0 <= 8) by lia.
  destruct (read_clamps_to_entry scenario_opened 8 H8) as [G _].
  destruct (read_clamps_to_entry mvl_opened 8 H8) as [_ M].
  destruct (G scenario_handle scenario_handle_ok) as (_ & _ & Gall).
  destruct (M mvl_handle1 mvl_handle1_ok) as (_ & _ & Mall).
  split; [exact H8 |].
  split; [exact scenario_handle_ok |].
  split; [exact scenario_handle_backed |].
  split.
  { destruct (Gall scenario_handle_backed eq_refl) as (w' & buf & Hr).
    - vm_compute. congruence.
    - exists w'. rewrite Hr. f_equal.
      assert (Hc : snd (GRP_read scenario_opened scenario_handle 1 8)
                   = chars "hello") by (vm_compute; reflexivity).
      rewrite Hr in Hc. exact Hc. }
  split; [exact mvl_handle1_ok |].
  split; [exact mvl_handle1_backed |].
  destruct (Mall mvl_handle1_backed eq_refl) as (w' & buf & Hr).
  - vm_compute. congruence.
  - exists w'. rewrite Hr. f_equal.
    assert (Hc : snd (MVL_read mvl_opened mvl_handle1 1 8) = chars "hello")
      by (vm_compute; reflexivity).
    rewrite Hr in Hc. exact Hc.
Defined.

Lemma read_whole_objects_witness :
  0 < 2 /\ 0 <= 10 /\
  grp_handle_ok (grp_at scenario_handle 4) /\
  (exists w' rc buf,
      GRP_read scenario_opened4 (grp_at scenario_handle 4) 2 10
      = (w', grp_at scenario_handle (4 + Z.max 0 rc * 2), rc, buf) /\
      rc <= 0 /\ 4 + Z.max 0 rc * 2 = 4) /\
  (exists w' rc buf,
      GRP_read scenario_opened scenario_handle 2 10
      = (w', grp_at scenario_handle (0 + Z.max 0 rc * 2), rc, buf) /\
      rc <= 2 /\ 0 + Z.max 0 rc * 2 <= 5) /\
  mvl_handle_ok (mvl_at mvl_handle1 4) /\
  (exists w' rc buf,
      MVL_read mvl_opened4 (mvl_at mvl_handle1 4) 2 10
      = (w', mvl_at mvl_handle1 (4 + Z.max 0 rc * 2), rc, buf) /\
      rc <= 0 /\ 4 + Z.max 0 rc * 2 = 4).
Proof.
  assert (H2 : 0 < 2) by lia. assert (H10 : 0 <= 10) by lia.
  assert (Hg : grp_handle_ok (grp_at scenario_handle 4))
    by (vm_compute; repeat split; congruence).
  assert (Hm : mvl_handle_ok (mvl_at mvl_handle1 4))
    by (vm_compute; repeat split; congruence).
  split; [exact H2 |]. split; [exact H10 |]. split; [exact Hg |].
  split.
  { destruct (proj1 (read_whole_objects scenario_opened4 2 10 H2 H10)
                (grp_at scenario_handle 4) Hg)
      as (w' & rc & buf & _ & Hread & _ & _ & Hsmall).
    destruct Hsmall as (_ & Hrc & Hcur); [vm_compute; reflexivity |].
    exists w', rc, buf. split; [exact Hread |]. split; [exact Hrc | exact Hcur]. }
  split.
  { destruct (proj1 (read_whole_objects scenario_opened 2 10 H2 H10)
                scenario_handle scenario_handle_ok)
      as (w' & rc & buf & _ & Hread & Hrc & Hcur & _).
    exists w', rc, buf. split; [exact Hread |]. split; [exact Hrc | exact Hcur]. }
  split; [exact Hm |].
  destruct (proj2 (read_whole_objects mvl_opened4 2 10 H2 H10)
              (mvl_at mvl_handle1 4) Hm)
    as (w' & rc & buf & _ & Hread & _ & _ & Hsmall).
  destruct Hsmall as (_ & Hrc & Hcur); [vm_compute; reflexivity |].
  exists w', rc, buf. split; [exact Hread |]. split; [exact Hrc | exact Hcur].
Defined.

Lemma opener_checks_signature_witness :
  (w_files junk_world !! "j.bin"%string
   = Some {| f_mtime := 1000; f_data := chars "NotAGroupFile!!!" |} /\
   take 12 (chars "NotAGroupFile!!!") <> chars "KenSilverman" /\
   grp_open junk_world "j.bin" false
   = (opened_closed junk_world, Fail ERR_UNSUPPORTED_ARCHIVE) /\
   GRP_isArchive junk_world "j.bin" false
   = (opened_closed junk_world, Fail ERR_UNSUPPORTED_ARCHIVE) /\
   take 4 (chars "NotAGroupFile!!!") <> chars "DMVL" /\
   mvl_open junk_world "j.bin" false
   = (opened_closed junk_world, Fail ERR_UNSUPPORTED_ARCHIVE)) /\
  (w_files short_world !! "k.bin"%string
   = Some {| f_mtime := 1000; f_data := chars "Ken" |} /\
   (exists e,
       grp_open short_world "k.bin" false = (opened_closed short_world, Fail e)) /\
   (exists e,
       mvl_open short_world "k.bin" false = (opened_closed short_world, Fail e))) /\
  (w_files scenario_world !! "s.grp"%string
   = Some {| f_mtime := 1000; f_data := scenario_grp |} /\
   take 12 scenario_grp = chars "KenSilverman" /\
   grp_open scenario_world "s.grp" false
   = (opened_at scenario_world scenario_grp 16, Ok (O, 2)) /\
   GRP_isArchive scenario_world "s.grp" false
   = (opened_closed scenario_world, Ok tt)) /\
  (w_files mvl_world !! "s.mvl"%string
   = Some {| f_mtime := 1000; f_data := scenario_mvl |} /\
   take 4 scenario_mvl = chars "DMVL" /\
   mvl_open mvl_world "s.mvl" false
   = (opened_at mvl_world scenario_mvl 8, Ok (O, 2))).
Proof.
  assert (Fj : w_files junk_world !! "j.bin"%string
               = Some {| f_mtime := 1000; f_data := chars "NotAGroupFile!!!" |})
    by (vm_compute; reflexivity).
  assert (Fk : w_files short_world !! "k.bin"%string
               = Some {| f_mtime := 1000; f_data := chars "Ken" |})
    by (vm_compute; reflexivity).
  assert (Fs : w_files scenario_world !! "s.grp"%string
               = Some {| f_mtime := 1000; f_data := scenario_grp |})
    by (vm_compute; reflexivity).
  assert (Fm : w_files mvl_world !! "s.mvl"%string
               = Some {| f_mtime := 1000; f_data := scenario_mvl |})
    by (vm_compute; reflexivity).
  assert (Nj : take 12 (chars "NotAGroupFile!!!") <> chars "KenSilverman")
    by (vm_compute; discriminate).
  assert (Nm : take 4 (chars "NotAGroupFile!!!") <> chars "DMVL")
    by (vm_compute; discriminate).
  destruct (opener_checks_signature _ _ _ Fj) as (_ & (Gbad & _ & _) & (Mbad & _ & _)).
  destruct (opener_checks_signature _ _ _ Fk) as (_ & (_ & Gshort & _) & (_ & Mshort & _)).
  destruct (opener_checks_signature _ _ _ Fs) as (_ & (_ & _ & Ggood) & _).
  destruct (opener_checks_signature _ _ _ Fm) as (_ & _ & (_ & _ & Mgood)).
  split.
  { split; [exact Fj |]. split; [exact Nj |].
    destruct Gbad as (G1 & G2 & _); [vm_compute; congruence | exact Nj |].
    split; [exact G1 |]. split; [exact G2 |]. split; [exact Nm |].
    destruct Mbad as (M1 & _); [vm_compute; congruence | exact Nm |].
    exact M1. }
  split.
  { split; [exact Fk |]. split.
    - destruct Gshort as (e & G1 & _); [left; vm_compute; reflexivity |].
      exists e. exact G1.
    - destruct Mshort as (e & M1 & _); [left; vm_compute; reflexivity |].
      exists e. exact M1. }
  split.
  { split; [exact Fs |].
    assert (Hsig : take 12 scenario_grp = chars "KenSilverman") by reflexivity.
    split; [exact Hsig |].
    destruct Ggood as (G1 & G2); [exact Hsig | vm_compute; congruence |].
    split; [exact G1 | exact G2]. }
  split; [exact Fm |].
  assert (Hsig : take 4 scenario_mvl = chars "DMVL") by reflexivity.
  split; [exact Hsig |].
  destruct Mgood as (M1 & _); [exact Hsig | vm_compute; congruence |].
  exact M1.
Defined.

Lemma scenario_table :
  grp_read_table scenario_world "s.grp" false
  = (scenario_loaded, Ok (2, [scenario_file1; scenario_file2])).
Proof. vm_compute. reflexivity. Qed.

Lemma mvl_table :
  mvl_read_table mvl_world "s.mvl" false
  = (mvl_loaded, Ok (2, [mvl_file1; mvl_file2])).
Proof. vm_compute. reflexivity. Qed.

Lemma table_offsets_accumulate_witness :
  GRP_openArchive scenario_world "s.grp" false
  = (scenario_loaded, Ok scenario_info) /\
  (exists tbl,
      grp_read_table scenario_world "s.grp" false
      = (scenario_loaded, Ok (2, tbl)) /\
      Permutation (grp_entries scenario_info) tbl /\
      (forall e, tbl !! O = Some e -> grp_startPos e = 48) /\
      (forall k e e', tbl !! k = Some e -> tbl !! S k = Some e' ->
                      grp_startPos e' = grp_startPos e + grp_size e /\
                      grp_startPos e <= grp_startPos e' /\
                      (0 < grp_size e -> grp_startPos e < grp_startPos e'))) /\
  MVL_openArchive mvl_world "s.mvl" false = (mvl_loaded, Ok mvl_info) /\
  (exists tbl,
      mvl_read_table mvl_world "s.mvl" false = (mvl_loaded, Ok (2, tbl)) /\
      Permutation (mvl_entries mvl_info) tbl /\
      (forall e, tbl !! O = Some e -> mvl_startPos e = 42) /\
      (forall k e e', tbl !! k = Some e -> tbl !! S k = Some e' ->
                      mvl_startPos e' = mvl_startPos e + mvl_size e /\
                      mvl_startPos e <= mvl_startPos e' /\
                      (0 < mvl_size e -> mvl_startPos e < mvl_startPos e'))).
Proof.
  destruct table_offsets_accumulate as [G M].
  split; [exact scenario_openArchive |].
  split.
  { destruct (G _ _ _ _ scenario_openArchive)
      as (tbl & Ht & Hp & _ & _ & _ & Hfit).
    assert (Htbl : tbl = [scenario_file1; scenario_file2]).
    { pose proof scenario_table as Hc. rewrite Ht in Hc.
      injection Hc as <-. reflexivity. }
    destruct Hfit as (H0 & Hnext & _);
      [rewrite Htbl; vm_compute; reflexivity |].
    exists tbl. split; [exact Ht |]. split; [exact Hp |].
    split; [exact H0 | exact Hnext]. }
  split; [exact mvl_openArchive |].
  destruct (M _ _ _ _ mvl_openArchive) as (tbl & Ht & Hp & _ & _ & _ & Hfit).
  assert (Htbl : tbl = [mvl_file1; mvl_file2]).
  { pose proof mvl_table as Hc. rewrite Ht in Hc.
    injection Hc as <-. reflexivity. }
  destruct Hfit as (H0 & Hnext & _);
    [rewrite Htbl; vm_compute; reflexivity |].
  exists tbl. split; [exact Ht |]. split; [exact Hp |].
  split; [exact H0 | exact Hnext].
Defined.

Lemma lookup_finds_table_entries_witness :
  GRP_openArchive scenario_world "s.grp" false
  = (scenario_loaded, Ok scenario_info) /\
  grp_entryCount scenario_info < 2 ^ 31 /\
  grp_find_entry scenario_info (chars "FILE2") = Some (Ok scenario_file2) /\
  GRP_exists scenario_info (chars "FILE2") = Some true /\
  grp_find_entry scenario_info (chars "FILE3") = Some (Fail ERR_NO_SUCH_FILE) /\
  MVL_openArchive mvl_world "s.mvl" false = (mvl_loaded, Ok mvl_info) /\
  mvl_entryCount mvl_info < 2 ^ 31 /\
  sorted_by mvl_icmp (mvl_entries mvl_info) /\
  mvl_find_entry mvl_info (chars "FILE1") = Some (Ok mvl_file1) /\
  mvl_find_entry mvl_info (chars "file3") = Some (Fail ERR_NO_SUCH_FILE).
Proof.
  destruct lookup_finds_table_entries as [G M].
  assert (Gsmall : grp_entryCount scenario_info < 2 ^ 31) by reflexivity.
  assert (Msmall : mvl_entryCount mvl_info < 2 ^ 31) by reflexivity.
  assert (Msorted : sorted_by mvl_icmp (mvl_entries mvl_info))
    by (apply sorted_by_two; vm_compute; congruence).
  assert (Hok : forall name, ruled_out name = false ->
                  ~ too_long name /\ ~ has_separator name /\
                  ~ long_extension name).
  { intros name Hr. repeat split; intros H;
      (assert (Ht : ruled_out name = true) by (apply ruled_out_spec; tauto));
      rewrite Hr in Ht; discriminate. }
  destruct (G _ _ _ _ scenario_openArchive Gsmall) as (gtbl & Gt & Ghit & Gmiss).
  assert (Hg : gtbl = [scenario_file1; scenario_file2]).
  { pose proof scenario_table as Hc. rewrite Gt in Hc.
    injection Hc as <-. reflexivity. }
  destruct (M _ _ _ _ mvl_openArchive Msmall) as (mtbl & Mt & Mhit & Mmiss).
  assert (Hm : mtbl = [mvl_file1; mvl_file2]).
  { pose proof mvl_table as Hc. rewrite Mt in Hc.
    injection Hc as <-. reflexivity. }
  split; [exact scenario_openArchive |]. split; [exact Gsmall |].
  assert (Gfound : grp_find_entry scenario_info (chars "FILE2")
                   = Some (Ok scenario_file2)
                   /\ GRP_exists scenario_info (chars "FILE2") = Some true).
  { destruct (Hok (chars "FILE2") eq_refl) as (A & B & C).
    destruct (Ghit (chars "FILE2") scenario_file2) as
      (e' & Hf & Hex & _ & _ & _ & Huniq); try assumption.
    - rewrite Hg. apply list_elem_of_In. right. left. reflexivity.
    - reflexivity.
    - rewrite Huniq in Hf; [split; assumption |].
      intros x Hx Hs. rewrite Hg in Hx.
      apply list_elem_of_In in Hx. destruct Hx as [<- | [<- | []]].
      + vm_compute in Hs. discriminate.
      + reflexivity. }
  split; [apply Gfound |]. split; [apply Gfound |].
  split.
  { apply Gmiss. intros e He. rewrite Hg in He.
    apply list_elem_of_In in He. destruct He as [<- | [<- | []]];
      vm_compute; discriminate. }
  split; [exact mvl_openArchive |]. split; [exact Msmall |].
  split; [exact Msorted |].
  split.
  { destruct (Hok (chars "FILE1") eq_refl) as (A & B & C).
    destruct (Mhit (chars "FILE1") mvl_file1 Msorted) as
      (e' & Hf & _ & _ & _ & _ & Huniq); try assumption.
    - rewrite Hm. apply list_elem_of_In. left. reflexivity.
    - reflexivity.
    - rewrite Huniq in Hf; [exact Hf |].
      intros x Hx Hs. rewrite Hm in Hx.
      apply list_elem_of_In in Hx. destruct Hx as [<- | [<- | []]].
      + reflexivity.
      + vm_compute in Hs. discriminate. }
  apply Mmiss. intros e He. rewrite Hm in He.
  apply list_elem_of_In in He. destruct He as [<- | [<- | []]];
    vm_compute; discriminate.
Defined.

(** ** The loader, read off the bytes of the file *)

Lemma grp_loop_opened w data n : forall pos location,
  0 <= pos <= Z.of_nat (length data) ->
  grp_load_entries_loop (opened_at w data pos) (w_next w) n location
  = if pos + 16 * Z.of_nat n <=? Z.of_nat (length data)
    then (opened_at w data (pos + 16 * Z.of_nat n),
          Some (grp_directory data pos n location))
    else (opened_closed w, None).
Proof.
  induction n as [| n IH]; intros pos location Hpos.
  - cbn [grp_load_entries_loop grp_directory]. change (Z.of_nat 0) with 0.
    rewrite Z.mul_0_r, Z.add_0_r.
    destruct (Z.leb_spec pos (Z.of_nat (length data))); [reflexivity | lia].
  - cbn [grp_load_entries_loop grp_directory].
    rewrite platformRead_one by lia.
    destruct (Z.leb_spec (pos + 12) (Z.of_nat (length data))) as [H1 | H1].
    2:{ cbn [negb Z.eqb Pos.eqb]. rewrite platformClose_opened.
        destruct (Z.leb_spec (pos + 16 * Z.of_nat (S n))
                    (Z.of_nat (length data))); [lia | reflexivity]. }
    cbn [negb Z.eqb Pos.eqb].
    rewrite platformRead_one by lia.
    destruct (Z.leb_spec (pos + 12 + 4) (Z.of_nat (length data))) as [H2 | H2].
    2:{ cbn [negb Z.eqb Pos.eqb]. rewrite platformClose_opened.
        destruct (Z.leb_spec (pos + 16 * Z.of_nat (S n))
                    (Z.of_nat (length data))); [lia | reflexivity]. }
    cbn [negb Z.eqb Pos.eqb].
    replace (pos + 12 + 4) with (pos + 16) by lia.
    rewrite IH by lia.
    replace (pos + 16 + 16 * Z.of_nat n) with (pos + 16 * Z.of_nat (S n))
      by lia.
    destruct (Z.leb_spec (pos + 16 * Z.of_nat (S n)) (Z.of_nat (length data)));
      reflexivity.
Qed.

Lemma grp_count_u32 data : is_u32 (grp_count data).
Proof. apply PHYSFS_swapULE32_range. Qed.

(** [grp_read_table] on a file that is there. *)
Lemma grp_read_table_file w path f :
  w_files w !! path = Some f ->
  (grp_well_formed (f_data f) ->
   grp_read_table w path false
   = (opened_closed w,
      Ok (grp_count (f_data f),
          grp_directory (f_data f) 16 (Z.to_nat (grp_count (f_data f)))
            (u32 (16 + u32 (16 * grp_count (f_data f))))))) /\
  (~ grp_well_formed (f_data f) ->
   exists e, grp_read_table w path false = (opened_closed w, Fail e)).
Proof.
  intros Hf. pose proof (grp_open_cases w path f Hf) as Ho.
  pose proof (grp_count_u32 (f_data f)) as [Hc0 _].
  set (data := f_data f) in *. set (len := Z.of_nat (length data)) in *.
  unfold grp_read_table. rewrite Ho. clear Ho.
  destruct (Z.ltb_spec len 12) as [Hs | Hs].
  { split; [| intros _; eexists; reflexivity].
    intros [_ Hlen]. fold len in Hlen. lia. }
  destruct (memcmp (take 12 data) (chars "KenSilverman") 12 =? 0) eqn:Hm;
    cbn [negb].
  2:{ split; [| intros _; eexists; reflexivity].
      intros [Hsig _]. exfalso.
      rewrite signature_ok in Hm
        by (try reflexivity; try exact Hsig; unfold len in *; lia).
      discriminate. }
  assert (Hsig : take 12 data = chars "KenSilverman").
  { destruct (signature_test data (chars "KenSilverman") 12) as [_ Hbad];
      [reflexivity | unfold len in *; lia |].
    destruct (List.list_eq_dec Byte.byte_eq_dec (take 12 data) (chars "KenSilverman"))
      as [E | E]; [exact E |].
    rewrite (Hbad E) in Hm. discriminate. }
  destruct (Z.ltb_spec len 16) as [Hh | Hh].
  { split; [| intros _; eexists; reflexivity].
    intros [_ Hlen]. fold len in Hlen. lia. }
  fold (grp_count data).
  rewrite grp_loop_opened by (fold len; lia). fold len.
  rewrite Z2Nat.id by exact Hc0.
  destruct (Z.leb_spec (16 + 16 * grp_count data) len) as [Ht | Ht].
  - rewrite platformClose_opened. split; [intros _; reflexivity |].
    intros Hn. exfalso. apply Hn. split; [exact Hsig | exact Ht].
  - split; [| intros _; eexists; reflexivity].
    intros [_ Hlen]. fold len in Hlen. lia.
Qed.

Lemma grp_read_table_missing w path :
  w_files w !! path = None ->
  grp_read_table w path false = (w, Fail ERR_PLATFORM).
Proof.
  intros Hf. unfold grp_read_table, grp_open, __PHYSFS_platformOpenRead.
  rewrite Hf. reflexivity.
Qed.

(** The record of index [k] of the table read off the bytes. *)
Lemma grp_directory_lookup data n : forall pos location k e,
  grp_directory data pos n location !! k = Some e ->
  grp_name e = grp_normalize (take 12 (drop (Z.to_nat (pos + 16 * Z.of_nat k)) data)) /\
  grp_size e
  = PHYSFS_swapULE32
      (take 4 (drop (Z.to_nat (pos + 16 * Z.of_nat k + 12)) data)).
Proof.
  induction n as [| n IH]; intros pos location k e; [discriminate |].
  cbn [grp_directory]. destruct k as [| k].
  - intros [= <-]. cbn [grp_name grp_size]. change (Z.of_nat 0) with 0.
    rewrite Z.mul_0_r, Z.add_0_r. split; reflexivity.
  - cbn [lookup list_lookup]. intros Hk.
    destruct (IH _ _ _ _ Hk) as [Hn Hs].
    replace (pos + 16 * Z.of_nat (S k)) with (pos + 16 + 16 * Z.of_nat k)
      by lia.
    split; assumption.
Qed.

Lemma grp_directory_length data n : forall pos location,
  length (grp_directory data pos n location) = n.
Proof.
  induction n as [| n IH]; intros pos location; [reflexivity |].
  cbn [grp_directory length]. rewrite IH. reflexivity.
Qed.


Lemma mvl_loop_opened w data n : forall pos location,
  0 <= pos <= Z.of_nat (length data) ->
  mvl_load_entries_loop (opened_at w data pos) (w_next w) n location
  = if pos + 17 * Z.of_nat n <=? Z.of_nat (length data)
    then (opened_at w data (pos + 17 * Z.of_nat n),
          Some (mvl_directory data pos n location))
    else (opened_closed w, None).
Proof.
  induction n as [| n IH]; intros pos location Hpos.
  - cbn [mvl_load_entries_loop mvl_directory]. change (Z.of_nat 0) with 0.
    rewrite Z.mul_0_r, Z.add_0_r.
    destruct (Z.leb_spec pos (Z.of_nat (length data))); [reflexivity | lia].
  - cbn [mvl_load_entries_loop mvl_directory].
    rewrite platformRead_one by lia.
    destruct (Z.leb_spec (pos + 13) (Z.of_nat (length data))) as [H1 | H1].
    2:{ cbn [negb Z.eqb Pos.eqb]. rewrite platformClose_opened.
        destruct (Z.leb_spec (pos + 17 * Z.of_nat (S n))
                    (Z.of_nat (length data))); [lia | reflexivity]. }
    cbn [negb Z.eqb Pos.eqb].
    rewrite platformRead_one by lia.
    destruct (Z.leb_spec (pos + 13 + 4) (Z.of_nat (length data))) as [H2 | H2].
    2:{ cbn [negb Z.eqb Pos.eqb]. rewrite platformClose_opened.
        destruct (Z.leb_spec (pos + 17 * Z.of_nat (S n))
                    (Z.of_nat (length data))); [lia | reflexivity]. }
    cbn [negb Z.eqb Pos.eqb].
    replace (pos + 13 + 4) with (pos + 17) by lia.
    rewrite IH by lia.
    replace (pos + 17 + 17 * Z.of_nat n) with (pos + 17 * Z.of_nat (S n))
      by lia.
    destruct (Z.leb_spec (pos + 17 * Z.of_nat (S n)) (Z.of_nat (length data)));
      reflexivity.
Qed.

Lemma mvl_count_u32 data : is_u32 (mvl_count data).
Proof. apply PHYSFS_swapULE32_range. Qed.

(** [mvl_read_table] on a file that is there. *)
Lemma mvl_read_table_file w path f :
  w_files w !! path = Some f ->
  (mvl_well_formed (f_data f) ->
   mvl_read_table w path false
   = (opened_closed w,
      Ok (mvl_count (f_data f),
          mvl_directory (f_data f) 8 (Z.to_nat (mvl_count (f_data f)))
            (u32 (8 + u32 (17 * mvl_count (f_data f))))))) /\
  (~ mvl_well_formed (f_data f) ->
   exists e, mvl_read_table w path false = (opened_closed w, Fail e)).
Proof.
  intros Hf. pose proof (mvl_open_cases w path f Hf) as Ho.
  pose proof (mvl_count_u32 (f_data f)) as [Hc0 _].
  set (data := f_data f) in *. set (len := Z.of_nat (length data)) in *.
  unfold mvl_read_table. rewrite Ho. clear Ho.
  destruct (Z.ltb_spec len 4) as [Hs | Hs].
  { split; [| intros _; eexists; reflexivity].
    intros [_ Hlen]. fold len in Hlen. lia. }
  destruct (memcmp (take 4 data) (chars "DMVL") 4 =? 0) eqn:Hm;
    cbn [negb].
  2:{ split; [| intros _; eexists; reflexivity].
      intros [Hsig _]. exfalso.
      rewrite signature_ok in Hm
        by (try reflexivity; try exact Hsig; unfold len in *; lia).
      discriminate. }
  assert (Hsig : take 4 data = chars "DMVL").
  { destruct (signature_test data (chars "DMVL") 4) as [_ Hbad];
      [reflexivity | unfold len in *; lia |].
    destruct (List.list_eq_dec Byte.byte_eq_dec (take 4 data) (chars "DMVL"))
      as [E | E]; [exact E |].
    rewrite (Hbad E) in Hm. discriminate. }
  destruct (Z.ltb_spec len 8) as [Hh | Hh].
  { split; [| intros _; eexists; reflexivity].
    intros [_ Hlen]. fold len in Hlen. lia. }
  fold (mvl_count data).
  rewrite mvl_loop_opened by (fold len; lia). fold len.
  rewrite Z2Nat.id by exact Hc0.
  destruct (Z.leb_spec (8 + 17 * mvl_count data) len) as [Ht | Ht].
  - rewrite platformClose_opened. split; [intros _; reflexivity |].
    intros Hn. exfalso. apply Hn. split; [exact Hsig | exact Ht].
  - split; [| intros _; eexists; reflexivity].
    intros [_ Hlen]. fold len in Hlen. lia.
Qed.

Lemma mvl_read_table_missing w path :
  w_files w !! path = None ->
  mvl_read_table w path false = (w, Fail ERR_PLATFORM).
Proof.
  intros Hf. unfold mvl_read_table, mvl_open, __PHYSFS_platformOpenRead.
  rewrite Hf. reflexivity.
Qed.

(** The record of index [k] of the table read off the bytes. *)
Lemma mvl_directory_lookup data n : forall pos location k e,
  mvl_directory data pos n location !! k = Some e ->
  mvl_name e = id (take 13 (drop (Z.to_nat (pos + 17 * Z.of_nat k)) data)) /\
  mvl_size e
  = PHYSFS_swapULE32
      (take 4 (drop (Z.to_nat (pos + 17 * Z.of_nat k + 13)) data)).
Proof.
  induction n as [| n IH]; intros pos location k e; [discriminate |].
  cbn [mvl_directory]. destruct k as [| k].
  - intros [= <-]. cbn [mvl_name mvl_size]. change (Z.of_nat 0) with 0.
    rewrite Z.mul_0_r, Z.add_0_r. split; reflexivity.
  - cbn [lookup list_lookup]. intros Hk.
    destruct (IH _ _ _ _ Hk) as [Hn Hs].
    replace (pos + 17 * Z.of_nat (S k)) with (pos + 17 + 17 * Z.of_nat k)
      by lia.
    split; assumption.
Qed.

Lemma mvl_directory_length data n : forall pos location,
  length (mvl_directory data pos n location) = n.
Proof.
  induction n as [| n IH]; intros pos location; [reflexivity |].
  cbn [mvl_directory length]. rewrite IH. reflexivity.
Qed.

Lemma GRP_openArchive_file w path f :
  w_files w !! path = Some f ->
  (grp_well_formed (f_data f) ->
   GRP_openArchive w path false
   = (opened_closed w,
      Ok {| grp_filename := path; grp_last_mod_time := f_mtime f;
            grp_entryCount := grp_count (f_data f);
            grp_entries :=
              __PHYSFS_sort grp_entry_cmp grp_entry_swap
                (grp_directory (f_data f) 16 (Z.to_nat (grp_count (f_data f)))
                   (u32 (16 + u32 (16 * grp_count (f_data f)))))
                (grp_count (f_data f)) |})) /\
  (~ grp_well_formed (f_data f) ->
   exists e, GRP_openArchive w path false = (opened_closed w, Fail e)).
Proof.
  intros Hf. destruct (grp_read_table_file w path f Hf) as [Hgood Hbad].
  unfold GRP_openArchive, grp_load_entries, __PHYSFS_platformGetLastModTime.
  rewrite Hf. split.
  - intros Hw. rewrite (Hgood Hw). reflexivity.
  - intros Hw. destruct (Hbad Hw) as [e He]. rewrite He.
    exists e. reflexivity.
Qed.

Lemma GRP_openArchive_missing w path :
  w_files w !! path = None ->
  GRP_openArchive w path false = (w, Fail ERR_PLATFORM).
Proof.
  intros Hf. unfold GRP_openArchive, grp_load_entries.
  rewrite (grp_read_table_missing _ _ Hf). reflexivity.
Qed.

Lemma grp_well_formed_dec data :
  grp_well_formed data \/ ~ grp_well_formed data.
Proof.
  unfold grp_well_formed.
  destruct (List.list_eq_dec Byte.byte_eq_dec (take 12 data) (chars "KenSilverman"))
    as [E | E]; [| right; tauto].
  destruct (Z_le_gt_dec (16 + 16 * grp_count data) (Z.of_nat (length data)));
    [left; tauto | right; intros [_ H]; lia].
Qed.

Lemma GRP_isArchive_file w path f :
  w_files w !! path = Some f ->
  exists r, GRP_isArchive w path false = (opened_closed w, r).
Proof.
  intros Hf. unfold GRP_isArchive. rewrite (grp_open_cases w path f Hf).
  destruct (Z.of_nat (length (f_data f)) <? 12); [eexists; reflexivity |].
  destruct (negb _); [eexists; reflexivity |].
  destruct (Z.of_nat (length (f_data f)) <? 16); [eexists; reflexivity |].
  rewrite platformClose_opened. eexists; reflexivity.
Qed.

Lemma MVL_openArchive_file w path f :
  w_files w !! path = Some f ->
  (mvl_well_formed (f_data f) ->
   MVL_openArchive w path false
   = (opened_closed w,
      Ok {| mvl_filename := path; mvl_last_mod_time := f_mtime f;
            mvl_entryCount := mvl_count (f_data f);
            mvl_entries :=
              __PHYSFS_sort mvl_entry_cmp mvl_entry_swap
                (mvl_directory (f_data f) 8 (Z.to_nat (mvl_count (f_data f)))
                   (u32 (8 + u32 (17 * mvl_count (f_data f)))))
                (mvl_count (f_data f)) |})) /\
  (~ mvl_well_formed (f_data f) ->
   exists e, MVL_openArchive w path false = (opened_closed w, Fail e)).
Proof.
  intros Hf. destruct (mvl_read_table_file w path f Hf) as [Hgood Hbad].
  unfold MVL_openArchive, mvl_load_entries, __PHYSFS_platformGetLastModTime.
  rewrite Hf. split.
  - intros Hw. rewrite (Hgood Hw). reflexivity.
  - intros Hw. destruct (Hbad Hw) as [e He]. rewrite He.
    exists e. reflexivity.
Qed.

Lemma MVL_openArchive_missing w path :
  w_files w !! path = None ->
  MVL_openArchive w path false = (w, Fail ERR_PLATFORM).
Proof.
  intros Hf. unfold MVL_openArchive, mvl_load_entries.
  rewrite (mvl_read_table_missing _ _ Hf). reflexivity.
Qed.

Lemma mvl_well_formed_dec data :
  mvl_well_formed data \/ ~ mvl_well_formed data.
Proof.
  unfold mvl_well_formed.
  destruct (List.list_eq_dec Byte.byte_eq_dec (take 4 data) (chars "DMVL"))
    as [E | E]; [| right; tauto].
  destruct (Z_le_gt_dec (8 + 17 * mvl_count data) (Z.of_nat (length data)));
    [left; tauto | right; intros [_ H]; lia].
Qed.

Lemma MVL_isArchive_file w path f :
  w_files w !! path = Some f ->
  exists r, MVL_isArchive w path false = (opened_closed w, r).
Proof.
  intros Hf. unfold MVL_isArchive. rewrite (mvl_open_cases w path f Hf).
  destruct (Z.of_nat (length (f_data f)) <? 4); [eexists; reflexivity |].
  destruct (negb _); [eexists; reflexivity |].
  destruct (Z.of_nat (length (f_data f)) <? 8); [eexists; reflexivity |].
  rewrite platformClose_opened. eexists; reflexivity.
Qed.

Lemma GRP_isArchive_missing w path :
  w_files w !! path = None ->
  GRP_isArchive w path false = (w, Fail ERR_PLATFORM).
Proof.
  intros Hf. unfold GRP_isArchive, grp_open, __PHYSFS_platformOpenRead.
  rewrite Hf. reflexivity.
Qed.

Lemma MVL_isArchive_missing w path :
  w_files w !! path = None ->
  MVL_isArchive w path false = (w, Fail ERR_PLATFORM).
Proof.
  intros Hf. unfold MVL_isArchive, mvl_open, __PHYSFS_platformOpenRead.
  rewrite Hf. reflexivity.
Qed.

(** X1. Loading or probing an archive, of either format, never leaves a
    descriptor open and never changes the files: on a path that names no
    file nothing is opened and the platform state is returned as it was;
    on a file, whether the call succeeds or fails, the one descriptor it
    used is closed again when it returns. *)
Theorem load_closes_its_descriptor :
  forall (w : world) (path : string),
    (w_files w !! path = None ->
     GRP_openArchive w path false = (w, Fail ERR_PLATFORM) /\
     GRP_isArchive w path false = (w, Fail ERR_PLATFORM) /\
     MVL_openArchive w path false = (w, Fail ERR_PLATFORM) /\
     MVL_isArchive w path false = (w, Fail ERR_PLATFORM)) /\
    (forall f, w_files w !! path = Some f ->
       (exists r, GRP_openArchive w path false = (opened_closed w, r)) /\
       (exists r, GRP_isArchive w path false = (opened_closed w, r)) /\
       (exists r, MVL_openArchive w path false = (opened_closed w, r)) /\
       (exists r, MVL_isArchive w path false = (opened_closed w, r)) /\
       w_files (opened_closed w) = w_files w /\
       w_open (opened_closed w) !! w_next w = None /\
       forall fd, fd <> w_next w ->
                  w_open (opened_closed w) !! fd = w_open w !! fd).
Proof.
  intros w path. split.
  - intros Hf.
    split; [apply GRP_openArchive_missing; exact Hf |].
    split; [apply GRP_isArchive_missing; exact Hf |].
    split; [apply MVL_openArchive_missing; exact Hf |].
    apply MVL_isArchive_missing; exact Hf.
  - intros f Hf.
    split.
    { destruct (GRP_openArchive_file w path f Hf) as [Hg Hb].
      destruct (grp_well_formed_dec (f_data f)) as [Hw | Hw].
      - eexists. exact (Hg Hw).
      - destruct (Hb Hw) as [e He]. eexists. exact He. }
    split; [exact (GRP_isArchive_file w path f Hf) |].
    split.
    { destruct (MVL_openArchive_file w path f Hf) as [Hg Hb].
      destruct (mvl_well_formed_dec (f_data f)) as [Hw | Hw].
      - eexists. exact (Hg Hw).
      - destruct (Hb Hw) as [e He]. eexists. exact He. }
    split; [exact (MVL_isArchive_file w path f Hf) |].
    split; [reflexivity |].
    split; [apply opened_closed_closed |].
    intros fd Hfd. unfold opened_closed. simpl.
    apply lookup_delete_ne. congruence.
Qed.

(** X2. A file loads exactly when it starts with the signature and holds
    its whole directory table (16 + 16 x count bytes for GRP, 8 + 17 x
    count for MVL, the count being the little-endian integer after the
    signature); the container then carries the path, the modification
    time of the file, that count, and as many entries. *)
Theorem load_succeeds_iff_well_formed :
  forall (w : world) (path : string) (f : file),
    w_files w !! path = Some f ->
    ((exists w' info, GRP_openArchive w path false = (w', Ok info)) <->
     grp_well_formed (f_data f)) /\
    (forall w' info,
        GRP_openArchive w path false = (w', Ok info) ->
        grp_filename info = path /\
        grp_last_mod_time info = f_mtime f /\
        grp_entryCount info = grp_count (f_data f) /\
        Z.of_nat (length (grp_entries info)) = grp_count (f_data f)) /\
    ((exists w' info, MVL_openArchive w path false = (w', Ok info)) <->
     mvl_well_formed (f_data f)) /\
    (forall w' info,
        MVL_openArchive w path false = (w', Ok info) ->
        mvl_filename info = path /\
        mvl_last_mod_time info = f_mtime f /\
        mvl_entryCount info = mvl_count (f_data f) /\
        Z.of_nat (length (mvl_entries info)) = mvl_count (f_data f)).
Proof.
  intros w path f Hf.
  destruct (GRP_openArchive_file w path f Hf) as [Gg Gb].
  destruct (MVL_openArchive_file w path f Hf) as [Mg Mb].
  assert (Gw : forall w' info, GRP_openArchive w path false = (w', Ok info) ->
                               grp_well_formed (f_data f)).
  { intros w' info Ho.
    destruct (grp_well_formed_dec (f_data f)) as [Hw | Hw]; [exact Hw |].
    destruct (Gb Hw) as [e He]. rewrite He in Ho. discriminate. }
  assert (Mw : forall w' info, MVL_openArchive w path false = (w', Ok info) ->
                               mvl_well_formed (f_data f)).
  { intros w' info Ho.
    destruct (mvl_well_formed_dec (f_data f)) as [Hw | Hw]; [exact Hw |].
    destruct (Mb Hw) as [e He]. rewrite He in Ho. discriminate. }
  split; [| split; [| split]].
  - split; [intros (w' & info & Ho); exact (Gw _ _ Ho) |].
    intros Hw. eexists _, _. exact (Gg Hw).
  - intros w' info Ho. pose proof (Gw _ _ Ho) as Hw.
    destruct (GRP_openArchive_inv _ _ _ _ _ Ho) as (_ & _ & _ & Hlen & _).
    rewrite (Gg Hw) in Ho. injection Ho as _ <-. simpl in *.
    repeat split. symmetry. exact Hlen.
  - split; [intros (w' & info & Ho); exact (Mw _ _ Ho) |].
    intros Hw. eexists _, _. exact (Mg Hw).
  - intros w' info Ho. pose proof (Mw _ _ Ho) as Hw.
    destruct (MVL_openArchive_inv _ _ _ _ _ Ho) as (_ & _ & _ & Hlen & _).
    rewrite (Mg Hw) in Ho. injection Ho as _ <-. simpl in *.
    repeat split. symmetry. exact Hlen.
Qed.

(** X3. The directory table is decoded from fixed-size records: in the
    table a load read from a file, the record of index [k] has the name
    made of the 12 bytes at offset 16 + 16 k (GRP: terminated, cut at the
    first space) or the 13 bytes at offset 8 + 17 k (MVL: as they are),
    and the size that the four bytes after the name spell in little-endian
    order. *)
Theorem table_records_decoded :
  forall (w : world) (path : string) (f : file),
    w_files w !! path = Some f ->
    (forall w' count tbl k e,
        grp_read_table w path false = (w', Ok (count, tbl)) ->
        tbl !! k = Some e ->
        grp_name e
        = grp_normalize
            (take 12 (drop (Z.to_nat (16 + 16 * Z.of_nat k)) (f_data f))) /\
        grp_size e
        = PHYSFS_swapULE32
            (take 4 (drop (Z.to_nat (16 + 16 * Z.of_nat k + 12)) (f_data f)))) /\
    (forall w' count tbl k e,
        mvl_read_table w path false = (w', Ok (count, tbl)) ->
        tbl !! k = Some e ->
        mvl_name e
        = take 13 (drop (Z.to_nat (8 + 17 * Z.of_nat k)) (f_data f)) /\
        mvl_size e
        = PHYSFS_swapULE32
            (take 4 (drop (Z.to_nat (8 + 17 * Z.of_nat k + 13)) (f_data f)))).
Proof.
  intros w path f Hf. split; intros w' count tbl k e Ht Hk.
  - destruct (grp_read_table_file w path f Hf) as [Hg Hb].
    destruct (grp_well_formed_dec (f_data f)) as [Hw | Hw].
    + rewrite (Hg Hw) in Ht. injection Ht as _ _ <-.
      apply (grp_directory_lookup _ _ _ _ _ _ Hk).
    + destruct (Hb Hw) as [err He]. rewrite He in Ht. discriminate.
  - destruct (mvl_read_table_file w path f Hf) as [Hg Hb].
    destruct (mvl_well_formed_dec (f_data f)) as [Hw | Hw].
    + rewrite (Hg Hw) in Ht. injection Ht as _ _ <-.
      apply (mvl_directory_lookup _ _ _ _ _ _ Hk).
    + destruct (Hb Hw) as [err He]. rewrite He in Ht. discriminate.
Qed.

(** ** The names a load leaves in the entries *)

Lemma cstr_app_nul buf : cstr (buf ++ [x00]) = cstr buf.
Proof.
  induction buf as [| c t IH]; [reflexivity |]. simpl.
  destruct (uchar c =? 0); [reflexivity | rewrite IH; reflexivity].
Qed.

Lemma cstr_length_le s : (length (cstr s) <= length s)%nat.
Proof.
  induction s as [| c t IH]; simpl; [lia |].
  destruct (uchar c =? 0); simpl; lia.
Qed.

Lemma cstr_insert_nul s : forall p,
  (p <= length (cstr s))%nat -> cstr (<[p := x00]> s) = take p (cstr s).
Proof.
  induction s as [| c t IH]; intros p Hp; [destruct p; reflexivity |].
  destruct p as [| p]; [reflexivity |]. simpl in *.
  destruct (uchar c =? 0); simpl in *; [lia |].
  rewrite IH by lia. reflexivity.
Qed.

(** The string a normalized GRP name holds: at most as long as the name
    field, without a space, and the leading bytes of the field. *)
Lemma grp_normalize_spec buf :
  length (grp_normalize buf) = S (length buf) /\
  (length (cstr (grp_normalize buf)) <= length buf)%nat /\
  (forall i, cstr (grp_normalize buf) !! i <> Some " "%byte) /\
  exists rest, buf = cstr (grp_normalize buf) ++ rest.
Proof.
  unfold grp_normalize. cbv zeta.
  assert (Hpre : forall s, exists rest, s = cstr s ++ rest).
  { induction s as [| c t [rest IH]]; [exists []; reflexivity |]. simpl.
    destruct (uchar c =? 0); [exists (c :: t); reflexivity |].
    exists rest. simpl. f_equal. exact IH. }
  destruct (strchr (buf ++ [x00]) " ") as [p |] eqn:Hs.
  - destruct (strchr_Some _ _ _ Hs) as [Hp Hfirst].
    assert (Hlt : (p < length (cstr (buf ++ [x00])))%nat)
      by (apply lookup_lt_Some in Hp; exact Hp).
    rewrite cstr_insert_nul by lia. rewrite cstr_app_nul in *.
    pose proof (cstr_length_le buf).
    split; [rewrite length_insert, length_app; simpl; lia |].
    split; [rewrite length_take; lia |].
    split.
    + intros i Hi. apply lookup_take_Some in Hi as [Hi Hlti].
      specialize (Hfirst i Hi). lia.
    + destruct (Hpre buf) as [rest Hrest].
      exists (drop p (cstr buf) ++ rest).
      rewrite app_assoc, take_drop. exact Hrest.
  - rewrite cstr_app_nul. pose proof (cstr_length_le buf).
    split; [rewrite length_app; simpl; lia |].
    split; [lia |]. split.
    + intros i. rewrite <- (cstr_app_nul buf). apply (strchr_None _ _ Hs).
    + apply Hpre.
Qed.

Lemma GRP_openArchive_bytes w path w' info :
  GRP_openArchive w path false = (w', Ok info) ->
  exists f,
    w_files w !! path = Some f /\ grp_well_formed (f_data f) /\
    w' = opened_closed w /\
    grp_entryCount info = grp_count (f_data f) /\
    Permutation (grp_entries info)
      (grp_directory (f_data f) 16 (Z.to_nat (grp_count (f_data f)))
         (u32 (16 + u32 (16 * grp_count (f_data f))))).
Proof.
  intros Ho. destruct (w_files w !! path) as [f |] eqn:Hf.
  2:{ rewrite (GRP_openArchive_missing _ _ Hf) in Ho. discriminate. }
  exists f. split; [reflexivity |].
  destruct (GRP_openArchive_file w path f Hf) as [Hg Hb].
  destruct (grp_well_formed_dec (f_data f)) as [Hw | Hw].
  - split; [exact Hw |]. rewrite (Hg Hw) in Ho. injection Ho as <- <-.
    simpl. split; [reflexivity |]. split; [reflexivity |].
    pose proof (grp_count_u32 (f_data f)) as [Hc _].
    pose proof (grp_sort_perm
                  (grp_directory (f_data f) 16
                     (Z.to_nat (grp_count (f_data f)))
                     (u32 (16 + u32 (16 * grp_count (f_data f)))))) as Hp.
    rewrite grp_directory_length, Z2Nat.id in Hp by exact Hc. exact Hp.
  - destruct (Hb Hw) as [e He]. rewrite He in Ho. discriminate.
Qed.

Lemma MVL_openArchive_bytes w path w' info :
  MVL_openArchive w path false = (w', Ok info) ->
  exists f,
    w_files w !! path = Some f /\ mvl_well_formed (f_data f) /\
    w' = opened_closed w /\
    mvl_entryCount info = mvl_count (f_data f) /\
    Permutation (mvl_entries info)
      (mvl_directory (f_data f) 8 (Z.to_nat (mvl_count (f_data f)))
         (u32 (8 + u32 (17 * mvl_count (f_data f))))).
Proof.
  intros Ho. destruct (w_files w !! path) as [f |] eqn:Hf.
  2:{ rewrite (MVL_openArchive_missing _ _ Hf) in Ho. discriminate. }
  exists f. split; [reflexivity |].
  destruct (MVL_openArchive_file w path f Hf) as [Hg Hb].
  destruct (mvl_well_formed_dec (f_data f)) as [Hw | Hw].
  - split; [exact Hw |]. rewrite (Hg Hw) in Ho. injection Ho as <- <-.
    simpl. split; [reflexivity |]. split; [reflexivity |].
    pose proof (mvl_count_u32 (f_data f)) as [Hc _].
    pose proof (mvl_sort_perm
                  (mvl_directory (f_data f) 8
                     (Z.to_nat (mvl_count (f_data f)))
                     (u32 (8 + u32 (17 * mvl_count (f_data f)))))) as Hp.
    rewrite mvl_directory_length, Z2Nat.id in Hp by exact Hc. exact Hp.
  - destruct (Hb Hw) as [e He]. rewrite He in Ho. discriminate.
Qed.

(** X4. Every entry of a loaded container has a 13-byte name buffer; in a
    GRP container the string it holds has at most 12 characters and no
    space (so no loaded GRP name is ever too long for the lookup), being
    what precedes the first space or NUL of the name field. *)
Theorem loaded_names_normalized :
  (forall w path w' info e,
      GRP_openArchive w path false = (w', Ok info) ->
      e ∈ grp_entries info ->
      length (grp_name e) = 13%nat /\
      ~ too_long (grp_name e) /\
      (forall i, cstr (grp_name e) !! i <> Some " "%byte) /\
      exists f k rest,
        w_files w !! path = Some f /\
        take 12 (drop (Z.to_nat (16 + 16 * Z.of_nat k)) (f_data f))
        = cstr (grp_name e) ++ rest) /\
  (forall w path w' info e,
      MVL_openArchive w path false = (w', Ok info) ->
      e ∈ mvl_entries info ->
      length (mvl_name e) = 13%nat).
Proof.
  split; intros w path w' info e Ho He.
  - destruct (GRP_openArchive_bytes _ _ _ _ Ho)
      as (f & Hf & [_ Hlen] & _ & _ & Hperm).
    rewrite Hperm in He. apply list_elem_of_lookup in He as [k Hk].
    pose proof (lookup_lt_Some _ _ _ Hk) as Hlt.
    rewrite grp_directory_length in Hlt.
    pose proof (grp_count_u32 (f_data f)) as [Hc _].
    destruct (grp_directory_lookup _ _ _ _ _ _ Hk) as [Hname _].
    set (buf := take 12 (drop (Z.to_nat (16 + 16 * Z.of_nat k)) (f_data f)))
      in *.
    assert (Hbuf : length buf = 12%nat).
    { unfold buf. rewrite length_take, length_drop. lia. }
    destruct (grp_normalize_spec buf) as (H1 & H2 & H3 & rest & H4).
    rewrite Hname. split; [lia |].
    split; [unfold too_long, strlen; lia |].
    split; [exact H3 |].
    exists f, k, rest. split; [exact Hf | exact H4].
  - destruct (MVL_openArchive_bytes _ _ _ _ Ho)
      as (f & Hf & [_ Hlen] & _ & _ & Hperm).
    rewrite Hperm in He. apply list_elem_of_lookup in He as [k Hk].
    pose proof (lookup_lt_Some _ _ _ Hk) as Hlt.
    rewrite mvl_directory_length in Hlt.
    pose proof (mvl_count_u32 (f_data f)) as [Hc _].
    destruct (mvl_directory_lookup _ _ _ _ _ _ Hk) as [Hname _].
    rewrite Hname. unfold id. rewrite length_take, length_drop. lia.
Qed.

(** ** Handles on the bytes of a file *)

Lemma grp_handle_on_backed w finfo data :
  grp_handle_on w finfo data -> grp_handle_backed w finfo.
Proof.
  intros [Hfd Hlen]. eexists. split; [exact Hfd |]. split; [reflexivity | exact Hlen].
Qed.

(** A read of whole objects through a handle on [data]. *)
Lemma GRP_read_objs_on w finfo data objSize objCount :
  grp_handle_ok finfo -> grp_handle_on w finfo data ->
  0 < objSize -> 0 <= objCount ->
  let n := Z.min objCount
             ((grp_size (grp_entry finfo) - grp_curPos finfo) / objSize) in
  exists w',
    GRP_read w finfo objSize objCount
    = (w', grp_at finfo (grp_curPos finfo + n * objSize), n,
       slice data (grp_startPos (grp_entry finfo) + grp_curPos finfo)
             (n * objSize)) /\
    grp_handle_ok (grp_at finfo (grp_curPos finfo + n * objSize)) /\
    grp_handle_on w' (grp_at finfo (grp_curPos finfo + n * objSize)) data /\
    same_but (grp_handle finfo) w w'.
Proof.
  intros Hok [Hfd Hlen] Hs Hc n.
  destruct (GRP_read_clamp w finfo objSize objCount Hok Hs Hc) as
    (w' & rc & buf & Hr & Hrc & Hn & Hnl & Hread).
  fold n in Hr, Hrc, Hn, Hnl.
  destruct Hok as (Hsz & Hst & Hcur). unfold is_u32 in *.
  rewrite (platformRead_full _ _ _ _ _ Hfd) in Hr by (simpl; lia).
  simpl in Hr. injection Hr as <- <- <-.
  eexists. rewrite Hread. rewrite Z.max_r by lia.
  split; [reflexivity |]. clear Hread.
  assert (0 <= n * objSize) by (apply Z.mul_nonneg_nonneg; lia).
  clearbody n.
  split; [unfold grp_handle_ok, grp_at, is_u32; simpl; lia |].
  split.
  - split; [| exact Hlen]. simpl. rewrite lookup_insert_eq.
    f_equal. f_equal. lia.
  - split; [reflexivity |]. split; [reflexivity |].
    intros fd' Hne. simpl. apply lookup_insert_ne. congruence.
Qed.

(** A read of bytes through a handle on [data]. *)
Lemma GRP_read_on w finfo data objCount :
  grp_handle_ok finfo -> grp_handle_on w finfo data -> 0 <= objCount ->
  let n := Z.min objCount (grp_size (grp_entry finfo) - grp_curPos finfo) in
  exists w',
    GRP_read w finfo 1 objCount
    = (w', grp_at finfo (grp_curPos finfo + n), n,
       slice data (grp_startPos (grp_entry finfo) + grp_curPos finfo) n) /\
    grp_handle_ok (grp_at finfo (grp_curPos finfo + n)) /\
    grp_handle_on w' (grp_at finfo (grp_curPos finfo + n)) data /\
    same_but (grp_handle finfo) w w'.
Proof.
  intros Hok [Hfd Hlen] Hc n.
  destruct (GRP_read_clamp w finfo 1 objCount Hok) as
    (w' & rc & buf & Hr & Hrc & Hn & Hnl & Hread); [lia | exact Hc |].
  rewrite Z.div_1_r in *. fold n in Hr, Hrc, Hn, Hnl.
  destruct Hok as (Hsz & Hst & Hcur). unfold is_u32 in *.
  rewrite (platformRead_full _ _ _ _ _ Hfd) in Hr by (simpl; lia).
  simpl in Hr. injection Hr as <- <- <-.
  eexists. rewrite Hread. rewrite Z.max_r by lia. rewrite !Z.mul_1_r.
  split; [reflexivity |]. clear Hread.
  split; [unfold grp_handle_ok, grp_at, is_u32; simpl; subst n; lia |].
  split.
  - split; [| exact Hlen]. simpl. rewrite lookup_insert_eq.
    f_equal. f_equal. lia.
  - split; [reflexivity |]. split; [reflexivity |].
    intros fd' Hne. simpl. apply lookup_insert_ne. congruence.
Qed.

(** A seek inside the entry through a handle on [data]. *)
Lemma GRP_seek_on w finfo data offset :
  grp_handle_ok finfo -> grp_handle_on w finfo data ->
  0 <= offset < grp_size (grp_entry finfo) ->
  exists w',
    GRP_seek w finfo offset = (w', grp_at finfo offset, Ok tt) /\
    grp_handle_ok (grp_at finfo offset) /\
    grp_handle_on w' (grp_at finfo offset) data /\
    same_but (grp_handle finfo) w w'.
Proof.
  intros (Hsz & Hst & Hcur) [Hfd Hlen] Hoff. unfold is_u32 in *.
  pose proof (GRP_seek_inside w finfo offset Hsz Hoff) as Hs.
  unfold __PHYSFS_platformSeek in Hs. rewrite Hfd in Hs. simpl in Hs.
  destruct (Z.leb_spec 0 (grp_startPos (grp_entry finfo) + offset)); [| lia].
  destruct (Z.leb_spec (grp_startPos (grp_entry finfo) + offset)
              (Z.of_nat (length data))); [| lia].
  simpl in Hs. eexists. split; [exact Hs |].
  split; [unfold grp_handle_ok, grp_at, is_u32; simpl; lia |].
  split.
  - split; [| exact Hlen]. simpl. rewrite lookup_insert_eq. reflexivity.
  - split; [reflexivity |]. split; [reflexivity |].
    intros fd' Hne. simpl. apply lookup_insert_ne. congruence.
Qed.

(** The handle [GRP_openRead] returns stands on the bytes of the file. *)
Lemma GRP_openRead_on w info name w1 ex finfo :
  GRP_openRead w info name = Some (w1, ex, Ok finfo) ->
  exists f,
    w_files w !! grp_filename info = Some f /\
    w1 = opened_at w (f_data f) (grp_startPos (grp_entry finfo)) /\
    grp_handle finfo = w_next w /\ grp_curPos finfo = 0 /\ ex = true /\
    grp_find_entry info name = Some (Ok (grp_entry finfo)) /\
    0 <= grp_startPos (grp_entry finfo) <= Z.of_nat (length (f_data f)).
Proof.
  unfold GRP_openRead.
  destruct (grp_find_entry info name) as [[e | err] |];
    [| discriminate | discriminate].
  unfold __PHYSFS_platformOpenRead.
  destruct (w_files w !! grp_filename info) as [f |]; [| discriminate].
  unfold __PHYSFS_platformSeek. simpl. rewrite lookup_insert_eq. simpl.
  destruct (Z.leb_spec 0 (grp_startPos e)); simpl; [| discriminate].
  destruct (Z.leb_spec (grp_startPos e) (Z.of_nat (length (f_data f))));
    simpl; [| discriminate].
  intros [= <- <- <-]. exists f. simpl.
  split; [reflexivity |]. split.
  - unfold opened_at. f_equal. apply insert_insert_eq.
  - repeat split; assumption.
Qed.

Lemma mvl_handle_on_backed w finfo data :
  mvl_handle_on w finfo data -> mvl_handle_backed w finfo.
Proof.
  intros [Hfd Hlen]. eexists. split; [exact Hfd |]. split; [reflexivity | exact Hlen].
Qed.

(** A read of whole objects through a handle on [data]. *)
Lemma MVL_read_objs_on w finfo data objSize objCount :
  mvl_handle_ok finfo -> mvl_handle_on w finfo data ->
  0 < objSize -> 0 <= objCount ->
  let n := Z.min objCount
             ((mvl_size (mvl_entry finfo) - mvl_curPos finfo) / objSize) in
  exists w',
    MVL_read w finfo objSize objCount
    = (w', mvl_at finfo (mvl_curPos finfo + n * objSize), n,
       slice data (mvl_startPos (mvl_entry finfo) + mvl_curPos finfo)
             (n * objSize)) /\
    mvl_handle_ok (mvl_at finfo (mvl_curPos finfo + n * objSize)) /\
    mvl_handle_on w' (mvl_at finfo (mvl_curPos finfo + n * objSize)) data /\
    same_but (mvl_handle finfo) w w'.
Proof.
  intros Hok [Hfd Hlen] Hs Hc n.
  destruct (MVL_read_clamp w finfo objSize objCount Hok Hs Hc) as
    (w' & rc & buf & Hr & Hrc & Hn & Hnl & Hread).
  fold n in Hr, Hrc, Hn, Hnl.
  destruct Hok as (Hsz & Hst & Hcur). unfold is_u32 in *.
  rewrite (platformRead_full _ _ _ _ _ Hfd) in Hr by (simpl; lia).
  simpl in Hr. injection Hr as <- <- <-.
  eexists. rewrite Hread. rewrite Z.max_r by lia.
  split; [reflexivity |]. clear Hread.
  assert (0 <= n * objSize) by (apply Z.mul_nonneg_nonneg; lia).
  clearbody n.
  split; [unfold mvl_handle_ok, mvl_at, is_u32; simpl; lia |].
  split.
  - split; [| exact Hlen]. simpl. rewrite lookup_insert_eq.
    f_equal. f_equal. lia.
  - split; [reflexivity |]. split; [reflexivity |].
    intros fd' Hne. simpl. apply lookup_insert_ne. congruence.
Qed.

(** A read of bytes through a handle on [data]. *)
Lemma MVL_read_on w finfo data objCount :
  mvl_handle_ok finfo -> mvl_handle_on w finfo data -> 0 <= objCount ->
  let n := Z.min objCount (mvl_size (mvl_entry finfo) - mvl_curPos finfo) in
  exists w',
    MVL_read w finfo 1 objCount
    = (w', mvl_at finfo (mvl_curPos finfo + n), n,
       slice data (mvl_startPos (mvl_entry finfo) + mvl_curPos finfo) n) /\
    mvl_handle_ok (mvl_at finfo (mvl_curPos finfo + n)) /\
    mvl_handle_on w' (mvl_at finfo (mvl_curPos finfo + n)) data /\
    same_but (mvl_handle finfo) w w'.
Proof.
  intros Hok [Hfd Hlen] Hc n.
  destruct (MVL_read_clamp w finfo 1 objCount Hok) as
    (w' & rc & buf & Hr & Hrc & Hn & Hnl & Hread); [lia | exact Hc |].
  rewrite Z.div_1_r in *. fold n in Hr, Hrc, Hn, Hnl.
  destruct Hok as (Hsz & Hst & Hcur). unfold is_u32 in *.
  rewrite (platformRead_full _ _ _ _ _ Hfd) in Hr by (simpl; lia).
  simpl in Hr. injection Hr as <- <- <-.
  eexists. rewrite Hread. rewrite Z.max_r by lia. rewrite !Z.mul_1_r.
  split; [reflexivity |]. clear Hread.
  split; [unfold mvl_handle_ok, mvl_at, is_u32; simpl; subst n; lia |].
  split.
  - split; [| exact Hlen]. simpl. rewrite lookup_insert_eq.
    f_equal. f_equal. lia.
  - split; [reflexivity |]. split; [reflexivity |].
    intros fd' Hne. simpl. apply lookup_insert_ne. congruence.
Qed.

(** A seek inside the entry through a handle on [data]. *)
Lemma MVL_seek_on w finfo data offset :
  mvl_handle_ok finfo -> mvl_handle_on w finfo data ->
  0 <= offset < mvl_size (mvl_entry finfo) ->
  exists w',
    MVL_seek w finfo offset = (w', mvl_at finfo offset, Ok tt) /\
    mvl_handle_ok (mvl_at finfo offset) /\
    mvl_handle_on w' (mvl_at finfo offset) data /\
    same_but (mvl_handle finfo) w w'.
Proof.
  intros (Hsz & Hst & Hcur) [Hfd Hlen] Hoff. unfold is_u32 in *.
  pose proof (MVL_seek_inside w finfo offset Hsz Hoff) as Hs.
  unfold __PHYSFS_platformSeek in Hs. rewrite Hfd in Hs. simpl in Hs.
  destruct (Z.leb_spec 0 (mvl_startPos (mvl_entry finfo) + offset)); [| lia].
  destruct (Z.leb_spec (mvl_startPos (mvl_entry finfo) + offset)
              (Z.of_nat (length data))); [| lia].
  simpl in Hs. eexists. split; [exact Hs |].
  split; [unfold mvl_handle_ok, mvl_at, is_u32; simpl; lia |].
  split.
  - split; [| exact Hlen]. simpl. rewrite lookup_insert_eq. reflexivity.
  - split; [reflexivity |]. split; [reflexivity |].
    intros fd' Hne. simpl. apply lookup_insert_ne. congruence.
Qed.

(** The handle [MVL_openRead] returns stands on the bytes of the file. *)
Lemma MVL_openRead_on w info name w1 ex finfo :
  MVL_openRead w info name = Some (w1, ex, Ok finfo) ->
  exists f,
    w_files w !! mvl_filename info = Some f /\
    w1 = opened_at w (f_data f) (mvl_startPos (mvl_entry finfo)) /\
    mvl_handle finfo = w_next w /\ mvl_curPos finfo = 0 /\ ex = true /\
    mvl_find_entry info name = Some (Ok (mvl_entry finfo)) /\
    0 <= mvl_startPos (mvl_entry finfo) <= Z.of_nat (length (f_data f)).
Proof.
  unfold MVL_openRead.
  destruct (mvl_find_entry info name) as [[e | err] |];
    [| discriminate | discriminate].
  unfold __PHYSFS_platformOpenRead.
  destruct (w_files w !! mvl_filename info) as [f |]; [| discriminate].
  unfold __PHYSFS_platformSeek. simpl. rewrite lookup_insert_eq. simpl.
  destruct (Z.leb_spec 0 (mvl_startPos e)); simpl; [| discriminate].
  destruct (Z.leb_spec (mvl_startPos e) (Z.of_nat (length (f_data f))));
    simpl; [| discriminate].
  intros [= <- <- <-]. exists f. simpl.
  split; [reflexivity |]. split.
  - unfold opened_at. f_equal. apply insert_insert_eq.
  - repeat split; assumption.
Qed.

(** ** What a call on a handle touches *)

Lemma same_but_refl fd w : same_but fd w w.
Proof. repeat split. Qed.

Lemma same_but_trans fd w1 w2 w3 :
  same_but fd w1 w2 -> same_but fd w2 w3 -> same_but fd w1 w3.
Proof.
  intros (F1 & N1 & O1) (F2 & N2 & O2). split; [congruence |].
  split; [congruence |]. intros fd' Hne. rewrite O2, O1 by exact Hne.
  reflexivity.
Qed.

Lemma platformRead_same_but w fd objSize objCount :
  same_but fd w (fst (fst (__PHYSFS_platformRead w fd objSize objCount))).
Proof.
  unfold __PHYSFS_platformRead. destruct (w_open w !! fd); simpl;
    [| apply same_but_refl].
  split; [reflexivity |]. split; [reflexivity |].
  intros fd' Hne. simpl. apply lookup_insert_ne. congruence.
Qed.

Lemma platformSeek_same_but w fd pos :
  same_but fd w (fst (__PHYSFS_platformSeek w fd pos)).
Proof.
  unfold __PHYSFS_platformSeek. destruct (w_open w !! fd) as [rh |]; simpl;
    [| apply same_but_refl].
  destruct ((0 <=? pos) && (pos <=? Z.of_nat (length (rh_data rh)))); simpl;
    [| apply same_but_refl].
  split; [reflexivity |]. split; [reflexivity |].
  intros fd' Hne. simpl. apply lookup_insert_ne. congruence.
Qed.

Lemma platformClose_same_but w fd :
  same_but fd w (fst (__PHYSFS_platformClose w fd)).
Proof.
  unfold __PHYSFS_platformClose. destruct (w_open w !! fd); simpl;
    [| apply same_but_refl].
  split; [reflexivity |]. split; [reflexivity |].
  intros fd' Hne. simpl. apply lookup_delete_ne. congruence.
Qed.

Lemma GRP_read_local w finfo objSize objCount w' finfo' rc buf :
  GRP_read w finfo objSize objCount = (w', finfo', rc, buf) ->
  same_but (grp_handle finfo) w w' /\
  grp_handle finfo' = grp_handle finfo /\ grp_entry finfo' = grp_entry finfo.
Proof.
  unfold GRP_read. cbv zeta.
  match goal with
  | |- context [__PHYSFS_platformRead w ?fd ?s ?c] =>
      pose proof (platformRead_same_but w fd s c) as Hs;
      destruct (__PHYSFS_platformRead w fd s c) as [[w1 rc1] buf1]
  end.
  simpl in Hs. intros [= <- <- _ _]. simpl. repeat split; apply Hs.
Qed.

Lemma GRP_seek_local w finfo offset w' finfo' r :
  GRP_seek w finfo offset = (w', finfo', r) ->
  same_but (grp_handle finfo) w w' /\
  grp_handle finfo' = grp_handle finfo /\ grp_entry finfo' = grp_entry finfo.
Proof.
  unfold GRP_seek. cbv zeta.
  destruct (u64 offset <? 0);
    [intros [= <- <- _]; split; [apply same_but_refl | split; reflexivity] |].
  destruct (u64 offset >=? grp_size (grp_entry finfo));
    [intros [= <- <- _]; split; [apply same_but_refl | split; reflexivity] |].
  match goal with
  | |- context [__PHYSFS_platformSeek w ?fd ?p] =>
      pose proof (platformSeek_same_but w fd p) as Hs;
      destruct (__PHYSFS_platformSeek w fd p) as [w1 [|]]
  end; simpl in Hs; intros [= <- <- _]; simpl;
    (split; [exact Hs | split; reflexivity]).
Qed.

Lemma GRP_fileClose_local w finfo w' r :
  GRP_fileClose w finfo = (w', r) -> same_but (grp_handle finfo) w w'.
Proof.
  unfold GRP_fileClose.
  pose proof (platformClose_same_but w (grp_handle finfo)) as Hs.
  destruct (__PHYSFS_platformClose w (grp_handle finfo)) as [w1 [|]];
    simpl in Hs; intros [= <- _]; exact Hs.
Qed.

(** One call keeps a handle on its bytes. *)
Lemma grp_apply_on data op w finfo :
  grp_handle_ok finfo -> grp_handle_on w finfo data -> op_sane op ->
  grp_handle_ok (snd (grp_apply (w, finfo) op)) /\
  grp_handle_on (fst (grp_apply (w, finfo) op))
                (snd (grp_apply (w, finfo) op)) data /\
  grp_entry (snd (grp_apply (w, finfo) op)) = grp_entry finfo /\
  grp_handle (snd (grp_apply (w, finfo) op)) = grp_handle finfo /\
  same_but (grp_handle finfo) w (fst (grp_apply (w, finfo) op)).
Proof.
  intros Hok Hon Hsane. destruct op as [objSize objCount | offset]; simpl.
  - destruct Hsane as [Hs Hc].
    destruct (GRP_read_objs_on w finfo data objSize objCount Hok Hon Hs Hc)
      as (w' & Hr & Hok' & Hon' & Hsb).
    rewrite Hr. simpl.
      split; [exact Hok' |]. split; [exact Hon' |]. split; [reflexivity |].
      split; [reflexivity | exact Hsb].
  - pose proof (u64_range offset) as [Hpos _].
    rewrite <- (GRP_seek_wrapped w finfo offset).
    destruct (Z_lt_le_dec (u64 offset) (grp_size (grp_entry finfo)))
      as [Hin | Hout].
    + destruct (GRP_seek_on w finfo data (u64 offset) Hok Hon (conj Hpos Hin))
        as (w' & Hr & Hok' & Hon' & Hsb).
      rewrite Hr. simpl.
      split; [exact Hok' |]. split; [exact Hon' |]. split; [reflexivity |].
      split; [reflexivity | exact Hsb].
    + rewrite GRP_seek_past_eof by (rewrite u64_u64; exact Hout). simpl.
      split; [exact Hok |]. split; [exact Hon |]. split; [reflexivity |].
      split; [reflexivity | apply same_but_refl].
Qed.

Lemma grp_run_on data ops : forall w finfo,
  grp_handle_ok finfo -> grp_handle_on w finfo data -> Forall op_sane ops ->
  grp_handle_ok (snd (fold_left grp_apply ops (w, finfo))) /\
  grp_handle_on (fst (fold_left grp_apply ops (w, finfo)))
                (snd (fold_left grp_apply ops (w, finfo))) data /\
  grp_entry (snd (fold_left grp_apply ops (w, finfo))) = grp_entry finfo /\
  grp_handle (snd (fold_left grp_apply ops (w, finfo))) = grp_handle finfo /\
  same_but (grp_handle finfo) w (fst (fold_left grp_apply ops (w, finfo))).
Proof.
  induction ops as [| op ops IH]; intros w finfo Hok Hon Hsane.
  - simpl. split; [exact Hok |]. split; [exact Hon |]. split; [reflexivity |].
    split; [reflexivity | apply same_but_refl].
  - apply Forall_cons in Hsane. destruct Hsane as [Hop Hrest].
    destruct (grp_apply_on data op w finfo Hok Hon Hop)
      as (Hok1 & Hon1 & He1 & Hh1 & Hs1).
    simpl fold_left.
    destruct (grp_apply (w, finfo) op) as [w1 f1] eqn:Hstep.
    simpl in Hok1, Hon1, He1, Hh1, Hs1.
    destruct (IH w1 f1 Hok1 Hon1 Hrest) as (Hok2 & Hon2 & He2 & Hh2 & Hs2).
    split; [exact Hok2 |]. split; [exact Hon2 |].
    split; [congruence |]. split; [congruence |].
    rewrite Hh1 in Hs2. exact (same_but_trans _ _ _ _ Hs1 Hs2).
Qed.

Lemma MVL_read_local w finfo objSize objCount w' finfo' rc buf :
  MVL_read w finfo objSize objCount = (w', finfo', rc, buf) ->
  same_but (mvl_handle finfo) w w' /\
  mvl_handle finfo' = mvl_handle finfo /\ mvl_entry finfo' = mvl_entry finfo.
Proof.
  unfold MVL_read. cbv zeta.
  match goal with
  | |- context [__PHYSFS_platformRead w ?fd ?s ?c] =>
      pose proof (platformRead_same_but w fd s c) as Hs;
      destruct (__PHYSFS_platformRead w fd s c) as [[w1 rc1] buf1]
  end.
  simpl in Hs. intros [= <- <- _ _]. simpl. repeat split; apply Hs.
Qed.

Lemma MVL_seek_local w finfo offset w' finfo' r :
  MVL_seek w finfo offset = (w', finfo', r) ->
  same_but (mvl_handle finfo) w w' /\
  mvl_handle finfo' = mvl_handle finfo /\ mvl_entry finfo' = mvl_entry finfo.
Proof.
  unfold MVL_seek. cbv zeta.
  destruct (u64 offset <? 0);
    [intros [= <- <- _]; split; [apply same_but_refl | split; reflexivity] |].
  destruct (u64 offset >=? mvl_size (mvl_entry finfo));
    [intros [= <- <- _]; split; [apply same_but_refl | split; reflexivity] |].
  match goal with
  | |- context [__PHYSFS_platformSeek w ?fd ?p] =>
      pose proof (platformSeek_same_but w fd p) as Hs;
      destruct (__PHYSFS_platformSeek w fd p) as [w1 [|]]
  end; simpl in Hs; intros [= <- <- _]; simpl;
    (split; [exact Hs | split; reflexivity]).
Qed.

Lemma MVL_fileClose_local w finfo w' r :
  MVL_fileClose w finfo = (w', r) -> same_but (mvl_handle finfo) w w'.
Proof.
  unfold MVL_fileClose.
  pose proof (platformClose_same_but w (mvl_handle finfo)) as Hs.
  destruct (__PHYSFS_platformClose w (mvl_handle finfo)) as [w1 [|]];
    simpl in Hs; intros [= <- _]; exact Hs.
Qed.

(** One call keeps a handle on its bytes. *)
Lemma mvl_apply_on data op w finfo :
  mvl_handle_ok finfo -> mvl_handle_on w finfo data -> op_sane op ->
  mvl_handle_ok (snd (mvl_apply (w, finfo) op)) /\
  mvl_handle_on (fst (mvl_apply (w, finfo) op))
                (snd (mvl_apply (w, finfo) op)) data /\
  mvl_entry (snd (mvl_apply (w, finfo) op)) = mvl_entry finfo /\
  mvl_handle (snd (mvl_apply (w, finfo) op)) = mvl_handle finfo /\
  same_but (mvl_handle finfo) w (fst (mvl_apply (w, finfo) op)).
Proof.
  intros Hok Hon Hsane. destruct op as [objSize objCount | offset]; simpl.
  - destruct Hsane as [Hs Hc].
    destruct (MVL_read_objs_on w finfo data objSize objCount Hok Hon Hs Hc)
      as (w' & Hr & Hok' & Hon' & Hsb).
    rewrite Hr. simpl.
      split; [exact Hok' |]. split; [exact Hon' |]. split; [reflexivity |].
      split; [reflexivity | exact Hsb].
  - pose proof (u64_range offset) as [Hpos _].
    rewrite <- (MVL_seek_wrapped w finfo offset).
    destruct (Z_lt_le_dec (u64 offset) (mvl_size (mvl_entry finfo)))
      as [Hin | Hout].
    + destruct (MVL_seek_on w finfo data (u64 offset) Hok Hon (conj Hpos Hin))
        as (w' & Hr & Hok' & Hon' & Hsb).
      rewrite Hr. simpl.
      split; [exact Hok' |]. split; [exact Hon' |]. split; [reflexivity |].
      split; [reflexivity | exact Hsb].
    + rewrite MVL_seek_past_eof by (rewrite u64_u64; exact Hout). simpl.
      split; [exact Hok |]. split; [exact Hon |]. split; [reflexivity |].
      split; [reflexivity | apply same_but_refl].
Qed.

Lemma mvl_run_on data ops : forall w finfo,
  mvl_handle_ok finfo -> mvl_handle_on w finfo data -> Forall op_sane ops ->
  mvl_handle_ok (snd (fold_left mvl_apply ops (w, finfo))) /\
  mvl_handle_on (fst (fold_left mvl_apply ops (w, finfo)))
                (snd (fold_left mvl_apply ops (w, finfo))) data /\
  mvl_entry (snd (fold_left mvl_apply ops (w, finfo))) = mvl_entry finfo /\
  mvl_handle (snd (fold_left mvl_apply ops (w, finfo))) = mvl_handle finfo /\
  same_but (mvl_handle finfo) w (fst (fold_left mvl_apply ops (w, finfo))).
Proof.
  induction ops as [| op ops IH]; intros w finfo Hok Hon Hsane.
  - simpl. split; [exact Hok |]. split; [exact Hon |]. split; [reflexivity |].
    split; [reflexivity | apply same_but_refl].
  - apply Forall_cons in Hsane. destruct Hsane as [Hop Hrest].
    destruct (mvl_apply_on data op w finfo Hok Hon Hop)
      as (Hok1 & Hon1 & He1 & Hh1 & Hs1).
    simpl fold_left.
    destruct (mvl_apply (w, finfo) op) as [w1 f1] eqn:Hstep.
    simpl in Hok1, Hon1, He1, Hh1, Hs1.
    destruct (IH w1 f1 Hok1 Hon1 Hrest) as (Hok2 & Hon2 & He2 & Hh2 & Hs2).
    split; [exact Hok2 |]. split; [exact Hon2 |].
    split; [congruence |]. split; [congruence |].
    rewrite Hh1 in Hs2. exact (same_but_trans _ _ _ _ Hs1 Hs2).
Qed.

(** X5. A call on a handle touches nothing but the handle's own
    descriptor: [read], [seek] and [fileClose] of either format leave the
    files, the descriptor counter and every other open descriptor as they
    were, and [read] and [seek] never change which descriptor and which
    entry the handle stands for. *)
Theorem handle_operations_are_local :
  (forall w finfo objSize objCount w' finfo' rc buf,
      GRP_read w finfo objSize objCount = (w', finfo', rc, buf) ->
      same_but (grp_handle finfo) w w' /\
      grp_handle finfo' = grp_handle finfo /\
      grp_entry finfo' = grp_entry finfo) /\
  (forall w finfo offset w' finfo' r,
      GRP_seek w finfo offset = (w', finfo', r) ->
      same_but (grp_handle finfo) w w' /\
      grp_handle finfo' = grp_handle finfo /\
      grp_entry finfo' = grp_entry finfo) /\
  (forall w finfo w' r,
      GRP_fileClose w finfo = (w', r) -> same_but (grp_handle finfo) w w') /\
  (forall w finfo objSize objCount w' finfo' rc buf,
      MVL_read w finfo objSize objCount = (w', finfo', rc, buf) ->
      same_but (mvl_handle finfo) w w' /\
      mvl_handle finfo' = mvl_handle finfo /\
      mvl_entry finfo' = mvl_entry finfo) /\
  (forall w finfo offset w' finfo' r,
      MVL_seek w finfo offset = (w', finfo', r) ->
      same_but (mvl_handle finfo) w w' /\
      mvl_handle finfo' = mvl_handle finfo /\
      mvl_entry finfo' = mvl_entry finfo) /\
  (forall w finfo w' r,
      MVL_fileClose w finfo = (w', r) -> same_but (mvl_handle finfo) w w').
Proof.
  split; [exact GRP_read_local |]. split; [exact GRP_seek_local |].
  split; [exact GRP_fileClose_local |]. split; [exact MVL_read_local |].
  split; [exact MVL_seek_local |]. exact MVL_fileClose_local.
Qed.

(** X6. The cursor of a handle and the position of its descriptor stay
    in step: on a handle whose descriptor stands at [startPos + cursor]
    of a file that holds the whole entry, after any run of [read] and
    [seek] calls, failed ones included, the cursor is inside
    [0 .. size], the descriptor again stands at [startPos + cursor] of
    the same bytes, and the handle still names the same entry and the
    same descriptor. *)
Theorem cursor_tracks_descriptor :
  forall (data : list byte) (ops : list handle_op),
    Forall op_sane ops ->
    (forall w finfo,
        grp_handle_ok finfo -> grp_handle_on w finfo data ->
        grp_handle_ok (snd (fold_left grp_apply ops (w, finfo))) /\
        grp_handle_on (fst (fold_left grp_apply ops (w, finfo)))
                      (snd (fold_left grp_apply ops (w, finfo))) data /\
        grp_entry (snd (fold_left grp_apply ops (w, finfo)))
        = grp_entry finfo /\
        grp_handle (snd (fold_left grp_apply ops (w, finfo)))
        = grp_handle finfo) /\
    (forall w finfo,
        mvl_handle_ok finfo -> mvl_handle_on w finfo data ->
        mvl_handle_ok (snd (fold_left mvl_apply ops (w, finfo))) /\
        mvl_handle_on (fst (fold_left mvl_apply ops (w, finfo)))
                      (snd (fold_left mvl_apply ops (w, finfo))) data /\
        mvl_entry (snd (fold_left mvl_apply ops (w, finfo)))
        = mvl_entry finfo /\
        mvl_handle (snd (fold_left mvl_apply ops (w, finfo)))
        = mvl_handle finfo).
Proof.
  intros data ops Hsane. split; intros w finfo Hok Hon.
  - destruct (grp_run_on data ops w finfo Hok Hon Hsane)
      as (H1 & H2 & H3 & H4 & _).
    split; [exact H1 |]. split; [exact H2 |]. split; assumption.
  - destruct (mvl_run_on data ops w finfo Hok Hon Hsane)
      as (H1 & H2 & H3 & H4 & _).
    split; [exact H1 |]. split; [exact H2 |]. split; assumption.
Qed.

(** ** Opening, reading and closing an entry *)

Lemma world_eq_but fd w wa wb :
  same_but fd w wa -> same_but fd w wb ->
  w_open wa !! fd = w_open wb !! fd -> wa = wb.
Proof.
  intros (Fa & Na & Oa) (Fb & Nb & Ob) Hfd.
  destruct wa as [fa oa na], wb as [fb ob nb]. simpl in *.
  f_equal; [congruence | | congruence].
  apply map_eq. intros i. destruct (decide (i = fd)) as [-> | Hne].
  - exact Hfd.
  - rewrite Oa, Ob by exact Hne. reflexivity.
Qed.

Lemma slice_app data p n1 n2 :
  0 <= p -> 0 <= n1 -> 0 <= n2 ->
  slice data p n1 ++ slice data (p + n1) n2 = slice data p (n1 + n2).
Proof.
  intros Hp H1 H2. unfold slice.
  rewrite (Z2Nat.inj_add p n1), (Z2Nat.inj_add n1 n2) by lia.
  rewrite <- drop_drop. apply take_take_drop.
Qed.

Lemma GRP_open_close w info name w1 ex finfo :
  GRP_openRead w info name = Some (w1, ex, Ok finfo) ->
  grp_handle finfo = w_next w /\
  w_open w1 !! w_next w <> None /\
  GRP_fileClose w1 finfo = (opened_closed w, Ok tt).
Proof.
  intros Ho. destruct (GRP_openRead_on _ _ _ _ _ _ Ho)
    as (f & _ & -> & Hh & _).
  split; [exact Hh |]. split.
  - unfold opened_at. simpl. rewrite lookup_insert_eq. discriminate.
  - unfold GRP_fileClose. rewrite Hh, platformClose_opened. reflexivity.
Qed.

Lemma GRP_reads_concatenate data n1 n2 w finfo :
  0 <= n1 -> 0 <= n2 ->
  grp_handle_ok finfo -> grp_handle_on w finfo data ->
  exists w1 f1 r1 b1 w2 f2 r2 b2,
    GRP_read w finfo 1 n1 = (w1, f1, r1, b1) /\
    GRP_read w1 f1 1 n2 = (w2, f2, r2, b2) /\
    GRP_read w finfo 1 (n1 + n2) = (w2, f2, r1 + r2, b1 ++ b2).
Proof.
  intros H1 H2 Hok Hon.
  destruct (GRP_read_on w finfo data n1 Hok Hon H1)
    as (w1 & Hr1 & Hok1 & Hon1 & Hs1).
  destruct (GRP_read_on w1 _ data n2 Hok1 Hon1 H2)
    as (w2 & Hr2 & Hok2 & Hon2 & Hs2).
  destruct (GRP_read_on w finfo data (n1 + n2) Hok Hon)
    as (w3 & Hr3 & Hok3 & Hon3 & Hs3); [lia |].
  cbv zeta in *. simpl in Hr2, Hon2, Hs2.
  destruct Hok as (Hsz & Hst & Hcur). unfold is_u32 in *.
  set (c := grp_curPos finfo) in *. set (sz := grp_size (grp_entry finfo)) in *.
  assert (Hm : Z.min n1 (sz - c) + Z.min n2 (sz - (c + Z.min n1 (sz - c)))
               = Z.min (n1 + n2) (sz - c)) by lia.
  assert (Hw : w3 = w2).
  { apply (world_eq_but (grp_handle finfo) w).
    - exact Hs3.
    - exact (same_but_trans _ _ _ _ Hs1 Hs2).
    - destruct Hon3 as [E3 _]. destruct Hon2 as [E2 _]. simpl in E2, E3.
      rewrite E3, E2. do 2 f_equal. lia. }
  subst w3.
  do 8 eexists. split; [exact Hr1 |]. split; [exact Hr2 |].
  rewrite Hr3. rewrite <- Hm.
  rewrite <- slice_app by lia.
  rewrite !Z.add_assoc. reflexivity.
Qed.

Lemma GRP_seek_then_read data off n w finfo :
  0 <= n -> grp_handle_ok finfo -> grp_handle_on w finfo data ->
  0 <= off < grp_size (grp_entry finfo) ->
  let m := Z.min n (grp_size (grp_entry finfo) - off) in
  exists w1 w2,
    GRP_seek w finfo off = (w1, grp_at finfo off, Ok tt) /\
    GRP_tell (grp_at finfo off) = off /\
    GRP_eof (grp_at finfo off) = false /\
    GRP_read w1 (grp_at finfo off) 1 n
    = (w2, grp_at finfo (off + m), m,
       slice data (grp_startPos (grp_entry finfo) + off) m).
Proof.
  intros Hn Hok Hon Hoff m.
  destruct (GRP_seek_on w finfo data off Hok Hon Hoff)
    as (w1 & Hs & Hok1 & Hon1 & _).
  destruct (GRP_read_on w1 _ data n Hok1 Hon1 Hn) as (w2 & Hr & _).
  exists w1, w2. split; [exact Hs |]. split; [reflexivity |]. split.
  - unfold GRP_eof. simpl. destruct (Z.geb_spec off (grp_size (grp_entry finfo)));
      [lia | reflexivity].
  - exact Hr.
Qed.

Lemma GRP_open_read_payload w0 path w0' info w name w1 ex finfo f :
  GRP_openArchive w0 path false = (w0', Ok info) ->
  GRP_openRead w info name = Some (w1, ex, Ok finfo) ->
  w_files w !! path = Some f ->
  grp_startPos (grp_entry finfo) + grp_size (grp_entry finfo)
  <= Z.of_nat (length (f_data f)) ->
  exists w2,
    GRP_read w1 finfo 1 (GRP_fileLength finfo)
    = (w2, grp_at finfo (GRP_fileLength finfo), GRP_fileLength finfo,
       slice (f_data f) (grp_startPos (grp_entry finfo))
             (grp_size (grp_entry finfo))) /\
    GRP_eof (grp_at finfo (GRP_fileLength finfo)) = true /\
    GRP_tell (grp_at finfo (GRP_fileLength finfo)) = GRP_fileLength finfo.
Proof.
  intros Hload Ho Hf Hfit.
  destruct (GRP_openRead_handle _ _ _ _ _ _ _ _ _ _ Hload Ho)
    as (Hok & _ & rh & file & Hfile & Hdata & Hfd & Hpos).
  rewrite Hf in Hfile. injection Hfile as <-.
  assert (Hon : grp_handle_on w1 finfo (f_data f)).
  { split; [| exact Hfit]. rewrite Hfd. destruct rh as [d p]. simpl in *.
    congruence. }
  destruct (GRP_openRead_on _ _ _ _ _ _ Ho) as (_ & _ & _ & _ & Hc & _).
  pose proof Hok as (Hsz & Hst & Hcur). unfold is_u32 in *.
  destruct (GRP_read_on w1 finfo (f_data f) (GRP_fileLength finfo) Hok Hon)
    as (w2 & Hr & _); [unfold GRP_fileLength; lia |].
  cbv zeta in Hr. unfold GRP_fileLength in *. rewrite Hc in Hr.
  rewrite Z.sub_0_r, Z.min_id, Z.add_0_l, Z.add_0_r in Hr.
  exists w2. split; [exact Hr |]. split; [| reflexivity].
  unfold GRP_eof. simpl.
  destruct (Z.geb_spec (grp_size (grp_entry finfo)) (grp_size (grp_entry finfo)));
    [reflexivity | lia].
Qed.

Lemma GRP_openRead_seek_fails w info name e w1 h w2 :
  grp_find_entry info name = Some (Ok e) ->
  __PHYSFS_platformOpenRead w (grp_filename info) = (w1, Some h) ->
  __PHYSFS_platformSeek w1 h (grp_startPos e) = (w2, false) ->
  GRP_openRead w info name = Some (w2, true, Fail ERR_PLATFORM) /\
  w2 = w1 /\ h = w_next w /\ exists rh, w_open w2 !! h = Some rh.
Proof.
  intros Hfind Hopen Hseek.
  split; [unfold GRP_openRead; rewrite Hfind, Hopen, Hseek; reflexivity |].
  assert (Hw : w2 = w1).
  { unfold __PHYSFS_platformSeek in Hseek.
    destruct (w_open w1 !! h) as [rh |]; [| congruence].
    destruct ((0 <=? grp_startPos e)
              && (grp_startPos e <=? Z.of_nat (length (rh_data rh))));
      [discriminate | congruence]. }
  split; [exact Hw |]. subst w2.
  unfold __PHYSFS_platformOpenRead in Hopen.
  destruct (w_files w !! grp_filename info) as [f |]; [| discriminate].
  injection Hopen as <- <-. split; [reflexivity |].
  eexists. simpl. apply lookup_insert_eq.
Qed.

Lemma MVL_open_close w info name w1 ex finfo :
  MVL_openRead w info name = Some (w1, ex, Ok finfo) ->
  mvl_handle finfo = w_next w /\
  w_open w1 !! w_next w <> None /\
  MVL_fileClose w1 finfo = (opened_closed w, Ok tt).
Proof.
  intros Ho. destruct (MVL_openRead_on _ _ _ _ _ _ Ho)
    as (f & _ & -> & Hh & _).
  split; [exact Hh |]. split.
  - unfold opened_at. simpl. rewrite lookup_insert_eq. discriminate.
  - unfold MVL_fileClose. rewrite Hh, platformClose_opened. reflexivity.
Qed.

Lemma MVL_reads_concatenate data n1 n2 w finfo :
  0 <= n1 -> 0 <= n2 ->
  mvl_handle_ok finfo -> mvl_handle_on w finfo data ->
  exists w1 f1 r1 b1 w2 f2 r2 b2,
    MVL_read w finfo 1 n1 = (w1, f1, r1, b1) /\
    MVL_read w1 f1 1 n2 = (w2, f2, r2, b2) /\
    MVL_read w finfo 1 (n1 + n2) = (w2, f2, r1 + r2, b1 ++ b2).
Proof.
  intros H1 H2 Hok Hon.
  destruct (MVL_read_on w finfo data n1 Hok Hon H1)
    as (w1 & Hr1 & Hok1 & Hon1 & Hs1).
  destruct (MVL_read_on w1 _ data n2 Hok1 Hon1 H2)
    as (w2 & Hr2 & Hok2 & Hon2 & Hs2).
  destruct (MVL_read_on w finfo data (n1 + n2) Hok Hon)
    as (w3 & Hr3 & Hok3 & Hon3 & Hs3); [lia |].
  cbv zeta in *. simpl in Hr2, Hon2, Hs2.
  destruct Hok as (Hsz & Hst & Hcur). unfold is_u32 in *.
  set (c := mvl_curPos finfo) in *. set (sz := mvl_size (mvl_entry finfo)) in *.
  assert (Hm : Z.min n1 (sz - c) + Z.min n2 (sz - (c + Z.min n1 (sz - c)))
               = Z.min (n1 + n2) (sz - c)) by lia.
  assert (Hw : w3 = w2).
  { apply (world_eq_but (mvl_handle finfo) w).
    - exact Hs3.
    - exact (same_but_trans _ _ _ _ Hs1 Hs2).
    - destruct Hon3 as [E3 _]. destruct Hon2 as [E2 _]. simpl in E2, E3.
      rewrite E3, E2. do 2 f_equal. lia. }
  subst w3.
  do 8 eexists. split; [exact Hr1 |]. split; [exact Hr2 |].
  rewrite Hr3. rewrite <- Hm.
  rewrite <- slice_app by lia.
  rewrite !Z.add_assoc. reflexivity.
Qed.

Lemma MVL_seek_then_read data off n w finfo :
  0 <= n -> mvl_handle_ok finfo -> mvl_handle_on w finfo data ->
  0 <= off < mvl_size (mvl_entry finfo) ->
  let m := Z.min n (mvl_size (mvl_entry finfo) - off) in
  exists w1 w2,
    MVL_seek w finfo off = (w1, mvl_at finfo off, Ok tt) /\
    MVL_tell (mvl_at finfo off) = off /\
    MVL_eof (mvl_at finfo off) = false /\
    MVL_read w1 (mvl_at finfo off) 1 n
    = (w2, mvl_at finfo (off + m), m,
       slice data (mvl_startPos (mvl_entry finfo) + off) m).
Proof.
  intros Hn Hok Hon Hoff m.
  destruct (MVL_seek_on w finfo data off Hok Hon Hoff)
    as (w1 & Hs & Hok1 & Hon1 & _).
  destruct (MVL_read_on w1 _ data n Hok1 Hon1 Hn) as (w2 & Hr & _).
  exists w1, w2. split; [exact Hs |]. split; [reflexivity |]. split.
  - unfold MVL_eof. simpl. destruct (Z.geb_spec off (mvl_size (mvl_entry finfo)));
      [lia | reflexivity].
  - exact Hr.
Qed.

Lemma MVL_open_read_payload w0 path w0' info w name w1 ex finfo f :
  MVL_openArchive w0 path false = (w0', Ok info) ->
  MVL_openRead w info name = Some (w1, ex, Ok finfo) ->
  w_files w !! path = Some f ->
  mvl_startPos (mvl_entry finfo) + mvl_size (mvl_entry finfo)
  <= Z.of_nat (length (f_data f)) ->
  exists w2,
    MVL_read w1 finfo 1 (MVL_fileLength finfo)
    = (w2, mvl_at finfo (MVL_fileLength finfo), MVL_fileLength finfo,
       slice (f_data f) (mvl_startPos (mvl_entry finfo))
             (mvl_size (mvl_entry finfo))) /\
    MVL_eof (mvl_at finfo (MVL_fileLength finfo)) = true /\
    MVL_tell (mvl_at finfo (MVL_fileLength finfo)) = MVL_fileLength finfo.
Proof.
  intros Hload Ho Hf Hfit.
  destruct (MVL_openRead_handle _ _ _ _ _ _ _ _ _ _ Hload Ho)
    as (Hok & _ & rh & file & Hfile & Hdata & Hfd & Hpos).
  rewrite Hf in Hfile. injection Hfile as <-.
  assert (Hon : mvl_handle_on w1 finfo (f_data f)).
  { split; [| exact Hfit]. rewrite Hfd. destruct rh as [d p]. simpl in *.
    congruence. }
  destruct (MVL_openRead_on _ _ _ _ _ _ Ho) as (_ & _ & _ & _ & Hc & _).
  pose proof Hok as (Hsz & Hst & Hcur). unfold is_u32 in *.
  destruct (MVL_read_on w1 finfo (f_data f) (MVL_fileLength finfo) Hok Hon)
    as (w2 & Hr & _); [unfold MVL_fileLength; lia |].
  cbv zeta in Hr. unfold MVL_fileLength in *. rewrite Hc in Hr.
  rewrite Z.sub_0_r, Z.min_id, Z.add_0_l, Z.add_0_r in Hr.
  exists w2. split; [exact Hr |]. split; [| reflexivity].
  unfold MVL_eof. simpl.
  destruct (Z.geb_spec (mvl_size (mvl_entry finfo)) (mvl_size (mvl_entry finfo)));
    [reflexivity | lia].
Qed.

Lemma MVL_openRead_seek_fails w info name e w1 h w2 :
  mvl_find_entry info name = Some (Ok e) ->
  __PHYSFS_platformOpenRead w (mvl_filename info) = (w1, Some h) ->
  __PHYSFS_platformSeek w1 h (mvl_startPos e) = (w2, false) ->
  MVL_openRead w info name = Some (w2, true, Fail ERR_PLATFORM) /\
  w2 = w1 /\ h = w_next w /\ exists rh, w_open w2 !! h = Some rh.
Proof.
  intros Hfind Hopen Hseek.
  split; [unfold MVL_openRead; rewrite Hfind, Hopen, Hseek; reflexivity |].
  assert (Hw : w2 = w1).
  { unfold __PHYSFS_platformSeek in Hseek.
    destruct (w_open w1 !! h) as [rh |]; [| congruence].
    destruct ((0 <=? mvl_startPos e)
              && (mvl_startPos e <=? Z.of_nat (length (rh_data rh))));
      [discriminate | congruence]. }
  split; [exact Hw |]. subst w2.
  unfold __PHYSFS_platformOpenRead in Hopen.
  destruct (w_files w !! mvl_filename info) as [f |]; [| discriminate].
  injection Hopen as <- <-. split; [reflexivity |].
  eexists. simpl. apply lookup_insert_eq.
Qed.

(** X7. Opening an entry and closing the handle gives the descriptor
    back: the handle [openRead] returns holds the descriptor the platform
    just opened, that descriptor is open, and [fileClose] on it succeeds
    and leaves the platform with no descriptor of the handle, the files
    untouched. *)
Theorem open_close_round_trip :
  (forall w info name w1 ex finfo,
      GRP_openRead w info name = Some (w1, ex, Ok finfo) ->
      grp_handle finfo = w_next w /\
      w_open w1 !! w_next w <> None /\
      GRP_fileClose w1 finfo = (opened_closed w, Ok tt) /\
      w_open (opened_closed w) !! grp_handle finfo = None /\
      w_files (opened_closed w) = w_files w) /\
  (forall w info name w1 ex finfo,
      MVL_openRead w info name = Some (w1, ex, Ok finfo) ->
      mvl_handle finfo = w_next w /\
      w_open w1 !! w_next w <> None /\
      MVL_fileClose w1 finfo = (opened_closed w, Ok tt) /\
      w_open (opened_closed w) !! mvl_handle finfo = None /\
      w_files (opened_closed w) = w_files w).
Proof.
  split; intros w info name w1 ex finfo Ho.
  - destruct (GRP_open_close _ _ _ _ _ _ Ho) as (Hh & Hopen & Hclose).
    split; [exact Hh |]. split; [exact Hopen |]. split; [exact Hclose |].
    split; [rewrite Hh; apply opened_closed_closed | reflexivity].
  - destruct (MVL_open_close _ _ _ _ _ _ Ho) as (Hh & Hopen & Hclose).
    split; [exact Hh |]. split; [exact Hopen |]. split; [exact Hclose |].
    split; [rewrite Hh; apply opened_closed_closed | reflexivity].
Qed.

(** X8. Reads of bytes compose: on a handle whose file holds the entry,
    reading [n1] bytes and then [n2] bytes gives the same platform state,
    the same handle, the same total count and the same bytes as one read
    of [n1 + n2] bytes. *)
Theorem reads_concatenate :
  forall (data : list byte) (n1 n2 : Z),
    0 <= n1 -> 0 <= n2 ->
    (forall w finfo,
        grp_handle_ok finfo -> grp_handle_on w finfo data ->
        exists w1 f1 r1 b1 w2 f2 r2 b2,
          GRP_read w finfo 1 n1 = (w1, f1, r1, b1) /\
          GRP_read w1 f1 1 n2 = (w2, f2, r2, b2) /\
          GRP_read w finfo 1 (n1 + n2) = (w2, f2, r1 + r2, b1 ++ b2)) /\
    (forall w finfo,
        mvl_handle_ok finfo -> mvl_handle_on w finfo data ->
        exists w1 f1 r1 b1 w2 f2 r2 b2,
          MVL_read w finfo 1 n1 = (w1, f1, r1, b1) /\
          MVL_read w1 f1 1 n2 = (w2, f2, r2, b2) /\
          MVL_read w finfo 1 (n1 + n2) = (w2, f2, r1 + r2, b1 ++ b2)).
Proof.
  intros data n1 n2 H1 H2. split; intros w finfo Hok Hon.
  - exact (GRP_reads_concatenate data n1 n2 w finfo H1 H2 Hok Hon).
  - exact (MVL_reads_concatenate data n1 n2 w finfo H1 H2 Hok Hon).
Qed.

(** X9. An entry opened on a loaded container reads back its payload:
    when the file still holds the bytes of the entry, [openRead] followed
    by a read of [fileLength] bytes returns exactly the [size] bytes of
    the file that start at [startPos], and afterwards [eof] is true and
    [tell] equals [fileLength]. *)
Theorem open_read_returns_payload :
  (forall w0 path w0' info w name w1 ex finfo f,
      GRP_openArchive w0 path false = (w0', Ok info) ->
      GRP_openRead w info name = Some (w1, ex, Ok finfo) ->
      w_files w !! path = Some f ->
      grp_startPos (grp_entry finfo) + grp_size (grp_entry finfo)
      <= Z.of_nat (length (f_data f)) ->
      exists w2,
        GRP_read w1 finfo 1 (GRP_fileLength finfo)
        = (w2, grp_at finfo (GRP_fileLength finfo), GRP_fileLength finfo,
           slice (f_data f) (grp_startPos (grp_entry finfo))
                 (grp_size (grp_entry finfo))) /\
        GRP_eof (grp_at finfo (GRP_fileLength finfo)) = true /\
        GRP_tell (grp_at finfo (GRP_fileLength finfo))
        = GRP_fileLength finfo) /\
  (forall w0 path w0' info w name w1 ex finfo f,
      MVL_openArchive w0 path false = (w0', Ok info) ->
      MVL_openRead w info name = Some (w1, ex, Ok finfo) ->
      w_files w !! path = Some f ->
      mvl_startPos (mvl_entry finfo) + mvl_size (mvl_entry finfo)
      <= Z.of_nat (length (f_data f)) ->
      exists w2,
        MVL_read w1 finfo 1 (MVL_fileLength finfo)
        = (w2, mvl_at finfo (MVL_fileLength finfo), MVL_fileLength finfo,
           slice (f_data f) (mvl_startPos (mvl_entry finfo))
                 (mvl_size (mvl_entry finfo))) /\
        MVL_eof (mvl_at finfo (MVL_fileLength finfo)) = true /\
        MVL_tell (mvl_at finfo (MVL_fileLength finfo))
        = MVL_fileLength finfo).
Proof.
  split; intros w0 path w0' info w name w1 ex finfo f Hload Ho Hf Hfit.
  - exact (GRP_open_read_payload _ _ _ _ _ _ _ _ _ _ Hload Ho Hf Hfit).
  - exact (MVL_open_read_payload _ _ _ _ _ _ _ _ _ _ Hload Ho Hf Hfit).
Qed.

(** X10. Access is random: on a handle whose file holds the entry, a
    seek to an offset inside the entry succeeds whatever the cursor was;
    afterwards [tell] is the offset, [eof] is false, and a read of [n]
    bytes returns the [min(n, size - offset)] bytes of the file that
    start at [startPos + offset]. *)
Theorem seek_then_read :
  forall (data : list byte) (off n : Z),
    0 <= n ->
    (forall w finfo,
        grp_handle_ok finfo -> grp_handle_on w finfo data ->
        0 <= off < grp_size (grp_entry finfo) ->
        let m := Z.min n (grp_size (grp_entry finfo) - off) in
        exists w1 w2,
          GRP_seek w finfo off = (w1, grp_at finfo off, Ok tt) /\
          GRP_tell (grp_at finfo off) = off /\
          GRP_eof (grp_at finfo off) = false /\
          GRP_read w1 (grp_at finfo off) 1 n
          = (w2, grp_at finfo (off + m), m,
             slice data (grp_startPos (grp_entry finfo) + off) m)) /\
    (forall w finfo,
        mvl_handle_ok finfo -> mvl_handle_on w finfo data ->
        0 <= off < mvl_size (mvl_entry finfo) ->
        let m := Z.min n (mvl_size (mvl_entry finfo) - off) in
        exists w1 w2,
          MVL_seek w finfo off = (w1, mvl_at finfo off, Ok tt) /\
          MVL_tell (mvl_at finfo off) = off /\
          MVL_eof (mvl_at finfo off) = false /\
          MVL_read w1 (mvl_at finfo off) 1 n
          = (w2, mvl_at finfo (off + m), m,
             slice data (mvl_startPos (mvl_entry finfo) + off) m)).
Proof.
  intros data off n Hn. split; intros w finfo Hok Hon Hoff.
  - exact (GRP_seek_then_read data off n w finfo Hn Hok Hon Hoff).
  - exact (MVL_seek_then_read data off n w finfo Hn Hok Hon Hoff).
Qed.

(** X11. [openRead] does not close the descriptor it opened when the
    platform's seek to the entry fails: for an entry the lookup finds,
    when the platform opens the archive and then refuses the seek to the
    entry's [startPos], the call fails with the platform's error, reports
    the file as existing, and returns the platform as the failed seek
    left it, with the descriptor it opened still open. *)
Theorem failed_open_keeps_descriptor :
  (forall w info name e w1 h w2,
      grp_find_entry info name = Some (Ok e) ->
      __PHYSFS_platformOpenRead w (grp_filename info) = (w1, Some h) ->
      __PHYSFS_platformSeek w1 h (grp_startPos e) = (w2, false) ->
      GRP_openRead w info name = Some (w2, true, Fail ERR_PLATFORM) /\
      h = w_next w /\ exists rh, w_open w2 !! h = Some rh) /\
  (forall w info name e w1 h w2,
      mvl_find_entry info name = Some (Ok e) ->
      __PHYSFS_platformOpenRead w (mvl_filename info) = (w1, Some h) ->
      __PHYSFS_platformSeek w1 h (mvl_startPos e) = (w2, false) ->
      MVL_openRead w info name = Some (w2, true, Fail ERR_PLATFORM) /\
      h = w_next w /\ exists rh, w_open w2 !! h = Some rh).
Proof.
  split; intros w info name e w1 h w2 Hfind Hopen Hseek.
  - destruct (GRP_openRead_seek_fails _ _ _ _ _ _ _ Hfind Hopen Hseek)
      as (Ho & _ & Hh & Hrh).
    split; [exact Ho |]. split; [exact Hh | exact Hrh].
  - destruct (MVL_openRead_seek_fails _ _ _ _ _ _ _ Hfind Hopen Hseek)
      as (Ho & _ & Hh & Hrh).
    split; [exact Ho |]. split; [exact Hh | exact Hrh].
Qed.

(** ** The cost of a lookup *)

Section FindCost.
Context {E : Type}.
Variable name_of : E -> list byte.
Variable compare : list byte -> list byte -> Z.
Variable a : list E.
Hypothesis a_small : Z.of_nat (length a) < 2 ^ 31.

(** The only error of the loop is [ERR_NO_SUCH_FILE]. *)
Lemma find_entry_loop_fail name fuel : forall lo hi err t,
  find_entry_loop name_of compare fuel a name lo hi = (Some (Fail err), t) ->
  err = ERR_NO_SUCH_FILE.
Proof.
  induction fuel as [| fuel IH]; intros lo hi err t; simpl.
  - destruct (lo <=? hi); intros H; [discriminate | congruence].
  - destruct (lo <=? hi); [| intros H; congruence].
    set (middle := s32 (lo + s32 (hi - lo) `quot` 2)).
    destruct (if 0 <=? middle then a !! Z.to_nat middle else None)
      as [em |]; [| intros H; discriminate].
    destruct (compare name (name_of em) =? 0); [intros H; discriminate |].
    destruct (compare name (name_of em) >? 0).
    + destruct (find_entry_loop name_of compare fuel a name
                  (s32 (middle + 1)) hi) as [r t'] eqn:Hrec.
      intros H. injection H as -> _. apply (IH _ _ _ _ Hrec).
    + destruct (find_entry_loop name_of compare fuel a name
                  lo (s32 (middle - 1))) as [r t'] eqn:Hrec.
      intros H. injection H as -> _. apply (IH _ _ _ _ Hrec).
Qed.

(** A window of fewer than [2 ^ k] entries is settled with at most [k]
    reads of the array. *)
Lemma find_entry_loop_cost name fuel : forall lo hi (k : nat),
  0 <= lo -> hi < Z.of_nat (length a) -> hi + 1 - lo <= Z.of_nat fuel ->
  hi + 1 - lo < 2 ^ Z.of_nat k ->
  (length (snd (find_entry_loop name_of compare fuel a name lo hi)) <= k)%nat.
Proof.
  induction fuel as [| fuel IH]; intros lo hi k Hlo Hhi Hfuel Hk;
    cbn [find_entry_loop].
  - destruct (Z.leb_spec lo hi); [lia |]. simpl. lia.
  - destruct (Z.leb_spec lo hi) as [Hle | Hgt]; [| simpl; lia].
    destruct k as [| k]; [simpl in Hk; lia |].
    rewrite Nat2Z.inj_succ, Z.pow_succ_r in Hk by lia.
    assert (Hd1 : 2 * ((hi - lo) / 2) <= hi - lo)
      by (apply Z.mul_div_le; lia).
    assert (Hd2 : hi - lo < 2 * Z.succ ((hi - lo) / 2))
      by (apply Z.mul_succ_div_gt; lia).
    assert (Hmid : s32 (lo + s32 (hi - lo) `quot` 2) = lo + (hi - lo) / 2).
    { rewrite (s32_id (hi - lo)) by lia.
      rewrite Z.quot_div_nonneg by lia. apply s32_id. lia. }
    rewrite Hmid. set (m := lo + (hi - lo) / 2) in *.
    assert (Hm : lo <= m <= hi) by (unfold m; lia).
    destruct (Z.leb_spec 0 m); [| lia].
    destruct (a !! Z.to_nat m) as [em |]; [| simpl; lia].
    destruct (compare name (name_of em) =? 0); [simpl; lia |].
    destruct (compare name (name_of em) >? 0).
    + rewrite (s32_id (m + 1)) by lia.
      assert (Hrec := IH (m + 1) hi k).
      destruct (find_entry_loop name_of compare fuel a name (m + 1) hi)
        as [r t].
      simpl in *. apply le_n_S, Hrec; unfold m; lia.
    + rewrite (s32_id (m - 1)) by lia.
      assert (Hrec := IH lo (m - 1) k).
      destruct (find_entry_loop name_of compare fuel a name lo (m - 1))
        as [r t].
      simpl in *. apply le_n_S, Hrec; unfold m; lia.
Qed.
End FindCost.

Lemma cstr_idem s : cstr (cstr s) = cstr s.
Proof.
  induction s as [| c t IH]; [reflexivity |]. simpl.
  destruct (uchar c =? 0) eqn:Hc; [reflexivity |]. simpl.
  rewrite Hc, IH. reflexivity.
Qed.

Lemma grp_find_entry_fail info name err :
  grp_find_entry info name = Some (Fail err) -> err = ERR_NO_SUCH_FILE.
Proof.
  unfold grp_find_entry. rewrite grp_find_entry_traced_unfold.
  destruct (ruled_out name); [simpl; congruence |]. cbv zeta.
  destruct (find_entry_loop _ _ _ _ _ _ _) as [r t] eqn:Hrun. simpl.
  intros ->. exact (find_entry_loop_fail _ _ _ _ _ _ _ _ _ Hrun).
Qed.

Lemma grp_find_entry_cost info name (k : nat) :
  grp_entryCount info = Z.of_nat (length (grp_entries info)) ->
  grp_entryCount info < 2 ^ Z.of_nat k -> (k <= 31)%nat ->
  (length (snd (grp_find_entry_traced info name)) <= k)%nat /\
  Forall (fun i => 0 <= i < grp_entryCount info)
         (snd (grp_find_entry_traced info name)).
Proof.
  intros Hc Hk Hk31.
  assert (Hsmall : grp_entryCount info < 2 ^ 31).
  { eapply Z.lt_le_trans; [exact Hk |].
    apply Z.pow_le_mono_r; lia. }
  rewrite grp_find_entry_traced_unfold.
  destruct (ruled_out name); [simpl; split; [lia | constructor] |]. cbv zeta.
  rewrite Hc in Hsmall, Hk |- *. rewrite s32_pred_u32 by lia.
  split.
  - apply find_entry_loop_cost; [exact Hsmall | lia | lia | lia | lia].
  - destruct (find_entry_loop_total grp_name strcmp (grp_entries info) name
                Hsmall
                (Z.to_nat (Z.of_nat (length (grp_entries info)) - 1 + 1 - 0))
                0 (Z.of_nat (length (grp_entries info)) - 1))
      as (r & t & Hrun & Ht & _); [lia | lia | lia |].
    rewrite Hrun. simpl. eapply Forall_impl; [exact Ht |].
    simpl. intros; lia.
Qed.

Lemma grp_enumerate_loop_spec a n : forall i retval,
  (i + n <= length a)%nat ->
  grp_enumerate_loop a i n retval
  = Some (retval ++ map (fun e => cstr (grp_name e)) (take n (drop i a))).
Proof.
  induction n as [| n IH]; intros i retval Hlen.
  - simpl. rewrite app_nil_r. reflexivity.
  - cbn [grp_enumerate_loop].
    destruct (a !! i) as [e |] eqn:He.
    2:{ apply lookup_ge_None in He. lia. }
    rewrite IH by lia. unfold __PHYSFS_addToLinkedStringList.
    rewrite (drop_S _ _ _ He). simpl. rewrite <- app_assoc. reflexivity.
Qed.

Lemma GRP_enumerateFiles_root info dirname omitSymLinks :
  grp_entryCount info = Z.of_nat (length (grp_entries info)) ->
  uchar (hd x00 dirname) = 0 ->
  GRP_enumerateFiles info dirname omitSymLinks
  = Some (Ok (map (fun e => cstr (grp_name e)) (grp_entries info))).
Proof.
  intros Hc Hd. unfold GRP_enumerateFiles. rewrite Hd. simpl.
  rewrite Hc, Nat2Z.id, grp_enumerate_loop_spec by lia.
  rewrite drop_0, firstn_all. reflexivity.
Qed.

Lemma GRP_enumerateFiles_subdir info dirname omitSymLinks :
  uchar (hd x00 dirname) <> 0 ->
  GRP_enumerateFiles info dirname omitSymLinks = Some (Fail ERR_NOT_A_DIR).
Proof.
  intros Hd. unfold GRP_enumerateFiles.
  destruct (Z.eqb_spec (uchar (hd x00 dirname)) 0); [contradiction |].
  reflexivity.
Qed.

Lemma GRP_queries_agree w info name :
  match GRP_exists info name with
  | None =>
      GRP_isDirectory info name = None /\ GRP_isSymLink info name = None /\
      GRP_getLastModTime info name = None /\ GRP_openRead w info name = None
  | Some b =>
      GRP_isDirectory info name = Some (false, b) /\
      GRP_isSymLink info name = Some (false, b) /\
      GRP_getLastModTime info name
      = Some (if b then grp_last_mod_time info else -1, b) /\
      exists w1 r,
        GRP_openRead w info name = Some (w1, b, r) /\
        (b = false -> w1 = w /\ r = Fail ERR_NO_SUCH_FILE)
  end.
Proof.
  unfold GRP_isDirectory, GRP_isSymLink, GRP_getLastModTime, GRP_openRead,
    GRP_exists.
  destruct (grp_find_entry info name) as [[e | err] |] eqn:Hf.
  - split; [reflexivity |]. split; [reflexivity |]. split; [reflexivity |].
    destruct (__PHYSFS_platformOpenRead w (grp_filename info)) as [w1 [h |]].
    + destruct (__PHYSFS_platformSeek w1 h (grp_startPos e)) as [w2 [|]];
        eexists _, _; (split; [reflexivity | discriminate]).
    + eexists _, _. split; [reflexivity | discriminate].
  - apply grp_find_entry_fail in Hf. subst err.
    split; [reflexivity |]. split; [reflexivity |]. split; [reflexivity |].
    eexists _, _. split; [reflexivity |]. intros _. split; reflexivity.
  - repeat split.
Qed.

Lemma mvl_find_entry_fail info name err :
  mvl_find_entry info name = Some (Fail err) -> err = ERR_NO_SUCH_FILE.
Proof.
  unfold mvl_find_entry. rewrite mvl_find_entry_traced_unfold.
  destruct (ruled_out name); [simpl; congruence |]. cbv zeta.
  destruct (find_entry_loop _ _ _ _ _ _ _) as [r t] eqn:Hrun. simpl.
  intros ->. exact (find_entry_loop_fail _ _ _ _ _ _ _ _ _ Hrun).
Qed.

Lemma mvl_find_entry_cost info name (k : nat) :
  mvl_entryCount info = Z.of_nat (length (mvl_entries info)) ->
  mvl_entryCount info < 2 ^ Z.of_nat k -> (k <= 31)%nat ->
  (length (snd (mvl_find_entry_traced info name)) <= k)%nat /\
  Forall (fun i => 0 <= i < mvl_entryCount info)
         (snd (mvl_find_entry_traced info name)).
Proof.
  intros Hc Hk Hk31.
  assert (Hsmall : mvl_entryCount info < 2 ^ 31).
  { eapply Z.lt_le_trans; [exact Hk |].
    apply Z.pow_le_mono_r; lia. }
  rewrite mvl_find_entry_traced_unfold.
  destruct (ruled_out name); [simpl; split; [lia | constructor] |]. cbv zeta.
  rewrite Hc in Hsmall, Hk |- *. rewrite s32_pred_u32 by lia.
  split.
  - apply find_entry_loop_cost; [exact Hsmall | lia | lia | lia | lia].
  - destruct (find_entry_loop_total mvl_name __PHYSFS_platformStricmp (mvl_entries info) name
                Hsmall
                (Z.to_nat (Z.of_nat (length (mvl_entries info)) - 1 + 1 - 0))
                0 (Z.of_nat (length (mvl_entries info)) - 1))
      as (r & t & Hrun & Ht & _); [lia | lia | lia |].
    rewrite Hrun. simpl. eapply Forall_impl; [exact Ht |].
    simpl. intros; lia.
Qed.

Lemma mvl_enumerate_loop_spec a n : forall i retval,
  (i + n <= length a)%nat ->
  Forall (fun e => terminated (mvl_name e) = true) a ->
  mvl_enumerate_loop a i n retval
  = Some (retval ++ map (fun e => cstr (mvl_name e)) (take n (drop i a))).
Proof.
  induction n as [| n IH]; intros i retval Hlen Hterm.
  - simpl. rewrite app_nil_r. reflexivity.
  - cbn [mvl_enumerate_loop].
    destruct (a !! i) as [e |] eqn:He.
    2:{ apply lookup_ge_None in He. lia. }
    assert (Ht : terminated (mvl_name e) = true).
    { rewrite Forall_forall in Hterm. apply Hterm.
      apply list_elem_of_lookup. eauto. }
    rewrite Ht.
    rewrite IH by (lia || exact Hterm).
    unfold __PHYSFS_addToLinkedStringList.
    rewrite (drop_S _ _ _ He). simpl. rewrite <- app_assoc. reflexivity.
Qed.

Lemma MVL_enumerateFiles_root info dirname omitSymLinks :
  mvl_entryCount info = Z.of_nat (length (mvl_entries info)) ->
  uchar (hd x00 dirname) = 0 ->
  Forall (fun e => terminated (mvl_name e) = true) (mvl_entries info) ->
  MVL_enumerateFiles info dirname omitSymLinks
  = Some (Ok (map (fun e => cstr (mvl_name e)) (mvl_entries info))).
Proof.
  intros Hc Hd Hterm. unfold MVL_enumerateFiles. rewrite Hd. simpl.
  rewrite Hc, Nat2Z.id, mvl_enumerate_loop_spec by (lia || exact Hterm).
  rewrite drop_0, firstn_all. reflexivity.
Qed.

Lemma MVL_enumerateFiles_subdir info dirname omitSymLinks :
  uchar (hd x00 dirname) <> 0 ->
  MVL_enumerateFiles info dirname omitSymLinks = Some (Fail ERR_NOT_A_DIR).
Proof.
  intros Hd. unfold MVL_enumerateFiles.
  destruct (Z.eqb_spec (uchar (hd x00 dirname)) 0); [contradiction |].
  reflexivity.
Qed.

Lemma MVL_queries_agree w info name :
  match MVL_exists info name with
  | None =>
      MVL_isDirectory info name = None /\ MVL_isSymLink info name = None /\
      MVL_getLastModTime info name = None /\ MVL_openRead w info name = None
  | Some b =>
      MVL_isDirectory info name = Some (false, b) /\
      MVL_isSymLink info name = Some (false, b) /\
      MVL_getLastModTime info name
      = Some (if b then mvl_last_mod_time info else -1, b) /\
      exists w1 r,
        MVL_openRead w info name = Some (w1, b, r) /\
        (b = false -> w1 = w /\ r = Fail ERR_NO_SUCH_FILE)
  end.
Proof.
  unfold MVL_isDirectory, MVL_isSymLink, MVL_getLastModTime, MVL_openRead,
    MVL_exists.
  destruct (mvl_find_entry info name) as [[e | err] |] eqn:Hf.
  - split; [reflexivity |]. split; [reflexivity |]. split; [reflexivity |].
    destruct (__PHYSFS_platformOpenRead w (mvl_filename info)) as [w1 [h |]].
    + destruct (__PHYSFS_platformSeek w1 h (mvl_startPos e)) as [w2 [|]];
        eexists _, _; (split; [reflexivity | discriminate]).
    + eexists _, _. split; [reflexivity | discriminate].
  - apply mvl_find_entry_fail in Hf. subst err.
    split; [reflexivity |]. split; [reflexivity |]. split; [reflexivity |].
    eexists _, _. split; [reflexivity |]. intros _. split; reflexivity.
  - repeat split.
Qed.

(** No name of a loaded GRP container is too long for the lookup. *)
Lemma loaded_names_bounded w path w' info e :
  GRP_openArchive w path false = (w', Ok info) ->
  e ∈ grp_entries info -> ~ too_long (grp_name e).
Proof.
  intros Ho He.
  destruct (GRP_openArchive_bytes _ _ _ _ Ho)
    as (f & Hf & [_ Hlen] & _ & _ & Hperm).
  rewrite Hperm in He. apply list_elem_of_lookup in He as [k Hk].
  pose proof (lookup_lt_Some _ _ _ Hk) as Hlt.
  rewrite grp_directory_length in Hlt.
  pose proof (grp_count_u32 (f_data f)) as [Hc _].
  destruct (grp_directory_lookup _ _ _ _ _ _ Hk) as [Hname _].
  set (buf := take 12 (drop (Z.to_nat (16 + 16 * Z.of_nat k)) (f_data f)))
    in *.
  assert (Hbuf : length buf = 12%nat).
  { unfold buf. rewrite length_take, length_drop. lia. }
  destruct (grp_normalize_spec buf) as (H1 & H2 & _).
  rewrite Hname. unfold too_long, strlen. lia.
Qed.

(** X12. The queries of a container agree with each other: for every
    name, [isDirectory] and [isSymLink] answer false and set
    [*fileExists] to what [exists] answers, [getLastModTime] sets the
    same flag and returns the archive's own time for an entry and -1
    otherwise, and [openRead] sets the same flag, leaving the platform
    untouched and failing with [ERR_NO_SUCH_FILE] when the flag is
    false. *)
Theorem queries_agree_on_existence :
  forall (w : world) (name : list byte),
    (forall info : GRPinfo,
        match GRP_exists info name with
        | None =>
            GRP_isDirectory info name = None /\
            GRP_isSymLink info name = None /\
            GRP_getLastModTime info name = None /\
            GRP_openRead w info name = None
        | Some b =>
            GRP_isDirectory info name = Some (false, b) /\
            GRP_isSymLink info name = Some (false, b) /\
            GRP_getLastModTime info name
            = Some (if b then grp_last_mod_time info else -1, b) /\
            exists w1 r,
              GRP_openRead w info name = Some (w1, b, r) /\
              (b = false -> w1 = w /\ r = Fail ERR_NO_SUCH_FILE)
        end) /\
    (forall info : MVLinfo,
        match MVL_exists info name with
        | None =>
            MVL_isDirectory info name = None /\
            MVL_isSymLink info name = None /\
            MVL_getLastModTime info name = None /\
            MVL_openRead w info name = None
        | Some b =>
            MVL_isDirectory info name = Some (false, b) /\
            MVL_isSymLink info name = Some (false, b) /\
            MVL_getLastModTime info name
            = Some (if b then mvl_last_mod_time info else -1, b) /\
            exists w1 r,
              MVL_openRead w info name = Some (w1, b, r) /\
              (b = false -> w1 = w /\ r = Fail ERR_NO_SUCH_FILE)
        end).
Proof.
  intros w name. split; intros info.
  - apply GRP_queries_agree.
  - apply MVL_queries_agree.
Qed.

(** X13. [enumerateFiles] knows the root directory only: a directory
    name that is not the empty string is refused with [ERR_NOT_A_DIR],
    and for the empty string the result lists the string of every name
    buffer of the container, one per entry, in the order of the table;
    for an MVL container this is said of name fields that each hold a
    NUL, [mvl_load_entries] storing the 13 bytes as they are. *)
Theorem enumerate_lists_every_entry :
  forall (dirname : list byte) (omitSymLinks : bool),
    (forall info : GRPinfo,
        (uchar (hd x00 dirname) <> 0 ->
         GRP_enumerateFiles info dirname omitSymLinks
         = Some (Fail ERR_NOT_A_DIR)) /\
        (uchar (hd x00 dirname) = 0 ->
         grp_entryCount info = Z.of_nat (length (grp_entries info)) ->
         GRP_enumerateFiles info dirname omitSymLinks
         = Some (Ok (map (fun e => cstr (grp_name e)) (grp_entries info))))) /\
    (forall info : MVLinfo,
        (uchar (hd x00 dirname) <> 0 ->
         MVL_enumerateFiles info dirname omitSymLinks
         = Some (Fail ERR_NOT_A_DIR)) /\
        (uchar (hd x00 dirname) = 0 ->
         mvl_entryCount info = Z.of_nat (length (mvl_entries info)) ->
         Forall (fun e => terminated (mvl_name e) = true)
                (mvl_entries info) ->
         MVL_enumerateFiles info dirname omitSymLinks
         = Some (Ok (map (fun e => cstr (mvl_name e)) (mvl_entries info))))).
Proof.
  intros dirname omitSymLinks. split; intros info; split.
  - apply GRP_enumerateFiles_subdir.
  - intros Hd Hc. apply GRP_enumerateFiles_root; assumption.
  - apply MVL_enumerateFiles_subdir.
  - intros Hd Hc Hterm. apply MVL_enumerateFiles_root; assumption.
Qed.

(** X14. What a loaded GRP container enumerates it also finds: with
    fewer than 2^31 entries, every enumerated name that has no [/] and
    no extension of more than three characters is reported by [exists],
    and the lookup returns an entry whose name is that string. *)
Theorem enumerated_names_are_found :
  forall w path w' info names n,
    GRP_openArchive w path false = (w', Ok info) ->
    grp_entryCount info < 2 ^ 31 ->
    GRP_enumerateFiles info [] false = Some (Ok names) ->
    n ∈ names -> ~ has_separator n -> ~ long_extension n ->
    GRP_exists info n = Some true /\
    exists e, grp_find_entry info n = Some (Ok e) /\
              e ∈ grp_entries info /\ cstr (grp_name e) = n.
Proof.
  intros w path w' info names n Ho Hsmall Hen Hn Hsep Hext.
  destruct (GRP_openArchive_inv _ _ _ _ _ Ho) as (_ & _ & _ & Hc & _).
  rewrite GRP_enumerateFiles_root in Hen by (exact Hc || reflexivity).
  injection Hen as <-.
  apply list_elem_of_fmap in Hn as (e & -> & He).
  pose proof (loaded_names_bounded _ _ _ _ _ Ho He) as Hlen.
  assert (Hr : ruled_out (cstr (grp_name e)) = false).
  { apply not_ruled_out; [| exact Hsep | exact Hext].
    unfold too_long, strlen in *. rewrite cstr_idem. exact Hlen. }
  destruct (grp_find_entry_sorted info (cstr (grp_name e)) Hc Hsmall
              (GRP_loaded_sorted _ _ _ _ _ Ho) Hr)
    as (r & t & Hrun & _ & Hres).
  destruct r as [e' | err].
  - destruct Hres as [He' Heq].
    apply strcmp_eq in Heq. rewrite cstr_idem in Heq.
    destruct (grp_hit _ _ _ _ Hrun) as (Hfind & Hex & _).
    split; [exact Hex |]. exists e'. split; [exact Hfind |].
    split; [exact He' | congruence].
  - destruct Hres as [_ Habs]. exfalso. apply (Habs e He).
    apply strcmp_eq. apply cstr_idem.
Qed.

(** X15. A lookup is logarithmic: on a container of fewer than [2^k]
    entries ([k <= 31]) the search reads at most [k] entries of the
    table, each at an index inside the table; a name ruled out by its
    shape, or an empty container, costs no read at all. *)
Theorem lookup_reads_logarithmically :
  forall (name : list byte) (k : nat),
    (k <= 31)%nat ->
    (forall info : GRPinfo,
        grp_entryCount info = Z.of_nat (length (grp_entries info)) ->
        grp_entryCount info < 2 ^ Z.of_nat k ->
        (length (snd (grp_find_entry_traced info name)) <= k)%nat /\
        Forall (fun i => 0 <= i < grp_entryCount info)
               (snd (grp_find_entry_traced info name)) /\
        (ruled_out name = true ->
         snd (grp_find_entry_traced info name) = [])) /\
    (forall info : MVLinfo,
        mvl_entryCount info = Z.of_nat (length (mvl_entries info)) ->
        mvl_entryCount info < 2 ^ Z.of_nat k ->
        (length (snd (mvl_find_entry_traced info name)) <= k)%nat /\
        Forall (fun i => 0 <= i < mvl_entryCount info)
               (snd (mvl_find_entry_traced info name)) /\
        (ruled_out name = true ->
         snd (mvl_find_entry_traced info name) = [])).
Proof.
  intros name k Hk. split; intros info Hc Hlt.
  - destruct (grp_find_entry_cost info name k Hc Hlt Hk) as [H1 H2].
    split; [exact H1 |]. split; [exact H2 |].
    intros Hr. rewrite grp_find_entry_traced_unfold, Hr. reflexivity.
  - destruct (mvl_find_entry_cost info name k Hc Hlt Hk) as [H1 H2].
    split; [exact H1 |]. split; [exact H2 |].
    intros Hr. rewrite mvl_find_entry_traced_unfold, Hr. reflexivity.
Qed.

(** ** The callbacks of the sort *)

Lemma swap_lookup {A} (a : list A) (one two : nat) (x y : A) (k : nat) :
  a !! one = Some x -> a !! two = Some y ->
  <[two := x]> (<[one := y]> a) !! k
  = if decide (k = two) then Some x
    else if decide (k = one) then Some y else a !! k.
Proof.
  intros H1 H2.
  pose proof (lookup_lt_Some _ _ _ H1). pose proof (lookup_lt_Some _ _ _ H2).
  destruct (decide (k = two)) as [-> | K2].
  - apply list_lookup_insert_eq. rewrite length_insert. lia.
  - rewrite list_lookup_insert_ne by congruence.
    destruct (decide (k = one)) as [-> | K1].
    + apply list_lookup_insert_eq. lia.
    + apply list_lookup_insert_ne. congruence.
Qed.

Lemma swap_involutive {A} (a : list A) (one two : nat) (x y : A) :
  a !! one = Some x -> a !! two = Some y ->
  <[two := y]> (<[one := x]> (<[two := x]> (<[one := y]> a))) = a.
Proof.
  intros H1 H2. apply list_eq. intros k.
  pose proof (lookup_lt_Some _ _ _ H1). pose proof (lookup_lt_Some _ _ _ H2).
  destruct (decide (k = two)) as [-> | K2].
  - rewrite list_lookup_insert_eq by (rewrite !length_insert; lia).
    congruence.
  - rewrite list_lookup_insert_ne by congruence.
    destruct (decide (k = one)) as [-> | K1].
    + rewrite list_lookup_insert_eq by (rewrite !length_insert; lia).
      congruence.
    + rewrite !list_lookup_insert_ne by congruence. reflexivity.
Qed.

Lemma grp_entry_swap_spec (a : list GRPentry) one two e1 e2 :
  a !! one = Some e1 -> a !! two = Some e2 ->
  grp_entry_swap a one two !! one = Some e2 /\
  grp_entry_swap a one two !! two = Some e1 /\
  (forall k, k <> one -> k <> two -> grp_entry_swap a one two !! k = a !! k) /\
  length (grp_entry_swap a one two) = length a /\
  grp_entry_swap (grp_entry_swap a one two) one two = a /\
  grp_entry_cmp (grp_entry_swap a one two) one two = - grp_entry_cmp a one two.
Proof.
  intros H1 H2.
  destruct (decide (one = two)) as [-> | Hne].
  - assert (e2 = e1) by congruence. subst e2.
    assert (Hs : grp_entry_swap a two two = a).
    { unfold grp_entry_swap. rewrite H1.
      try (destruct (bool_decide (two <> two)); [| reflexivity]).
      rewrite !(list_insert_id _ _ _ H1). reflexivity. }
    rewrite !Hs. split; [exact H1 |]. split; [exact H1 |].
    split; [reflexivity |]. split; [reflexivity |]. split; [reflexivity |].
    unfold grp_entry_cmp. rewrite H1.
    try (destruct (bool_decide (two <> two)); [| reflexivity]).
    rewrite strcmp_refl. reflexivity.
  - assert (Hs : grp_entry_swap a one two
                 = <[two := e1]> (<[one := e2]> a)).
    { unfold grp_entry_swap. rewrite H1, H2.
      try rewrite (bool_decide_eq_true_2 _ Hne). reflexivity. }
    assert (L1 : grp_entry_swap a one two !! one = Some e2).
    { rewrite Hs, (swap_lookup _ _ _ _ _ _ H1 H2).
      repeat case_decide; congruence. }
    assert (L2 : grp_entry_swap a one two !! two = Some e1).
    { rewrite Hs, (swap_lookup _ _ _ _ _ _ H1 H2).
      repeat case_decide; congruence. }
    split; [exact L1 |]. split; [exact L2 |]. split.
    { intros k K1 K2. rewrite Hs, (swap_lookup _ _ _ _ _ _ H1 H2).
      repeat case_decide; congruence. }
    split; [rewrite Hs, !length_insert; reflexivity |]. split.
    + unfold grp_entry_swap at 1. rewrite L1, L2.
      try rewrite (bool_decide_eq_true_2 _ Hne).
      rewrite Hs. apply swap_involutive; assumption.
    + unfold grp_entry_cmp. rewrite L1, L2, H1, H2.
      try rewrite (bool_decide_eq_true_2 _ Hne).
      apply strcmp_antisym.
Qed.

Lemma mvl_entry_swap_spec (a : list MVLentry) one two e1 e2 :
  a !! one = Some e1 -> a !! two = Some e2 ->
  mvl_entry_swap a one two !! one = Some e2 /\
  mvl_entry_swap a one two !! two = Some e1 /\
  (forall k, k <> one -> k <> two -> mvl_entry_swap a one two !! k = a !! k) /\
  length (mvl_entry_swap a one two) = length a /\
  mvl_entry_swap (mvl_entry_swap a one two) one two = a /\
  mvl_entry_cmp (mvl_entry_swap a one two) one two = - mvl_entry_cmp a one two.
Proof.
  intros H1 H2.
  destruct (decide (one = two)) as [-> | Hne].
  - assert (e2 = e1) by congruence. subst e2.
    assert (Hs : mvl_entry_swap a two two = a).
    { unfold mvl_entry_swap. rewrite H1.
      try (destruct (bool_decide (two <> two)); [| reflexivity]).
      rewrite !(list_insert_id _ _ _ H1). reflexivity. }
    rewrite !Hs. split; [exact H1 |]. split; [exact H1 |].
    split; [reflexivity |]. split; [reflexivity |]. split; [reflexivity |].
    unfold mvl_entry_cmp. rewrite H1.
    try (destruct (bool_decide (two <> two)); [| reflexivity]).
    rewrite strcmp_refl. reflexivity.
  - assert (Hs : mvl_entry_swap a one two
                 = <[two := e1]> (<[one := e2]> a)).
    { unfold mvl_entry_swap. rewrite H1, H2.
      try rewrite (bool_decide_eq_true_2 _ Hne). reflexivity. }
    assert (L1 : mvl_entry_swap a one two !! one = Some e2).
    { rewrite Hs, (swap_lookup _ _ _ _ _ _ H1 H2).
      repeat case_decide; congruence. }
    assert (L2 : mvl_entry_swap a one two !! two = Some e1).
    { rewrite Hs, (swap_lookup _ _ _ _ _ _ H1 H2).
      repeat case_decide; congruence. }
    split; [exact L1 |]. split; [exact L2 |]. split.
    { intros k K1 K2. rewrite Hs, (swap_lookup _ _ _ _ _ _ H1 H2).
      repeat case_decide; congruence. }
    split; [rewrite Hs, !length_insert; reflexivity |]. split.
    + unfold mvl_entry_swap at 1. rewrite L1, L2.
      try rewrite (bool_decide_eq_true_2 _ Hne).
      rewrite Hs. apply swap_involutive; assumption.
    + unfold mvl_entry_cmp. rewrite L1, L2, H1, H2.
      try rewrite (bool_decide_eq_true_2 _ Hne).
      apply strcmp_antisym.
Qed.

(** ** Probing and loading *)

Lemma GRP_isArchive_accepts w path w' :
  GRP_isArchive w path false = (w', Ok tt) ->
  exists f, w_files w !! path = Some f /\
            take 12 (f_data f) = chars "KenSilverman" /\
            16 <= Z.of_nat (length (f_data f)) /\ w' = opened_closed w.
Proof.
  destruct (w_files w !! path) as [f |] eqn:Hf.
  - unfold GRP_isArchive. rewrite (grp_open_cases w path f Hf).
    destruct (Z.ltb_spec (Z.of_nat (length (f_data f))) 12);
      [discriminate |].
    destruct (List.list_eq_dec Byte.byte_eq_dec (take 12 (f_data f))
                (chars "KenSilverman")) as [E | E].
    2:{ rewrite signature_bad by (try reflexivity; try exact E; lia).
        discriminate. }
    rewrite signature_ok by (try reflexivity; try exact E; lia).
    cbn [negb].
    destruct (Z.ltb_spec (Z.of_nat (length (f_data f))) 16);
      [discriminate |].
    rewrite platformClose_opened. intros [= <-].
    exists f. repeat split; [exact E | lia].
  - unfold GRP_isArchive, grp_open, __PHYSFS_platformOpenRead.
    rewrite Hf. discriminate.
Qed.

Lemma MVL_isArchive_accepts w path w' :
  MVL_isArchive w path false = (w', Ok tt) ->
  exists f, w_files w !! path = Some f /\
            take 4 (f_data f) = chars "DMVL" /\
            8 <= Z.of_nat (length (f_data f)) /\ w' = opened_closed w.
Proof.
  destruct (w_files w !! path) as [f |] eqn:Hf.
  - unfold MVL_isArchive. rewrite (mvl_open_cases w path f Hf).
    destruct (Z.ltb_spec (Z.of_nat (length (f_data f))) 4);
      [discriminate |].
    destruct (List.list_eq_dec Byte.byte_eq_dec (take 4 (f_data f))
                (chars "DMVL")) as [E | E].
    2:{ rewrite signature_bad by (try reflexivity; try exact E; lia).
        discriminate. }
    rewrite signature_ok by (try reflexivity; try exact E; lia).
    cbn [negb].
    destruct (Z.ltb_spec (Z.of_nat (length (f_data f))) 8);
      [discriminate |].
    rewrite platformClose_opened. intros [= <-].
    exists f. repeat split; [exact E | lia].
  - unfold MVL_isArchive, mvl_open, __PHYSFS_platformOpenRead.
    rewrite Hf. discriminate.
Qed.

Lemma GRP_isArchive_signature w path f :
  w_files w !! path = Some f ->
  take 12 (f_data f) = chars "KenSilverman" ->
  16 <= Z.of_nat (length (f_data f)) ->
  GRP_isArchive w path false = (opened_closed w, Ok tt).
Proof.
  intros Hf E Hlen. unfold GRP_isArchive. rewrite (grp_open_cases w path f Hf).
  destruct (Z.ltb_spec (Z.of_nat (length (f_data f))) 12); [lia |].
  rewrite signature_ok by (try reflexivity; try exact E; lia). cbn [negb].
  destruct (Z.ltb_spec (Z.of_nat (length (f_data f))) 16); [lia |].
  rewrite platformClose_opened. reflexivity.
Qed.

Lemma MVL_isArchive_signature w path f :
  w_files w !! path = Some f ->
  take 4 (f_data f) = chars "DMVL" ->
  8 <= Z.of_nat (length (f_data f)) ->
  MVL_isArchive w path false = (opened_closed w, Ok tt).
Proof.
  intros Hf E Hlen. unfold MVL_isArchive. rewrite (mvl_open_cases w path f Hf).
  destruct (Z.ltb_spec (Z.of_nat (length (f_data f))) 4); [lia |].
  rewrite signature_ok by (try reflexivity; try exact E; lia). cbn [negb].
  destruct (Z.ltb_spec (Z.of_nat (length (f_data f))) 8); [lia |].
  rewrite platformClose_opened. reflexivity.
Qed.

Lemma MVL_isArchive_mismatch w path f :
  w_files w !! path = Some f ->
  take 4 (f_data f) <> chars "DMVL" ->
  4 <= Z.of_nat (length (f_data f)) ->
  MVL_isArchive w path false = (opened_closed w, Fail ERR_UNSUPPORTED_ARCHIVE).
Proof.
  intros Hf E Hlen. unfold MVL_isArchive. rewrite (mvl_open_cases w path f Hf).
  destruct (Z.ltb_spec (Z.of_nat (length (f_data f))) 4); [lia |].
  rewrite signature_bad by (try reflexivity; try exact E; lia).
  reflexivity.
Qed.

Lemma GRP_isArchive_mismatch w path f :
  w_files w !! path = Some f ->
  take 12 (f_data f) <> chars "KenSilverman" ->
  12 <= Z.of_nat (length (f_data f)) ->
  GRP_isArchive w path false = (opened_closed w, Fail ERR_UNSUPPORTED_ARCHIVE).
Proof.
  intros Hf E Hlen. unfold GRP_isArchive. rewrite (grp_open_cases w path f Hf).
  destruct (Z.ltb_spec (Z.of_nat (length (f_data f))) 12); [lia |].
  rewrite signature_bad by (try reflexivity; try exact E; lia).
  reflexivity.
Qed.

Lemma signatures_differ data :
  take 12 data = chars "KenSilverman" -> take 4 data <> chars "DMVL".
Proof.
  intros E H. assert (H4 : take 4 (take 12 data) = take 4 data).
  { rewrite take_take. reflexivity. }
  rewrite E, H in H4. vm_compute in H4. discriminate.
Qed.

(** X16. The swap callback of the sort exchanges the two entries and
    nothing else: for indices inside the table, [grp_entry_swap] and
    [mvl_entry_swap] put each of the two entries in the other's place,
    leave every other index and the length alone, undo themselves when
    applied twice, and turn the sign of what the comparison callback
    returns for the two indices. *)
Theorem entry_swap_exchanges :
  forall (one two : nat),
    (forall (a : list GRPentry) e1 e2,
        a !! one = Some e1 -> a !! two = Some e2 ->
        grp_entry_swap a one two !! one = Some e2 /\
        grp_entry_swap a one two !! two = Some e1 /\
        (forall k, k <> one -> k <> two ->
                   grp_entry_swap a one two !! k = a !! k) /\
        length (grp_entry_swap a one two) = length a /\
        grp_entry_swap (grp_entry_swap a one two) one two = a /\
        grp_entry_cmp (grp_entry_swap a one two) one two
        = - grp_entry_cmp a one two) /\
    (forall (a : list MVLentry) e1 e2,
        a !! one = Some e1 -> a !! two = Some e2 ->
        mvl_entry_swap a one two !! one = Some e2 /\
        mvl_entry_swap a one two !! two = Some e1 /\
        (forall k, k <> one -> k <> two ->
                   mvl_entry_swap a one two !! k = a !! k) /\
        length (mvl_entry_swap a one two) = length a /\
        mvl_entry_swap (mvl_entry_swap a one two) one two = a /\
        mvl_entry_cmp (mvl_entry_swap a one two) one two
        = - mvl_entry_cmp a one two).
Proof.
  intros one two. split; intros a e1 e2 H1 H2.
  - exact (grp_entry_swap_spec a one two e1 e2 H1 H2).
  - exact (mvl_entry_swap_spec a one two e1 e2 H1 H2).
Qed.

(** X17. Probing and loading agree, and the two formats exclude each
    other: whenever [openArchive] succeeds on a path, [isArchive]
    succeeds on it and leaves the same platform state; a file that one
    format's [isArchive] accepts is refused by the other's with
    [ERR_UNSUPPORTED_ARCHIVE]. *)
Theorem probe_and_load_agree :
  forall (w : world) (path : string),
    (forall w' info,
        GRP_openArchive w path false = (w', Ok info) ->
        GRP_isArchive w path false = (w', Ok tt)) /\
    (forall w' info,
        MVL_openArchive w path false = (w', Ok info) ->
        MVL_isArchive w path false = (w', Ok tt)) /\
    (forall w',
        GRP_isArchive w path false = (w', Ok tt) ->
        MVL_isArchive w path false = (w', Fail ERR_UNSUPPORTED_ARCHIVE)) /\
    (forall w',
        MVL_isArchive w path false = (w', Ok tt) ->
        GRP_isArchive w path false = (w', Fail ERR_UNSUPPORTED_ARCHIVE) \/
        (GRP_isArchive w path false = (w', Fail ERR_PLATFORM) /\
         exists f, w_files w !! path = Some f /\
                   Z.of_nat (length (f_data f)) < 12)).
Proof.
  intros w path. split; [| split; [| split]].
  - intros w' info Ho.
    destruct (GRP_openArchive_bytes _ _ _ _ Ho) as (f & Hf & [Hsig Hlen] & _).
    pose proof (grp_count_u32 (f_data f)) as [Hc _].
    destruct (GRP_openArchive_file w path f Hf) as [Hok _].
    rewrite (Hok (conj Hsig Hlen)) in Ho. injection Ho as <- _.
    apply (GRP_isArchive_signature w path f Hf Hsig). lia.
  - intros w' info Ho.
    destruct (MVL_openArchive_bytes _ _ _ _ Ho) as (f & Hf & [Hsig Hlen] & _).
    pose proof (mvl_count_u32 (f_data f)) as [Hc _].
    destruct (MVL_openArchive_file w path f Hf) as [Hok _].
    rewrite (Hok (conj Hsig Hlen)) in Ho. injection Ho as <- _.
    apply (MVL_isArchive_signature w path f Hf Hsig). lia.
  - intros w' Hg.
    destruct (GRP_isArchive_accepts _ _ _ Hg) as (f & Hf & Hsig & Hlen & ->).
    apply (MVL_isArchive_mismatch w path f Hf); [| lia].
    apply signatures_differ. exact Hsig.
  - intros w' Hm.
    destruct (MVL_isArchive_accepts _ _ _ Hm) as (f & Hf & Hsig & Hlen & ->).
    destruct (Z_lt_le_dec (Z.of_nat (length (f_data f))) 12) as [Hs | Hl].
    + right. split; [| exists f; split; [exact Hf | exact Hs]].
      unfold GRP_isArchive. rewrite (grp_open_cases w path f Hf).
      destruct (Z.ltb_spec (Z.of_nat (length (f_data f))) 12); [| lia].
      reflexivity.
    + left. apply (GRP_isArchive_mismatch w path f Hf); [| exact Hl].
      intros E. exact (signatures_differ _ E Hsig).
Qed.

(** ** The case of a requested name *)

Lemma uchar_byte_of_Z z : 0 <= z < 256 -> uchar (byte_of_Z z) = z.
Proof.
  intros H. unfold byte_of_Z, uchar. rewrite Z.mod_small by lia.
  destruct (Byte.of_N (Z.to_N z)) as [b |] eqn:E.
  - apply Byte.to_of_N in E. rewrite E. lia.
  - apply Byte.of_N_None_iff in E. lia.
Qed.

Lemma tolower_idem c : tolower (tolower c) = tolower c.
Proof.
  unfold tolower.
  destruct (Z.leb_spec 65 c), (Z.leb_spec c 90); simpl;
    destruct (Z.leb_spec 65 (c + 32)), (Z.leb_spec (c + 32) 90); simpl;
    try lia;
    destruct (Z.leb_spec 65 c), (Z.leb_spec c 90); simpl; lia.
Qed.

Lemma uchar_lower_byte b : uchar (lower_byte b) = tolower (uchar b).
Proof.
  unfold lower_byte. apply uchar_byte_of_Z.
  pose proof (uchar_range b). unfold tolower.
  destruct ((65 <=? uchar b) && (uchar b <=? 90)) eqn:E; [| lia].
  apply andb_true_iff in E as [_ E]. apply Z.leb_le in E. lia.
Qed.

Lemma lower_byte_nul b : (uchar (lower_byte b) =? 0) = (uchar b =? 0).
Proof.
  rewrite uchar_lower_byte. pose proof (uchar_nonneg b) as Hb.
  pose proof (tolower_zero (uchar b) Hb).
  destruct (Z.eqb_spec (tolower (uchar b)) 0), (Z.eqb_spec (uchar b) 0);
    tauto.
Qed.

Lemma stricmp_lower s : forall x,
  __PHYSFS_platformStricmp (lower s) x = __PHYSFS_platformStricmp s x.
Proof.
  unfold __PHYSFS_platformStricmp.
  induction s as [| c t IH]; intros [| c2 t2]; simpl; try reflexivity.
  - rewrite uchar_lower_byte, tolower_idem. reflexivity.
  - rewrite lower_byte_nul, uchar_lower_byte, tolower_idem.
    fold (lower t). rewrite IH. reflexivity.
Qed.

Lemma cstr_lower s : cstr (lower s) = lower (cstr s).
Proof.
  induction s as [| c t IH]; [reflexivity |]. simpl.
  rewrite lower_byte_nul. destruct (uchar c =? 0); [reflexivity |].
  simpl. fold (lower t). rewrite IH. reflexivity.
Qed.

Lemma strlen_lower s : strlen (lower s) = strlen s.
Proof.
  unfold strlen. rewrite cstr_lower. unfold lower.
  rewrite List.length_map. reflexivity.
Qed.

Lemma drop_lower s : forall p, drop p (lower s) = lower (drop p s).
Proof.
  induction s as [| c t IH]; intros [| p]; try reflexivity. simpl.
  apply IH.
Qed.

(** A character that is no letter is found at the same place. *)
Lemma strchr_lower s c :
  (forall z, tolower z = uchar c <-> z = uchar c) ->
  strchr (lower s) c = strchr s c.
Proof.
  intros Hc. induction s as [| x t IH]; [reflexivity |]. simpl.
  rewrite lower_byte_nul. destruct (uchar x =? 0); [reflexivity |].
  rewrite uchar_lower_byte. fold (lower t). rewrite IH.
  specialize (Hc (uchar x)).
  destruct (Z.eqb_spec (tolower (uchar x)) (uchar c)),
           (Z.eqb_spec (uchar x) (uchar c)); tauto.
Qed.

Lemma no_letter_dot z : tolower z = uchar "." <-> z = uchar ".".
Proof.
  change (uchar ".") with 46. unfold tolower.
  destruct (Z.leb_spec 65 z), (Z.leb_spec z 90); simpl; lia.
Qed.

Lemma no_letter_slash z : tolower z = uchar "/" <-> z = uchar "/".
Proof.
  change (uchar "/") with 47. unfold tolower.
  destruct (Z.leb_spec 65 z), (Z.leb_spec z 90); simpl; lia.
Qed.

Lemma ruled_out_lower s : ruled_out (lower s) = ruled_out s.
Proof.
  unfold ruled_out.
  rewrite !strchr_lower by (apply no_letter_dot || apply no_letter_slash).
  rewrite strlen_lower. destruct (strchr s ".") as [p |]; [| reflexivity].
  rewrite drop_lower, strlen_lower. reflexivity.
Qed.

Section FindName.
Context {E : Type}.
Variable name_of : E -> list byte.
Variable compare : list byte -> list byte -> Z.
Variable a : list E.
Variables n1 n2 : list byte.
Hypothesis same_compare : forall x, compare n1 x = compare n2 x.

(** The loop sees the name through the comparison only. *)
Lemma find_entry_loop_ext fuel : forall lo hi,
  find_entry_loop name_of compare fuel a n1 lo hi
  = find_entry_loop name_of compare fuel a n2 lo hi.
Proof.
  induction fuel as [| fuel IH]; intros lo hi; cbn [find_entry_loop];
    [reflexivity |].
  destruct (lo <=? hi); [| reflexivity].
  destruct (if 0 <=? s32 (lo + s32 (hi - lo) `quot` 2)
            then a !! Z.to_nat (s32 (lo + s32 (hi - lo) `quot` 2))
            else None) as [e |]; [| reflexivity].
  rewrite same_compare, !IH. reflexivity.
Qed.
End FindName.

Lemma mvl_find_entry_lower info name :
  mvl_find_entry_traced info (lower name) = mvl_find_entry_traced info name.
Proof.
  rewrite !mvl_find_entry_traced_unfold, ruled_out_lower.
  destruct (ruled_out name); [reflexivity |]. cbv zeta.
  apply find_entry_loop_ext. apply stricmp_lower.
Qed.

(** X18. The MVL lookup does not see the case of the requested name:
    two names that differ in the case of ASCII letters only get the same
    answer from the search, reading the same entries of the table, and
    so from [exists], [isDirectory], [isSymLink], [getLastModTime] and
    [openRead]. *)
Theorem mvl_lookup_ignores_case :
  forall (info : MVLinfo) (n1 n2 : list byte) (w : world),
    lower n1 = lower n2 ->
    mvl_find_entry_traced info n1 = mvl_find_entry_traced info n2 /\
    MVL_exists info n1 = MVL_exists info n2 /\
    MVL_isDirectory info n1 = MVL_isDirectory info n2 /\
    MVL_isSymLink info n1 = MVL_isSymLink info n2 /\
    MVL_getLastModTime info n1 = MVL_getLastModTime info n2 /\
    MVL_openRead w info n1 = MVL_openRead w info n2.
Proof.
  intros info n1 n2 w Hl.
  assert (Ht : mvl_find_entry_traced info n1 = mvl_find_entry_traced info n2).
  { rewrite <- (mvl_find_entry_lower info n1), Hl.
    apply mvl_find_entry_lower. }
  assert (Hf : mvl_find_entry info n1 = mvl_find_entry info n2)
    by (unfold mvl_find_entry; rewrite Ht; reflexivity).
  split; [exact Ht |].
  unfold MVL_isDirectory, MVL_isSymLink, MVL_getLastModTime, MVL_openRead,
    MVL_exists.
  rewrite Hf. repeat split.
Qed.

(** ** Loading what a packer wrote *)

Lemma uchar_byte_of_Z_mod z : uchar (byte_of_Z z) = z mod 256.
Proof.
  unfold byte_of_Z, uchar.
  pose proof (Z.mod_pos_bound z 256 ltac:(lia)) as Hm.
  destruct (Byte.of_N (Z.to_N (z mod 256))) as [b |] eqn:E.
  - apply Byte.to_of_N in E. rewrite E. lia.
  - apply Byte.of_N_None_iff in E. lia.
Qed.

Lemma swapULE32_le32 n : is_u32 n -> PHYSFS_swapULE32 (le32 n) = n.
Proof.
  unfold is_u32, PHYSFS_swapULE32, le32. intros H.
  rewrite !uchar_byte_of_Z_mod.
  change (2 ^ 8) with 256. change (2 ^ 16) with 65536.
  change (2 ^ 24) with 16777216. change (2 ^ 32) with 4294967296 in H.
  Z.div_mod_to_equations. lia.
Qed.

Lemma length_le32 n : length (le32 n) = 4%nat.
Proof. reflexivity. Qed.

(** A record of [nlen + 4] bytes that follows [pre] is read back by the
    two reads of the loader. *)
Lemma record_at (nlen : nat) (pre field sz tail : list byte) :
  length field = nlen -> length sz = 4%nat ->
  take nlen (drop (Z.to_nat (Z.of_nat (length pre)))
                  (pre ++ (field ++ sz) ++ tail)) = field /\
  take 4 (drop (Z.to_nat (Z.of_nat (length pre) + Z.of_nat nlen))
               (pre ++ (field ++ sz) ++ tail)) = sz.
Proof.
  intros Hf Hs. split.
  - rewrite Nat2Z.id, drop_app_length, <- !app_assoc.
    apply take_app_length'. symmetry. exact Hf.
  - rewrite <- Nat2Z.inj_add, Nat2Z.id.
    rewrite <- !app_assoc, (app_assoc pre field).
    rewrite drop_app_length' by (rewrite length_app; lia).
    apply take_app_length'. symmetry. exact Hs.
Qed.

Lemma cstr_nul_free n rest :
  Forall (fun b => uchar b <> 0) n -> cstr (n ++ x00 :: rest) = n.
Proof.
  induction 1 as [| b t Hb _ IH]; [reflexivity |]. simpl.
  destruct (Z.eqb_spec (uchar b) 0); [contradiction |]. rewrite IH.
  reflexivity.
Qed.

Lemma cstr_nul_free_end n :
  Forall (fun b => uchar b <> 0) n -> cstr n = n.
Proof.
  induction 1 as [| b t Hb _ IH]; [reflexivity |]. simpl.
  destruct (Z.eqb_spec (uchar b) 0); [contradiction |]. rewrite IH.
  reflexivity.
Qed.

Lemma strchr_after n c rest :
  Forall (fun b => uchar b <> 0 /\ uchar b <> uchar c) n ->
  uchar c <> 0 ->
  strchr (n ++ c :: rest) c = Some (length n).
Proof.
  intros Hn Hc. induction Hn as [| b t [Hb0 Hbc] _ IH]; simpl.
  - destruct (Z.eqb_spec (uchar c) 0); [contradiction |].
    rewrite Z.eqb_refl. reflexivity.
  - destruct (Z.eqb_spec (uchar b) 0); [contradiction |].
    destruct (Z.eqb_spec (uchar b) (uchar c)); [contradiction |].
    rewrite IH. reflexivity.
Qed.

Lemma strchr_absent n c :
  Forall (fun b => uchar b <> 0 /\ uchar b <> uchar c) n ->
  strchr (n ++ [x00]) c = None.
Proof.
  induction 1 as [| b t [Hb0 Hbc] _ IH]; [reflexivity |]. simpl.
  destruct (Z.eqb_spec (uchar b) 0); [contradiction |].
  destruct (Z.eqb_spec (uchar b) (uchar c)); [contradiction |].
  rewrite IH. reflexivity.
Qed.

(** The loader recovers a padded GRP name. *)
Lemma grp_normalize_padded n :
  grp_name_ok n ->
  cstr (grp_normalize (n ++ replicate (12 - length n) " "%byte)) = n.
Proof.
  intros [Hlen Hn]. unfold grp_normalize. cbv zeta.
  assert (Hnul : Forall (fun b => uchar b <> 0) n)
    by (eapply Forall_impl; [exact Hn |]; simpl; tauto).
  destruct (12 - length n)%nat as [| k] eqn:Hk.
  - simpl. rewrite app_nil_r. rewrite strchr_absent by exact Hn.
    apply cstr_nul_free. exact Hnul.
  - simpl. rewrite <- app_assoc. simpl.
    rewrite strchr_after by (exact Hn || (vm_compute; discriminate)).
    rewrite insert_app_r_alt by lia. rewrite Nat.sub_diag. simpl.
    apply cstr_nul_free. exact Hnul.
Qed.

Lemma mvl_name_padded n :
  mvl_name_ok n -> cstr (n ++ replicate (13 - length n) x00) = n.
Proof.
  intros [Hlen Hn]. destruct (13 - length n)%nat as [| k] eqn:Hk; [lia |].
  simpl. apply cstr_nul_free. exact Hn.
Qed.

Lemma length_grp_record n size :
  grp_name_ok n -> length (grp_record n size) = 16%nat.
Proof.
  intros [Hlen _]. unfold grp_record.
  rewrite !length_app, length_replicate, length_le32. lia.
Qed.

Lemma length_grp_records (files : list (list byte * list byte)) :
  Forall (fun nf => grp_name_ok (fst nf)) files ->
  length (concat (map (fun nf => grp_record (fst nf)
                                   (Z.of_nat (length (snd nf)))) files))
  = (16 * length files)%nat.
Proof.
  induction 1 as [| nf r Hok _ IH]; [reflexivity |]. simpl.
  rewrite length_app, IH, length_grp_record by exact Hok. lia.
Qed.

(** The table the loader reads off the records of a packed archive. *)
Lemma grp_directory_packed files : forall pre tail location,
  Forall (fun nf => grp_name_ok (fst nf)) files ->
  0 <= location ->
  location + Z.of_nat (length (concat (map snd files))) < 2 ^ 32 ->
  map grp_triple
      (grp_directory
         (pre ++ concat (map (fun nf => grp_record (fst nf)
                                          (Z.of_nat (length (snd nf)))) files)
              ++ tail)
         (Z.of_nat (length pre)) (length files) location)
  = layout files location.
Proof.
  induction files as [| [n c] r IH]; intros pre tail location Hok Hloc Hfit;
    [reflexivity |].
  apply Forall_cons in Hok. destruct Hok as [Hn Hr]. simpl in Hn.
  cbn [length map concat grp_directory layout fst snd] in *.
  rewrite length_app in Hfit.
  set (field := n ++ replicate (12 - length n) " "%byte).
  assert (Hfield : length field = 12%nat).
  { unfold field. rewrite length_app, length_replicate.
    destruct Hn as [Hlen _]. lia. }
  assert (Hdata :
    pre ++ (grp_record n (Z.of_nat (length c))
            ++ concat (map (fun nf => grp_record (fst nf)
                                        (Z.of_nat (length (snd nf)))) r))
        ++ tail
    = pre ++ (field ++ le32 (Z.of_nat (length c)))
          ++ (concat (map (fun nf => grp_record (fst nf)
                                       (Z.of_nat (length (snd nf)))) r)
              ++ tail)).
  { unfold grp_record, field. rewrite <- !app_assoc. reflexivity. }
  rewrite Hdata.
  destruct (record_at 12 pre field (le32 (Z.of_nat (length c)))
              (concat (map (fun nf => grp_record (fst nf)
                                        (Z.of_nat (length (snd nf)))) r)
               ++ tail) Hfield (length_le32 _)) as [Hname Hsize].
  rewrite Nat2Z.id in Hname.
  change (Z.of_nat 12) with 12 in Hsize.
  rewrite Hsize. rewrite swapULE32_le32 by (unfold is_u32; lia).
  rewrite Nat2Z.id, Hname.
  unfold grp_triple at 1. cbn [grp_name grp_startPos grp_size].
  assert (Hnorm : cstr (grp_normalize field) = n)
    by (unfold field; apply grp_normalize_padded; exact Hn).
  rewrite Hnorm.
  f_equal.
  rewrite (u32_id (location + Z.of_nat (length c))) by lia.
  replace (Z.of_nat (length pre) + 16)
    with (Z.of_nat (length (pre ++ field ++ le32 (Z.of_nat (length c)))))
    by (rewrite !length_app, Hfield, length_le32; lia).
  replace (pre ++ (field ++ le32 (Z.of_nat (length c)))
               ++ concat (map (fun nf => grp_record (fst nf)
                                           (Z.of_nat (length (snd nf)))) r)
               ++ tail)
    with ((pre ++ field ++ le32 (Z.of_nat (length c)))
          ++ concat (map (fun nf => grp_record (fst nf)
                                      (Z.of_nat (length (snd nf)))) r)
          ++ tail)
    by (rewrite <- !app_assoc; reflexivity).
  apply IH; [exact Hr | lia | lia].
Qed.

(** A packed archive is well formed, and its count is the number of
    files. *)
Lemma grp_archive_well_formed files :
  Forall (fun nf => grp_name_ok (fst nf)) files ->
  Z.of_nat (length (grp_archive files)) < 2 ^ 32 ->
  grp_count (grp_archive files) = Z.of_nat (length files) /\
  grp_well_formed (grp_archive files) /\
  Z.of_nat (length (grp_archive files))
  = 16 + 16 * Z.of_nat (length files)
    + Z.of_nat (length (concat (map snd files))).
Proof.
  intros Hok Hfit.
  assert (Hlen : Z.of_nat (length (grp_archive files))
                 = 16 + 16 * Z.of_nat (length files)
                   + Z.of_nat (length (concat (map snd files)))).
  { unfold grp_archive.
    rewrite !length_app, length_le32, length_grp_records by exact Hok.
    change (length (chars "KenSilverman")) with 12%nat. lia. }
  assert (Hc : grp_count (grp_archive files) = Z.of_nat (length files)).
  { unfold grp_count, grp_archive.
    rewrite (drop_app_length' _ _ 12) by reflexivity.
    rewrite take_app_length' by reflexivity.
    apply swapULE32_le32. unfold is_u32. lia. }
  split; [exact Hc |]. split; [| exact Hlen].
  split.
  - unfold grp_archive. apply take_app_length'. reflexivity.
  - rewrite Hc. lia.
Qed.

Lemma GRP_openArchive_packed files w path f :
  w_files w !! path = Some f ->
  f_data f = grp_archive files ->
  Forall (fun nf => grp_name_ok (fst nf)) files ->
  Z.of_nat (length (grp_archive files)) < 2 ^ 32 ->
  exists info,
    GRP_openArchive w path false = (opened_closed w, Ok info) /\
    grp_filename info = path /\
    grp_last_mod_time info = f_mtime f /\
    grp_entryCount info = Z.of_nat (length files) /\
    grp_entryCount info = Z.of_nat (length (grp_entries info)) /\
    grp_entryCount info < 2 ^ 31 /\
    sorted_by grp_cmp (grp_entries info) /\
    Permutation (map grp_triple (grp_entries info))
      (layout files (16 + 16 * Z.of_nat (length files))).
Proof.
  intros Hf Hdata Hok Hfit.
  destruct (grp_archive_well_formed files Hok Hfit) as (Hc & Hwf & Hlen).
  destruct (GRP_openArchive_file w path f Hf) as [Hload _].
  rewrite Hdata in Hload. specialize (Hload Hwf).
  eexists. split; [exact Hload |]. cbn [grp_filename grp_last_mod_time
    grp_entryCount grp_entries].
  split; [reflexivity |]. split; [reflexivity |].
  split; [exact Hc |].
  destruct (GRP_openArchive_inv _ _ _ _ _ Hload) as (_ & _ & _ & Hcount & _).
  cbn [grp_entryCount grp_entries] in Hcount.
  split; [exact Hcount |]. split; [rewrite Hc; lia |].
  split; [exact (GRP_loaded_sorted _ _ _ _ _ Hload) |].
  rewrite Hc, Nat2Z.id.
  rewrite (u32_id (16 * Z.of_nat (length files))) by lia.
  rewrite (u32_id (16 + 16 * Z.of_nat (length files))) by lia.
  pose proof (grp_sort_perm
                (grp_directory (grp_archive files) 16 (length files)
                   (16 + 16 * Z.of_nat (length files)))) as Hp.
  rewrite grp_directory_length in Hp.
  rewrite Hp.
  pose proof (grp_directory_packed files
                (chars "KenSilverman" ++ le32 (Z.of_nat (length files)))
                (concat (map snd files))
                (16 + 16 * Z.of_nat (length files)) Hok) as Hd.
  change (Z.of_nat (length (chars "KenSilverman"
                             ++ le32 (Z.of_nat (length files)))))
    with 16 in Hd.
  unfold grp_archive. rewrite <- ?app_assoc in Hd. rewrite <- ?app_assoc.
  rewrite Hd by lia. reflexivity.
Qed.

Lemma length_mvl_record n size :
  mvl_name_ok n -> length (mvl_record n size) = 17%nat.
Proof.
  intros [Hlen _]. unfold mvl_record.
  rewrite !length_app, length_replicate, length_le32. lia.
Qed.

Lemma length_mvl_records (files : list (list byte * list byte)) :
  Forall (fun nf => mvl_name_ok (fst nf)) files ->
  length (concat (map (fun nf => mvl_record (fst nf)
                                   (Z.of_nat (length (snd nf)))) files))
  = (17 * length files)%nat.
Proof.
  induction 1 as [| nf r Hok _ IH]; [reflexivity |]. simpl.
  rewrite length_app, IH, length_mvl_record by exact Hok. lia.
Qed.

(** The table the loader reads off the records of a packed archive. *)
Lemma mvl_directory_packed files : forall pre tail location,
  Forall (fun nf => mvl_name_ok (fst nf)) files ->
  0 <= location ->
  location + Z.of_nat (length (concat (map snd files))) < 2 ^ 32 ->
  map mvl_triple
      (mvl_directory
         (pre ++ concat (map (fun nf => mvl_record (fst nf)
                                          (Z.of_nat (length (snd nf)))) files)
              ++ tail)
         (Z.of_nat (length pre)) (length files) location)
  = layout files location.
Proof.
  induction files as [| [n c] r IH]; intros pre tail location Hok Hloc Hfit;
    [reflexivity |].
  apply Forall_cons in Hok. destruct Hok as [Hn Hr]. simpl in Hn.
  cbn [length map concat mvl_directory layout fst snd] in *.
  rewrite length_app in Hfit.
  set (field := n ++ replicate (13 - length n) x00).
  assert (Hfield : length field = 13%nat).
  { unfold field. rewrite length_app, length_replicate.
    destruct Hn as [Hlen _]. lia. }
  assert (Hdata :
    pre ++ (mvl_record n (Z.of_nat (length c))
            ++ concat (map (fun nf => mvl_record (fst nf)
                                        (Z.of_nat (length (snd nf)))) r))
        ++ tail
    = pre ++ (field ++ le32 (Z.of_nat (length c)))
          ++ (concat (map (fun nf => mvl_record (fst nf)
                                       (Z.of_nat (length (snd nf)))) r)
              ++ tail)).
  { unfold mvl_record, field. rewrite <- !app_assoc. reflexivity. }
  rewrite Hdata.
  destruct (record_at 13 pre field (le32 (Z.of_nat (length c)))
              (concat (map (fun nf => mvl_record (fst nf)
                                        (Z.of_nat (length (snd nf)))) r)
               ++ tail) Hfield (length_le32 _)) as [Hname Hsize].
  rewrite Nat2Z.id in Hname.
  change (Z.of_nat 13) with 13 in Hsize.
  rewrite Hsize. rewrite swapULE32_le32 by (unfold is_u32; lia).
  rewrite Nat2Z.id, Hname.
  unfold mvl_triple at 1. cbn [mvl_name mvl_startPos mvl_size].
  assert (Hnorm : cstr field = n)
    by (unfold field; apply mvl_name_padded; exact Hn).
  rewrite Hnorm.
  f_equal.
  rewrite (u32_id (location + Z.of_nat (length c))) by lia.
  replace (Z.of_nat (length pre) + 17)
    with (Z.of_nat (length (pre ++ field ++ le32 (Z.of_nat (length c)))))
    by (rewrite !length_app, Hfield, length_le32; lia).
  replace (pre ++ (field ++ le32 (Z.of_nat (length c)))
               ++ concat (map (fun nf => mvl_record (fst nf)
                                           (Z.of_nat (length (snd nf)))) r)
               ++ tail)
    with ((pre ++ field ++ le32 (Z.of_nat (length c)))
          ++ concat (map (fun nf => mvl_record (fst nf)
                                      (Z.of_nat (length (snd nf)))) r)
          ++ tail)
    by (rewrite <- !app_assoc; reflexivity).
  apply IH; [exact Hr | lia | lia].
Qed.

(** A packed archive is well formed, and its count is the number of
    files. *)
Lemma mvl_archive_well_formed files :
  Forall (fun nf => mvl_name_ok (fst nf)) files ->
  Z.of_nat (length (mvl_archive files)) < 2 ^ 32 ->
  mvl_count (mvl_archive files) = Z.of_nat (length files) /\
  mvl_well_formed (mvl_archive files) /\
  Z.of_nat (length (mvl_archive files))
  = 8 + 17 * Z.of_nat (length files)
    + Z.of_nat (length (concat (map snd files))).
Proof.
  intros Hok Hfit.
  assert (Hlen : Z.of_nat (length (mvl_archive files))
                 = 8 + 17 * Z.of_nat (length files)
                   + Z.of_nat (length (concat (map snd files)))).
  { unfold mvl_archive.
    rewrite !length_app, length_le32, length_mvl_records by exact Hok.
    change (length (chars "DMVL")) with 4%nat. lia. }
  assert (Hc : mvl_count (mvl_archive files) = Z.of_nat (length files)).
  { unfold mvl_count, mvl_archive.
    rewrite (drop_app_length' _ _ 4) by reflexivity.
    rewrite take_app_length' by reflexivity.
    apply swapULE32_le32. unfold is_u32. lia. }
  split; [exact Hc |]. split; [| exact Hlen].
  split.
  - unfold mvl_archive. apply take_app_length'. reflexivity.
  - rewrite Hc. lia.
Qed.

Lemma MVL_openArchive_packed files w path f :
  w_files w !! path = Some f ->
  f_data f = mvl_archive files ->
  Forall (fun nf => mvl_name_ok (fst nf)) files ->
  Z.of_nat (length (mvl_archive files)) < 2 ^ 32 ->
  exists info,
    MVL_openArchive w path false = (opened_closed w, Ok info) /\
    mvl_filename info = path /\
    mvl_last_mod_time info = f_mtime f /\
    mvl_entryCount info = Z.of_nat (length files) /\
    mvl_entryCount info = Z.of_nat (length (mvl_entries info)) /\
    mvl_entryCount info < 2 ^ 31 /\
    sorted_by mvl_cmp (mvl_entries info) /\
    Permutation (map mvl_triple (mvl_entries info))
      (layout files (8 + 17 * Z.of_nat (length files))).
Proof.
  intros Hf Hdata Hok Hfit.
  destruct (mvl_archive_well_formed files Hok Hfit) as (Hc & Hwf & Hlen).
  destruct (MVL_openArchive_file w path f Hf) as [Hload _].
  rewrite Hdata in Hload. specialize (Hload Hwf).
  eexists. split; [exact Hload |]. cbn [mvl_filename mvl_last_mod_time
    mvl_entryCount mvl_entries].
  split; [reflexivity |]. split; [reflexivity |].
  split; [exact Hc |].
  destruct (MVL_openArchive_inv _ _ _ _ _ Hload) as (_ & _ & _ & Hcount & _).
  cbn [mvl_entryCount mvl_entries] in Hcount.
  split; [exact Hcount |]. split; [rewrite Hc; lia |].
  split; [exact (MVL_loaded_sorted _ _ _ _ _ Hload) |].
  rewrite Hc, Nat2Z.id.
  rewrite (u32_id (17 * Z.of_nat (length files))) by lia.
  rewrite (u32_id (8 + 17 * Z.of_nat (length files))) by lia.
  pose proof (mvl_sort_perm
                (mvl_directory (mvl_archive files) 8 (length files)
                   (8 + 17 * Z.of_nat (length files)))) as Hp.
  rewrite mvl_directory_length in Hp.
  rewrite Hp.
  pose proof (mvl_directory_packed files
                (chars "DMVL" ++ le32 (Z.of_nat (length files)))
                (concat (map snd files))
                (8 + 17 * Z.of_nat (length files)) Hok) as Hd.
  change (Z.of_nat (length (chars "DMVL"
                             ++ le32 (Z.of_nat (length files)))))
    with 8 in Hd.
  unfold mvl_archive. rewrite <- ?app_assoc in Hd. rewrite <- ?app_assoc.
  rewrite Hd by lia. reflexivity.
Qed.

(** ** Reading what a packer wrote *)

Lemma layout_lookup files : forall location k,
  layout files location !! k
  = (fun nf => (fst nf,
                location
                + Z.of_nat (length (concat (map snd (take k files)))),
                Z.of_nat (length (snd nf)))) <$> files !! k.
Proof.
  induction files as [| nf r IH]; intros location k; [reflexivity |].
  destruct k as [| k]; simpl.
  - rewrite Z.add_0_r. reflexivity.
  - rewrite IH. destruct (r !! k) as [nf' |]; [| reflexivity]. simpl.
    rewrite length_app, Nat2Z.inj_add, Z.add_assoc. reflexivity.
Qed.

Lemma concat_split (files : list (list byte * list byte)) k n c :
  files !! k = Some (n, c) ->
  concat (map snd files)
  = concat (map snd (take k files)) ++ c
    ++ concat (map snd (drop (S k) files)).
Proof.
  intros Hk. rewrite <- (take_drop_middle _ _ _ Hk) at 1.
  rewrite map_app, concat_app. reflexivity.
Qed.

Lemma slice_middle (pre a c b : list byte) :
  slice (pre ++ a ++ c ++ b) (Z.of_nat (length pre) + Z.of_nat (length a))
        (Z.of_nat (length c)) = c.
Proof.
  unfold slice. rewrite <- Nat2Z.inj_add, !Nat2Z.id.
  rewrite (app_assoc pre a).
  rewrite drop_app_length' by (rewrite length_app; reflexivity).
  apply take_app_length'. reflexivity.
Qed.

Lemma names_unique (files : list (list byte * list byte)) j k n c c' :
  NoDup (map fst files) ->
  files !! j = Some (n, c) -> files !! k = Some (n, c') -> c = c'.
Proof.
  intros Hnd Hj Hk.
  change (NoDup (fst <$> files)) in Hnd.
  assert (Ej : (fst <$> files) !! j = Some n)
    by (rewrite list_lookup_fmap, Hj; reflexivity).
  assert (Ek : (fst <$> files) !! k = Some n)
    by (rewrite list_lookup_fmap, Hk; reflexivity).
  pose proof (NoDup_lookup _ _ _ _ Hnd Ej Ek) as ->. congruence.
Qed.

Lemma GRP_openRead_succeeds w info name e f :
  grp_find_entry info name = Some (Ok e) ->
  w_files w !! grp_filename info = Some f ->
  0 <= grp_startPos e <= Z.of_nat (length (f_data f)) ->
  GRP_openRead w info name
  = Some (opened_at w (f_data f) (grp_startPos e), true,
          Ok {| grp_handle := w_next w; grp_entry := e; grp_curPos := 0 |}).
Proof.
  intros Hfind Hf Hpos. unfold GRP_openRead. rewrite Hfind.
  rewrite (platformOpenRead_file _ _ _ Hf).
  unfold __PHYSFS_platformSeek, opened_at. simpl. rewrite lookup_insert_eq.
  simpl.
  destruct (Z.leb_spec 0 (grp_startPos e)); [| lia].
  destruct (Z.leb_spec (grp_startPos e) (Z.of_nat (length (f_data f))));
    [| lia].
  simpl. rewrite insert_insert_eq. reflexivity.
Qed.

(** X19. The loader reads back the directory a packer wrote: for files
    whose names fit the name field, packed into an archive of less than
    2^32 bytes, [openArchive] succeeds, counts the files, and its table
    lists, up to the order, each file under the name it was packed
    with, at the offset where its content lies and with its length. *)
Theorem packed_directory_loads :
  forall (files : list (list byte * list byte)) (w : world) (path : string)
         (f : file),
    w_files w !! path = Some f ->
    (f_data f = grp_archive files ->
     Forall (fun nf => grp_name_ok (fst nf)) files ->
     Z.of_nat (length (grp_archive files)) < 2 ^ 32 ->
     exists info,
       GRP_openArchive w path false = (opened_closed w, Ok info) /\
       grp_entryCount info = Z.of_nat (length files) /\
       Permutation (map grp_triple (grp_entries info))
         (layout files (16 + 16 * Z.of_nat (length files)))) /\
    (f_data f = mvl_archive files ->
     Forall (fun nf => mvl_name_ok (fst nf)) files ->
     Z.of_nat (length (mvl_archive files)) < 2 ^ 32 ->
     exists info,
       MVL_openArchive w path false = (opened_closed w, Ok info) /\
       mvl_entryCount info = Z.of_nat (length files) /\
       Permutation (map mvl_triple (mvl_entries info))
         (layout files (8 + 17 * Z.of_nat (length files)))).
Proof.
  intros files w path f Hf. split; intros Hdata Hok Hfit.
  - destruct (GRP_openArchive_packed files w path f Hf Hdata Hok Hfit)
      as (info & Hload & _ & _ & Hc & _ & _ & _ & Hperm).
    exists info. split; [exact Hload |]. split; [exact Hc | exact Hperm].
  - destruct (MVL_openArchive_packed files w path f Hf Hdata Hok Hfit)
      as (info & Hload & _ & _ & Hc & _ & _ & _ & Hperm).
    exists info. split; [exact Hload |]. split; [exact Hc | exact Hperm].
Qed.

(** X20. A file packed into a GRP archive reads back: for files with
    distinct names that fit the name field, packed into an archive of
    less than 2^32 bytes, every file whose name has no [/] and no
    extension of more than three characters is found in the loaded
    container, [openRead] opens it, its length is the length of the
    content, and reading that many bytes returns the content. *)
Theorem packed_file_reads_back :
  forall (files : list (list byte * list byte)) (w : world) (path : string)
         (f : file) (n c : list byte),
    w_files w !! path = Some f ->
    f_data f = grp_archive files ->
    Forall (fun nf => grp_name_ok (fst nf)) files ->
    NoDup (map fst files) ->
    Z.of_nat (length (grp_archive files)) < 2 ^ 32 ->
    (n, c) ∈ files -> ~ has_separator n -> ~ long_extension n ->
    exists info w1 finfo w2,
      GRP_openArchive w path false = (opened_closed w, Ok info) /\
      GRP_exists info n = Some true /\
      GRP_openRead (opened_closed w) info n = Some (w1, true, Ok finfo) /\
      GRP_fileLength finfo = Z.of_nat (length c) /\
      GRP_read w1 finfo 1 (Z.of_nat (length c))
      = (w2, grp_at finfo (Z.of_nat (length c)), Z.of_nat (length c), c).
Proof.
  intros files w path f n c Hf Hdata Hok Hnd Hfit Hin Hsep Hext.
  destruct (GRP_openArchive_packed files w path f Hf Hdata Hok Hfit)
    as (info & Hload & Hpath & _ & Hc & Hcount & Hsmall & Hsorted & Hperm).
  destruct (grp_archive_well_formed files Hok Hfit) as (_ & _ & Hlen).
  apply list_elem_of_lookup in Hin as [j Hj].
  assert (Hname : grp_name_ok n).
  { rewrite Forall_forall in Hok.
    apply (Hok (n, c)). apply list_elem_of_lookup. eauto. }
  assert (Hnul : cstr n = n).
  { apply cstr_nul_free_end. destruct Hname as [_ Hn].
    eapply Forall_impl; [exact Hn |]. simpl. tauto. }
  (* the entry of the file is in the table *)
  assert (Hmine : exists e, e ∈ grp_entries info /\ cstr (grp_name e) = n).
  { assert (Ht : (n, 16 + 16 * Z.of_nat (length files)
                     + Z.of_nat (length (concat (map snd (take j files)))),
                  Z.of_nat (length c))
                 ∈ layout files (16 + 16 * Z.of_nat (length files))).
    { apply list_elem_of_lookup. exists j. rewrite layout_lookup, Hj.
      reflexivity. }
    rewrite <- Hperm in Ht. apply list_elem_of_fmap in Ht as (e & He & Hein).
    exists e. split; [exact Hein |]. unfold grp_triple in He. congruence. }
  destruct Hmine as (e & Hein & Hen).
  assert (Hr : ruled_out n = false).
  { apply not_ruled_out; [| exact Hsep | exact Hext].
    unfold too_long, strlen. rewrite Hnul. destruct Hname as [Hl _]. lia. }
  destruct (grp_find_entry_sorted info n Hcount Hsmall Hsorted Hr)
    as (r & t & Hrun & _ & Hres).
  destruct r as [e' | err].
  2:{ destruct Hres as [_ Habs]. exfalso. apply (Habs e Hein).
      apply strcmp_eq. rewrite Hnul, Hen. reflexivity. }
  destruct Hres as [He' Heq]. apply strcmp_eq in Heq. rewrite Hnul in Heq.
  destruct (grp_hit _ _ _ _ Hrun) as (Hfind & Hex & _).
  (* where the entry found lies *)
  assert (Ht : grp_triple e' ∈ layout files (16 + 16 * Z.of_nat (length files))).
  { rewrite <- Hperm. apply list_elem_of_fmap. exists e'. split;
      [reflexivity | exact He']. }
  apply list_elem_of_lookup in Ht as [k Hk]. rewrite layout_lookup in Hk.
  destruct (files !! k) as [[n' c'] |] eqn:Hfk; [| discriminate].
  simpl in Hk. unfold grp_triple in Hk. injection Hk as Hn' Hstart Hsize.
  assert (Hnn : n' = n) by congruence. rewrite Hnn in Hfk.
  assert (c' = c) by (symmetry; exact (names_unique _ _ _ _ _ _ Hnd Hj Hfk)).
  subst c'.
  pose proof (concat_split files k n c Hfk) as Hsplit.
  assert (Hfitk : (length (concat (map snd (take k files))) + length c
                   <= length (concat (map snd files)))%nat).
  { rewrite Hsplit. rewrite !length_app. lia. }
  assert (Hf' : w_files (opened_closed w) !! grp_filename info = Some f)
    by (rewrite Hpath; exact Hf).
  pose proof (GRP_openRead_succeeds (opened_closed w) info n e' f Hfind Hf')
    as Hopen.
  rewrite Hdata in Hopen.
  specialize (Hopen ltac:(lia)).
  set (finfo := {| grp_handle := w_next (opened_closed w); grp_entry := e';
                   grp_curPos := 0 |}) in *.
  assert (Hfit' : grp_startPos e' + grp_size e'
                  <= Z.of_nat (length (f_data f))).
  { rewrite Hdata, Hlen, <- Hstart, <- Hsize. lia. }
  assert (Hf2 : w_files (opened_closed w) !! path = Some f) by exact Hf.
  destruct (GRP_open_read_payload _ _ _ _ _ _ _ _ _ f Hload Hopen Hf2 Hfit')
    as (w2 & Hread & _).
  unfold GRP_fileLength in *. simpl grp_entry in *.
  rewrite <- Hsize in Hread.
  eexists info, _, finfo, w2. split; [exact Hload |]. split; [exact Hex |].
  split; [exact Hopen |]. split; [symmetry; exact Hsize |].
  rewrite Hread. f_equal.
  rewrite Hdata, <- Hstart. unfold grp_archive.
  rewrite Hsplit.
  rewrite (app_assoc (chars "KenSilverman")), (app_assoc (_ ++ le32 _)).
  replace (16 + 16 * Z.of_nat (length files))
    with (Z.of_nat (length ((chars "KenSilverman"
                             ++ le32 (Z.of_nat (length files)))
                            ++ concat (map (fun nf =>
                                 grp_record (fst nf)
                                   (Z.of_nat (length (snd nf)))) files)))).
  - apply slice_middle.
  - rewrite !length_app, length_grp_records by exact Hok.
    change (length (chars "KenSilverman")) with 12%nat.
    rewrite length_le32. lia.
Qed.

(** ** MVL archives whose names do not depend on the case folding *)

Lemma tolower_plain z :
  z = 0 \/ 0 < z < 65 \/ 97 <= z <= 122 -> tolower z = z.
Proof.
  intros H. unfold tolower.
  destruct (Z.leb_spec 65 z), (Z.leb_spec z 90); simpl; lia.
Qed.

Lemma toupper_nonneg c : 0 <= c -> 0 <= toupper c.
Proof.
  unfold toupper. intros H.
  destruct (Z.leb_spec 97 c), (Z.leb_spec c 122); simpl; lia.
Qed.

Lemma toupper_zero c : 0 <= c -> (toupper c = 0 <-> c = 0).
Proof.
  unfold toupper. intros H.
  destruct (Z.leb_spec 97 c), (Z.leb_spec c 122); simpl; lia.
Qed.

Lemma toupper_lt z1 z2 :
  z1 = 0 \/ 0 < z1 < 65 \/ 97 <= z1 <= 122 ->
  z2 = 0 \/ 0 < z2 < 65 \/ 97 <= z2 <= 122 ->
  (toupper z1 < toupper z2 <-> z1 < z2).
Proof.
  intros H1 H2. unfold toupper.
  destruct (Z.leb_spec 97 z1), (Z.leb_spec z1 122),
           (Z.leb_spec 97 z2), (Z.leb_spec z2 122); simpl; lia.
Qed.

Lemma tolower_lt z1 z2 :
  z1 = 0 \/ 0 < z1 < 65 \/ 97 <= z1 <= 122 ->
  z2 = 0 \/ 0 < z2 < 65 \/ 97 <= z2 <= 122 ->
  (tolower z1 < tolower z2 <-> z1 < z2).
Proof.
  intros H1 H2. rewrite !tolower_plain by assumption. tauto.
Qed.

Lemma toupper_tolower z : 0 <= z -> toupper (tolower z) = toupper z.
Proof.
  intros H. unfold toupper, tolower.
  destruct (Z.leb_spec 65 z), (Z.leb_spec z 90); simpl;
    repeat match goal with
           | |- context [?a <=? ?b] => destruct (Z.leb_spec a b); simpl
           end; lia.
Qed.

Lemma layout_elem files location t :
  t ∈ layout files location ->
  exists k n c,
    files !! k = Some (n, c) /\
    t = (n,
         location + Z.of_nat (length (concat (map snd (take k files)))),
         Z.of_nat (length c)).
Proof.
  intros Ht. apply list_elem_of_lookup in Ht as [k Hk].
  rewrite layout_lookup in Hk.
  destruct (files !! k) as [[n c] |] eqn:Hfk; [| discriminate].
  simpl in Hk. injection Hk as <-. exists k, n, c.
  split; [exact Hfk | reflexivity].
Qed.

Lemma MVL_openRead_succeeds w info name e f :
  mvl_find_entry info name = Some (Ok e) ->
  w_files w !! mvl_filename info = Some f ->
  0 <= mvl_startPos e <= Z.of_nat (length (f_data f)) ->
  MVL_openRead w info name
  = Some (opened_at w (f_data f) (mvl_startPos e), true,
          Ok {| mvl_handle := w_next w; mvl_entry := e; mvl_curPos := 0 |}).
Proof.
  intros Hfind Hf Hpos. unfold MVL_openRead. rewrite Hfind.
  rewrite (platformOpenRead_file _ _ _ Hf).
  unfold __PHYSFS_platformSeek, opened_at. simpl. rewrite lookup_insert_eq.
  simpl.
  destruct (Z.leb_spec 0 (mvl_startPos e)); [| lia].
  destruct (Z.leb_spec (mvl_startPos e) (Z.of_nat (length (f_data f))));
    [| lia].
  simpl. rewrite insert_insert_eq. reflexivity.
Qed.

(** The lookup of the code is the lookup with [tolower]. *)
Lemma mvl_find_entry_with_tolower info name :
  mvl_find_entry_with tolower info name = mvl_find_entry info name.
Proof.
  unfold mvl_find_entry_with, mvl_find_entry.
  rewrite mvl_find_entry_traced_unfold.
  destruct (ruled_out name); reflexivity.
Qed.

Section FoldLookup.
Variable fold : Z -> Z.
Hypothesis fold_nonneg : forall c, 0 <= c -> 0 <= fold c.
Hypothesis fold_zero : forall c, 0 <= c -> (fold c = 0 <-> c = 0).
Hypothesis fold_lt : forall z1 z2,
  z1 = 0 \/ 0 < z1 < 65 \/ 97 <= z1 <= 122 ->
  z2 = 0 \/ 0 < z2 < 65 \/ 97 <= z2 <= 122 ->
  (fold z1 < fold z2 <-> z1 < z2).
Hypothesis fold_lower : forall z, 0 <= z -> fold (tolower z) = fold z.

(** The head of a buffer whose string is plain: NUL or plain, and the
    string of the tail is plain when the head is not NUL. *)
Lemma plain_head c t :
  plain_name (cstr (c :: t)) ->
  (uchar c = 0 \/ 0 < uchar c < 65 \/ 97 <= uchar c <= 122) /\
  (uchar c <> 0 -> plain_name (cstr t)).
Proof.
  unfold plain_name. simpl.
  destruct (Z.eqb_spec (uchar c) 0) as [E | E].
  - intros _. split; [left; exact E | contradiction].
  - intros H. apply Forall_cons in H. destruct H as [H1 H2].
    split; [right; exact H1 | intros _; exact H2].
Qed.

(** On plain strings the folded comparison orders as [strcmp] does. *)
Lemma c_compare_plain s1 : forall s2,
  plain_name (cstr s1) -> plain_name (cstr s2) ->
  (c_compare fold s1 s2 < 0 <-> strcmp s1 s2 < 0) /\
  (c_compare fold s1 s2 = 0 <-> strcmp s1 s2 = 0).
Proof.
  assert (F0 : fold 0 = 0) by (apply fold_zero; lia).
  unfold strcmp.
  induction s1 as [| c1 t1 IH]; intros [| c2 t2] H1 H2; simpl.
  - split; tauto.
  - destruct (plain_head _ _ H2) as [E2 _].
    pose proof (fold_lt 0 (uchar c2) (or_introl eq_refl) E2) as L.
    pose proof (fold_lt (uchar c2) 0 E2 (or_introl eq_refl)) as L'.
    rewrite F0 in L, L'. pose proof (uchar_nonneg c2). split; lia.
  - destruct (plain_head _ _ H1) as [E1 _].
    pose proof (fold_lt 0 (uchar c1) (or_introl eq_refl) E1) as L.
    pose proof (fold_lt (uchar c1) 0 E1 (or_introl eq_refl)) as L'.
    rewrite F0 in L, L'. pose proof (uchar_nonneg c1). split; lia.
  - destruct (plain_head _ _ H1) as [E1 T1].
    destruct (plain_head _ _ H2) as [E2 T2].
    pose proof (fold_lt _ _ E1 E2) as L.
    pose proof (fold_lt _ _ E2 E1) as L'.
    destruct (Z.eqb_spec (fold (uchar c1)) (fold (uchar c2))) as [F | F];
      destruct (Z.eqb_spec (uchar c1) (uchar c2)) as [E | E];
      try lia.
    destruct (Z.eqb_spec (uchar c1) 0) as [Z0 | Z0]; [split; tauto |].
    apply IH; [apply T1; exact Z0 | apply T2; congruence].
Qed.

(** The folded comparison does not see the case of its first
    argument. *)
Lemma c_compare_lower s : forall x,
  c_compare fold (lower s) x = c_compare fold s x.
Proof.
  induction s as [| c t IH]; intros [| c2 t2]; simpl; try reflexivity.
  - rewrite uchar_lower_byte, fold_lower by apply uchar_nonneg.
    reflexivity.
  - rewrite lower_byte_nul, uchar_lower_byte,
      fold_lower by apply uchar_nonneg.
    fold (lower t). rewrite IH. reflexivity.
Qed.

(** In the table of a packed archive with plain, distinct names the
    lookup with [fold] finds the entry of every file, whatever the
    case of the request. *)
Lemma mvl_packed_found files info n c req :
  mvl_entryCount info = Z.of_nat (length (mvl_entries info)) ->
  mvl_entryCount info < 2 ^ 31 ->
  sorted_by mvl_cmp (mvl_entries info) ->
  Permutation (map mvl_triple (mvl_entries info))
    (layout files (8 + 17 * Z.of_nat (length files))) ->
  Forall (fun nf => mvl_name_ok (fst nf)) files ->
  Forall (fun nf => plain_name (fst nf)) files ->
  NoDup (map fst files) ->
  (n, c) ∈ files -> ~ has_separator n -> ~ long_extension n ->
  lower req = n ->
  exists e k,
    mvl_find_entry_with fold info req = Some (Ok e) /\
    e ∈ mvl_entries info /\
    files !! k = Some (n, c) /\
    mvl_triple e
    = (n,
       8 + 17 * Z.of_nat (length files)
       + Z.of_nat (length (concat (map snd (take k files)))),
       Z.of_nat (length c)).
Proof.
  intros Hcount Hsmall Hsorted Hperm Hok Hplain Hnd Hin Hsep Hext Hreq.
  apply list_elem_of_lookup in Hin as [j Hj].
  assert (Hname : mvl_name_ok n).
  { rewrite Forall_forall in Hok.
    apply (Hok (n, c)). apply list_elem_of_lookup. eauto. }
  assert (Hnplain : plain_name n).
  { rewrite Forall_forall in Hplain.
    apply (Hplain (n, c)). apply list_elem_of_lookup. eauto. }
  assert (Hnul : cstr n = n).
  { apply cstr_nul_free_end. destruct Hname as [_ Hn]. exact Hn. }
  assert (Hnames : forall e, e ∈ mvl_entries info ->
             plain_name (cstr (mvl_name e))).
  { intros e He.
    assert (Ht : mvl_triple e
                 ∈ layout files (8 + 17 * Z.of_nat (length files))).
    { rewrite <- Hperm. apply list_elem_of_fmap. exists e.
      split; [reflexivity | exact He]. }
    apply layout_elem in Ht as (k & n' & c' & Hk & Ht).
    unfold mvl_triple in Ht. injection Ht as Hn _ _. rewrite Hn.
    rewrite Forall_forall in Hplain.
    apply (Hplain (n', c')). apply list_elem_of_lookup. eauto. }
  assert (Hfsorted : sorted_by (fun x y => c_compare fold (mvl_name x)
                                             (mvl_name y))
                       (mvl_entries info)).
  { intros i k x y Hik Hx Hy.
    assert (Hxy : mvl_cmp x y <= 0) by exact (Hsorted i k x y Hik Hx Hy).
    unfold mvl_cmp in Hxy.
    destruct (c_compare_plain (mvl_name x) (mvl_name y)) as [Hlt Heq].
    - apply Hnames. apply list_elem_of_lookup. eauto.
    - apply Hnames. apply list_elem_of_lookup. eauto.
    - lia. }
  (* the entry of the file is in the table *)
  assert (Hmine : exists e, e ∈ mvl_entries info /\ cstr (mvl_name e) = n).
  { assert (Ht : (n, 8 + 17 * Z.of_nat (length files)
                     + Z.of_nat (length (concat (map snd (take j files)))),
                  Z.of_nat (length c))
                 ∈ layout files (8 + 17 * Z.of_nat (length files))).
    { apply list_elem_of_lookup. exists j. rewrite layout_lookup, Hj.
      reflexivity. }
    rewrite <- Hperm in Ht.
    apply list_elem_of_fmap in Ht as (e & He & Hein).
    exists e. split; [exact Hein |]. unfold mvl_triple in He. congruence. }
  destruct Hmine as (e & Hein & Hen).
  assert (Hr : ruled_out n = false).
  { apply not_ruled_out; [| exact Hsep | exact Hext].
    unfold too_long, strlen. rewrite Hnul. destruct Hname as [Hl _]. lia. }
  assert (Hrq : ruled_out req = false)
    by (rewrite <- (ruled_out_lower req), Hreq; exact Hr).
  assert (Hsmall' : Z.of_nat (length (mvl_entries info)) < 2 ^ 31)
    by (rewrite <- Hcount; exact Hsmall).
  destruct (find_entry_whole mvl_name (c_compare fold)
              (c_compare_antisym fold fold_nonneg fold_zero)
              (c_compare_trans fold fold_nonneg fold_zero)
              (mvl_entries info) n Hsmall' Hfsorted)
    as (r & t & Hrun & _ & Hres).
  assert (Hfind : mvl_find_entry_with fold info req = Some r).
  { unfold mvl_find_entry_with. rewrite Hrq. cbv zeta. rewrite Hcount.
    rewrite (find_entry_loop_ext mvl_name (c_compare fold)
               (mvl_entries info) req n).
    - rewrite Hrun. reflexivity.
    - intros x. rewrite <- Hreq. symmetry. apply c_compare_lower. }
  assert (Hzero : forall x, x ∈ mvl_entries info ->
             (c_compare fold n (mvl_name x) = 0 <->
              cstr n = cstr (mvl_name x))).
  { intros x Hx.
    destruct (c_compare_plain n (mvl_name x)) as [_ Heq].
    - rewrite Hnul. exact Hnplain.
    - apply Hnames. exact Hx.
    - rewrite Heq. apply strcmp_eq. }
  destruct r as [e' | err].
  2:{ destruct Hres as [_ Habs]. exfalso. apply (Habs e Hein).
      apply (Hzero e Hein). rewrite Hnul, Hen. reflexivity. }
  destruct Hres as [He' Heq]. apply (Hzero e' He') in Heq.
  rewrite Hnul in Heq.
  assert (Ht : mvl_triple e'
               ∈ layout files (8 + 17 * Z.of_nat (length files))).
  { rewrite <- Hperm. apply list_elem_of_fmap. exists e'. split;
      [reflexivity | exact He']. }
  apply layout_elem in Ht as (k & n' & c' & Hfk & Ht).
  assert (Hnn : n' = n).
  { unfold mvl_triple in Ht. injection Ht as Hn' _ _. congruence. }
  rewrite Hnn in Hfk, Ht.
  assert (c' = c) by (symmetry; exact (names_unique _ _ _ _ _ _ Hnd Hj Hfk)).
  subst c'.
  exists e', k. split; [exact Hfind |]. split; [exact He' |].
  split; [exact Hfk | exact Ht].
Qed.
End FoldLookup.

(** X21. A file packed into an MVL archive reads back when the names do
    not depend on the case folding, whatever the case of the requested
    name: for files with distinct names of at most 12 characters, each
    a lower-case letter or a character below ['A'], packed into an
    archive of less than 2^32 bytes, a request that equals the name of a
    file up to the case of its letters (the name having no [/] and no
    extension of more than three characters) is found, [openRead] opens
    it, and reading [fileLength] bytes returns the content of the file.
    The lookup finds that file whether its comparison folds the case to
    lower case or to upper case. *)
Theorem packed_mvl_file_reads_back :
  forall (files : list (list byte * list byte)) (w : world) (path : string)
         (f : file) (n c req : list byte),
    w_files w !! path = Some f ->
    f_data f = mvl_archive files ->
    Forall (fun nf => mvl_name_ok (fst nf)) files ->
    Forall (fun nf => plain_name (fst nf)) files ->
    NoDup (map fst files) ->
    Z.of_nat (length (mvl_archive files)) < 2 ^ 32 ->
    (n, c) ∈ files -> ~ has_separator n -> ~ long_extension n ->
    lower req = n ->
    exists info w1 finfo w2,
      MVL_openArchive w path false = (opened_closed w, Ok info) /\
      MVL_exists info req = Some true /\
      MVL_openRead (opened_closed w) info req = Some (w1, true, Ok finfo) /\
      MVL_fileLength finfo = Z.of_nat (length c) /\
      MVL_read w1 finfo 1 (Z.of_nat (length c))
      = (w2, mvl_at finfo (Z.of_nat (length c)), Z.of_nat (length c), c) /\
      mvl_find_entry info req = Some (Ok (mvl_entry finfo)) /\
      mvl_find_entry_with tolower info req = Some (Ok (mvl_entry finfo)) /\
      exists e,
        mvl_find_entry_with toupper info req = Some (Ok e) /\
        e ∈ mvl_entries info /\
        mvl_triple e = mvl_triple (mvl_entry finfo).
Proof.
  intros files w path f n c req Hf Hdata Hok Hplain Hnd Hfit Hin Hsep Hext
    Hreq.
  destruct (MVL_openArchive_packed files w path f Hf Hdata Hok Hfit)
    as (info & Hload & Hpath & _ & Hc & Hcount & Hsmall & Hsorted & Hperm).
  destruct (mvl_archive_well_formed files Hok Hfit) as (_ & _ & Hlen).
  destruct (mvl_packed_found tolower tolower_nonneg tolower_zero tolower_lt
              (fun z _ => tolower_idem z) files info n c req
              Hcount Hsmall Hsorted Hperm Hok Hplain Hnd Hin Hsep Hext Hreq)
    as (e' & k & Hwith & He' & Hfk & Htriple).
  destruct (mvl_packed_found toupper toupper_nonneg toupper_zero toupper_lt
              toupper_tolower files info n c req
              Hcount Hsmall Hsorted Hperm Hok Hplain Hnd Hin Hsep Hext Hreq)
    as (e2 & k2 & Hwith2 & He2 & Hfk2 & Htriple2).
  assert (Hfind : mvl_find_entry info req = Some (Ok e'))
    by (rewrite <- mvl_find_entry_with_tolower; exact Hwith).
  assert (Hex : MVL_exists info req = Some true)
    by (unfold MVL_exists; rewrite Hfind; reflexivity).
  assert (Hkk : k2 = k).
  { change (NoDup (fst <$> files)) in Hnd.
    assert (E1 : (fst <$> files) !! k2 = Some n)
      by (rewrite list_lookup_fmap, Hfk2; reflexivity).
    assert (E2 : (fst <$> files) !! k = Some n)
      by (rewrite list_lookup_fmap, Hfk; reflexivity).
    exact (NoDup_lookup _ _ _ _ Hnd E1 E2). }
  subst k2.
  unfold mvl_triple in Htriple. injection Htriple as Hn' Hstart Hsize.
  pose proof (concat_split files k n c Hfk) as Hsplit.
  assert (Hfitk : (length (concat (map snd (take k files))) + length c
                   <= length (concat (map snd files)))%nat).
  { rewrite Hsplit. rewrite !length_app. lia. }
  assert (Hf' : w_files (opened_closed w) !! mvl_filename info = Some f)
    by (rewrite Hpath; exact Hf).
  pose proof (MVL_openRead_succeeds (opened_closed w) info req e' f Hfind Hf')
    as Hopen.
  rewrite Hdata in Hopen.
  specialize (Hopen ltac:(lia)).
  set (finfo := {| mvl_handle := w_next (opened_closed w); mvl_entry := e';
                   mvl_curPos := 0 |}) in *.
  assert (Hfit' : mvl_startPos e' + mvl_size e'
                  <= Z.of_nat (length (f_data f))).
  { rewrite Hdata, Hlen, Hstart, Hsize. lia. }
  assert (Hf2 : w_files (opened_closed w) !! path = Some f) by exact Hf.
  destruct (MVL_open_read_payload _ _ _ _ _ _ _ _ _ f Hload Hopen Hf2 Hfit')
    as (w2 & Hread & _).
  unfold MVL_fileLength in *. simpl mvl_entry in *.
  rewrite Hsize in Hread.
  eexists info, _, finfo, w2. split; [exact Hload |]. split; [exact Hex |].
  split; [exact Hopen |]. split; [exact Hsize |].
  split.
  { rewrite Hread. f_equal.
    rewrite Hdata, Hstart. unfold mvl_archive.
    rewrite Hsplit.
    rewrite (app_assoc (chars "DMVL")), (app_assoc (_ ++ le32 _)).
    replace (8 + 17 * Z.of_nat (length files))
      with (Z.of_nat (length ((chars "DMVL"
                               ++ le32 (Z.of_nat (length files)))
                              ++ concat (map (fun nf =>
                                   mvl_record (fst nf)
                                     (Z.of_nat (length (snd nf)))) files)))).
    - apply slice_middle.
    - rewrite !length_app, length_mvl_records by exact Hok.
      change (length (chars "DMVL")) with 4%nat.
      rewrite length_le32. lia. }
  split; [exact Hfind |]. split; [exact Hwith |].
  exists e2. split; [exact Hwith2 |]. split; [exact He2 |].
  rewrite Htriple2. unfold mvl_triple, finfo. cbn [mvl_entry].
  rewrite Hn', Hstart, Hsize. reflexivity.
Qed.

(** ** The further properties at the scenario archives *)

Lemma ruled_out_false name :
  ruled_out name = false ->
  ~ too_long name /\ ~ has_separator name /\ ~ long_extension name.
Proof.
  intros Hr.
  assert (H : ~ (too_long name \/ has_separator name \/ long_extension name)).
  { intros H. apply ruled_out_spec in H. congruence. }
  tauto.
Qed.

Lemma scenario_file_there :
  w_files scenario_world !! "s.grp" = Some scenario_file.
Proof. vm_compute. reflexivity. Qed.

Lemma scenario_mvl_file_there :
  w_files mvl_world !! "s.mvl" = Some scenario_mvl_file.
Proof. vm_compute. reflexivity. Qed.

Lemma scenario_handle_on :
  grp_handle_on scenario_opened scenario_handle scenario_grp.
Proof. split; [reflexivity |]. vm_compute. congruence. Qed.

Lemma mvl_handle1_on : mvl_handle_on mvl_opened mvl_handle1 scenario_mvl.
Proof. split; [reflexivity |]. vm_compute. congruence. Qed.

Lemma load_closes_its_descriptor_witness :
  w_files junk_world !! "none.grp" = None /\
  GRP_openArchive junk_world "none.grp" false
  = (junk_world, Fail ERR_PLATFORM) /\
  GRP_isArchive junk_world "none.grp" false
  = (junk_world, Fail ERR_PLATFORM) /\
  MVL_isArchive junk_world "none.grp" false
  = (junk_world, Fail ERR_PLATFORM) /\
  w_files scenario_world !! "s.grp" = Some scenario_file /\
  (exists r, GRP_isArchive scenario_world "s.grp" false
             = (opened_closed scenario_world, r)) /\
  w_open (opened_closed scenario_world) !! w_next scenario_world = None.
Proof.
  destruct (load_closes_its_descriptor junk_world "none.grp") as [Hm _].
  destruct (load_closes_its_descriptor scenario_world "s.grp") as [_ Hf].
  assert (H0 : w_files junk_world !! "none.grp" = None)
    by (vm_compute; reflexivity).
  destruct (Hm H0) as (M1 & M2 & _ & M4).
  split; [exact H0 |]. split; [exact M1 |]. split; [exact M2 |].
  split; [exact M4 |].
  split; [exact scenario_file_there |].
  destruct (Hf scenario_file scenario_file_there)
    as (_ & Hprobe & _ & _ & _ & Hclosed & _).
  split; [exact Hprobe | exact Hclosed].
Defined.

Lemma load_succeeds_iff_well_formed_witness :
  w_files scenario_world !! "s.grp" = Some scenario_file /\
  grp_well_formed scenario_grp /\
  grp_entryCount scenario_info = grp_count scenario_grp /\
  w_files mvl_world !! "s.mvl" = Some scenario_mvl_file /\
  mvl_well_formed scenario_mvl.
Proof.
  destruct (load_succeeds_iff_well_formed scenario_world "s.grp"
              scenario_file scenario_file_there) as (Hiff & Hinfo & _).
  destruct (load_succeeds_iff_well_formed mvl_world "s.mvl"
              scenario_mvl_file scenario_mvl_file_there)
    as (_ & _ & Miff & _).
  split; [exact scenario_file_there |]. split.
  { apply Hiff. exists scenario_loaded, scenario_info.
    exact scenario_openArchive. }
  split.
  { destruct (Hinfo _ _ scenario_openArchive) as (_ & _ & Hc & _). exact Hc. }
  split; [exact scenario_mvl_file_there |].
  apply Miff. exists mvl_loaded, mvl_info. exact mvl_openArchive.
Defined.

Lemma table_records_decoded_witness :
  w_files scenario_world !! "s.grp" = Some scenario_file /\
  grp_read_table scenario_world "s.grp" false
  = (scenario_loaded, Ok (2, [scenario_file1; scenario_file2])) /\
  grp_size scenario_file2
  = PHYSFS_swapULE32
      (take 4 (drop (Z.to_nat (16 + 16 * Z.of_nat 1 + 12)) scenario_grp)) /\
  mvl_name mvl_file2
  = take 13 (drop (Z.to_nat (8 + 17 * Z.of_nat 1)) scenario_mvl).
Proof.
  destruct (table_records_decoded scenario_world "s.grp" scenario_file
              scenario_file_there) as [G _].
  destruct (table_records_decoded mvl_world "s.mvl" scenario_mvl_file
              scenario_mvl_file_there) as [_ M].
  split; [exact scenario_file_there |]. split; [exact scenario_table |].
  split.
  - exact (proj2 (G _ _ _ 1%nat scenario_file2 scenario_table eq_refl)).
  - exact (proj1 (M _ _ _ 1%nat mvl_file2 mvl_table eq_refl)).
Defined.

Lemma loaded_names_normalized_witness :
  GRP_openArchive scenario_world "s.grp" false
  = (scenario_loaded, Ok scenario_info) /\
  scenario_file1 ∈ grp_entries scenario_info /\
  length (grp_name scenario_file1) = 13%nat /\
  ~ too_long (grp_name scenario_file1) /\
  length (mvl_name mvl_file1) = 13%nat.
Proof.
  destruct loaded_names_normalized as [G M].
  assert (H1 : scenario_file1 ∈ grp_entries scenario_info)
    by (apply list_elem_of_lookup; exists 0%nat; reflexivity).
  assert (H2 : mvl_file1 ∈ mvl_entries mvl_info)
    by (apply list_elem_of_lookup; exists 0%nat; reflexivity).
  destruct (G _ _ _ _ _ scenario_openArchive H1) as (Hlen & Hshort & _).
  split; [exact scenario_openArchive |]. split; [exact H1 |].
  split; [exact Hlen |]. split; [exact Hshort |].
  exact (M _ _ _ _ _ mvl_openArchive H2).
Defined.

Lemma handle_operations_are_local_witness :
  GRP_read scenario_opened scenario_handle 1 4
  = (scenario_opened4, grp_at scenario_handle 4, 4, chars "hell") /\
  same_but 1 scenario_opened scenario_opened4 /\
  MVL_seek mvl_opened mvl_handle1 9
  = (mvl_opened, mvl_handle1, Fail ERR_PAST_EOF) /\
  same_but 1 mvl_opened mvl_opened.
Proof.
  destruct handle_operations_are_local as (Gr & _ & _ & _ & Ms & _).
  assert (H1 : GRP_read scenario_opened scenario_handle 1 4
               = (scenario_opened4, grp_at scenario_handle 4, 4, chars "hell"))
    by (vm_compute; reflexivity).
  assert (H2 : MVL_seek mvl_opened mvl_handle1 9
               = (mvl_opened, mvl_handle1, Fail ERR_PAST_EOF))
    by (vm_compute; reflexivity).
  split; [exact H1 |]. split; [exact (proj1 (Gr _ _ _ _ _ _ _ _ H1)) |].
  split; [exact H2 |]. exact (proj1 (Ms _ _ _ _ _ _ H2)).
Defined.

Lemma cursor_tracks_descriptor_witness :
  Forall op_sane scenario_ops /\
  grp_handle_ok scenario_handle /\
  grp_handle_on scenario_opened scenario_handle scenario_grp /\
  grp_handle_ok (snd (fold_left grp_apply scenario_ops
                        (scenario_opened, scenario_handle))) /\
  grp_handle_on (fst (fold_left grp_apply scenario_ops
                        (scenario_opened, scenario_handle)))
                (snd (fold_left grp_apply scenario_ops
                        (scenario_opened, scenario_handle))) scenario_grp /\
  mvl_handle_ok (snd (fold_left mvl_apply scenario_ops
                        (mvl_opened, mvl_handle1))).
Proof.
  assert (Hs : Forall op_sane scenario_ops).
  { unfold scenario_ops. repeat apply Forall_cons_2; try apply Forall_nil_2;
      simpl; lia || exact I. }
  destruct (cursor_tracks_descriptor scenario_grp scenario_ops Hs) as [G _].
  destruct (cursor_tracks_descriptor scenario_mvl scenario_ops Hs) as [_ M].
  destruct (G _ _ scenario_handle_ok scenario_handle_on) as (H1 & H2 & _).
  destruct (M _ _ mvl_handle1_ok mvl_handle1_on) as (H3 & _).
  split; [exact Hs |]. split; [exact scenario_handle_ok |].
  split; [exact scenario_handle_on |]. split; [exact H1 |].
  split; [exact H2 | exact H3].
Defined.

Lemma open_close_round_trip_witness :
  GRP_openRead scenario_loaded scenario_info (chars "FILE1")
  = Some (scenario_opened, true, Ok scenario_handle) /\
  GRP_fileClose scenario_opened scenario_handle
  = (opened_closed scenario_loaded, Ok tt) /\
  MVL_openRead mvl_loaded mvl_info (chars "FILE1")
  = Some (mvl_opened, true, Ok mvl_handle1) /\
  MVL_fileClose mvl_opened mvl_handle1 = (opened_closed mvl_loaded, Ok tt).
Proof.
  destruct open_close_round_trip as [G M].
  destruct (G _ _ _ _ _ _ scenario_openRead) as (_ & _ & Hg & _).
  destruct (M _ _ _ _ _ _ mvl_openRead) as (_ & _ & Hm & _).
  split; [exact scenario_openRead |]. split; [exact Hg |].
  split; [exact mvl_openRead | exact Hm].
Defined.

Lemma reads_concatenate_witness :
  0 <= 2 /\ 0 <= 3 /\
  grp_handle_ok scenario_handle /\
  grp_handle_on scenario_opened scenario_handle scenario_grp /\
  (exists w1 f1 r1 b1 w2 f2 r2 b2,
      GRP_read scenario_opened scenario_handle 1 2 = (w1, f1, r1, b1) /\
      GRP_read w1 f1 1 3 = (w2, f2, r2, b2) /\
      GRP_read scenario_opened scenario_handle 1 (2 + 3)
      = (w2, f2, r1 + r2, b1 ++ b2)) /\
  (exists w1 f1 r1 b1 w2 f2 r2 b2,
      MVL_read mvl_opened mvl_handle1 1 2 = (w1, f1, r1, b1) /\
      MVL_read w1 f1 1 3 = (w2, f2, r2, b2) /\
      MVL_read mvl_opened mvl_handle1 1 (2 + 3)
      = (w2, f2, r1 + r2, b1 ++ b2)).
Proof.
  assert (H2 : 0 <= 2) by lia. assert (H3 : 0 <= 3) by lia.
  destruct (reads_concatenate scenario_grp 2 3 H2 H3) as [G _].
  destruct (reads_concatenate scenario_mvl 2 3 H2 H3) as [_ M].
  split; [exact H2 |]. split; [exact H3 |].
  split; [exact scenario_handle_ok |]. split; [exact scenario_handle_on |].
  split; [exact (G _ _ scenario_handle_ok scenario_handle_on) |].
  exact (M _ _ mvl_handle1_ok mvl_handle1_on).
Defined.

Lemma open_read_returns_payload_witness :
  w_files scenario_loaded !! "s.grp" = Some scenario_file /\
  (exists w2,
      GRP_read scenario_opened scenario_handle 1 (GRP_fileLength scenario_handle)
      = (w2, grp_at scenario_handle (GRP_fileLength scenario_handle),
         GRP_fileLength scenario_handle,
         slice (f_data scenario_file)
               (grp_startPos (grp_entry scenario_handle))
               (grp_size (grp_entry scenario_handle))) /\
      GRP_eof (grp_at scenario_handle (GRP_fileLength scenario_handle)) = true /\
      GRP_tell (grp_at scenario_handle (GRP_fileLength scenario_handle))
      = GRP_fileLength scenario_handle) /\
  slice (f_data scenario_file) (grp_startPos (grp_entry scenario_handle))
        (grp_size (grp_entry scenario_handle)) = chars "hello" /\
  (exists w2,
      MVL_read mvl_opened mvl_handle1 1 (MVL_fileLength mvl_handle1)
      = (w2, mvl_at mvl_handle1 (MVL_fileLength mvl_handle1),
         MVL_fileLength mvl_handle1,
         slice (f_data scenario_mvl_file)
               (mvl_startPos (mvl_entry mvl_handle1))
               (mvl_size (mvl_entry mvl_handle1))) /\
      MVL_eof (mvl_at mvl_handle1 (MVL_fileLength mvl_handle1)) = true /\
      MVL_tell (mvl_at mvl_handle1 (MVL_fileLength mvl_handle1))
      = MVL_fileLength mvl_handle1).
Proof.
  destruct open_read_returns_payload as [G M].
  assert (Hf : w_files scenario_loaded !! "s.grp" = Some scenario_file)
    by (vm_compute; reflexivity).
  assert (Hm : w_files mvl_loaded !! "s.mvl" = Some scenario_mvl_file)
    by (vm_compute; reflexivity).
  split; [exact Hf |]. split.
  { apply (G _ _ _ _ _ _ _ _ _ _ scenario_openArchive scenario_openRead Hf).
    vm_compute. congruence. }
  split; [vm_compute; reflexivity |].
  apply (M _ _ _ _ _ _ _ _ _ _ mvl_openArchive mvl_openRead Hm).
  vm_compute. congruence.
Defined.

Lemma seek_then_read_witness :
  0 <= 10 /\ 0 <= 2 < grp_size (grp_entry scenario_handle) /\
  (exists w1 w2,
      GRP_seek scenario_opened scenario_handle 2
      = (w1, grp_at scenario_handle 2, Ok tt) /\
      GRP_tell (grp_at scenario_handle 2) = 2 /\
      GRP_eof (grp_at scenario_handle 2) = false /\
      GRP_read w1 (grp_at scenario_handle 2) 1 10
      = (w2, grp_at scenario_handle
               (2 + Z.min 10 (grp_size (grp_entry scenario_handle) - 2)),
         Z.min 10 (grp_size (grp_entry scenario_handle) - 2),
         slice scenario_grp (grp_startPos (grp_entry scenario_handle) + 2)
               (Z.min 10 (grp_size (grp_entry scenario_handle) - 2)))) /\
  slice scenario_grp (grp_startPos (grp_entry scenario_handle) + 2)
        (Z.min 10 (grp_size (grp_entry scenario_handle) - 2)) = chars "llo" /\
  (exists w1 w2,
      MVL_seek mvl_opened mvl_handle1 2
      = (w1, mvl_at mvl_handle1 2, Ok tt) /\
      MVL_tell (mvl_at mvl_handle1 2) = 2 /\
      MVL_eof (mvl_at mvl_handle1 2) = false /\
      MVL_read w1 (mvl_at mvl_handle1 2) 1 10
      = (w2, mvl_at mvl_handle1
               (2 + Z.min 10 (mvl_size (mvl_entry mvl_handle1) - 2)),
         Z.min 10 (mvl_size (mvl_entry mvl_handle1) - 2),
         slice scenario_mvl (mvl_startPos (mvl_entry mvl_handle1) + 2)
               (Z.min 10 (mvl_size (mvl_entry mvl_handle1) - 2)))).
Proof.
  assert (Hn : 0 <= 10) by lia.
  assert (Hg : 0 <= 2 < grp_size (grp_entry scenario_handle))
    by (simpl; lia).
  assert (Hm : 0 <= 2 < mvl_size (mvl_entry mvl_handle1)) by (simpl; lia).
  destruct (seek_then_read scenario_grp 2 10 Hn) as [G _].
  destruct (seek_then_read scenario_mvl 2 10 Hn) as [_ M].
  split; [exact Hn |]. split; [exact Hg |].
  split; [exact (G _ _ scenario_handle_ok scenario_handle_on Hg) |].
  split; [vm_compute; reflexivity |].
  exact (M _ _ mvl_handle1_ok mvl_handle1_on Hm).
Defined.

Lemma failed_open_keeps_descriptor_witness :
  grp_find_entry scenario_info (chars "FILE1") = Some (Ok scenario_file1) /\
  __PHYSFS_platformOpenRead truncated_world (grp_filename scenario_info)
  = (opened_at truncated_world (f_data truncated_file) 0, Some 0%nat) /\
  __PHYSFS_platformSeek (opened_at truncated_world (f_data truncated_file) 0)
    0%nat (grp_startPos scenario_file1)
  = (opened_at truncated_world (f_data truncated_file) 0, false) /\
  GRP_openRead truncated_world scenario_info (chars "FILE1")
  = Some (opened_at truncated_world (f_data truncated_file) 0, true,
          Fail ERR_PLATFORM) /\
  exists rh,
    w_open (opened_at truncated_world (f_data truncated_file) 0) !! 0%nat
    = Some rh.
Proof.
  destruct failed_open_keeps_descriptor as [G _].
  assert (H1 : grp_find_entry scenario_info (chars "FILE1")
               = Some (Ok scenario_file1)) by (vm_compute; reflexivity).
  assert (H2 : __PHYSFS_platformOpenRead truncated_world
                 (grp_filename scenario_info)
               = (opened_at truncated_world (f_data truncated_file) 0,
                  Some 0%nat)) by (vm_compute; reflexivity).
  assert (H3 : __PHYSFS_platformSeek
                 (opened_at truncated_world (f_data truncated_file) 0)
                 0%nat (grp_startPos scenario_file1)
               = (opened_at truncated_world (f_data truncated_file) 0, false))
    by (vm_compute; reflexivity).
  destruct (G truncated_world scenario_info (chars "FILE1") scenario_file1
              _ _ _ H1 H2 H3) as (Ho & _ & Hrh).
  split; [exact H1 |]. split; [exact H2 |]. split; [exact H3 |].
  split; [exact Ho | exact Hrh].
Defined.

Lemma enumerate_lists_every_entry_witness :
  uchar (hd x00 (chars "maps")) <> 0 /\
  GRP_enumerateFiles scenario_info (chars "maps") false
  = Some (Fail ERR_NOT_A_DIR) /\
  uchar (hd x00 []) = 0 /\
  grp_entryCount scenario_info = Z.of_nat (length (grp_entries scenario_info)) /\
  GRP_enumerateFiles scenario_info [] false
  = Some (Ok (map (fun e => cstr (grp_name e)) (grp_entries scenario_info))) /\
  Forall (fun e => terminated (mvl_name e) = true) (mvl_entries mvl_info) /\
  MVL_enumerateFiles mvl_info [] false
  = Some (Ok (map (fun e => cstr (mvl_name e)) (mvl_entries mvl_info))).
Proof.
  destruct (enumerate_lists_every_entry (chars "maps") false) as [G1 _].
  destruct (enumerate_lists_every_entry [] false) as [G2 M2].
  assert (H1 : uchar (hd x00 (chars "maps")) <> 0)
    by (vm_compute; congruence).
  assert (H2 : uchar (hd x00 []) = 0) by reflexivity.
  assert (H3 : grp_entryCount scenario_info
               = Z.of_nat (length (grp_entries scenario_info)))
    by reflexivity.
  assert (H4 : mvl_entryCount mvl_info
               = Z.of_nat (length (mvl_entries mvl_info))) by reflexivity.
  split; [exact H1 |]. split; [exact (proj1 (G1 scenario_info) H1) |].
  split; [exact H2 |]. split; [exact H3 |].
  assert (H5 : Forall (fun e => terminated (mvl_name e) = true)
                      (mvl_entries mvl_info))
    by (repeat apply Forall_cons_2; try apply Forall_nil_2; reflexivity).
  split; [exact (proj2 (G2 scenario_info) H2 H3) |].
  split; [exact H5 |].
  exact (proj2 (M2 mvl_info) H2 H4 H5).
Defined.

Lemma enumerated_names_are_found_witness :
  GRP_enumerateFiles scenario_info [] false
  = Some (Ok [chars "FILE1"; chars "FILE2"]) /\
  chars "FILE2" ∈ [chars "FILE1"; chars "FILE2"] /\
  ruled_out (chars "FILE2") = false /\
  GRP_exists scenario_info (chars "FILE2") = Some true /\
  exists e, grp_find_entry scenario_info (chars "FILE2") = Some (Ok e) /\
            e ∈ grp_entries scenario_info /\
            cstr (grp_name e) = chars "FILE2".
Proof.
  assert (H1 : grp_entryCount scenario_info < 2 ^ 31) by reflexivity.
  assert (H2 : GRP_enumerateFiles scenario_info [] false
               = Some (Ok [chars "FILE1"; chars "FILE2"]))
    by (vm_compute; reflexivity).
  assert (H3 : chars "FILE2" ∈ [chars "FILE1"; chars "FILE2"])
    by (apply list_elem_of_lookup; exists 1%nat; reflexivity).
  assert (H4 : ruled_out (chars "FILE2") = false)
    by (vm_compute; reflexivity).
  destruct (ruled_out_false _ H4) as (_ & Hsep & Hext).
  destruct (enumerated_names_are_found scenario_world "s.grp" scenario_loaded
              scenario_info _ (chars "FILE2") scenario_openArchive H1 H2 H3
              Hsep Hext) as [Hex Hfind].
  split; [exact H2 |]. split; [exact H3 |]. split; [exact H4 |].
  split; [exact Hex | exact Hfind].
Defined.

Lemma lookup_reads_logarithmically_witness :
  (2 <= 31)%nat /\
  grp_entryCount scenario_info = Z.of_nat (length (grp_entries scenario_info)) /\
  grp_entryCount scenario_info < 2 ^ Z.of_nat 2 /\
  (length (snd (grp_find_entry_traced scenario_info (chars "FILE2"))) <= 2)%nat /\
  (length (snd (mvl_find_entry_traced mvl_info (chars "FILE2"))) <= 2)%nat.
Proof.
  assert (Hk : (2 <= 31)%nat) by lia.
  destruct (lookup_reads_logarithmically (chars "FILE2") 2 Hk) as [G M].
  assert (H1 : grp_entryCount scenario_info
               = Z.of_nat (length (grp_entries scenario_info)))
    by reflexivity.
  assert (H2 : grp_entryCount scenario_info < 2 ^ Z.of_nat 2) by reflexivity.
  assert (H3 : mvl_entryCount mvl_info
               = Z.of_nat (length (mvl_entries mvl_info))) by reflexivity.
  assert (H4 : mvl_entryCount mvl_info < 2 ^ Z.of_nat 2) by reflexivity.
  split; [exact Hk |]. split; [exact H1 |]. split; [exact H2 |].
  split; [exact (proj1 (G scenario_info H1 H2)) |].
  exact (proj1 (M mvl_info H3 H4)).
Defined.

Lemma entry_swap_exchanges_witness :
  grp_entry_swap [scenario_file1; scenario_file2] 0 1 !! 0%nat
  = Some scenario_file2 /\
  grp_entry_swap (grp_entry_swap [scenario_file1; scenario_file2] 0 1) 0 1
  = [scenario_file1; scenario_file2] /\
  mvl_entry_swap [mvl_file1; mvl_file2] 0 1 !! 1%nat = Some mvl_file1.
Proof.
  destruct (entry_swap_exchanges 0 1) as [G M].
  destruct (G [scenario_file1; scenario_file2] scenario_file1 scenario_file2
              eq_refl eq_refl) as (H1 & _ & _ & _ & H2 & _).
  destruct (M [mvl_file1; mvl_file2] mvl_file1 mvl_file2 eq_refl eq_refl)
    as (_ & H3 & _).
  split; [exact H1 |]. split; [exact H2 | exact H3].
Defined.

Lemma probe_and_load_agree_witness :
  GRP_openArchive scenario_world "s.grp" false
  = (scenario_loaded, Ok scenario_info) /\
  GRP_isArchive scenario_world "s.grp" false = (scenario_loaded, Ok tt) /\
  MVL_isArchive scenario_world "s.grp" false
  = (scenario_loaded, Fail ERR_UNSUPPORTED_ARCHIVE).
Proof.
  destruct (probe_and_load_agree scenario_world "s.grp")
    as (Gl & _ & Gx & _).
  pose proof (Gl _ _ scenario_openArchive) as Hp.
  split; [exact scenario_openArchive |]. split; [exact Hp |].
  exact (Gx _ Hp).
Defined.

Lemma mvl_lookup_ignores_case_witness :
  lower (chars "FILE1") = lower (chars "file1") /\
  MVL_exists mvl_info (chars "FILE1") = MVL_exists mvl_info (chars "file1") /\
  MVL_openRead mvl_loaded mvl_info (chars "FILE1")
  = MVL_openRead mvl_loaded mvl_info (chars "file1").
Proof.
  assert (H : lower (chars "FILE1") = lower (chars "file1"))
    by (vm_compute; reflexivity).
  destruct (mvl_lookup_ignores_case mvl_info (chars "FILE1") (chars "file1")
              mvl_loaded H) as (_ & H1 & _ & _ & _ & H2).
  split; [exact H |]. split; [exact H1 | exact H2].
Defined.

Lemma packed_files_ok :
  Forall (fun nf => grp_name_ok (fst nf)) packed_files /\
  NoDup (map fst packed_files) /\
  Forall (fun nf => mvl_name_ok (fst nf)) packed_mvl_files /\
  Forall (fun nf => plain_name (fst nf)) packed_mvl_files /\
  NoDup (map fst packed_mvl_files).
Proof.
  split.
  { unfold grp_name_ok. apply (bool_decide_unpack _). vm_compute. exact I. }
  split.
  { apply NoDup_cons. split; [| apply NoDup_singleton].
    intros H. apply list_elem_of_singleton in H. vm_compute in H.
    discriminate H. }
  split.
  { unfold mvl_name_ok. apply (bool_decide_unpack _). vm_compute. exact I. }
  split.
  { unfold plain_name, plain_char. apply (bool_decide_unpack _).
    vm_compute. exact I. }
  apply NoDup_cons. split; [| apply NoDup_singleton].
  intros H. apply list_elem_of_singleton in H. vm_compute in H.
  discriminate H.
Qed.

Lemma packed_directory_loads_witness :
  f_data scenario_file = grp_archive packed_files /\
  Z.of_nat (length (grp_archive packed_files)) < 2 ^ 32 /\
  (exists info,
      GRP_openArchive scenario_world "s.grp" false
      = (opened_closed scenario_world, Ok info) /\
      grp_entryCount info = Z.of_nat (length packed_files) /\
      Permutation (map grp_triple (grp_entries info))
        (layout packed_files (16 + 16 * Z.of_nat (length packed_files)))) /\
  (exists info,
      MVL_openArchive mvl_world "s.mvl" false
      = (opened_closed mvl_world, Ok info) /\
      mvl_entryCount info = Z.of_nat (length packed_mvl_files) /\
      Permutation (map mvl_triple (mvl_entries info))
        (layout packed_mvl_files
           (8 + 17 * Z.of_nat (length packed_mvl_files)))).
Proof.
  destruct packed_files_ok as (Hg & _ & Hm & _).
  destruct (packed_directory_loads packed_files scenario_world "s.grp"
              scenario_file scenario_file_there) as [G _].
  destruct (packed_directory_loads packed_mvl_files mvl_world "s.mvl"
              scenario_mvl_file scenario_mvl_file_there) as [_ M].
  assert (H1 : f_data scenario_file = grp_archive packed_files)
    by (vm_compute; reflexivity).
  assert (H2 : Z.of_nat (length (grp_archive packed_files)) < 2 ^ 32)
    by (vm_compute; reflexivity).
  assert (H3 : f_data scenario_mvl_file = mvl_archive packed_mvl_files)
    by (vm_compute; reflexivity).
  assert (H4 : Z.of_nat (length (mvl_archive packed_mvl_files)) < 2 ^ 32)
    by (vm_compute; reflexivity).
  split; [exact H1 |]. split; [exact H2 |].
  split; [exact (G H1 Hg H2) | exact (M H3 Hm H4)].
Defined.

Lemma packed_file_reads_back_witness :
  (chars "FILE2", chars "abc") ∈ packed_files /\
  ruled_out (chars "FILE2") = false /\
  exists info w1 finfo w2,
    GRP_openArchive scenario_world "s.grp" false
    = (opened_closed scenario_world, Ok info) /\
    GRP_exists info (chars "FILE2") = Some true /\
    GRP_openRead (opened_closed scenario_world) info (chars "FILE2")
    = Some (w1, true, Ok finfo) /\
    GRP_fileLength finfo = Z.of_nat (length (chars "abc")) /\
    GRP_read w1 finfo 1 (Z.of_nat (length (chars "abc")))
    = (w2, grp_at finfo (Z.of_nat (length (chars "abc"))),
       Z.of_nat (length (chars "abc")), chars "abc").
Proof.
  destruct packed_files_ok as (Hg & Hnd & _).
  assert (H1 : f_data scenario_file = grp_archive packed_files)
    by (vm_compute; reflexivity).
  assert (H2 : Z.of_nat (length (grp_archive packed_files)) < 2 ^ 32)
    by (vm_compute; reflexivity).
  assert (H3 : (chars "FILE2", chars "abc") ∈ packed_files)
    by (apply list_elem_of_lookup; exists 1%nat; reflexivity).
  assert (H4 : ruled_out (chars "FILE2") = false)
    by (vm_compute; reflexivity).
  destruct (ruled_out_false _ H4) as (_ & Hsep & Hext).
  split; [exact H3 |]. split; [exact H4 |].
  exact (packed_file_reads_back packed_files scenario_world "s.grp"
           scenario_file (chars "FILE2") (chars "abc") scenario_file_there
           H1 Hg Hnd H2 H3 Hsep Hext).
Defined.

Lemma packed_mvl_file_reads_back_witness :
  (chars "file2", chars "abc") ∈ packed_mvl_files /\
  lower (chars "File2") = chars "file2" /\
  exists info w1 finfo w2,
    MVL_openArchive mvl_world "s.mvl" false
    = (opened_closed mvl_world, Ok info) /\
    MVL_exists info (chars "File2") = Some true /\
    MVL_openRead (opened_closed mvl_world) info (chars "File2")
    = Some (w1, true, Ok finfo) /\
    MVL_fileLength finfo = Z.of_nat (length (chars "abc")) /\
    MVL_read w1 finfo 1 (Z.of_nat (length (chars "abc")))
    = (w2, mvl_at finfo (Z.of_nat (length (chars "abc"))),
       Z.of_nat (length (chars "abc")), chars "abc") /\
    mvl_find_entry info (chars "File2") = Some (Ok (mvl_entry finfo)) /\
    mvl_find_entry_with tolower info (chars "File2")
    = Some (Ok (mvl_entry finfo)) /\
    exists e,
      mvl_find_entry_with toupper info (chars "File2") = Some (Ok e) /\
      e ∈ mvl_entries info /\
      mvl_triple e = mvl_triple (mvl_entry finfo).
Proof.
  destruct packed_files_ok as (_ & _ & Hm & Hlow & Hnd).
  assert (H1 : f_data scenario_mvl_file = mvl_archive packed_mvl_files)
    by (vm_compute; reflexivity).
  assert (H2 : Z.of_nat (length (mvl_archive packed_mvl_files)) < 2 ^ 32)
    by (vm_compute; reflexivity).
  assert (H3 : (chars "file2", chars "abc") ∈ packed_mvl_files)
    by (apply list_elem_of_lookup; exists 1%nat; reflexivity).
  assert (H4 : ruled_out (chars "file2") = false)
    by (vm_compute; reflexivity).
  assert (H5 : lower (chars "File2") = chars "file2")
    by (vm_compute; reflexivity).
  destruct (ruled_out_false _ H4) as (_ & Hsep & Hext).
  split; [exact H3 |]. split; [exact H5 |].
  exact (packed_mvl_file_reads_back packed_mvl_files mvl_world "s.mvl"
           scenario_mvl_file (chars "file2") (chars "abc") (chars "File2")
           scenario_mvl_file_there H1 Hm Hlow Hnd H2 H3 Hsep Hext H5).
Defined.

Lemma queries_agree_on_existence_witness :
  GRP_exists scenario_info (chars "NOPE") = Some false /\
  GRP_isDirectory scenario_info (chars "NOPE") = Some (false, false) /\
  GRP_getLastModTime scenario_info (chars "NOPE") = Some (-1, false) /\
  (exists w1 r,
      GRP_openRead scenario_loaded scenario_info (chars "NOPE")
      = Some (w1, false, r) /\
      (false = false -> w1 = scenario_loaded /\ r = Fail ERR_NO_SUCH_FILE)) /\
  MVL_getLastModTime mvl_info (chars "FILE2") = Some (1000, true).
Proof.
  destruct (queries_agree_on_existence scenario_loaded (chars "NOPE"))
    as [G _].
  destruct (queries_agree_on_existence mvl_loaded (chars "FILE2")) as [_ M].
  specialize (G scenario_info). specialize (M mvl_info).
  assert (H1 : GRP_exists scenario_info (chars "NOPE") = Some false)
    by (vm_compute; reflexivity).
  assert (H2 : MVL_exists mvl_info (chars "FILE2") = Some true)
    by (vm_compute; reflexivity).
  rewrite H1 in G. rewrite H2 in M.
  destruct G as (Gd & _ & Gt & Go). destruct M as (_ & _ & Mt & _).
  split; [exact H1 |]. split; [exact Gd |]. split; [exact Gt |].
  split; [exact Go | exact Mt].
Defined.
